(* ===== verification/_CoqProject ===== *)
-Q . S2P
Prelude.v
CxxStd.v
CxxMap.v
Binary64.v
BaseBuffer.v
BaseBufferTest.v
HttpReq.v
HttpReqDecoder.v
InetAddress.v
DateTime.v
Channel.v
TcpConn.v
TcpConnInv.v
TcpStream.v
Acceptor.v
Posix.v
PosixModel.v
Lifecycle.v
Workers.v
SslContext.v
HttpResp.v
HttpServer.v
HttpTyped.v
DemoHttpServer.v
Base64.v
Sha1.v
ConnApi.v
WsCodec.v
WsServer.v
DemoWebsocketServer.v
PQueue.v
TimerQueue.v
TimerSafe.v
TimerRepeat.v
IOWorker.v
ThreadPool.v
PoolProgress.v
TcpServer.v
ServerStop.v
EchoServer.v
TimerServer.v
CountDownLatch.v
CountDownLatchTest.v
AsyncFileAppender.v
Logger.v
Mains.v
