(* ===== verification/Prelude.v ===== *)
(** * Jerry: a verification library for the network library under src/

    Jerry is a C++17 library for TCP, HTTP and WebSocket servers on Linux.  A
    [TcpServer] starts a group of [IOWorker] threads, each with an epoll
    [Poller], an [Acceptor], a [TimerQueue] and the set of its [TcpConn]s, and a
    [ThreadPool] for tasks.  A [TcpConn] owns a [Channel] (the interest mask of
    its descriptor), two [BaseBuffer]s and a codec; [HttpServer] and
    [WebsocketServer] put a decoder over the receive buffer and answer requests
    through [Send].

    ** How the library is laid out

    The program is embedded shallowly: an object is a [Record] with the
    members of its class, an operation is a function from the old state to the
    new one in the error monad [outcome], whose faults are undefined behaviour,
    the exceptions [std::out_of_range] and [std::bad_any_cast], a failed [assert]
    and exhausted fuel.  The release build defines NDEBUG and checks no [assert];
    where the code has one, the build is an argument ([cassert]), and the models
    of whole workers and servers are of the release.  Objects that are
    created and destroyed while others point to them ([TcpConn], timers, tasks)
    live in a finite map from addresses; using a dead address is undefined.
    Threads are interleavings of actions; a critical section is one action.  What
    the source declares static is shared: the counter of timer ids by the workers
    of a server and other servers, that of task ids by the pools of the process.

    - Prelude: bytes, machine integers, [outcome], tactics and list lemmas.
    - CxxStd, CxxMap, PQueue: the parts of the C++ standard library the sources
      use: [std::find], [std::search], [std::copy], C strings, [std::map] and
      [std::multimap] as sorted association lists, [std::priority_queue] as the
      interface [MaxQueue] with its laws and one implementation.
    - Binary64: the products and conversions of doubles that the growth of a buffer
      and [AfterSeconds] use.
    - BaseBuffer: net/BaseBuffer.cc.  Offsets into a vector, refined by a byte
      queue ([view]); the kernel's answers are arguments.
    - DateTime: utils/DateTime.cc and [SetTimerFd] of utils/FdHelper.cc, over a
      model of the C library's calendar.
    - Channel: net/Channel.cc and the registrations of net/Poller.cc.  [HandleEvent]
      first names the event when debug lines are logged ([log_debug]), which is
      defined for what [epoll_wait] reports ([reportable]).
    - TcpConn, TcpConnInv, TcpStream: net/TcpConn.cc.  The model, the invariant
      of a worker's connections, and the theorems on calls, events and streams.
    - InetAddress: net/InetAddress.cc, over [inet_pton] and [inet_ntop].
    - Acceptor: [TcpConnSet] (net/TcpConn.cc), net/Acceptor.cc,
      net/TcpRateLimiter.cc and the callbacks of [TcpServer::Serve].
    - Posix: the system calls that make, prepare and close descriptors, as the
      class [Kernel] with its laws, and the computations that make them, with
      weakest preconditions; PosixModel is a machine that obeys the laws.
    - Lifecycle, Workers: net/Socket.cc, utils/SockOption.cc, utils/FdHelper.cc and
      the constructors and destructors of Channel, Poller, TimerQueue, Acceptor,
      IOWorker and WorkerGroup, with one specification per function; the
      theorems on whole groups of workers.
    - SslContext: net/SslContext.cc and [TcpServer::Config], over OpenSSL.
    - IOWorker: net/IOWorker.cc and [Poller::Poll].  The event loop of a worker with
      its connections, acceptor, timers and wake-up, as a step relation: a step
      handles one channel, or is one of the steps of [OnTimeout], and the actions
      of other threads come between any two; the connections are the environment
      the timer tasks work on.
    - TcpServer: [TcpServer::Serve] (net/TcpServer.cc) and net/WorkerGroup.cc as a
      step relation over the workers and the pool.
    - ServerStop: the end of [TcpServer::Serve], composed from the stop of the pool
      and that of the workers.
    - EchoServer, DemoHttpServer, DemoWebsocketServer, TimerServer: the servers of
      examples/ as clients of the library, end to end; Mains: their main programs.
      BaseBufferTest, CountDownLatchTest: the two programs of tests/.
    - ConnApi: what a codec uses of a connection, as a type class with its laws;
      [TcpConn] is one instance and [Pipe], a connection alone, another.
    - HttpReq, HttpReqDecoder, HttpResp, HttpServer: proto/http, one file each.
    - HttpTyped: the casts of [std::any] in a server, and that they hold.
    - Base64, Sha1: the two routines of 3rdparty/crypto the handshake needs, and,
      written independently of them, the encoding of RFC 4648 ([rfc4648]) and the
      hash of FIPS 180-4 ([fips_sha1]).
    - WsCodec, WsServer: proto/ws, against the interface of ConnApi.
    - TimerQueue, TimerSafe, TimerRepeat: net/TimerQueue.cc and .h; the model, with
      [OnTimeout] as a whole and in the steps between which other threads use the
      queue ([timeout_step], related by [run_timeout_OnTimeout]); its safety, and how
      often a repeated timer runs.
    - ThreadPool, PoolProgress: net/ThreadPool.cc as a step relation with the
      condition variable; safety, then progress, priorities and the stop.
    - CountDownLatch: utils/CountDownLatch.cc as a step relation.
    - AsyncFileAppender: logger/AsyncFileAppender.cc as a step relation, over a disk
      that may fail to open the file or write less than it is given.
    - Logger: logger/Logger.cc and the LOG macros, over the class [Appender] with
      its laws; [StderrAppender] and [AsyncFileAppender] are the instances.

    Definitions carry the names of the source where Rocq allows it.

    ** What the theorems show

    - Buffers: every sequence of operations acts as on an unbounded byte queue;
      a scatter read loses nothing; room is made without losing data.
    - Connections: every call and every event keeps the invariant, under which
      registrations match channels, an open connection with unsent data waits
      to write, and objects live exactly as long as they are owned; the stream
      is first-in first-out and is flushed.
    - Descriptors: the workers of a group all listen on the one address, their
      channels are registered or an error is logged, and they are destroyed
      without a trace; out of descriptors, a client is refused and nothing leaks;
      a server has a TLS context only after its certificate and key were checked.
    - Workers and servers: a worker is safe in every interleaving of the steps of
      its loop with clients, timers and other threads, as long as user functions
      keep their contract and timer tasks spare the connections whose events are
      still to be handled, and a stopped worker ends; a server is
      safe until a signal comes, which composes the theorems on workers and on
      the pool, and stops its threads in order; a server whose clients are gone,
      and to which nothing more comes from outside,
      returns from [Serve] in a bounded number of steps, and so does the main
      program of the echo server, which listens on the address it asked for.
    - HTTP: a request decodes to itself, whole or with its head cut into any
      number of pieces, but for the cuts the code cannot take; decoding ends and is safe; the text of a
      response can be read back; a request that arrives on a connection is
      answered on it, end to end; no client makes a cast of the server fail.
    - WebSocket: a frame in any number of pieces decodes to its payload; the
      handshake answers with the accept value of RFC 6455, over proofs that
      the Base64 of the code is that of RFC 4648 and its incremental SHA-1 that of
      FIPS 180-4; a session of frames is answered frame by frame.
    - Timers, tasks, logging: memory safety under any behaviour of the user's
      functions, and under any interleaving; no task is lost, run twice or run
      after it was cancelled; a repeated timer is armed for each of its dates and
      runs as often as the code says; workers left alone start or discard every
      task, the most urgent first; a latch releases its waiters at zero and not
      before, and the program that tests it ends; no message is reordered on its
      way to the file, and while the disk takes what is written none is lost or
      waits longer than four turns of the flush thread; a sequence of LOG statements appends one stamped line each.
    - Addresses: texts and addresses correspond, in one spelling each; what the
      release makes of texts that are none.
    - Errors: where the code does not do what it means to, a theorem says what
      it does: a listening descriptor that is closed twice, what [Shutdown]
      discards, connections used after their destruction, the last-in-time order
      of the timers, the unlocked loop of a stopping pool, a stop that a worker
      going to sleep misses, timer tasks that close a connection, frame heads cut
      at a null byte, reads of stale bytes, a log file that could not be opened.
    - Races: a step that is not protected is made apart, so that a state in which
      two threads are about to access the same data can be exhibited: the test for
      emptiness of [PopExpiredTimers] ([timer_test_races]) and the static map of
      [GetEventTypeName] ([event_names_race]); what such a race does is undefined, and
      the safety theorems speak of runs in which these two accesses are atomic.

    ** Fuel and bounds

    [DropBytesUntil] steps at most the length of the storage; [ParseHeaders]
    consumes readable bytes in each turn, so one turn more than their number is
    enough; [Decode] and [WsDecode] move to a later state in each turn but the
    last (four and three turns); the loop over expired timers takes one off the
    queue in each turn.  The theorems show results, so fuel never runs out.
    [size_t] values are [nat], below 2^64 in every run that fits memory; other
    integers are [Z] with their wrap-around or overflow written out.  Growing
    a buffer by 1.5 in floating point is exact below 2^51 bytes ([grow_double]).

    ** What is not modelled

    The kernel, OpenSSL, the clock and the user's functions are parameters;
    hypotheses on them say what they promise ([kernel_ok], [user_ok],
    [user_timers_ok]).  [std::any] values are a type parameter, with the casts the
    code uses as the class [AnyCast]; a moved-from
    string is taken to be empty as in libstdc++.  The laws of [Kernel] speak of
    the descriptors of one thread's component: what other threads open and close
    in between is not seen, and which of the possible results a call has is open.
    The connections of the worker model are not descriptors of this kernel; the
    two models meet in [Acceptor.OnPeerConnect], whose arguments are the results
    of [accept_client].  The MD5 code, which nobody calls, is left out.  A worker's
    connections are touched by its own thread only: calls of a connection from
    other threads, which the library does not synchronise, are not modelled, nor
    are LOG statements of several threads at once, which race on the static
    buffers of [FormatNowString].  The closures of timers and tasks are names; that a [shared_ptr] a closure holds is released with it
    is not modelled. *)

From stdpp Require Export base list gmap strings.
From Stdlib Require Export ZArith Lia.
From Stdlib Require Strings.Byte Strings.String.
From coqutil Require Export Byte.

(** ** Bytes and byte strings

    A [char], an [unsigned char] and a [uint8_t] are a [byte]; a [std::string],
    a [std::string_view] and the contents of a [std::vector<char>] are a
    [list byte]. *)

#[export] Instance byte_eq_dec : EqDecision byte := Byte.byte_eq_dec.
#[export] Instance byte_inhabited : Inhabited byte := populate Byte.x00.

(** The bytes of a string literal of the source. *)
Definition bytes (s : string) : list byte := String.list_byte_of_string s.
Arguments bytes s%_string_scope.

Lemma bytes_inj s1 s2 : bytes s1 = bytes s2 -> s1 = s2.
Proof.
  unfold bytes. intros E. rewrite <-(String.string_of_list_byte_of_string s1), E.
  apply String.string_of_list_byte_of_string.
Qed.

(** ** Machine integers: a w-bit integer is a [Z], with its wrap-around. *)

Definition u16 (z : Z) : Z := (z mod 2 ^ 16)%Z.
Definition u32 (z : Z) : Z := (z mod 2 ^ 32)%Z.
Definition u64 (z : Z) : Z := (z mod 2 ^ 64)%Z.
Definition i32 (z : Z) : Z := ((z + 2 ^ 31) mod 2 ^ 32 - 2 ^ 31)%Z.

(** ** Faults and the error monad

    [OutOfRange] is the exception [std::out_of_range] (thrown by [map::at]).
    [BadAnyCast] is the exception [std::bad_any_cast].
    [AssertFailed] is the end of the process in a failed [assert].
    [UndefinedBehaviour] marks an access outside an object.  [OutOfFuel] marks
    a loop whose fuel ran out; the termination theorems show it never arises. *)

Inductive fault := UndefinedBehaviour | OutOfRange | BadAnyCast | AssertFailed | OutOfFuel.

Inductive outcome (A : Type) :=
| Ret (a : A)
| Throw (f : fault).
Arguments Ret {A} a.
Arguments Throw {A} f.

#[export] Instance fault_eq_dec : EqDecision fault.
Proof. solve_decision. Defined.
#[export] Instance outcome_ret : MRet outcome := fun A a => Ret a.
#[export] Instance outcome_bind : MBind outcome := fun A B k m =>
  match m with Ret a => k a | Throw f => Throw f end.
#[export] Instance outcome_fmap : FMap outcome := fun A B g m =>
  match m with Ret a => Ret (g a) | Throw f => Throw f end.

(** [deref l i] reads [l[i]]; outside the storage the behaviour is undefined. *)
Definition deref {A} (l : list A) (i : nat) : outcome A :=
  match l !! i with
  | Some a => Ret a
  | None => Throw UndefinedBehaviour
  end.

(** [assert(b)]; the release build sets [NDEBUG], which compiles it out. *)
Definition cassert (ndebug b : bool) : outcome unit := if ndebug || b then Ret tt else Throw AssertFailed.

Lemma cassert_ok ndebug b : ndebug = true \/ b = true -> cassert ndebug b = Ret tt.
Proof. unfold cassert. intros [->| ->]; [done|]. by rewrite orb_true_r. Qed.

(** [empty()] of a container. *)
Definition is_empty {A} (l : list A) : bool := match l with [] => true | _ => false end.

(** ** Hints and tactics of the development *)

(** Comparisons stay folded, so that [case_test] finds them. *)
#[global] Arguments Nat.leb : simpl never.
#[global] Arguments Nat.ltb : simpl never.
#[global] Arguments Nat.eqb : simpl never.
#[global] Arguments Z.leb : simpl never.
#[global] Arguments Z.ltb : simpl never.
#[global] Arguments Z.eqb : simpl never.

Create HintDb jerry.
Create Rewrite HintDb jlen.
#[export] Hint Rewrite @length_app @length_take @length_drop @length_replicate
  @length_resize @length_fmap @length_cons @length_nil : jlen.

(** Normalises list lengths, then calls [lia]. *)
Ltac jlia := autorewrite with jlen in *; simpl in *; lia.

(** Runs a computation in the error monad as far as it goes. *)
Ltac mrun := unfold mbind, mret, fmap, outcome_bind, outcome_ret, outcome_fmap;
  cbn beta iota.
Ltac mrun_in H := unfold mbind, mret, fmap, outcome_bind, outcome_ret, outcome_fmap in H;
  cbn beta iota in H.

(** Splits on every boolean test the goal shows, with its specification. *)
Ltac case_test :=
  match goal with
  | |- context [Nat.eqb ?a ?b] => destruct (Nat.eqb_spec a b)
  | |- context [Nat.leb ?a ?b] => destruct (Nat.leb_spec a b)
  | |- context [Nat.ltb ?a ?b] => destruct (Nat.ltb_spec a b)
  | |- context [Z.eqb ?a ?b] => destruct (Z.eqb_spec a b)
  | |- context [Z.leb ?a ?b] => destruct (Z.leb_spec a b)
  | |- context [Z.ltb ?a ?b] => destruct (Z.ltb_spec a b)
  end.

(** ** Lists *)

(** The elements at the positions [i <= k < j] of [l]. *)
Definition slice {A} (l : list A) (i j : nat) : list A := take (j - i) (drop i l).

Section lists.
Context {A : Type}.
Implicit Types l : list A.

Lemma length_slice l i j : length (slice l i j) = Nat.min (j - i) (length l - i).
Proof. unfold slice. jlia. Qed.

Lemma slice_nil l i j : j <= i -> slice l i j = [].
Proof. intros. unfold slice. replace (j - i) with 0 by lia. done. Qed.

Lemma slice_split l i k j :
  i <= k -> k <= j -> slice l i j = slice l i k ++ slice l k j.
Proof.
  intros. unfold slice.
  replace (j - i) with ((k - i) + (j - k)) by lia.
  rewrite <-(take_take_drop (drop i l) (k - i) (j - k)), drop_drop.
  do 2 f_equal. f_equal. lia.
Qed.

Lemma drop_slice l i j n : drop n (slice l i j) = slice l (i + n) j.
Proof.
  unfold slice. rewrite skipn_firstn_comm, drop_drop. f_equal. lia.
Qed.

Lemma take_slice l i j n : i + n <= j -> take n (slice l i j) = slice l i (i + n).
Proof. intros. unfold slice. rewrite take_take. f_equal. lia. Qed.

Lemma slice_lookup l i j k : i + k < j -> slice l i j !! k = l !! (i + k).
Proof. intros. unfold slice. rewrite lookup_take_lt by lia. by rewrite lookup_drop. Qed.

Lemma slice_app_l l1 l2 i j : j <= length l1 -> slice (l1 ++ l2) i j = slice l1 i j.
Proof.
  intros. unfold slice. destruct (decide (i <= length l1)).
  - rewrite drop_app_le by done. rewrite take_app_le; [done|]. jlia.
  - replace (j - i) with 0 by lia. done.
Qed.

Lemma slice_app_r l1 l2 i j :
  length l1 <= i -> slice (l1 ++ l2) i j = slice l2 (i - length l1) (j - length l1).
Proof.
  intros. unfold slice. rewrite drop_app_ge by done. f_equal. lia.
Qed.

Lemma slice_take l n i j : j <= n -> slice (take n l) i j = slice l i j.
Proof.
  intros. unfold slice. rewrite skipn_firstn_comm, take_take. f_equal. lia.
Qed.

(** The middle part of a concatenation. *)
Lemma slice_mid l1 l2 l3 i j :
  length l1 = i -> i + length l2 = j -> slice (l1 ++ l2 ++ l3) i j = l2.
Proof.
  intros <- <-. unfold slice. rewrite drop_app_length.
  replace (length l1 + length l2 - length l1) with (length l2) by lia. apply take_app_length.
Qed.

Lemma slice_all l j : length l <= j -> slice l 0 j = l.
Proof. intros. unfold slice. rewrite drop_0, take_ge; [done|]. lia. Qed.
End lists.

#[export] Hint Rewrite @length_slice : jlen.

(** ** Finite ranges of integers *)

(** Decides a property of the integers [lo <= z < lo + n]. *)
Fixpoint check_below (P : Z -> bool) (n : nat) (lo : Z) : bool :=
  match n with O => true | S n' => if P lo then check_below P n' (lo + 1)%Z else false end.

Lemma check_below_spec P n lo z : check_below P n lo = true -> (lo <= z < lo + Z.of_nat n)%Z -> P z = true.
Proof.
  revert lo. induction n as [|n IH]; intros lo H Hr; [lia|]. cbn [check_below] in H.
  destruct (P lo) eqn:E; [|done]. destruct (decide (z = lo)) as [->|]; [done|].
  apply (IH (lo + 1)%Z); [done | lia].
Qed.
