(* ===== verification/CxxStd.v ===== *)
(** * The parts of the C++ standard library the sources use

    Algorithms over iterator ranges ([std::find], [std::search], [std::copy]),
    C strings, [strcasecmp], and the ordered associative containers
    [std::map] and [std::multimap] as association lists kept sorted by the
    comparator.  These model documented library behaviour, so no definition
    of this file maps to a line of src/. *)

From stdpp Require Import pretty.
From S2P Require Import Prelude.

(** ** Ranges of a vector: an iterator is an offset into the storage *)

(** First position of [c] in [l]; [length l] when there is none. *)
Fixpoint find_idx (c : byte) (l : list byte) : nat :=
  match l with
  | [] => 0
  | x :: l' => if decide (x = c) then 0 else S (find_idx c l')
  end.

Definition std_find (data : list byte) (first last : nat) (c : byte) : nat :=
  first + find_idx c (slice data first last).

Fixpoint prefix_b (pat l : list byte) : bool :=
  match pat, l with
  | [], _ => true
  | p :: pat', x :: l' => bool_decide (p = x) && prefix_b pat' l'
  | _ :: _, [] => false
  end.

(** First position of [l] where [pat] occurs; [length l] when there is none. *)
Fixpoint search_idx (pat l : list byte) : nat :=
  if prefix_b pat l then 0
  else match l with
       | [] => 0
       | _ :: l' => S (search_idx pat l')
       end.

Definition std_search (data : list byte) (first last : nat) (pat : list byte) : nat :=
  first + search_idx pat (slice data first last).

(** [std::copy(src.begin(), src.end(), dst.begin() + at)]. *)
Definition std_copy (src dst : list byte) (at_ : nat) : list byte :=
  take at_ dst ++ src ++ drop (at_ + length src) dst.

Lemma length_std_copy src dst at_ :
  at_ + length src <= length dst -> length (std_copy src dst at_) = length dst.
Proof. intros. unfold std_copy. jlia. Qed.

Lemma std_copy_nil dst at_ : std_copy [] dst at_ = dst.
Proof. unfold std_copy. simpl. rewrite Nat.add_0_r. apply take_drop. Qed.

(** What a copy leaves in front of it, and what it writes. *)
Lemma slice_std_copy_before src dst at_ i j :
  at_ <= length dst -> j <= at_ -> slice (std_copy src dst at_) i j = slice dst i j.
Proof.
  intros. unfold std_copy. rewrite slice_app_l by jlia.
  rewrite <-(take_drop at_ dst) at 2. rewrite slice_app_l; [done | jlia].
Qed.

Lemma slice_std_copy_at src dst at_ :
  at_ <= length dst -> slice (std_copy src dst at_) at_ (at_ + length src) = src.
Proof.
  intros. unfold std_copy.
  rewrite slice_app_r by jlia. autorewrite with jlen.
  rewrite Nat.min_l by lia. rewrite Nat.sub_diag, slice_app_l by lia.
  apply slice_all. lia.
Qed.

Lemma slice_std_copy_ext src dst at_ i :
  i <= at_ -> at_ <= length dst ->
  slice (std_copy src dst at_) i (at_ + length src) = slice dst i at_ ++ src.
Proof.
  intros. rewrite (slice_split _ i at_) by lia.
  by rewrite slice_std_copy_before, slice_std_copy_at by lia.
Qed.

(** ** [std::find] and [std::search] *)

Lemma find_idx_le c l : find_idx c l <= length l.
Proof. induction l; simpl; [lia|]. case_decide; lia. Qed.

Lemma find_idx_app_notin c l1 l2 : c ∉ l1 -> find_idx c (l1 ++ l2) = length l1 + find_idx c l2.
Proof.
  induction l1 as [|x l1 IH]; [done|]. intros H. simpl.
  rewrite decide_False by set_solver. rewrite IH by set_solver. done.
Qed.

Lemma find_idx_here c l1 l2 : c ∉ l1 -> find_idx c (l1 ++ c :: l2) = length l1.
Proof. intros. rewrite find_idx_app_notin by done. simpl. rewrite decide_True by done. lia. Qed.

Lemma find_idx_notin c l : c ∉ l -> find_idx c l = length l.
Proof. intros. rewrite <-(app_nil_r l), find_idx_app_notin by done. autorewrite with jlen. simpl. lia. Qed.

Lemma find_idx_elem c l : c ∈ l -> find_idx c l < length l.
Proof.
  induction l as [|x l IH]; [by intros ?%not_elem_of_nil|]. rewrite elem_of_cons. simpl.
  case_decide; [lia|]. intros [->|?]; [done|]. specialize (IH ltac:(done)). lia.
Qed.

Lemma find_idx_lookup c l : find_idx c l < length l -> l !! find_idx c l = Some c.
Proof.
  induction l as [|x l IH]; simpl; [lia|]. case_decide; [by subst|].
  intros. apply IH. lia.
Qed.

(** A search that succeeds is not changed by bytes appended behind. *)
Lemma find_idx_app_found c l k :
  find_idx c l <> length l -> find_idx c (l ++ k) = find_idx c l.
Proof.
  induction l as [|x l IH]; simpl; [done|]. case_decide; [done|]. intros. rewrite IH; lia.
Qed.

Lemma std_find_le data first last c :
  first <= last -> std_find data first last c <= last.
Proof.
  intros. unfold std_find. pose proof (find_idx_le c (slice data first last)). jlia.
Qed.

Lemma prefix_b_true pat l : prefix_b pat l = true <-> exists k, l = pat ++ k.
Proof.
  revert l. induction pat as [|p pat IH]; intros l; simpl.
  { split; [by exists l | done]. }
  destruct l as [|x l].
  { split; [done | intros [k Hk]; done]. }
  rewrite andb_true_iff, bool_decide_eq_true, IH. split.
  - intros [-> [k ->]]. by exists k.
  - intros [k Hk]. simplify_eq/=. eauto.
Qed.

Lemma prefix_b_app_long pat l k :
  length pat <= length l -> prefix_b pat (l ++ k) = prefix_b pat l.
Proof.
  revert l. induction pat as [|p pat IH]; intros [|x l] H; simpl in *; try done; [lia|].
  by rewrite IH by lia.
Qed.

Lemma search_idx_le pat l : search_idx pat l <= length l.
Proof. induction l; simpl; destruct (prefix_b _ _); lia. Qed.

(** Where a search succeeds it found an occurrence. *)
Lemma search_idx_found pat l :
  pat <> [] -> search_idx pat l < length l ->
  prefix_b pat (drop (search_idx pat l) l) = true.
Proof.
  intros Hp. induction l as [|x l IH]; simpl; [destruct (prefix_b _ _); lia|].
  destruct (prefix_b pat (x :: l)) eqn:E; simpl; [done|]. intros. apply IH. lia.
Qed.

Lemma search_idx_app_found pat l k :
  pat <> [] -> search_idx pat l <> length l -> search_idx pat (l ++ k) = search_idx pat l.
Proof.
  intros Hp. induction l as [|x l IH]; intros Hne.
  { simpl in Hne. by destruct (prefix_b pat []). }
  cbn [app search_idx] in *. destruct (prefix_b pat (x :: l)) eqn:E.
  - apply prefix_b_true in E as [r E].
    assert (prefix_b pat (x :: l ++ k) = true) as ->; [|done].
    apply prefix_b_true. exists (r ++ k). by rewrite app_comm_cons, E, app_assoc.
  - cbn [length] in Hne. pose proof (search_idx_found pat l Hp) as Hf.
    pose proof (search_idx_le pat l).
    specialize (Hf ltac:(lia)) as [r Hr]%prefix_b_true.
    apply (f_equal length) in Hr. rewrite length_drop, length_app in Hr.
    change (x :: l ++ k) with ((x :: l) ++ k).
    rewrite prefix_b_app_long by (cbn [length]; lia). rewrite E, IH; lia.
Qed.

(** [pat] occurs nowhere in [l] before its end, so [pat] is found right there. *)
Definition first_at_end (pat l : list byte) : Prop := search_idx pat (l ++ pat) = length l.

#[export] Instance first_at_end_dec pat l : Decision (first_at_end pat l).
Proof. unfold first_at_end. apply _. Defined.

Lemma search_idx_app pat l k :
  search_idx pat (l ++ pat) = length l -> search_idx pat (l ++ pat ++ k) = length l.
Proof.
  induction l as [|x l IH]; cbn [app]; intros H.
  { destruct pat; simpl; [by destruct k|].
    assert (E : prefix_b (b :: pat) (b :: pat ++ k) = true).
    { apply prefix_b_true. by exists k. }
    simpl in E. by rewrite E. }
  cbn [search_idx] in *.
  replace (x :: l ++ pat ++ k) with ((x :: l ++ pat) ++ k) by (simpl; by rewrite <-app_assoc).
  rewrite prefix_b_app_long by jlia.
  destruct (prefix_b pat (x :: l ++ pat)); simpl in *; [lia|].
  rewrite IH; lia.
Qed.

Lemma std_search_le data first last pat :
  first <= last -> std_search data first last pat <= last.
Proof.
  intros. unfold std_search. pose proof (search_idx_le pat (slice data first last)). jlia.
Qed.

(** A successful search leaves room for the whole pattern. *)
Lemma std_search_room data first last pat :
  pat <> [] -> first <= last <= length data -> std_search data first last pat <> last ->
  std_search data first last pat + length pat <= last.
Proof.
  intros Hp Hle Hne. unfold std_search in *.
  set (l := slice data first last) in *.
  assert (Hl : length l = last - first) by (unfold l; rewrite length_slice; lia).
  pose proof (search_idx_le pat l).
  pose proof (search_idx_found pat l Hp ltac:(lia)) as [k Hk]%prefix_b_true.
  apply (f_equal length) in Hk. autorewrite with jlen in Hk. lia.
Qed.

(** ** C strings *)

(** [name.data()] read as a C string: the bytes before the first NUL. *)
Definition c_str (s : list byte) : list byte := take (find_idx Byte.x00 s) s.

Lemma c_str_no_nul s : Byte.x00 ∉ s -> c_str s = s.
Proof. intros. unfold c_str. by rewrite find_idx_notin, firstn_all by done. Qed.

(** A C string ends at its first null byte. *)
Lemma c_str_ends s t : Byte.x00 ∉ s -> c_str (s ++ Byte.x00 :: t) = s.
Proof. intros Hs. unfold c_str. rewrite find_idx_here by done. apply take_app_length. Qed.

Lemma c_str_never_nul s : Byte.x00 ∉ c_str s.
Proof.
  unfold c_str. induction s as [|x s IH]; simpl; [apply not_elem_of_nil|].
  case_decide; simpl; [apply not_elem_of_nil|]. rewrite not_elem_of_cons. auto.
Qed.

(** [snprintf(buf, n, ...)]: at most [n - 1] characters of the text and the NUL;
    writing behind the array is undefined. *)
Definition snprintf (buf : list byte) (n : nat) (text : list byte) : outcome (list byte) :=
  let out := take (n - 1) text ++ [Byte.x00] in
  if (length out <=? length buf)%nat then Ret (std_copy out buf 0) else Throw UndefinedBehaviour.

Definition strlen (msg : list byte) : outcome nat :=
  let n := find_idx Byte.x00 msg in
  if (n <? length msg)%nat then Ret n else Throw UndefinedBehaviour.

(** [snprintf] into a large enough array. *)
Lemma snprintf_spec buf n text :
  (length (take (n - 1) text) < length buf)%nat ->
  snprintf buf n text = Ret (take (n - 1) text ++ Byte.x00 :: drop (S (length (take (n - 1) text))) buf).
Proof.
  intros Hl. unfold snprintf, std_copy. rewrite length_app. cbn [length].
  rewrite (proj2 (Nat.leb_le _ _)) by lia. rewrite take_0, <-app_assoc. cbn [app].
  by replace (0 + _)%nat with (S (length (take (n - 1) text))) by lia.
Qed.

Lemma strlen_spec (m t : list byte) : (Byte.x00 ∉ m) -> strlen (m ++ Byte.x00 :: t) = Ret (length m).
Proof.
  intros Hm. unfold strlen. rewrite find_idx_here by done.
  rewrite (proj2 (Nat.ltb_lt _ _)); [done|]. rewrite length_app. cbn [length]. lia.
Qed.

Lemma take_no_nul n (l : list byte) : Byte.x00 ∉ l -> Byte.x00 ∉ take n l.
Proof. intros Hl [i Hi]%list_elem_of_lookup. apply Hl, list_elem_of_lookup. exists i. by apply lookup_take_Some in Hi as []. Qed.

(** [tolower] in the C locale. *)
Definition tolower (c : byte) : byte :=
  let z := byte.unsigned c in
  if (65 <=? z)%Z && (z <=? 90)%Z then byte.of_Z (z + 32) else c.

(** Lexicographic order on unsigned bytes: [std::less<std::string>]. *)
Fixpoint lex_lt (a b : list byte) : bool :=
  match a, b with
  | _, [] => false
  | [], _ :: _ => true
  | x :: a', y :: b' =>
      (byte.unsigned x <? byte.unsigned y)%Z
      || ((byte.unsigned x =? byte.unsigned y)%Z && lex_lt a' b')
  end.

(** The bytes [strcasecmp] compares. *)
Definition casefold (s : list byte) : list byte := tolower <$> c_str s.

(** [strcasecmp(a, b) < 0]. *)
Definition strcasecmp_lt (a b : list byte) : bool := lex_lt (casefold a) (casefold b).

(** [std::to_string] of an unsigned integer. *)
Definition to_string (n : Z) : list byte := bytes (pretty (Z.to_N n)).

Lemma to_string_inj (a b : Z) : (0 <= a)%Z -> (0 <= b)%Z -> to_string a = to_string b -> a = b.
Proof.
  intros ? ? E. unfold to_string in E. apply bytes_inj in E.
  apply (inj pretty) in E. lia.
Qed.

(** Decimal numbers consist of digits. *)
Definition is_digit (c : byte) : bool := (48 <=? byte.unsigned c)%Z && (byte.unsigned c <=? 57)%Z.

Lemma bytes_cons c s : bytes (String c s) = Ascii.byte_of_ascii c :: bytes s.
Proof. done. Qed.

Lemma pretty_digit n : is_digit (Ascii.byte_of_ascii (pretty_N_char n)) = true.
Proof. unfold pretty_N_char. by repeat case_match. Qed.

Lemma pretty_N_go_digits x s c :
  c ∈ bytes (pretty_N_go x s) -> is_digit c = true \/ c ∈ bytes s.
Proof.
  revert s. induction (N.lt_wf_0 x) as [x _ IH]; intros s Hc.
  destruct (decide (x = 0)%N) as [->|Hx]; [by right|].
  rewrite pretty_N_go_step in Hc by lia. apply IH in Hc as [?|Hc]; [by left | |].
  - rewrite bytes_cons, elem_of_cons in Hc. destruct Hc as [->|?]; [left; apply pretty_digit | by right].
  - apply N.div_lt; lia.
Qed.

Lemma to_string_digits z c : c ∈ to_string z -> is_digit c = true.
Proof.
  unfold to_string, pretty, pretty_N. case_decide.
  - change (bytes "0") with [Byte.x30]. by intros ->%list_elem_of_singleton.
  - intros [?|H']%pretty_N_go_digits; [done|]. by apply not_elem_of_nil in H'.
Qed.

Lemma to_string_no_nul z : Byte.x00 ∉ to_string z.
Proof. by intros Hc%to_string_digits. Qed.
