(* ===== verification/CxxMap.v ===== *)
(** * [std::map] and [std::multimap]

    An association list sorted by the comparator, with the operations the
    sources call: [find], [emplace], assignment through an iterator, iteration
    in order.  The laws hold for every strict weak order, the requirement the
    standard puts on a comparator. *)

From Stdlib Require Import Sorting.Sorted.
From S2P Require Import Prelude CxxStd.

(** What the standard requires of a comparator. *)
Class StrictWeak {K : Type} (lt : K -> K -> bool) : Prop := {
  sw_irrefl a : lt a a = false;
  sw_trans a b c : lt a b = true -> lt b c = true -> lt a c = true;
  sw_cotrans a b c : lt a c = true -> lt a b = true \/ lt b c = true;
}.

Lemma unsigned_inj_iff a b : byte.unsigned a = byte.unsigned b <-> a = b.
Proof. split; [apply byte.unsigned_inj | by intros ->]. Qed.

Lemma lex_lt_irrefl a : lex_lt a a = false.
Proof. induction a as [|x a IH]; simpl; [done|]. rewrite IH, andb_false_r, orb_false_r. lia. Qed.

Lemma lex_lt_trans a b c : lex_lt a b = true -> lex_lt b c = true -> lex_lt a c = true.
Proof.
  revert b c. induction a as [|x a IH]; intros [|y b] [|z c]; simpl; try done.
  rewrite !orb_true_iff, !andb_true_iff, !Z.ltb_lt, !Z.eqb_eq.
  intros [?|[? ?]] [?|[? ?]]; (left; lia) || (right; split; [lia | by eapply IH]).
Qed.

Lemma lex_lt_trichotomy a b : lex_lt a b = false -> lex_lt b a = false -> a = b.
Proof.
  revert b. induction a as [|x a IH]; intros [|y b]; simpl; try done.
  rewrite !orb_false_iff, !andb_false_iff, !Z.ltb_ge, !Z.eqb_neq. intros [Hxy Ha] [Hyx Hb].
  assert (x = y) as -> by (apply unsigned_inj_iff; lia).
  f_equal. apply IH; [destruct Ha | destruct Hb]; done || lia.
Qed.

#[export] Instance lex_lt_strict : StrictWeak lex_lt.
Proof.
  split; [apply lex_lt_irrefl | apply lex_lt_trans |].
  intros a b c Hac. destruct (lex_lt a b) eqn:Hab; [by left|].
  destruct (lex_lt b c) eqn:Hbc; [by right|]. exfalso.
  destruct (lex_lt b a) eqn:Hba.
  - by rewrite (lex_lt_trans b a c Hba Hac) in Hbc.
  - rewrite (lex_lt_trichotomy a b Hab Hba) in Hac. congruence.
Qed.

#[export] Instance strcasecmp_strict : StrictWeak strcasecmp_lt.
Proof.
  unfold strcasecmp_lt. split; intros.
  - apply sw_irrefl.
  - eapply sw_trans; eauto.
  - by apply sw_cotrans.
Qed.

Section ordered_maps.
Context {K V : Type} (lt : K -> K -> bool).
Implicit Types (m : list (K * V)) (k : K) (v : V).

(** Keys equivalent under the comparator are the same key. *)
Definition equiv_key (a b : K) : bool := negb (lt a b) && negb (lt b a).

(** [m.find(k)]: the first element whose key is equivalent to [k]. *)
Fixpoint map_find k m : option V :=
  match m with
  | [] => None
  | (k', v') :: m' =>
      if lt k' k then map_find k m' else if lt k k' then None else Some v'
  end.

(** [std::map::emplace]: no effect when the key is there. *)
Fixpoint map_emplace k v m : list (K * V) :=
  match m with
  | [] => [(k, v)]
  | (k', v') :: m' =>
      if lt k k' then (k, v) :: m
      else if lt k' k then (k', v') :: map_emplace k v m'
      else m
  end.

(** [std::multimap::emplace]: after the elements with an equivalent key. *)
Fixpoint multimap_emplace k v m : list (K * V) :=
  match m with
  | [] => [(k, v)]
  | (k', v') :: m' =>
      if lt k k' then (k, v) :: m else (k', v') :: multimap_emplace k v m'
  end.

(** [m.find(k)->second = v]; no effect when [find] fails. *)
Fixpoint map_assign k v m : list (K * V) :=
  match m with
  | [] => []
  | (k', v') :: m' =>
      if lt k' k then (k', v') :: map_assign k v m'
      else if lt k k' then m
      else (k', v) :: m'
  end.

(** Sorted, equivalent keys allowed (a multimap). *)
Definition mm_sorted m : Prop := StronglySorted (fun p q => lt q.1 p.1 = false) m.
(** Strictly sorted (a map). *)
Definition map_sorted m : Prop := StronglySorted (fun p q => lt p.1 q.1 = true) m.

Context `{!StrictWeak lt}.

Lemma sw_asym a b : lt a b = true -> lt b a = false.
Proof.
  intros H. destruct (lt b a) eqn:E; [|done].
  rewrite <-(sw_irrefl (lt:=lt) a). symmetry. by eapply sw_trans.
Qed.

Lemma equiv_key_refl a : equiv_key a a = true.
Proof. unfold equiv_key. by rewrite (sw_irrefl (lt:=lt)). Qed.

Lemma equiv_key_sym a b : equiv_key a b = equiv_key b a.
Proof. unfold equiv_key. apply andb_comm. Qed.

Lemma sw_cotrans_false a b c : lt a b = false -> lt b c = false -> lt a c = false.
Proof.
  intros. destruct (lt a c) eqn:E; [|done]. destruct (sw_cotrans a b c E); congruence.
Qed.

(** The comparator does not tell equivalent keys apart. *)
Lemma equiv_key_l a b c : equiv_key a b = true -> lt a c = lt b c.
Proof.
  unfold equiv_key. rewrite andb_true_iff, !negb_true_iff. intros [H1 H2].
  destruct (lt a c) eqn:E1, (lt b c) eqn:E2; try done.
  - destruct (sw_cotrans a b c E1); congruence.
  - destruct (sw_cotrans b a c E2); congruence.
Qed.

Lemma equiv_key_r a b c : equiv_key a b = true -> lt c a = lt c b.
Proof.
  unfold equiv_key. rewrite andb_true_iff, !negb_true_iff. intros [H1 H2].
  destruct (lt c a) eqn:E1, (lt c b) eqn:E2; try done.
  - destruct (sw_cotrans c b a E1); congruence.
  - destruct (sw_cotrans c a b E2); congruence.
Qed.

Lemma map_find_equiv k k' m : equiv_key k k' = true -> map_find k m = map_find k' m.
Proof.
  intros E. induction m as [|[k0 v0] m IH]; simpl; [done|].
  by rewrite (equiv_key_l k k' k0 E), (equiv_key_r k k' k0 E), IH.
Qed.

(** The keys of the result of an insertion. *)
Lemma elem_of_map_emplace p k v m :
  p ∈ map_emplace k v m -> p = (k, v) \/ p ∈ m.
Proof.
  induction m as [|[k0 v0] m IH]; simpl; [set_solver|].
  destruct (lt k k0), (lt k0 k); rewrite ?elem_of_cons; naive_solver.
Qed.

Lemma elem_of_multimap_emplace p k v m :
  p ∈ multimap_emplace k v m <-> p = (k, v) \/ p ∈ m.
Proof.
  induction m as [|[k0 v0] m IH]; simpl; [set_solver|].
  destruct (lt k k0); rewrite ?elem_of_cons; naive_solver.
Qed.

Lemma map_emplace_sorted k v m : map_sorted m -> map_sorted (map_emplace k v m).
Proof.
  unfold map_sorted. induction m as [|[k0 v0] m IH]; intros Hs; simpl.
  { repeat constructor. }
  inversion Hs as [|?? Hs' Hall]; subst.
  destruct (lt k k0) eqn:E1; [|destruct (lt k0 k) eqn:E2; [|done]].
  - constructor; [done|]. constructor; [done|].
    eapply List.Forall_impl; [|exact Hall]. simpl. eauto using sw_trans.
  - constructor; [auto|]. apply List.Forall_forall. intros p Hp.
    apply list_elem_of_In, elem_of_map_emplace in Hp as [->|Hp]; [done|].
    rewrite List.Forall_forall in Hall. apply Hall. by apply list_elem_of_In.
Qed.

Lemma multimap_emplace_sorted k v m : mm_sorted m -> mm_sorted (multimap_emplace k v m).
Proof.
  unfold mm_sorted. induction m as [|[k0 v0] m IH]; intros Hs; simpl.
  { repeat constructor. }
  inversion Hs as [|?? Hs' Hall]; subst. rewrite List.Forall_forall in Hall.
  destruct (lt k k0) eqn:E1.
  - constructor; [done|]. constructor; [by apply sw_asym|].
    apply List.Forall_forall. intros p Hp.
    eapply sw_cotrans_false; [by apply Hall|]. by apply sw_asym.
  - constructor; [auto|]. apply List.Forall_forall. intros p Hp.
    apply list_elem_of_In, elem_of_multimap_emplace in Hp as [->|Hp]; [done|].
    apply Hall. by apply list_elem_of_In.
Qed.

Lemma map_find_in k v m : map_find k m = Some v -> exists k0, In (k0, v) m.
Proof.
  induction m as [|[k0 v0] m IH]; cbn; [done|]. destruct (lt k0 k); [intros [k1 ?]%IH; eauto|].
  destruct (lt k k0); [done|]. intros [= ->]. eauto.
Qed.

(** [emplace] binds a fresh key and keeps an existing binding. *)
Lemma map_find_emplace k k' v m :
  map_find k' (map_emplace k v m)
  = if equiv_key k k' then Some (default v (map_find k m)) else map_find k' m.
Proof.
  destruct (equiv_key k k') eqn:E.
  - rewrite <-(map_find_equiv k k') by done.
    induction m as [|[k0 v0] m IH]; simpl; [by rewrite (sw_irrefl (lt:=lt))|].
    destruct (lt k k0) eqn:E1.
    + rewrite (sw_asym k k0) by done. simpl. by rewrite (sw_irrefl (lt:=lt)).
    + destruct (lt k0 k) eqn:E2; simpl; rewrite ?E2, ?E1; done.
  - unfold equiv_key in E. rewrite andb_false_iff, !negb_false_iff in E.
    induction m as [|[k0 v0] m IH]; simpl.
    { destruct (lt k k') eqn:E1; [done|]. destruct E; [done|]. by rewrite H. }
    destruct (lt k k0) eqn:E1; [|destruct (lt k0 k) eqn:E2; simpl; [by rewrite IH | done]].
    simpl. destruct (lt k k') eqn:E2; [done|]. destruct E as [|E]; [done|]. rewrite E.
    assert (lt k' k0 = true) as -> by (by eapply sw_trans).
    by rewrite sw_asym by (by eapply sw_trans).
Qed.

Lemma map_find_assign k k' v m :
  map_find k' (map_assign k v m)
  = if equiv_key k k' then (fun _ => v) <$> map_find k m else map_find k' m.
Proof.
  destruct (equiv_key k k') eqn:E.
  - rewrite <-(map_find_equiv k k') by done.
    induction m as [|[k0 v0] m IH]; simpl; [done|].
    destruct (lt k0 k) eqn:E1; simpl; rewrite ?E1; [done|].
    destruct (lt k k0) eqn:E2; simpl; rewrite ?E1, ?E2; done.
  - unfold equiv_key in E. rewrite andb_false_iff, !negb_false_iff in E.
    induction m as [|[k0 v0] m IH]; simpl; [done|].
    destruct (lt k0 k) eqn:E1; simpl; [by rewrite IH|].
    destruct (lt k k0) eqn:E2; simpl; [done|].
    assert (Heq : equiv_key k0 k = true) by (unfold equiv_key; by rewrite E1, E2).
    rewrite (equiv_key_l _ _ k' Heq), (equiv_key_r _ _ k' Heq).
    destruct E as [-> | E]; [done|]. rewrite E, (sw_asym _ _ E). done.
Qed.

(** In a multimap [emplace] keeps the element [find] returns, if there is one. *)
Lemma map_find_multimap_emplace k k' v m :
  map_find k' (multimap_emplace k v m)
  = if equiv_key k k' then Some (default v (map_find k m)) else map_find k' m.
Proof.
  destruct (equiv_key k k') eqn:E.
  - rewrite <-(map_find_equiv k k') by done.
    induction m as [|[k0 v0] m IH]; simpl; [by rewrite (sw_irrefl (lt:=lt))|].
    destruct (lt k k0) eqn:E1.
    + rewrite (sw_asym k k0) by done. simpl. by rewrite (sw_irrefl (lt:=lt)).
    + simpl. destruct (lt k0 k) eqn:E2; rewrite ?E1; done.
  - unfold equiv_key in E. rewrite andb_false_iff, !negb_false_iff in E.
    induction m as [|[k0 v0] m IH]; simpl.
    { destruct (lt k k') eqn:E1; [done|]. destruct E; [done|]. by rewrite H. }
    destruct (lt k k0) eqn:E1; simpl; [|by rewrite IH].
    destruct (lt k k') eqn:E2; [done|]. destruct E as [|E]; [done|]. rewrite E.
    assert (lt k' k0 = true) as -> by (by eapply sw_trans).
    by rewrite sw_asym by (by eapply sw_trans).
Qed.

Lemma fst_map_assign k v m : map fst (map_assign k v m) = map fst m.
Proof.
  induction m as [|[k0 v0] m IH]; simpl; [done|].
  destruct (lt k0 k); simpl; [by rewrite IH|]. by destruct (lt k k0).
Qed.
End ordered_maps.

(** Under [std::less<std::string>] equivalent keys are equal. *)
Lemma equiv_key_lex a b : equiv_key lex_lt a b = bool_decide (a = b).
Proof.
  unfold equiv_key. case_bool_decide as E; [by rewrite E, lex_lt_irrefl|].
  destruct (lex_lt a b) eqn:H1; [done|]. destruct (lex_lt b a) eqn:H2; [done|].
  by destruct (E (lex_lt_trichotomy a b H1 H2)).
Qed.
