(* ===== verification/Binary64.v ===== *)
(** * The numbers of type double

    IEEE 754 binary64 as the standard library's [SpecFloat] defines it: the
    conversions from and to [int64_t] and the product, and that they are exact on
    the integers a double holds.  [BaseBuffer::EnsureWritableSpace] and
    [DateTime::AfterSeconds] use them. *)

From S2P Require Import Prelude.
From Stdlib Require Import Floats.SpecFloat.
Local Open Scope Z_scope.

Abbreviation double := spec_float.
Abbreviation prec64 := 53 (only parsing).
Abbreviation emax64 := 1024 (only parsing).

Definition double_of_Z (z : Z) : double := binary_normalize prec64 emax64 z 0 false.
Definition double_mul (x y : double) : double := SFmul prec64 emax64 x y.
(** The correctly rounded quotient of two integers: a literal with decimals. *)
Definition double_ratio (n d : Z) : double := SFdiv prec64 emax64 (double_of_Z n) (double_of_Z d).

(** The integer part; [None] for infinities and NaN. *)
Definition double_trunc (x : double) : option Z :=
  match x with
  | S754_zero _ => Some 0
  | S754_finite s m e =>
      let z := if 0 <=? e then Z.shiftl (Zpos m) e else Z.shiftr (Zpos m) (- e) in
      Some (if s then - z else z)
  | _ => None
  end.

(** [static_cast<int64_t>(x)] is undefined when the integer part does not fit. *)
Definition int64_of_double (x : double) : outcome Z :=
  match double_trunc x with
  | Some z => if (- 2 ^ 63 <=? z) && (z <? 2 ^ 63) then Ret z else Throw UndefinedBehaviour
  | None => Throw UndefinedBehaviour
  end.

(** ** Digits and shifts *)

Lemma digits_log2 p : Zpos (digits2_pos p) = Z.log2 (Zpos p) + 1.
Proof.
  induction p as [p IH|p IH|]; cbn [digits2_pos]; [| |done]; rewrite Pos2Z.inj_succ, IH.
  - rewrite (Pos2Z.inj_xI p), Z.log2_succ_double by lia. lia.
  - rewrite (Pos2Z.inj_xO p), Z.log2_double by lia. lia.
Qed.

Lemma digits_scale m k p : 0 < m -> 0 <= k -> Zpos p = m * 2 ^ k -> Zpos (digits2_pos p) = Z.log2 m + 1 + k.
Proof. intros Hm Hk E. rewrite digits_log2, E, Z.log2_mul_pow2 by done. lia. Qed.

Lemma iter_pos_nat {A} (f : A -> A) n x : iter_pos f n x = Nat.iter (Pos.to_nat n) f x.
Proof.
  revert x. induction n as [n IH|n IH|]; intros x; cbn [iter_pos]; [| |done]; rewrite !IH, <-Nat.iter_add.
  - rewrite Pos2Nat.inj_xI. replace (S (2 * Pos.to_nat n)) with ((Pos.to_nat n + Pos.to_nat n) + 1)%nat by lia.
    by rewrite (Nat.iter_add _ 1).
  - rewrite Pos2Nat.inj_xO. f_equal. lia.
Qed.

Lemma shr_1_exact m : 0 < m -> shr_1 {| shr_m := 2 * m; shr_r := false; shr_s := false |}
  = {| shr_m := m; shr_r := false; shr_s := false |}.
Proof. by destruct m. Qed.

Lemma shr_exact m k : 0 < m -> Nat.iter k shr_1 {| shr_m := m * 2 ^ Z.of_nat k; shr_r := false; shr_s := false |}
  = {| shr_m := m; shr_r := false; shr_s := false |}.
Proof.
  intros Hm. induction k as [|k IH]; [by rewrite Z.mul_1_r|].
  rewrite Nat.iter_succ_r, Nat2Z.inj_succ, Z.pow_succ_r by lia.
  replace (m * (2 * 2 ^ Z.of_nat k)) with (2 * (m * 2 ^ Z.of_nat k)) by lia.
  rewrite shr_1_exact; [exact IH|]. pose proof (Z.pow_pos_nonneg 2 (Z.of_nat k)). lia.
Qed.

(** ** Exact operations *)

Abbreviation exactly m := {| shr_m := m; shr_r := false; shr_s := false |}.

(** A mantissa that fits stays. *)
Lemma shr_fexp_fits m e : 0 < m -> Z.log2 m < prec64 -> - 1074 <= e + (Z.log2 m + 1 - prec64) ->
  shr_fexp prec64 emax64 m e loc_Exact = (exactly m, e).
Proof.
  intros Hm Hd He. destruct m as [|p|p]; try lia. unfold shr_fexp, fexp, emin. cbn [Zdigits2 shr_record_of_loc].
  rewrite digits_log2. unfold shr. destruct (Z.max _ _ - e) as [|d|d] eqn:Ed; [done| |done]. lia.
Qed.

(** One that is [k] bits too long loses [k] zeros. *)
Lemma shr_fexp_zeros m k e : 0 < m -> 0 < k -> Z.log2 m + 1 = prec64 -> - 1074 <= e + k ->
  shr_fexp prec64 emax64 (m * 2 ^ k) e loc_Exact = (exactly m, e + k).
Proof.
  intros Hm Hk Hd He. assert (Hpos : 0 < m * 2 ^ k) by (pose proof (Z.pow_pos_nonneg 2 k); lia).
  destruct (m * 2 ^ k) as [|p|p] eqn:Ep; try lia. pose proof (digits_scale m k p Hm ltac:(lia) (eq_sym Ep)) as Hp.
  unfold shr_fexp, fexp, emin. cbn [Zdigits2 shr_record_of_loc]. rewrite Hp.
  replace (Z.max _ _ - e) with k by lia. destruct k as [|k|k]; [lia| |lia]. cbn [shr].
  rewrite iter_pos_nat, <-Ep, <-(positive_nat_Z k), shr_exact by done. by rewrite positive_nat_Z.
Qed.

Lemma round_fits s m e : Z.log2 (Zpos m) < prec64 -> - 1074 <= e + (Z.log2 (Zpos m) + 1 - prec64) -> e <= 971 ->
  binary_round_aux prec64 emax64 s (Zpos m) e loc_Exact = S754_finite s m e.
Proof.
  intros Hd He Hle. unfold binary_round_aux. rewrite shr_fexp_fits by done. cbn [shr_m loc_of_shr_record round_nearest_even].
  rewrite shr_fexp_fits by done. cbn [shr_m]. by rewrite (proj2 (Z.leb_le _ _)) by lia.
Qed.

Lemma round_zeros s m k e : 0 < k -> Z.log2 (Zpos m) + 1 = prec64 -> - 1074 <= e + k <= 971 ->
  binary_round_aux prec64 emax64 s (Zpos m * 2 ^ k) e loc_Exact = S754_finite s m (e + k).
Proof.
  intros Hk Hd He. unfold binary_round_aux. rewrite shr_fexp_zeros by lia. cbn [shr_m loc_of_shr_record round_nearest_even].
  rewrite shr_fexp_fits by lia. cbn [shr_m]. by rewrite (proj2 (Z.leb_le _ _)) by lia.
Qed.

(** A representation of an integer: [m * 2^r] with the exponent [- r]. *)
Lemma trunc_scaled s m r p : 0 <= r -> Zpos p = m * 2 ^ r ->
  double_trunc (S754_finite s p (- r)) = Some (if s then - m else m).
Proof.
  intros Hr E. cbn [double_trunc]. rewrite E, Z.opp_involutive. destruct (Z.leb_spec 0 (- r)) as [H|H].
  - assert (r = 0) as -> by lia. by rewrite Z.shiftl_0_r, Z.mul_1_r.
  - by rewrite Z.shiftr_div_pow2, Z.div_mul by (try apply Z.pow_nonzero; lia).
Qed.

Lemma iter_xO p d : Zpos (Pos.iter xO p d) = Zpos p * 2 ^ Zpos d.
Proof.
  induction d as [|d IH] using Pos.peano_ind; [change (Pos.iter xO p 1) with (xO p); lia|].
  rewrite Pos.iter_succ, Pos2Z.inj_succ, Z.pow_succ_r, (Pos2Z.inj_xO (Pos.iter xO p d)), IH by lia. lia.
Qed.

(** The double of an integer below 2^53 holds it, with a full mantissa. *)
Lemma double_of_pos s p : Z.log2 (Zpos p) < prec64 ->
  exists m, binary_round prec64 emax64 s p 0 = S754_finite s m (- (52 - Z.log2 (Zpos p)))
    /\ Zpos m = Zpos p * 2 ^ (52 - Z.log2 (Zpos p)).
Proof.
  intros Hd. pose proof (Z.log2_nonneg (Zpos p)). unfold binary_round, shl_align, fexp, emin. rewrite digits_log2.
  replace (Z.max _ _ - 0) with (- (52 - Z.log2 (Zpos p))) by lia.
  replace (Z.max _ _) with (- (52 - Z.log2 (Zpos p))) by lia.
  destruct (52 - Z.log2 (Zpos p)) as [|d|d] eqn:Ed; [| |lia]; cbn [Z.opp].
  - exists p. rewrite Z.mul_1_r. split; [|done]. apply round_fits; lia.
  - exists (Pos.iter xO p d). split; [|apply iter_xO].
    assert (Hl : Z.log2 (Zpos (Pos.iter xO p d)) = 52) by (rewrite iter_xO, Z.log2_mul_pow2 by lia; lia).
    apply round_fits; rewrite ?Hl; lia.
Qed.

(** The product of two integers, the second over [2^t], is exact when it fits 53
    bits. *)
Lemma mul_scaled s p q mq t : Z.log2 (Zpos p * Zpos q) < prec64 -> 0 <= t <= 64 ->
  Zpos mq = Zpos q * 2 ^ (52 - Z.log2 (Zpos q)) ->
  exists m r, double_mul (binary_round prec64 emax64 s p 0) (S754_finite false mq (- (52 - Z.log2 (Zpos q)) - t))
      = S754_finite s m (- (r + t))
    /\ 0 <= r /\ Zpos m = Zpos p * Zpos q * 2 ^ r.
Proof.
  intros Hd Ht Emq. assert (Hp : Z.log2 (Zpos p) <= Z.log2 (Zpos p * Zpos q)) by (apply Z.log2_le_mono; nia).
  assert (Hq : Z.log2 (Zpos q) <= Z.log2 (Zpos p * Zpos q)) by (apply Z.log2_le_mono; nia).
  destruct (double_of_pos s p) as (mp & -> & Emp); [lia|].
  set (j := 52 - Z.log2 (Zpos p)) in *. set (i := 52 - Z.log2 (Zpos q)) in *.
  assert (Hl : Z.log2 (Zpos p * Zpos q) = Z.log2 (Zpos p) + Z.log2 (Zpos q) \/ Z.log2 (Zpos p * Zpos q) = Z.log2 (Zpos p) + Z.log2 (Zpos q) + 1).
  { pose proof (Z.log2_mul_above (Zpos p) (Zpos q)). pose proof (Z.log2_mul_below (Zpos p) (Zpos q)). lia. }
  set (v := Zpos p * Zpos q) in *. pose proof (Z.log2_nonneg v).
  pose proof (Z.log2_nonneg (Zpos p)). pose proof (Z.log2_nonneg (Zpos q)).
  cbn [double_mul SFmul]. unfold double_mul, SFmul. rewrite xorb_false_r.
  (* all but 52 - log2 v of the zeros are dropped *)
  set (r := 52 - Z.log2 v). set (k := j + i - r).
  assert (Hprod : Zpos (mp * mq) = (v * 2 ^ r) * 2 ^ k).
  { rewrite Pos2Z.inj_mul, Emp, Emq. transitivity (v * (2 ^ j * 2 ^ i)); [unfold v; ring|].
    rewrite <-Z.mul_assoc, <-!Z.pow_add_r by lia. do 2 f_equal. lia. }
  assert (Hvr : 0 < v * 2 ^ r) by (pose proof (Z.pow_pos_nonneg 2 r); unfold v; lia).
  assert (Hlr : Z.log2 (v * 2 ^ r) = 52) by (rewrite Z.log2_mul_pow2 by (unfold v; lia); lia).
  destruct (v * 2 ^ r) as [|m|m] eqn:Em; try lia. exists m, r.
  rewrite Hprod, round_zeros by lia. split; [f_equal; lia|]. split; [lia|done].
Qed.

Lemma mul_pos s p q : Z.log2 (Zpos p * Zpos q) < prec64 ->
  exists m r, double_mul (binary_round prec64 emax64 s p 0) (binary_round prec64 emax64 false q 0) = S754_finite s m (- r)
    /\ 0 <= r /\ Zpos m = Zpos p * Zpos q * 2 ^ r.
Proof.
  intros Hd. assert (Hq : Z.log2 (Zpos q) <= Z.log2 (Zpos p * Zpos q)) by (apply Z.log2_le_mono; nia).
  destruct (double_of_pos false q) as (mq & -> & Emq); [lia|].
  destruct (mul_scaled s p q mq 0 Hd ltac:(lia) Emq) as (m & r & E & ?). rewrite Z.sub_0_r, Z.add_0_r in E. by exists m, r.
Qed.

Lemma double_of_Z_round z : 0 < z -> exists p, z = Zpos p /\ double_of_Z z = binary_round prec64 emax64 false p 0
  /\ double_of_Z (- z) = binary_round prec64 emax64 true p 0.
Proof. destruct z as [|p|p]; try lia. by exists p. Qed.

Lemma mul_trunc n k : 0 < k < 2 ^ 53 -> Z.abs n * k < 2 ^ 53 ->
  double_trunc (double_mul (double_of_Z n) (double_of_Z k)) = Some (n * k).
Proof.
  intros [Hk Hk2] Hn. destruct (double_of_Z_round k Hk) as (q & -> & -> & _).
  assert (Hs : forall s p, Zpos p * Zpos q < 2 ^ 53 ->
    double_trunc (double_mul (binary_round prec64 emax64 s p 0) (binary_round prec64 emax64 false q 0))
    = Some (if s then - (Zpos p * Zpos q) else Zpos p * Zpos q)).
  { intros s p Hpq. destruct (mul_pos s p q) as (m & r & -> & Hr & Em); [by apply Z.log2_lt_pow2; lia|].
    by apply trunc_scaled. }
  destruct n as [|p|p].
  - change (double_of_Z 0) with (S754_zero false). destruct (double_of_pos false q) as (m & -> & _); [|done].
    by apply Z.log2_lt_pow2.
  - exact (Hs false p Hn).
  - rewrite <-Pos2Z.opp_pos, Z.mul_opp_l. exact (Hs true p Hn).
Qed.

(** Half of three times a number, as [n * 1.5] is converted to an integer. *)
Lemma half_more n : 0 <= n < 2 ^ 51 -> double_trunc (double_mul (double_of_Z n) (double_ratio 3 2)) = Some (n * 3 / 2).
Proof.
  intros [Hn Hlt]. replace (double_ratio 3 2) with (S754_finite false (3 * 2 ^ 51) (- (52 - Z.log2 3) - 1)) by (vm_compute; reflexivity).
  destruct (Z.eq_dec n 0) as [->|Hne]; [done|]. destruct (double_of_Z_round n) as (p & -> & -> & _); [lia|].
  destruct (mul_scaled false p 3 (3 * 2 ^ 51) 1) as (m & r & -> & Hr & Em); [apply Z.log2_lt_pow2; lia|lia|done|].
  cbn [double_trunc]. rewrite (proj2 (Z.leb_gt _ _)) by lia.
  rewrite Z.opp_involutive, Z.shiftr_div_pow2, Em, Z.pow_add_r by lia.
  by rewrite (Z.mul_comm (2 ^ r)), Z.div_mul_cancel_r by (try apply Z.pow_nonzero; lia).
Qed.
