(* ===== verification/BaseBuffer.v ===== *)
(** * net/BaseBuffer: the growable byte buffer of a connection

    The storage is a [std::vector<char>]; the two iterators are offsets into
    it.  [ [0,read_idx) ] is dropped data, [ [read_idx,write_idx) ] the
    readable bytes, [ [write_idx,size) ] free space.  The abstract
    specification is a byte queue: [view] is the refinement function. *)

From S2P Require Import Prelude CxxStd.
From S2P Require Binary64.

Record BaseBuffer := mkBuffer {
  buffer : list byte;
  read_idx : nat;
  write_idx : nat;
}.

#[export] Instance BaseBuffer_eq_dec : EqDecision BaseBuffer.
Proof. solve_decision. Defined.

(** [BaseBuffer(size_t init_size)]: the vector's elements are value-initialised. *)
Definition BaseBuffer_init (init_size : nat) : BaseBuffer :=
  mkBuffer (replicate init_size Byte.x00) 0 0.

Definition BeginOfReadable (b : BaseBuffer) : nat := read_idx b.
Definition BeginOfWritable (b : BaseBuffer) : nat := write_idx b.
Definition EndOfReadable (b : BaseBuffer) : nat := write_idx b.
Definition EndOfWritable (b : BaseBuffer) : nat := length (buffer b).

Definition ReadableBytes (b : BaseBuffer) : nat := EndOfReadable b - BeginOfReadable b.
Definition WritableBytes (b : BaseBuffer) : nat := EndOfWritable b - BeginOfWritable b.

Definition DropAllBytes (b : BaseBuffer) : BaseBuffer := mkBuffer (buffer b) 0 0.

Definition DropBytes (n : nat) (b : BaseBuffer) : BaseBuffer :=
  if ReadableBytes b <=? n then DropAllBytes b
  else mkBuffer (buffer b) (read_idx b + n) (write_idx b).

(** The loop [while (read_idx != pos) read_idx += 1]; stepping past the end of
    the storage is undefined. *)
Fixpoint drop_until_loop (fuel pos : nat) (b : BaseBuffer) : outcome BaseBuffer :=
  if read_idx b =? pos then Ret b
  else match fuel with
       | 0 => Throw OutOfFuel
       | S fuel' =>
           if read_idx b <? length (buffer b)
           then drop_until_loop fuel' pos (mkBuffer (buffer b) (read_idx b + 1) (write_idx b))
           else Throw UndefinedBehaviour
       end.

Definition DropBytesUntil (pos : nat) (b : BaseBuffer) : outcome BaseBuffer :=
  drop_until_loop (S (length (buffer b))) pos b.

Definition Release (b : BaseBuffer) : BaseBuffer := mkBuffer [] 0 0.

(** [static_cast<size_t>(buffer.size() * 1.5)]: see [grow_double]. *)
Definition EnsureWritableSpace (len : nat) (b : BaseBuffer) : BaseBuffer :=
  if len <=? WritableBytes b then b
  else
    let free_space := BeginOfReadable b in
    if len <=? free_space + WritableBytes b then
      mkBuffer (std_copy (slice (buffer b) (BeginOfReadable b) (EndOfReadable b)) (buffer b) 0)
        0 (write_idx b - free_space)
    else
      let write_idx_back := write_idx b in
      let new_size := Nat.max (length (buffer b) + len) (length (buffer b) * 3 / 2) in
      mkBuffer (resize new_size Byte.x00 (buffer b)) free_space write_idx_back.

(** The product of doubles is exact below 2^51 bytes. *)
Lemma grow_double n : (Z.of_nat n < 2 ^ 51)%Z ->
  Binary64.double_trunc (Binary64.double_mul (Binary64.double_of_Z (Z.of_nat n)) (Binary64.double_ratio 3 2))
  = Some (Z.of_nat (n * 3 / 2)).
Proof. intros Hn. rewrite Binary64.half_more by lia. by rewrite Nat2Z.inj_div, Nat2Z.inj_mul. Qed.

(** The three overloads: a pointer and a length, a [string_view], an iterator range. *)
Definition Append (data : list byte) (b : BaseBuffer) : BaseBuffer :=
  if length data =? 0 then b
  else
    let b := EnsureWritableSpace (length data) b in
    mkBuffer (std_copy data (buffer b) (BeginOfWritable b)) (read_idx b)
      (write_idx b + length data).

(** The readable bytes: [ToStringView] and [ToString]. *)
Definition ToStringView (b : BaseBuffer) : list byte :=
  slice (buffer b) (BeginOfReadable b) (EndOfReadable b).
Abbreviation view := ToStringView.

(** ** System calls: what the kernel and OpenSSL answer is a parameter *)

(** [readv]/[SSL_read]: failure with the returned value, or the bytes delivered
    (none of them: end of stream). *)
Inductive read_result :=
| ReadFail (rc : Z)
| ReadData (data : list byte).

Definition extra_buffer_size : nat := Z.to_nat 65535.

Definition ReadBytesFromFd (readv : list nat -> read_result) (b : BaseBuffer) : Z * BaseBuffer :=
  let writable_bytes := WritableBytes b in
  let iov := if writable_bytes <? extra_buffer_size
             then [writable_bytes; extra_buffer_size] else [writable_bytes] in
  match readv iov with
  | ReadFail rc => (rc, b)
  | ReadData d =>
      let n := length d in
      (* the kernel fills vec[0], the free space, and then vec[1], extra_buffer *)
      let into_buffer := take writable_bytes d in
      let extra_buffer := drop writable_bytes d in
      let filled := std_copy into_buffer (buffer b) (BeginOfWritable b) in
      if n =? 0 then (0%Z, mkBuffer filled (read_idx b) (write_idx b))
      else if n <=? writable_bytes then
        (Z.of_nat n, mkBuffer filled (read_idx b) (write_idx b + n))
      else
        (Z.of_nat n,
         Append (take (n - writable_bytes) extra_buffer)
           (mkBuffer filled (read_idx b) (length filled)))
  end.

(** [write(fd, readable bytes)] returns a [ssize_t], stored in an [int]. *)
Definition WriteBytesToFd (write : list byte -> Z) (b : BaseBuffer) : Z * BaseBuffer :=
  let n := i32 (write (ToStringView b)) in
  (n, if (0 <? n)%Z then DropBytes (Z.to_nat n) b else b).

Section openssl.
(** The compile-time switch [USE_OPENSSL]. *)
Variable USE_OPENSSL : bool.

(** [SSL_read] gets the free space as an [int]. *)
Definition ReadBytesFromSsl (SSL_read : Z -> read_result) (b : BaseBuffer) : Z * BaseBuffer :=
  if USE_OPENSSL then
    let b := EnsureWritableSpace 1024 b in
    match SSL_read (i32 (Z.of_nat (WritableBytes b))) with
    | ReadFail n => (n, b)
    | ReadData d =>
        (Z.of_nat (length d),
         mkBuffer (std_copy d (buffer b) (BeginOfWritable b)) (read_idx b)
           (write_idx b + length d))
    end
  else (-1, b)%Z.

(** [SSL_write] gets the readable bytes and their number as an [int]. *)
Definition WriteBytesToSsl (SSL_write : list byte -> Z -> Z) (b : BaseBuffer) : Z * BaseBuffer :=
  if USE_OPENSSL then
    let n := SSL_write (ToStringView b) (i32 (Z.of_nat (ReadableBytes b))) in
    (n, if (0 <? n)%Z then DropBytes (Z.to_nat n) b else b)
  else (-1, b)%Z.
End openssl.

(** ** Well-formedness and the view *)

(** The iterators are in order and inside the storage. *)
Definition wf (b : BaseBuffer) : Prop :=
  read_idx b <= write_idx b /\ write_idx b <= length (buffer b).

#[export] Instance wf_dec b : Decision (wf b).
Proof. unfold wf. apply _. Defined.

Ltac unfold_buffer :=
  unfold wf, ToStringView, ReadableBytes, WritableBytes, BeginOfReadable, BeginOfWritable,
    EndOfReadable, EndOfWritable in *; cbn [buffer read_idx write_idx] in *.

Lemma wf_init n : wf (BaseBuffer_init n).
Proof. unfold BaseBuffer_init. unfold_buffer. lia. Qed.

Lemma view_init n : view (BaseBuffer_init n) = [].
Proof. by apply slice_nil. Qed.

Lemma length_view b : wf b -> length (view b) = ReadableBytes b.
Proof. unfold_buffer. intros. rewrite length_slice. lia. Qed.

Lemma wf_DropAllBytes b : wf (DropAllBytes b).
Proof. unfold DropAllBytes. unfold_buffer. lia. Qed.

Lemma view_DropAllBytes b : view (DropAllBytes b) = [].
Proof. by apply slice_nil. Qed.

Lemma wf_DropBytes n b : wf b -> wf (DropBytes n b).
Proof.
  unfold DropBytes. intros. case_test; [apply wf_DropAllBytes|]. unfold_buffer. lia.
Qed.

Lemma view_DropBytes n b : wf b -> view (DropBytes n b) = drop n (view b).
Proof.
  intros Hwf. unfold DropBytes. case_test.
  - rewrite view_DropAllBytes, drop_ge; [done|]. by rewrite length_view.
  - unfold_buffer. by rewrite drop_slice.
Qed.

Lemma wf_Release b : wf (Release b).
Proof. unfold Release. unfold_buffer. simpl. lia. Qed.

Lemma wf_EnsureWritableSpace len b : wf b -> wf (EnsureWritableSpace len b).
Proof.
  unfold EnsureWritableSpace. intros. repeat case_test; [done| |]; unfold_buffer;
    rewrite ?length_std_copy, ?length_resize; rewrite ?length_slice; lia.
Qed.

Lemma view_EnsureWritableSpace len b : wf b -> view (EnsureWritableSpace len b) = view b.
Proof.
  unfold EnsureWritableSpace. intros Hwf. repeat case_test; [done| |]; unfold_buffer.
  - pose proof (slice_std_copy_at (slice (buffer b) (read_idx b) (write_idx b)) (buffer b) 0
      ltac:(lia)) as E.
    rewrite length_slice in E. rewrite Nat.min_l in E by lia. exact E.
  - rewrite resize_ge by lia. by rewrite slice_app_l by lia.
Qed.

Lemma WritableBytes_Ensure len b : wf b -> len <= WritableBytes (EnsureWritableSpace len b).
Proof.
  unfold EnsureWritableSpace. intros. repeat case_test; [done| |]; unfold_buffer;
    rewrite ?length_std_copy, ?length_resize; rewrite ?length_slice; lia.
Qed.

#[export] Hint Resolve wf_init wf_DropAllBytes wf_DropBytes wf_Release
  wf_EnsureWritableSpace : jerry.

(** Bytes placed in the free space by a callee extend the view. *)
Lemma view_filled d b :
  wf b -> length d <= WritableBytes b ->
  let b' := mkBuffer (std_copy d (buffer b) (write_idx b)) (read_idx b) (write_idx b + length d) in
  wf b' /\ view b' = view b ++ d.
Proof.
  intros Hwf Hd. unfold_buffer. split.
  - rewrite length_std_copy; lia.
  - rewrite slice_std_copy_ext by lia. done.
Qed.

Lemma Append_spec d b : wf b -> wf (Append d b) /\ view (Append d b) = view b ++ d.
Proof.
  intros Hwf. unfold Append. case_test.
  { destruct d; [|done]. by rewrite app_nil_r. }
  pose proof (view_filled d (EnsureWritableSpace (length d) b)
    (wf_EnsureWritableSpace _ _ Hwf) (WritableBytes_Ensure _ _ Hwf)) as [H1 H2].
  split; [exact H1|]. etransitivity; [exact H2|]. by rewrite view_EnsureWritableSpace.
Qed.

Lemma wf_Append d b : wf b -> wf (Append d b).
Proof. apply Append_spec. Qed.
Lemma view_Append d b : wf b -> view (Append d b) = view b ++ d.
Proof. apply Append_spec. Qed.
#[export] Hint Resolve wf_Append : jerry.

(** The loop of [DropBytesUntil]. *)
Lemma drop_until_loop_reach fuel pos b :
  read_idx b <= pos -> pos <= length (buffer b) -> pos - read_idx b <= fuel ->
  drop_until_loop fuel pos b = Ret (mkBuffer (buffer b) pos (write_idx b)).
Proof.
  revert b. induction fuel as [|fuel IH]; intros [l r w] Hr Hp Hf; cbn in *.
  - destruct (Nat.eqb_spec r pos); [by subst | lia].
  - destruct (Nat.eqb_spec r pos); [by subst|].
    destruct (Nat.ltb_spec r (length l)); [|lia].
    apply IH; cbn; lia.
Qed.

Lemma drop_until_loop_ub fuel pos b :
  read_idx b <= length (buffer b) -> pos < read_idx b \/ length (buffer b) < pos ->
  length (buffer b) - read_idx b < fuel ->
  drop_until_loop fuel pos b = Throw UndefinedBehaviour.
Proof.
  revert b. induction fuel as [|fuel IH]; intros [l r w] Hr Hp Hf; cbn in *; [lia|].
  destruct (Nat.eqb_spec r pos); [lia|].
  destruct (Nat.ltb_spec r (length l)); [|done].
  apply IH; cbn; lia.
Qed.

(** ** Properties *)

(** [readv] delivers at most what the vectors it was given can hold. *)
Definition readv_conforms (readv : list nat -> read_result) : Prop :=
  forall iov d, readv iov = ReadData d -> length d <= sum_list iov.

Definition readv_of (data : list byte) (iov : list nat) : read_result :=
  ReadData (take (sum_list iov) data).

(** [write] accepts at most 0x7ffff000 bytes on Linux. *)
Definition write_max : Z := 2147479552.
Definition write_of (n : nat) (v : list byte) : Z :=
  Z.min (Z.min (Z.of_nat n) write_max) (Z.of_nat (length v)).

(** [SSL_read] delivers at most what it is asked for, and [SSL_write] and [write]
    take at most what they are offered. *)
Definition ssl_read_conforms (rd : Z -> read_result) : Prop :=
  forall n d, rd n = ReadData d -> length d <= Z.to_nat n.
Definition write_conforms (wr : list byte -> Z) : Prop :=
  forall v, (- 2 ^ 31 <= wr v <= Z.min (Z.of_nat (length v)) write_max)%Z.

Lemma readv_of_conforms d : readv_conforms (readv_of d).
Proof. intros iov d' [= <-]. jlia. Qed.

Lemma i32_small z : (- 2 ^ 31 <= z < 2 ^ 31)%Z -> i32 z = z.
Proof. intros. unfold i32. rewrite Z.mod_small; lia. Qed.

Section read.
Context (readv : list nat -> read_result) (b : BaseBuffer).
Context (Hwf : wf b) (Hreadv : readv_conforms readv).

Definition iov_of : list nat :=
  if WritableBytes b <? extra_buffer_size
  then [WritableBytes b; extra_buffer_size] else [WritableBytes b].

Lemma ReadBytesFromFd_fail rc : readv iov_of = ReadFail rc -> ReadBytesFromFd readv b = (rc, b).
Proof. unfold ReadBytesFromFd, iov_of. by intros ->. Qed.

Lemma ReadBytesFromFd_delivered d :
  readv iov_of = ReadData d ->
  let '(n, b') := ReadBytesFromFd readv b in
  n = Z.of_nat (length d) /\ wf b' /\ view b' = view b ++ d.
Proof.
  intros Hd. pose proof (Hreadv _ _ Hd) as Hlen.
  unfold ReadBytesFromFd. fold iov_of. rewrite Hd.
  assert (Hin : length (take (WritableBytes b) d) <= WritableBytes b) by jlia.
  pose proof (view_filled (take (WritableBytes b) d) b Hwf Hin) as [Hw Hv].
  repeat case_test.
  - destruct d; [|done]. rewrite app_nil_r. split_and!; [done| |].
    + unfold_buffer. rewrite take_nil, std_copy_nil. lia.
    + unfold_buffer. by rewrite take_nil, std_copy_nil.
  - rewrite (take_ge d) in * by lia. unfold BeginOfWritable. eauto.
  - assert (Hfull : write_idx b + length (take (WritableBytes b) d) = length (buffer b)).
    { unfold_buffer. autorewrite with jlen. lia. }
    rewrite take_ge by (autorewrite with jlen; lia). unfold BeginOfWritable.
    rewrite length_std_copy by lia. rewrite Hfull in Hw, Hv.
    apply (Append_spec (drop (WritableBytes b) d)) in Hw as [Hw' Hv'].
    split_and!; [done..|]. rewrite Hv', Hv, <-app_assoc. by rewrite take_drop.
Qed.
End read.

Lemma WriteBytesToFd_spec write b n b' :
  wf b -> (forall v, - 2 ^ 31 <= write v <= Z.of_nat (length v))%Z ->
  (write (view b) < 2 ^ 31)%Z -> WriteBytesToFd write b = (n, b') ->
  n = write (view b) /\ wf b' /\ view b' = drop (Z.to_nat n) (view b).
Proof.
  intros Hwf Hw Hmax. unfold WriteBytesToFd. specialize (Hw (view b)).
  rewrite i32_small by lia. intros [= <- <-]. case_test.
  - by auto using wf_DropBytes, view_DropBytes.
  - split_and!; [done..|]. by replace (Z.to_nat _) with 0 by lia.
Qed.

Lemma i32_le z : (0 <= z)%Z -> (i32 z <= z)%Z.
Proof.
  intros. unfold i32. pose proof (Z.mod_le (z + 2 ^ 31) (2 ^ 32) ltac:(lia) ltac:(lia)). lia.
Qed.

(** [SSL_read] delivers at most the number of bytes it was asked for. *)
Lemma ReadBytesFromSsl_delivered rd b d :
  wf b -> (forall n d, rd n = ReadData d -> length d <= Z.to_nat n) ->
  rd (i32 (Z.of_nat (WritableBytes (EnsureWritableSpace 1024 b)))) = ReadData d ->
  exists b', ReadBytesFromSsl true rd b = (Z.of_nat (length d), b') /\ wf b' /\ view b' = view b ++ d.
Proof.
  intros Hwf Hrd E. unfold ReadBytesFromSsl. cbv zeta. rewrite E.
  apply Hrd in E. pose proof (i32_le (Z.of_nat (WritableBytes (EnsureWritableSpace 1024 b))) ltac:(lia)).
  pose proof (view_filled d (EnsureWritableSpace 1024 b) (wf_EnsureWritableSpace _ _ Hwf) ltac:(lia))
    as [Hw Hv].
  eexists. split; [done|]. split; [exact Hw|].
  etransitivity; [exact Hv|]. by rewrite view_EnsureWritableSpace.
Qed.

Lemma ReadBytesFromSsl_fail rd b n :
  rd (i32 (Z.of_nat (WritableBytes (EnsureWritableSpace 1024 b)))) = ReadFail n ->
  ReadBytesFromSsl true rd b = (n, EnsureWritableSpace 1024 b).
Proof. intros E. unfold ReadBytesFromSsl. cbv zeta. by rewrite E. Qed.

Lemma DropBytesUntil_readable n b :
  wf b -> n <= ReadableBytes b ->
  exists b', DropBytesUntil (BeginOfReadable b + n) b = Ret b' /\ wf b' /\ view b' = drop n (view b).
Proof.
  intros Hwf Hn. exists (mkBuffer (buffer b) (read_idx b + n) (write_idx b)). unfold_buffer. split_and!; try lia.
  - apply drop_until_loop_reach; lia.
  - by rewrite drop_slice.
Qed.

Lemma ReadBytesFromSsl_spec rd b :
  wf b -> ssl_read_conforms rd ->
  exists room, let '(n, b') := ReadBytesFromSsl true rd b in
    wf b' /\ match rd room with
             | ReadFail rc => n = rc /\ view b' = view b
             | ReadData d => n = Z.of_nat (length d) /\ view b' = view b ++ d
             end.
Proof.
  intros Hwf Hrd. exists (i32 (Z.of_nat (WritableBytes (EnsureWritableSpace 1024 b)))).
  destruct (rd _) as [rc|d] eqn:E.
  - rewrite (ReadBytesFromSsl_fail rd b rc E). auto using wf_EnsureWritableSpace, view_EnsureWritableSpace.
  - by destruct (ReadBytesFromSsl_delivered rd b d Hwf Hrd E) as (b' & -> & ? & ?).
Qed.

(** ** The abstract queue *)

(** The operations of a buffer, with what the kernel and OpenSSL answer. *)
Inductive buffer_op :=
| OpAppend (data : list byte)
| OpDropBytes (n : nat)
| OpDropBytesUntil (n : nat)   (* the iterator [n] bytes behind the begin of the readable ones *)
| OpDropAllBytes
| OpRelease
| OpEnsure (len : nat)
| OpFdRead (readv : list nat -> read_result)
| OpFdWrite (write : list byte -> Z)
| OpSslRead (SSL_read : Z -> read_result)
| OpSslWrite (SSL_write : list byte -> Z -> Z).

(** What an operation returns (0 for those that return nothing), and the buffer. *)
Definition run_op (op : buffer_op) (b : BaseBuffer) : outcome (Z * BaseBuffer) :=
  match op with
  | OpAppend d => Ret (0%Z, Append d b)
  | OpDropBytes n => Ret (0%Z, DropBytes n b)
  | OpDropBytesUntil n => b ← DropBytesUntil (BeginOfReadable b + n) b; Ret (0%Z, b)
  | OpDropAllBytes => Ret (0%Z, DropAllBytes b)
  | OpRelease => Ret (0%Z, Release b)
  | OpEnsure n => Ret (0%Z, EnsureWritableSpace n b)
  | OpFdRead readv => Ret (ReadBytesFromFd readv b)
  | OpFdWrite write => Ret (WriteBytesToFd write b)
  | OpSslRead rd => Ret (ReadBytesFromSsl true rd b)
  | OpSslWrite wr => Ret (WriteBytesToSsl true wr b)
  end.

Fixpoint run_ops (ops : list buffer_op) (b : BaseBuffer) : outcome (list Z * BaseBuffer) :=
  match ops with
  | [] => Ret ([], b)
  | op :: ops =>
      r ← run_op op b;
      rs ← run_ops ops r.2;
      Ret (r.1 :: rs.1, rs.2)
  end.

(** What a read adds to the queue: all that was delivered into the room offered. *)
Inductive received : read_result -> list byte -> Z -> list byte -> Prop :=
| RFail rc q : received (ReadFail rc) q rc q
| RData d q : received (ReadData d) q (Z.of_nat (length d)) (q ++ d).

(** What an operation returns and makes of a queue of bytes.  A read offers room
    of the buffer's choice, at least 64 KiB to [readv]; a write offers the whole
    queue. *)
Inductive queue_step : buffer_op -> list byte -> Z -> list byte -> Prop :=
| QAppend q d : queue_step (OpAppend d) q 0 (q ++ d)
| QDropBytes q n : queue_step (OpDropBytes n) q 0 (drop n q)
| QDropBytesUntil q n : queue_step (OpDropBytesUntil n) q 0 (drop n q)
| QDropAllBytes q : queue_step OpDropAllBytes q 0 []
| QRelease q : queue_step OpRelease q 0 []
| QEnsure q n : queue_step (OpEnsure n) q 0 q
| QFdRead q readv iov n q' :
    extra_buffer_size <= sum_list iov -> received (readv iov) q n q' -> queue_step (OpFdRead readv) q n q'
| QFdWrite q write : queue_step (OpFdWrite write) q (write q) (drop (Z.to_nat (write q)) q)
| QSslRead q rd room n q' : received (rd room) q n q' -> queue_step (OpSslRead rd) q n q'
| QSslWrite q wr :
    let n := wr q (i32 (Z.of_nat (length q))) in queue_step (OpSslWrite wr) q n (drop (Z.to_nat n) q).

Inductive queue_steps : list buffer_op -> list byte -> list Z -> list byte -> Prop :=
| QNil q : queue_steps [] q [] q
| QCons op ops q1 q2 q3 n ns :
    queue_step op q1 n q2 -> queue_steps ops q2 ns q3 -> queue_steps (op :: ops) q1 (n :: ns) q3.
#[export] Hint Constructors received queue_step queue_steps : jerry.

(** An iterator to drop until is a readable one, and the kernel and OpenSSL keep
    within the room they are given. *)
Definition op_allowed (op : buffer_op) (q : list byte) : Prop :=
  match op with
  | OpDropBytesUntil n => n <= length q
  | OpFdRead readv => readv_conforms readv
  | OpFdWrite write => write_conforms write
  | OpSslRead rd => ssl_read_conforms rd
  | _ => True
  end.

(** Each operation is allowed in whatever queue the ones before it leave. *)
Fixpoint ops_allowed (ops : list buffer_op) (q : list byte) : Prop :=
  match ops with
  | [] => True
  | op :: ops => op_allowed op q /\ forall n q', queue_step op q n q' -> ops_allowed ops q'
  end.

Lemma iov_of_spill b : extra_buffer_size <= sum_list (iov_of b).
Proof.
  unfold iov_of. generalize (WritableBytes b), extra_buffer_size. intros n x.
  destruct (Nat.ltb_spec n x); cbn; lia.
Qed.

Lemma WriteBytesToSsl_spec wr b :
  wf b ->
  let n := wr (view b) (i32 (Z.of_nat (length (view b)))) in
  exists b', WriteBytesToSsl true wr b = (n, b') /\ wf b' /\ view b' = drop (Z.to_nat n) (view b).
Proof.
  intros Hwf n. unfold WriteBytesToSsl. cbv zeta. rewrite <-length_view by done. fold n. case_test.
  - eexists. split; [done|]. by auto using wf_DropBytes, view_DropBytes.
  - exists b. replace (Z.to_nat n) with 0 by lia. by rewrite drop_0.
Qed.

Lemma run_op_step op b :
  wf b -> op_allowed op (view b) ->
  exists n b', run_op op b = Ret (n, b') /\ wf b' /\ queue_step op (view b) n (view b').
Proof.
  intros Hwf Hop. destruct op as [d|n|n| | |n|readv|write|rd|wr]; cbn [run_op op_allowed] in *.
  1,2,4,5,6: eexists _, _; split; [done|]; rewrite ?view_Append, ?view_DropBytes, ?view_DropAllBytes,
    ?view_EnsureWritableSpace by done; auto with jerry.
  - rewrite length_view in Hop by done. destruct (DropBytesUntil_readable n b Hwf Hop) as (b' & -> & ? & Hv).
    mrun. eexists _, _. split; [done|]. split; [done|]. rewrite Hv. constructor.
  - destruct (readv (iov_of b)) as [rc|d] eqn:E.
    + rewrite (ReadBytesFromFd_fail readv b rc E). eexists _, _. split; [done|]. split; [done|].
      eapply QFdRead; [apply iov_of_spill|]. rewrite E. constructor.
    + pose proof (ReadBytesFromFd_delivered readv b Hwf Hop d E) as H.
      destruct (ReadBytesFromFd readv b) as [n b']. destruct H as (-> & Hw & Hv).
      eexists _, _. split; [done|]. split; [done|]. rewrite Hv.
      eapply QFdRead; [apply iov_of_spill|]. rewrite E. constructor.
  - destruct (WriteBytesToFd write b) as [k b'] eqn:E. unfold write_conforms, write_max in Hop.
    destruct (WriteBytesToFd_spec write b k b' Hwf) as (-> & ? & Hv);
      [intros v; specialize (Hop v); lia | specialize (Hop (view b)); lia | done |].
    eexists _, _. split; [done|]. split; [done|]. rewrite Hv. constructor.
  - destruct (ReadBytesFromSsl_spec rd b Hwf Hop) as [room H]. destruct (ReadBytesFromSsl true rd b) as [n b'].
    destruct H as [Hw Hr]. eexists _, _. split; [done|]. split; [done|]. apply (QSslRead _ rd room).
    destruct (rd room); destruct Hr as [-> ->]; constructor.
  - destruct (WriteBytesToSsl_spec wr b Hwf) as (b' & -> & Hw & Hv). eexists _, _. split; [done|].
    split; [done|]. rewrite Hv. apply QSslWrite.
Qed.

(** C2: the buffer refines a byte queue.  Every sequence of operations - appends,
    drops up to a number or an iterator, releases, requests for space, reads
    from and writes to a descriptor or a TLS session - ends without a fault,
    keeps the iterators in order inside the storage, returns what the kernel or
    OpenSSL returned, and changes the readable bytes as it changes a queue: a
    read appends every byte that was delivered, a write takes off exactly the
    bytes that were accepted, and growing and compacting lose, duplicate and
    reorder nothing. *)
Theorem buffer_refines_queue (ops : list buffer_op) (b : BaseBuffer) :
  wf b -> ops_allowed ops (view b) ->
  exists ns b', run_ops ops b = Ret (ns, b') /\ wf b' /\ queue_steps ops (view b) ns (view b').
Proof.
  revert b. induction ops as [|op ops IH]; intros b Hwf Hall; cbn [run_ops]; [eauto with jerry|].
  destruct Hall as [Hop Hrest]. destruct (run_op_step op b Hwf Hop) as (n & b1 & -> & Hwf1 & Hstep).
  mrun. cbn [fst snd]. destruct (IH b1 Hwf1 (Hrest _ _ Hstep)) as (ns & b' & -> & ? & ?). mrun.
  exists (n :: ns), b'. eauto with jerry.
Qed.

(** A buffer of 16 bytes takes 12, sends 6, and reads 13 of which 4 have room;
    then a word is dropped and the rest is sent over TLS in two parts. *)
Lemma buffer_refines_queue_witness :
  let ops := [OpAppend (bytes "Hello World!"); OpFdWrite (write_of 6); OpFdRead (readv_of (bytes "Tom and Jerry"));
              OpDropBytesUntil 6; OpSslWrite (fun _ _ => 8%Z); OpSslRead (fun n => ReadData (take (Z.to_nat n) (bytes "!")))] in
  exists ns b, run_ops ops (BaseBuffer_init 16) = Ret (ns, b) /\ ns = [0; 6; 13; 0; 8; 1]%Z
    /\ view b = bytes "Jerry!" /\ wf b /\ queue_steps ops [] ns (view b).
Proof.
  intros ops. destruct (buffer_refines_queue ops (BaseBuffer_init 16)) as (ns & b & E & Hw & Hq).
  - vm_compute. lia.
  - change (view (BaseBuffer_init 16)) with (@nil byte). split; [done|]. intros n1 q1 H1.
    split; [intros v; unfold write_of, write_max; lia|]. intros n2 q2 H2.
    split; [apply readv_of_conforms|]. intros n3 q3 H3.
    inversion H1; subst. inversion H2; subst. inversion H3 as [| | | | | |? ? iov ? ? Hiov Hr| | |]; subst. inversion Hr; subst.
    split; [cbn [op_allowed]; rewrite length_app; apply Nat.le_trans with 6; [lia|apply Nat.le_add_r]|]. intros n4 q4 _. split; [done|]. intros n5 q5 _.
    split; [|done]. intros n d [= <-]. rewrite length_take. lia.
  - exists ns, b. assert (Hv : (fun r => (r.1, view r.2)) <$> run_ops ops (BaseBuffer_init 16) = Ret ([0; 6; 13; 0; 8; 1]%Z, bytes "Jerry!"))
      by (vm_compute; reflexivity).
    rewrite E in Hv. injection Hv as Hns Hv. by split_and!.
Defined.

(** Reading from a descriptor loses nothing.  Whatever number of bytes the
    kernel delivers into the free space and the 64 KiB spill buffer,
    [ReadBytesFromFd] returns that number and appends exactly those bytes. *)
Theorem ReadBytesFromFd_lossless (readv : list nat -> read_result) (b : BaseBuffer) (d : list byte) :
  wf b -> readv_conforms readv -> readv (iov_of b) = ReadData d ->
  let '(n, b') := ReadBytesFromFd readv b in
  n = Z.of_nat (length d) /\ wf b' /\ view b' = view b ++ d.
Proof. intros. by apply ReadBytesFromFd_delivered. Qed.

Lemma ReadBytesFromFd_lossless_witness :
  let b := Append (bytes "ab") (BaseBuffer_init 4) in
  let '(n, b') := ReadBytesFromFd (readv_of (bytes "Jerry")) b in
  n = 5%Z /\ wf b' /\ view b' = bytes "abJerry".
Proof.
  apply (ReadBytesFromFd_lossless (readv_of (bytes "Jerry"))
           (Append (bytes "ab") (BaseBuffer_init 4)) (bytes "Jerry")).
  - vm_compute. lia.
  - apply readv_of_conforms.
  - vm_compute. reflexivity.
Defined.

(** C40: [EnsureWritableSpace] never shrinks the storage, makes room for [len]
    bytes, keeps the data, reallocates only when dropped and free space together
    are too small, and then grows to the larger of [size + len] and 1.5 times
    the size. *)
Theorem EnsureWritableSpace_growth (len : nat) (b : BaseBuffer) :
  wf b ->
  let b' := EnsureWritableSpace len b in
  len <= WritableBytes b' /\ view b' = view b /\
  length (buffer b')
  = if len <=? length (buffer b) - ReadableBytes b then length (buffer b)
    else Nat.max (length (buffer b) + len) (length (buffer b) * 3 / 2).
Proof.
  intros Hwf. split_and!; [by apply WritableBytes_Ensure | by apply view_EnsureWritableSpace|].
  unfold EnsureWritableSpace. unfold_buffer.
  repeat case_test; cbn [buffer]; rewrite ?length_std_copy, ?length_resize;
    rewrite ?length_slice; lia.
Qed.

Lemma EnsureWritableSpace_growth_witness :
  let b := DropBytes 3 (Append (bytes "Jerry") (BaseBuffer_init 6)) in
  let b' := EnsureWritableSpace 5 b in
  5 <= WritableBytes b' /\ view b' = bytes "ry" /\ length (buffer b') = 11.
Proof.
  apply (EnsureWritableSpace_growth 5 (DropBytes 3 (Append (bytes "Jerry") (BaseBuffer_init 6)))).
  vm_compute. lia.
Defined.

(** The loop of [DropBytesUntil] stops exactly when its target lies between
    the read iterator and the end of the storage, with the read iterator there;
    otherwise it steps outside the storage.  It never loops for ever. *)
Theorem DropBytesUntil_spec (pos : nat) (b : BaseBuffer) :
  wf b ->
  DropBytesUntil pos b
  = if (read_idx b <=? pos) && (pos <=? length (buffer b))
    then Ret (mkBuffer (buffer b) pos (write_idx b))
    else Throw UndefinedBehaviour.
Proof.
  intros [Hr Hw]. unfold DropBytesUntil.
  repeat case_test; cbn [andb]; (apply drop_until_loop_reach || apply drop_until_loop_ub); lia.
Qed.

Lemma DropBytesUntil_spec_witness :
  let b := Append (bytes "Tom cat and Jerry") (BaseBuffer_init 32) in
  DropBytesUntil 4 b = Ret (mkBuffer (buffer b) 4 17).
Proof.
  apply (DropBytesUntil_spec 4 (Append (bytes "Tom cat and Jerry") (BaseBuffer_init 32))).
  vm_compute. lia.
Defined.
