(* ===== verification/BaseBufferTest.v ===== *)
(** * tests/BaseBufferTest.cc: the repository's own tests of the buffer

    Each scenario of the test file as a function that runs it and checks its
    requirements; all of them hold of the model. *)

From S2P Require Import Prelude CxxStd BaseBuffer.

(** [GIVEN("A empty Buffer")] *)
Definition given : BaseBuffer := BaseBuffer_init 1024.
Definition is_empty (b : BaseBuffer) : bool :=
  (ReadableBytes b =? 0) && (WritableBytes b =? 1024) && bool_decide (ToStringView b = []).

Definition s1 : list byte := bytes "Hello World!".
Definition s2 : list byte := bytes "Tom cat and Jerry".
Definition when_appended : BaseBuffer := Append s2 (Append s1 given).

Definition then_check : bool :=
  let b := when_appended in
  (ReadableBytes b =? length s1 + length s2) && (WritableBytes b =? 1024 - (length s1 + length s2))
  && bool_decide (ToStringView b = bytes "Hello World!Tom cat and Jerry")
  && bool_decide (slice (buffer b) (BeginOfReadable b) (BeginOfReadable b + ReadableBytes b)
                  = bytes "Hello World!Tom cat and Jerry").

Definition then_drop_bytes : bool :=
  let b := DropBytes 4 when_appended in
  (ReadableBytes b =? length s1 + length s2 - 4) && (WritableBytes b =? 1024 - (length s1 + length s2))
  && bool_decide (ToStringView b = bytes "o World!Tom cat and Jerry").

Definition then_drop_until : outcome bool :=
  let b := when_appended in
  let iter := std_search (buffer b) (BeginOfReadable b) (EndOfReadable b) (bytes "cat") in
  let found := negb (iter =? EndOfReadable b) && bool_decide (buffer b !! iter = Some Byte.x63) in
  b ← DropBytesUntil iter b;
  Ret (found && (ReadableBytes b =? 13) && (WritableBytes b =? 1024 - (length s1 + length s2))
       && bool_decide (ToStringView b = bytes "cat and Jerry")).

Definition then_drop_all : bool := is_empty (DropAllBytes when_appended).

(** [read] and [readv] on /dev/zero fill what they are given. *)
Definition dev_zero (iov : list nat) : read_result := ReadData (replicate (sum_list iov) Byte.x00).

Definition when_read : bool :=
  let b := given in
  let before := (ReadableBytes b =? 0) && (WritableBytes b =? 1024) in
  let '(n, b) := ReadBytesFromFd dev_zero b in
  let read := (n =? 1024 + 65535)%Z && (Z.of_nat (ReadableBytes b) =? 1024 + 65535)%Z && (WritableBytes b =? 0) in
  let b := DropBytes 10 b in
  let dropped := (Z.of_nat (ReadableBytes b) =? 1024 + 65535 - 10)%Z && (WritableBytes b =? 0) in
  let b := Append (bytes "abc") b in
  before && read && dropped && (Z.of_nat (ReadableBytes b) =? 1024 + 65535 - 10 + 3)%Z && (WritableBytes b =? 7).

Definition when_read_more : bool :=
  let b := given in
  let before := (ReadableBytes b =? 0) && (WritableBytes b =? 1024) in
  let '(n, b) := ReadBytesFromFd dev_zero b in
  let b := Append (bytes "Hello") b in
  before && (n =? 1024 + 65535)%Z && (Z.of_nat (ReadableBytes b) =? 1024 + 65535 + 5)%Z && (0 <? WritableBytes b).

(** The scenarios without system calls. *)
Theorem append_tests_hold :
  is_empty given = true /\ then_check = true /\ then_drop_bytes = true /\ then_drop_until = Ret true
  /\ then_drop_all = true.
Proof. split_and!; vm_compute; reflexivity. Qed.

(** The two scenarios that read: the read fills the buffer and the 64 KB array, and the
    later append reuses the space in front of the data. *)
Theorem read_tests_hold : when_read = true /\ when_read_more = true.
Proof. split; vm_compute; reflexivity. Qed.
