(* ===== verification/HttpReq.v ===== *)
(** * proto/http/HttpReq: a parsed HTTP request

    The request object the decoder fills, its read accessors, and
    [ToString].  [headers] is a [std::map] under the case-insensitive
    comparator, kept as a sorted association list. *)

From S2P Require Import Prelude CxxStd CxxMap.

Inductive Method := OPTIONS | GET | HEAD | POST | PUT | DELETE | TRACE | CONNECT.
Inductive HttpVersion := Http10 | Http11.

#[export] Instance Method_eq_dec : EqDecision Method.
Proof. solve_decision. Defined.
#[export] Instance HttpVersion_eq_dec : EqDecision HttpVersion.
Proof. solve_decision. Defined.

(** The enumerators' values: [enum class Method : uint8_t]. *)
Definition Method_value (m : Method) : Z :=
  match m with
  | OPTIONS => 0 | GET => 1 | HEAD => 2 | POST => 3 | PUT => 4 | DELETE => 5
  | TRACE => 6 | CONNECT => 7
  end.
Definition HttpVersion_value (v : HttpVersion) : Z :=
  match v with Http10 => 0 | Http11 => 1 end.

Abbreviation Headers := (list (list byte * list byte)).

Record HttpReq := mkReq {
  body : list byte;
  request_uri : list byte;
  headers : Headers;
  method : Method;
  version : HttpVersion;
  is_body_truncated : bool;
}.

(** [HttpReq req{}]: value-initialised, so the enumerators are 0. *)
Definition HttpReq_init : HttpReq := mkReq [] [] [] OPTIONS Http10 false.

(** What [std::move(req)] leaves: the strings and the map are emptied. *)
Definition moved_req (r : HttpReq) : HttpReq :=
  mkReq [] [] [] (method r) (version r) (is_body_truncated r).

(** [CaseInsensitiveComparator]. *)
Definition CaseInsensitiveComparator (lhs rhs : list byte) : bool := strcasecmp_lt lhs rhs.
#[export] Instance CaseInsensitiveComparator_strict : StrictWeak CaseInsensitiveComparator.
Proof. unfold CaseInsensitiveComparator. apply _. Qed.

(** A [static const std::map] built from its initialiser list. *)
Definition map_of_list {K V} (lt : K -> K -> bool) (l : list (K * V)) : list (K * V) :=
  foldl (fun m p => map_emplace lt p.1 p.2 m) [] l.

Definition map_at {K V} (lt : K -> K -> bool) (k : K) (m : list (K * V)) : outcome V :=
  match map_find lt k m with Some v => Ret v | None => Throw OutOfRange end.

Definition HttpReq_method_map : list (Z * list byte) :=
  map_of_list Z.ltb
    [(Method_value GET, bytes "GET"); (Method_value POST, bytes "POST");
     (Method_value HEAD, bytes "HEAD"); (Method_value HEAD, bytes "HEAD");
     (Method_value HEAD, bytes "HEAD"); (Method_value DELETE, bytes "DELETE");
     (Method_value OPTIONS, bytes "OPTIONS"); (Method_value TRACE, bytes "TRACE")].

Definition HttpReq_version_map : list (Z * list byte) :=
  map_of_list Z.ltb
    [(HttpVersion_value Http10, bytes "HTTP/1.0"); (HttpVersion_value Http11, bytes "HTTP/1.1")].

Definition GetBody (r : HttpReq) : list byte := body r.
Definition GetRequestUri (r : HttpReq) : list byte := request_uri r.

(** [headers.find(name.data())]: the key is the C string at the view's start. *)
Definition GetHeader (name : list byte) (r : HttpReq) : option (list byte) :=
  map_find CaseInsensitiveComparator (c_str name) (headers r).

Definition GetVersion (r : HttpReq) : HttpVersion := version r.
Definition GetMethod (r : HttpReq) : Method := method r.

Definition GetMethodString (r : HttpReq) : outcome (list byte) :=
  map_at Z.ltb (Method_value (method r)) HttpReq_method_map.
Definition GetVersionString (r : HttpReq) : outcome (list byte) :=
  map_at Z.ltb (HttpVersion_value (version r)) HttpReq_version_map.
Definition IsBodyTruncated (r : HttpReq) : bool := is_body_truncated r.

Definition ToString (r : HttpReq) : outcome (list byte) :=
  m ← GetMethodString r;
  v ← GetVersionString r;
  Ret (m ++ bytes " " ++ GetRequestUri r ++ bytes " " ++ v ++ [Byte.x0a]
       ++ mjoin ((fun h => h.1 ++ bytes ": " ++ h.2 ++ [Byte.x0a]) <$> headers r)
       ++ [Byte.x0a] ++ GetBody r).

(** A header is found whatever the case of its name. *)
Lemma GetHeader_casefold (a b : list byte) (r : HttpReq) :
  casefold a = casefold b -> GetHeader a r = GetHeader b r.
Proof.
  intros E. unfold GetHeader. apply map_find_equiv; [apply _|].
  assert (H : forall s, casefold (c_str s) = casefold s).
  { intros s. unfold casefold. rewrite (c_str_no_nul (c_str s)); [done|]. apply c_str_never_nul. }
  unfold equiv_key, CaseInsensitiveComparator, strcasecmp_lt.
  by rewrite !H, E, lex_lt_irrefl.
Qed.
