(* ===== verification/HttpReqDecoder.v ===== *)
(** * proto/http/HttpReqDecoder: the incremental HTTP request parser

    The decoder is a state machine over the receive buffer of its connection.
    [view]-level functions ([line_view], [headers_view]) specify it as a parser
    of byte strings; the refinement lemmas relate the iterators of the code to
    them, and the theorems at the end state what [Decode] returns. *)

From S2P Require Import Prelude CxxStd CxxMap BaseBuffer HttpReq.

Definition CR : byte := Byte.x0d.
Definition LF : byte := Byte.x0a.
Definition SP : byte := Byte.x20.
Definition COLON : byte := Byte.x3a.
Definition CRLF : list byte := [CR; LF].

Definition method_map : list (list byte * Method) :=
  map_of_list lex_lt
    [(bytes "GET", GET); (bytes "POST", POST); (bytes "HEAD", HEAD); (bytes "HEAD", HEAD);
     (bytes "HEAD", HEAD); (bytes "DELETE", DELETE); (bytes "OPTIONS", OPTIONS);
     (bytes "TRACE", TRACE)].

Definition version_map : list (list byte * HttpVersion) :=
  map_of_list lex_lt [(bytes "HTTP/1.0", Http10); (bytes "HTTP/1.1", Http11)].

Inductive State := kExpectRequestLine | kExpectHeaders | kExpectBody | kParseFinished.

#[export] Instance State_eq_dec : EqDecision State.
Proof. solve_decision. Defined.

Record HttpReqDecoder := mkDecoder {
  req : HttpReq;
  body_max_bytes : Z;
  state : State;
  dbuf : BaseBuffer;   (* the reference [net::BaseBuffer& buffer] *)
}.

(** [HttpReqDecoder(buffer)]; the default body limit is 2 MB. *)
Definition HttpReqDecoder_init (b : BaseBuffer) : HttpReqDecoder :=
  mkDecoder HttpReq_init (2 * 1024 * 1024) kExpectRequestLine b.

Definition SetBodyMaxBytes (n : Z) (d : HttpReqDecoder) : HttpReqDecoder :=
  mkDecoder (req d) n (state d) (dbuf d).

(** Assignments to one member. *)
Definition set_buffer (b : BaseBuffer) (d : HttpReqDecoder) : HttpReqDecoder :=
  mkDecoder (req d) (body_max_bytes d) (state d) b.
Definition set_state (s : State) (d : HttpReqDecoder) : HttpReqDecoder :=
  mkDecoder (req d) (body_max_bytes d) s (dbuf d).
Definition set_req (r : HttpReq) (d : HttpReqDecoder) : HttpReqDecoder :=
  mkDecoder r (body_max_bytes d) (state d) (dbuf d).
Definition set_method (m : Method) (r : HttpReq) : HttpReq :=
  mkReq (body r) (request_uri r) (headers r) m (version r) (is_body_truncated r).
Definition set_uri (u : list byte) (r : HttpReq) : HttpReq :=
  mkReq (body r) u (headers r) (method r) (version r) (is_body_truncated r).
Definition set_version (v : HttpVersion) (r : HttpReq) : HttpReq :=
  mkReq (body r) (request_uri r) (headers r) (method r) v (is_body_truncated r).
Definition set_headers (h : Headers) (r : HttpReq) : HttpReq :=
  mkReq (body r) (request_uri r) h (method r) (version r) (is_body_truncated r).
Definition set_body (bd : list byte) (r : HttpReq) : HttpReq :=
  mkReq bd (request_uri r) (headers r) (method r) (version r) (is_body_truncated r).
Definition set_truncated (t : bool) (r : HttpReq) : HttpReq :=
  mkReq (body r) (request_uri r) (headers r) (method r) (version r) t.

(** Returns what the function returns and the decoder it leaves. *)
Definition ParseRequestLine (d : HttpReqDecoder) : outcome (bool * HttpReqDecoder) :=
  let b := dbuf d in
  let sp1 := std_find (buffer b) (BeginOfReadable b) (EndOfReadable b) SP in
  if sp1 =? EndOfReadable b then
    if 7 <=? ReadableBytes b then Ret (false, set_buffer (DropAllBytes b) d)
    else Ret (false, d)
  else
    let method_str := slice (buffer b) (BeginOfReadable b) sp1 in
    match map_find lex_lt method_str method_map with
    | None => Ret (false, set_buffer (DropAllBytes b) d)
    | Some m =>
        let d := set_req (set_method m (req d)) d in
        let sp2 := std_find (buffer b) (sp1 + 1) (EndOfReadable b) SP in
        if sp2 =? EndOfReadable b then Ret (false, d)
        else
          let d := set_req (set_uri (slice (buffer b) (sp1 + 1) sp2) (req d)) d in
          let crlf := std_search (buffer b) (sp2 + 1) (EndOfReadable b) CRLF in
          if crlf =? EndOfReadable b then Ret (false, d)
          else
            let version_str := slice (buffer b) (sp2 + 1) crlf in
            v ← map_at lex_lt version_str version_map;
            let d := set_req (set_version v (req d)) d in
            b' ← DropBytesUntil (crlf + 2) b;
            Ret (true, set_state kExpectHeaders (set_buffer b' d))
    end.

(** The test [*begin == '\r' && *next(begin) == '\n'] reads the storage, also
    past the readable bytes. *)
Definition at_end_of_headers (b : BaseBuffer) : outcome bool :=
  c ← deref (buffer b) (BeginOfReadable b);
  if decide (c = CR) then
    c' ← deref (buffer b) (BeginOfReadable b + 1);
    Ret (bool_decide (c' = LF))
  else Ret false.

Fixpoint parse_headers_loop (fuel : nat) (d : HttpReqDecoder) : outcome (bool * HttpReqDecoder) :=
  match fuel with
  | 0 => Throw OutOfFuel
  | S fuel' =>
      let b := dbuf d in
      fin ← at_end_of_headers b;
      if fin : bool then
        Ret (true, set_state kExpectBody (set_buffer (DropBytes 2 b) d))
      else
        let colon := std_find (buffer b) (BeginOfReadable b) (EndOfReadable b) COLON in
        if colon =? EndOfReadable b then Ret (false, d)
        else
          let crlf := std_search (buffer b) (colon + 1) (EndOfReadable b) CRLF in
          if crlf =? EndOfReadable b then Ret (false, d)
          else
            let name := slice (buffer b) (BeginOfReadable b) colon in
            c ← deref (buffer b) (colon + 1);
            let value_pos := if decide (c = SP) then colon + 2 else colon + 1 in
            let value := slice (buffer b) value_pos crlf in
            let hs := map_emplace CaseInsensitiveComparator name value (headers (req d)) in
            b' ← DropBytesUntil (crlf + 2) b;
            parse_headers_loop fuel' (set_buffer b' (set_req (set_headers hs (req d)) d))
  end.

(** Every turn but the last consumes readable bytes. *)
Definition ParseHeaders (d : HttpReqDecoder) : outcome (bool * HttpReqDecoder) :=
  parse_headers_loop (S (ReadableBytes (dbuf d))) d.

Definition ParseBody (d : HttpReqDecoder) : HttpReqDecoder :=
  let b := dbuf d in
  let max_size := Z.min (Z.of_nat (ReadableBytes b)) (body_max_bytes d) in
  let r := if (body_max_bytes d <? max_size)%Z then set_truncated true (req d) else req d in
  let bd := slice (buffer b) (BeginOfReadable b) (BeginOfReadable b + Z.to_nat max_size) in
  set_buffer (DropAllBytes b) (set_state kParseFinished (set_req (set_body bd r) d)).

(** The [while (true) switch (state)] loop. *)
Fixpoint decode_loop (ndebug : bool) (fuel : nat) (d : HttpReqDecoder)
    : outcome (option HttpReq * HttpReqDecoder) :=
  match fuel with
  | 0 => Throw OutOfFuel
  | S fuel' =>
      match state d with
      | kExpectRequestLine =>
          _ ← cassert ndebug (is_empty (headers (req d)));
          _ ← cassert ndebug (is_empty (body (req d)));
          r ← ParseRequestLine d;
          let '(ok, d') := (r : bool * HttpReqDecoder) in
          if ok then decode_loop ndebug fuel' d' else Ret (None, d')
      | kExpectHeaders =>
          r ← ParseHeaders d;
          let '(ok, d') := (r : bool * HttpReqDecoder) in
          if ok then decode_loop ndebug fuel' d' else Ret (None, d')
      | kExpectBody => decode_loop ndebug fuel' (ParseBody d)
      | kParseFinished =>
          Ret (Some (req d), set_req (moved_req (req d)) (set_state kExpectRequestLine d))
      end
  end.

(** Four turns are enough: each turn but the last moves to a later state. *)
Definition Decode (ndebug : bool) (d : HttpReqDecoder) : outcome (option HttpReq * HttpReqDecoder) :=
  decode_loop ndebug 4 d.

(** What another [ReadBytesFromFd] before the next [Decode] does to the decoder. *)
Definition receive (data : list byte) (d : HttpReqDecoder) : HttpReqDecoder :=
  set_buffer (Append data (dbuf d)) d.

(** ** The parser of byte strings the decoder refines *)

Inductive line_result :=
| LineDrop                                    (* garbage: everything is dropped *)
| LineWait (q : HttpReq)                      (* incomplete: nothing is consumed *)
| LineThrow                                   (* unknown HTTP version *)
| LineDone (q : HttpReq) (rest : list byte).

Definition line_view (v : list byte) (q : HttpReq) : line_result :=
  let i := find_idx SP v in
  if i =? length v then if 7 <=? length v then LineDrop else LineWait q
  else
    match map_find lex_lt (take i v) method_map with
    | None => LineDrop
    | Some m =>
        let q := set_method m q in
        let v2 := drop (i + 1) v in
        let j := find_idx SP v2 in
        if j =? length v2 then LineWait q
        else
          let q := set_uri (take j v2) q in
          let v3 := drop (j + 1) v2 in
          let k := search_idx CRLF v3 in
          if k =? length v3 then LineWait q
          else
            match map_find lex_lt (take k v3) version_map with
            | None => LineThrow
            | Some ver => LineDone (set_version ver q) (drop (k + 2) v3)
            end
    end.

Inductive headers_result :=
| HeadersWait (hs : Headers) (rest : list byte)
| HeadersDone (hs : Headers) (rest : list byte)
| HeadersFuel.

Definition header_value (v2 : list byte) (k : nat) : list byte :=
  slice v2 (if decide (v2 !! 0 = Some SP) then 1 else 0) k.

(** A complete header line at the front of [v]: name, value, bytes consumed. *)
Definition header_line (v : list byte) : option (list byte * list byte * nat) :=
  let i := find_idx COLON v in
  if i =? length v then None
  else
    let v2 := drop (i + 1) v in
    let k := search_idx CRLF v2 in
    if k =? length v2 then None else Some (take i v, header_value v2 k, i + 1 + k + 2).

Fixpoint headers_view (fuel : nat) (v : list byte) (hs : Headers) : headers_result :=
  match fuel with
  | 0 => HeadersFuel
  | S fuel' =>
      if prefix_b CRLF v then HeadersDone hs (drop 2 v)
      else
        match header_line v with
        | None => HeadersWait hs v
        | Some (name, value, n) =>
            headers_view fuel' (drop n v) (map_emplace CaseInsensitiveComparator name value hs)
        end
  end.

Section cursors.
Context (b : BaseBuffer) (Hwf : wf b).
Abbreviation r := (read_idx b).
Abbreviation w := (write_idx b).

Lemma length_view_rw : length (view b) = w - r.
Proof. by rewrite length_view. Qed.

Lemma slice_cursor k : slice (buffer b) (r + k) w = drop k (view b).
Proof. unfold_buffer. by rewrite drop_slice. Qed.

Lemma slice_cursors i j : r + j <= w -> slice (buffer b) (r + i) (r + j) = take (j - i) (drop i (view b)).
Proof.
  intros. rewrite <-slice_cursor. unfold slice. rewrite take_take. f_equal. lia.
Qed.

Lemma find_cursor c k : std_find (buffer b) (r + k) w c = r + (k + find_idx c (drop k (view b))).
Proof. unfold std_find. rewrite slice_cursor. lia. Qed.

Lemma find_cursor_0 c : std_find (buffer b) r w c = r + find_idx c (view b).
Proof. done. Qed.

Lemma search_cursor pat k :
  std_search (buffer b) (r + k) w pat = r + (k + search_idx pat (drop k (view b))).
Proof. unfold std_search. rewrite slice_cursor. lia. Qed.

Lemma deref_cursor k c : view b !! k = Some c -> deref (buffer b) (r + k) = Ret c.
Proof.
  intros Hc. pose proof (lookup_lt_Some _ _ _ Hc) as Hk. rewrite length_view_rw in Hk.
  unfold deref. unfold_buffer. rewrite slice_lookup in Hc by lia. by rewrite Hc.
Qed.

(** [DropBytesUntil] to a cursor consumes the bytes in front of it. *)
Lemma DropBytesUntil_cursor k :
  r + k <= w ->
  let b' := mkBuffer (buffer b) (r + k) w in
  DropBytesUntil (r + k) b = Ret b' /\ wf b' /\ view b' = drop k (view b).
Proof.
  intros Hk. split_and!.
  - unfold DropBytesUntil. destruct Hwf. apply drop_until_loop_reach; lia.
  - unfold_buffer. lia.
  - unfold_buffer. by rewrite drop_slice.
Qed.
End cursors.

Lemma length_CRLF : length CRLF = 2. Proof. done. Qed.

(** Where a search for CRLF succeeds, both bytes are there. *)
Lemma search_CRLF_room v : search_idx CRLF v <> length v -> search_idx CRLF v + 2 <= length v.
Proof.
  intros Hne. pose proof (search_idx_le CRLF v).
  pose proof (search_idx_found CRLF v ltac:(done) ltac:(lia)) as [k Hk]%prefix_b_true.
  apply (f_equal length) in Hk. rewrite length_app, length_drop, length_CRLF in Hk. lia.
Qed.

(** The outcome of [ParseRequestLine] that a [line_result] stands for. *)
Definition line_refines (d : HttpReqDecoder) (res : line_result)
    (out : outcome (bool * HttpReqDecoder)) : Prop :=
  match res with
  | LineDrop => out = Ret (false, set_buffer (DropAllBytes (dbuf d)) d)
  | LineWait q => out = Ret (false, set_req q d)
  | LineThrow => out = Throw OutOfRange
  | LineDone q rest => exists b', wf b' /\ view b' = rest
      /\ write_idx b' = write_idx (dbuf d) /\ buffer b' = buffer (dbuf d)
      /\ out = Ret (true, set_state kExpectHeaders (set_buffer b' (set_req q d)))
  end.

(** Compares the code's test on iterators with the test on the view. *)
Ltac both_tests H :=
  match goal with
  | |- context [?i =? length ?v] =>
      destruct (Nat.eqb_spec i (length v)) as [H|H]
  end;
  match goal with
  | |- context [?a =? write_idx ?b] => destruct (Nat.eqb_spec a (write_idx b)); try lia
  end.

Lemma ParseRequestLine_refines d :
  wf (dbuf d) -> line_refines d (line_view (view (dbuf d)) (req d)) (ParseRequestLine d).
Proof.
  intros Hwf. destruct d as [q mx st b]. cbn [dbuf req] in *.
  pose proof (length_view_rw b Hwf) as Hlen. pose proof Hwf as [Hr Hw].
  unfold ParseRequestLine, line_view. cbn [dbuf req].
  unfold BeginOfReadable, EndOfReadable. rewrite find_cursor_0.
  pose proof (find_idx_le SP (view b)) as Hi. set (i := find_idx SP (view b)) in *.
  both_tests E1.
  { rewrite <-length_view by done. by case_test. }
  pose proof (slice_cursors b 0 i ltac:(lia)) as Hm.
  rewrite Nat.add_0_r, Nat.sub_0_r, drop_0 in Hm. rewrite Hm.
  destruct (map_find lex_lt (take i (view b)) method_map) as [m|]; [|done].
  replace (read_idx b + i + 1) with (read_idx b + (i + 1)) by lia. rewrite find_cursor by done.
  set (v2 := drop (i + 1) (view b)).
  assert (Hl2 : length v2 = length (view b) - (i + 1)) by apply length_drop.
  pose proof (find_idx_le SP v2) as Hj. set (j := find_idx SP v2) in *.
  both_tests E2; [done|].
  rewrite slice_cursors by lia. fold v2. replace (i + 1 + j - (i + 1)) with j by lia.
  replace (read_idx b + (i + 1 + j) + 1) with (read_idx b + (i + 1 + j + 1)) by lia.
  rewrite search_cursor by done.
  assert (Hv3 : drop (i + 1 + j + 1) (view b) = drop (j + 1) v2)
    by (unfold v2; rewrite drop_drop; f_equal; lia).
  rewrite Hv3. set (v3 := drop (j + 1) v2).
  assert (Hl3 : length v3 = length v2 - (j + 1)) by apply length_drop.
  pose proof (search_idx_le CRLF v3) as Hk.
  pose proof (search_CRLF_room v3) as Hroom. set (k := search_idx CRLF v3) in *.
  both_tests E3; [done|].
  rewrite slice_cursors by lia. rewrite Hv3. fold v3.
  replace (i + 1 + j + 1 + k - (i + 1 + j + 1)) with k by lia.
  unfold map_at. destruct (map_find lex_lt (take k v3) version_map) as [ver|]; [|done].
  mrun.
  replace (read_idx b + (i + 1 + j + 1 + k) + 2) with (read_idx b + (i + 1 + j + 1 + k + 2)) by lia.
  specialize (Hroom E3).
  destruct (DropBytesUntil_cursor b Hwf (i + 1 + j + 1 + k + 2) ltac:(lia)) as (-> & Hw' & Hv').
  eexists. split_and!; [exact Hw'| |done..]. rewrite Hv'. unfold v3, v2.
  rewrite !drop_drop. f_equal. lia.
Qed.

(** The byte behind the readable ones cannot be mistaken for half of a CRLF. *)
Definition clean (b : BaseBuffer) : Prop :=
  exists c, buffer b !! write_idx b = Some c /\ c <> CR /\ c <> LF.

Lemma prefix_CRLF v : prefix_b CRLF v = bool_decide (v !! 0 = Some CR /\ v !! 1 = Some LF).
Proof.
  destruct v as [|x [|y v]]; unfold CRLF; cbn [prefix_b lookup list_lookup].
  - symmetry. apply bool_decide_eq_false. by intros [? ?].
  - rewrite andb_false_r. symmetry. apply bool_decide_eq_false. by intros [? ?].
  - rewrite andb_true_r. rewrite <-bool_decide_and. apply bool_decide_ext. naive_solver.
Qed.

Lemma deref_at_clean b k c :
  buffer b !! write_idx b = Some c -> read_idx b + k = write_idx b -> deref (buffer b) (read_idx b + k) = Ret c.
Proof. unfold deref. intros H ->. by rewrite H. Qed.

Lemma at_end_refines b :
  wf b -> clean b \/ 2 <= length (view b) -> at_end_of_headers b = Ret (prefix_b CRLF (view b)).
Proof.
  intros Hwf Hc. rewrite prefix_CRLF. unfold at_end_of_headers, BeginOfReadable.
  pose proof (length_view_rw b Hwf) as Hlen. pose proof Hwf as [Hr Hw].
  pose proof (fun k => deref_cursor b Hwf k) as Hd.
  rewrite <-(Nat.add_0_r (read_idx b)) at 1.
  destruct (view b) as [|x [|y v]] eqn:E; cbn [length lookup list_lookup] in *.
  - destruct Hc as [(c & Hc & H1 & H2)|]; [|lia].
    rewrite (deref_at_clean b 0 c) by (done || lia). mrun. rewrite decide_False by done.
    apply (f_equal Ret). symmetry. apply bool_decide_false. by intros [? _].
  - rewrite (Hd 0 x eq_refl). mrun. destruct (decide (x = CR)) as [->|Hx]; mrun.
    + destruct Hc as [(c & Hc & H1 & H2)|]; [|lia].
      rewrite (deref_at_clean b 1 c) by (done || lia). mrun.
      apply (f_equal Ret). rewrite bool_decide_false by done. symmetry. apply bool_decide_false. by intros [_ ?].
    + apply (f_equal Ret). symmetry. apply bool_decide_false. intros [? _]. naive_solver.
  - rewrite (Hd 0 x eq_refl). mrun. destruct (decide (x = CR)) as [->|Hx]; mrun.
    + rewrite (Hd 1 y eq_refl). mrun. apply (f_equal Ret). apply bool_decide_ext. naive_solver.
    + apply (f_equal Ret). symmetry. apply bool_decide_false. intros [? _]. naive_solver.
Qed.

Definition is_done (res : headers_result) : Prop :=
  match res with HeadersDone _ _ => True | _ => False end.

Lemma header_line_bound v name value n :
  header_line v = Some (name, value, n) -> 3 <= n <= length v.
Proof.
  unfold header_line. intros H. pose proof (find_idx_le COLON v).
  destruct (Nat.eqb_spec (find_idx COLON v) (length v)); [done|].
  pose proof (search_CRLF_room (drop (find_idx COLON v + 1) v)) as Hk.
  destruct (Nat.eqb_spec (search_idx CRLF (drop (find_idx COLON v + 1) v))
              (length (drop (find_idx COLON v + 1) v))); [done|].
  injection H as _ _ <-. specialize (Hk ltac:(done)). rewrite length_drop in Hk. lia.
Qed.

(** A parse that completes never looks behind the readable bytes. *)
Lemma headers_done_long fuel v hs : is_done (headers_view fuel v hs) -> 2 <= length v.
Proof.
  destruct fuel; cbn [headers_view]; [done|]. destruct (prefix_b CRLF v) eqn:E.
  { apply prefix_b_true in E as [k ->]. intros _. rewrite length_app, length_CRLF. lia. }
  destruct (header_line v) as [[[name value] n]|] eqn:El; [|done].
  apply header_line_bound in El. lia.
Qed.

Lemma search_CRLF_cons_SP v : search_idx CRLF (SP :: v) = S (search_idx CRLF v).
Proof. done. Qed.

Lemma search_CRLF_SP v : v !! 0 = Some SP -> 1 <= search_idx CRLF v.
Proof.
  destruct v as [|x v]; [done|]. intros [= ->]. rewrite search_CRLF_cons_SP. lia.
Qed.

(** The value of a header line, at the iterators of the code. *)
Lemma header_value_cursor b i k c :
  wf b -> let v2 := drop (i + 1) (view b) in
  v2 !! 0 = Some c -> (c = SP -> 1 <= k) -> read_idx b + (i + 1 + k) <= write_idx b ->
  slice (buffer b) (if decide (c = SP) then read_idx b + i + 2 else read_idx b + (i + 1))
    (read_idx b + (i + 1 + k)) = header_value v2 k.
Proof.
  intros Hwf v2 Hc Hk Hle. unfold header_value. rewrite Hc.
  destruct (decide (c = SP)) as [->|Hne].
  - rewrite decide_True by done.
    replace (read_idx b + i + 2) with (read_idx b + (i + 2)) by lia.
    rewrite slice_cursors by lia. unfold slice, v2. rewrite drop_drop. do 2 (f_equal; try lia).
  - rewrite decide_False by naive_solver.
    rewrite slice_cursors by lia. unfold slice, v2. rewrite drop_drop. do 2 (f_equal; try lia).
Qed.

(** The decoder after one header line of [n] bytes. *)
Definition take_line (name value : list byte) (n : nat) (d : HttpReqDecoder) : HttpReqDecoder :=
  let b := dbuf d in
  set_buffer (mkBuffer (buffer b) (read_idx b + n) (write_idx b))
    (set_req (set_headers (map_emplace CaseInsensitiveComparator name value (headers (req d)))
                (req d)) d).

Lemma take_line_wf name value n d :
  wf (dbuf d) -> n <= length (view (dbuf d)) ->
  wf (dbuf (take_line name value n d)) /\
  view (dbuf (take_line name value n d)) = drop n (view (dbuf d)).
Proof.
  intros Hwf Hn. rewrite length_view_rw in Hn by done. destruct Hwf.
  unfold take_line. cbn [dbuf set_buffer]. unfold_buffer. rewrite drop_slice. split; [lia|done].
Qed.

(** One turn of the loop of [ParseHeaders], on the view. *)
Lemma parse_headers_turn fuel d :
  wf (dbuf d) ->
  parse_headers_loop (S fuel) d
  = (fin ← at_end_of_headers (dbuf d);
     if fin : bool then
       Ret (true, set_state kExpectBody (set_buffer (DropBytes 2 (dbuf d)) d))
     else match header_line (view (dbuf d)) with
          | None => Ret (false, d)
          | Some (name, value, n) => parse_headers_loop fuel (take_line name value n d)
          end).
Proof.
  intros Hwf. destruct d as [q mx st b]. cbn [parse_headers_loop dbuf req] in *.
  destruct (at_end_of_headers b) as [[]|]; [done| |done]. mrun.
  pose proof (length_view_rw b Hwf) as Hlen. pose proof Hwf as [Hr Hw].
  unfold BeginOfReadable, EndOfReadable, header_line. rewrite find_cursor_0.
  pose proof (find_idx_le COLON (view b)) as Hi. set (i := find_idx COLON (view b)) in *.
  both_tests E1; [done|].
  replace (read_idx b + i + 1) with (read_idx b + (i + 1)) by lia. rewrite search_cursor by done.
  set (v2 := drop (i + 1) (view b)) in *.
  assert (Hl2 : length v2 = length (view b) - (i + 1)) by apply length_drop.
  pose proof (search_idx_le CRLF v2). pose proof (search_CRLF_room v2) as Hroom.
  set (k := search_idx CRLF v2) in *.
  both_tests E2; [done|]. specialize (Hroom E2).
  destruct (lookup_lt_is_Some_2 v2 0 ltac:(lia)) as [c Hc0].
  assert (Hc1 : view b !! (i + 1) = Some c)
    by (rewrite <-Hc0; unfold v2; rewrite lookup_drop; f_equal; lia).
  rewrite (deref_cursor b Hwf _ _ Hc1). mrun.
  replace (read_idx b + (i + 1 + k) + 2) with (read_idx b + (i + 1 + k + 2)) by lia.
  destruct (DropBytesUntil_cursor b Hwf (i + 1 + k + 2) ltac:(lia)) as (-> & _ & _). mrun.
  pose proof (slice_cursors b 0 i ltac:(lia)) as Hname.
  rewrite Nat.add_0_r, Nat.sub_0_r, drop_0 in Hname. rewrite Hname.
  by rewrite header_value_cursor by (done || lia || (intros ->; by apply search_CRLF_SP)).
Qed.

Definition headers_refines (d : HttpReqDecoder) (res : headers_result)
    (out : outcome (bool * HttpReqDecoder)) : Prop :=
  let after hs b' := set_buffer b' (set_req (set_headers hs (req d)) d) in
  match res with
  | HeadersFuel => out = Throw OutOfFuel
  | HeadersWait hs rest => exists b', wf b' /\ view b' = rest
      /\ write_idx b' = write_idx (dbuf d) /\ buffer b' = buffer (dbuf d)
      /\ out = Ret (false, after hs b')
  | HeadersDone hs rest => exists b', wf b' /\ view b' = rest
      /\ out = Ret (true, set_state kExpectBody (after hs b'))
  end.


Lemma parse_headers_refines fuel d :
  wf (dbuf d) ->
  clean (dbuf d) \/ is_done (headers_view fuel (view (dbuf d)) (headers (req d))) ->
  headers_refines d (headers_view fuel (view (dbuf d)) (headers (req d))) (parse_headers_loop fuel d).
Proof.
  revert d. induction fuel as [|fuel IH]; intros d Hwf Hc; [done|].
  rewrite parse_headers_turn by done.
  rewrite at_end_refines by (done || (destruct Hc as [|Hc%headers_done_long]; tauto)).
  cbn [headers_view] in *. mrun.
  assert (Hsame : set_req (set_headers (headers (req d)) (req d)) d = d) by (by destruct d as [[]]).
  destruct (prefix_b CRLF (view (dbuf d))).
  { exists (DropBytes 2 (dbuf d)). rewrite Hsame. auto using wf_DropBytes, view_DropBytes. }
  destruct (header_line (view (dbuf d))) as [[[name value] n]|] eqn:El.
  - apply header_line_bound in El.
    destruct (take_line_wf name value n d Hwf ltac:(lia)) as [Hwf' Hv'].
    rewrite <-Hv' in *. exact (IH (take_line name value n d) Hwf' Hc).
  - exists (dbuf d). rewrite Hsame. by destruct d.
Qed.

(** Whatever the storage holds: the loop ends, keeps the buffer well formed, and
    its only fault is reading past the storage when less than two bytes are free. *)
Lemma parse_headers_safe fuel d :
  wf (dbuf d) -> length (view (dbuf d)) < fuel ->
  match parse_headers_loop fuel d with
  | Ret (ok, d') => wf (dbuf d') /\ state d' = (if ok : bool then kExpectBody else state d)
  | Throw f => f = UndefinedBehaviour /\ WritableBytes (dbuf d) < 2
  end.
Proof.
  revert d. induction fuel as [|fuel IH]; intros d Hwf Hf; [lia|].
  rewrite parse_headers_turn by done.
  destruct (at_end_of_headers (dbuf d)) as [[]|f] eqn:Ef; mrun.
  - split; [|done]. by apply wf_DropBytes.
  - destruct (header_line (view (dbuf d))) as [[[name value] n]|] eqn:El; [|done].
    apply header_line_bound in El.
    destruct (take_line_wf name value n d Hwf ltac:(lia)) as [Hwf' Hv'].
    apply (IH _ Hwf'). rewrite Hv', length_drop. lia.
  - unfold at_end_of_headers, deref in Ef. destruct Hwf as [Hr Hw]. unfold_buffer.
    destruct (buffer (dbuf d) !! read_idx (dbuf d)) as [c|] eqn:E1.
    + revert Ef. mrun. destruct (decide (c = CR)); [|done].
      destruct (buffer (dbuf d) !! (read_idx (dbuf d) + 1)) eqn:E2; [done|].
      apply lookup_ge_None in E2. intros [= <-]. split; [done|lia].
    + apply lookup_ge_None in E1. injection Ef as <-. split; [done|lia].
Qed.

(** ** The later states of [Decode] *)

(** [ParseBody] takes the readable bytes up to the limit; the test that should
    set [is_body_truncated] compares a minimum with one of its arguments. *)
Lemma ParseBody_spec d :
  wf (dbuf d) ->
  exists b', wf b' /\ view b' = [] /\
  ParseBody d
  = mkDecoder (set_body (take (Z.to_nat (body_max_bytes d)) (view (dbuf d))) (req d))
      (body_max_bytes d) kParseFinished b'.
Proof.
  intros Hwf. exists (DropAllBytes (dbuf d)).
  split_and!; [apply wf_DropAllBytes | apply view_DropAllBytes|].
  unfold ParseBody. case_test; [lia|]. unfold set_buffer, set_state, set_req. cbn. f_equal. f_equal.
  pose proof (length_view_rw _ Hwf) as Hlen. destruct Hwf as [Hr Hw].
  rewrite <-(Nat.add_0_r (BeginOfReadable (dbuf d))) at 1. unfold BeginOfReadable.
  rewrite slice_cursors by (unfold_buffer; lia).
  rewrite Nat.sub_0_r, drop_0. rewrite <-length_view by (by split).
  destruct (Z.min_spec (Z.of_nat (length (view (dbuf d)))) (body_max_bytes d)) as [[? ->]|[? ->]];
    rewrite ?Nat2Z.id, ?take_ge by lia; done.
Qed.

(** One turn of the loop of [Decode]. *)
Lemma decode_loop_S (nd : bool) n d :
  decode_loop nd (S n) d
  = match state d with
    | kExpectRequestLine =>
        _ ← cassert nd (is_empty (headers (req d)));
        _ ← cassert nd (is_empty (body (req d)));
        r ← ParseRequestLine d;
        let '(ok, d') := (r : bool * HttpReqDecoder) in
        if ok then decode_loop nd n d' else Ret (None, d')
    | kExpectHeaders =>
        r ← ParseHeaders d;
        let '(ok, d') := (r : bool * HttpReqDecoder) in
        if ok then decode_loop nd n d' else Ret (None, d')
    | kExpectBody => decode_loop nd n (ParseBody d)
    | kParseFinished =>
        Ret (Some (req d), set_req (moved_req (req d)) (set_state kExpectRequestLine d))
    end.
Proof. done. Qed.

(** The release build ([nd] is true) does not look at what is left of an earlier request. *)
Definition asserts_hold (nd : bool) (d : HttpReqDecoder) : Prop :=
  nd = true \/ headers (req d) = [] /\ body (req d) = [].

Lemma decode_loop_start (nd : bool) n d :
  state d = kExpectRequestLine -> asserts_hold nd d ->
  decode_loop nd (S n) d
  = (r ← ParseRequestLine d;
     let '(ok, d') := (r : bool * HttpReqDecoder) in
     if ok then decode_loop nd n d' else Ret (None, d')).
Proof.
  intros Hs Ha. rewrite decode_loop_S, Hs. unfold asserts_hold in Ha.
  rewrite !cassert_ok; [done| |]; destruct Ha as [->|[Hh Hb]]; rewrite ?Hh, ?Hb; auto.
Qed.

(** The request [Decode] returns when the headers end and [rest] follows. *)
Definition final_req (d : HttpReqDecoder) (hs : Headers) (rest : list byte) : HttpReq :=
  set_body (take (Z.to_nat (body_max_bytes d)) rest) (set_headers hs (req d)).

(** The decoder returned [r] and is ready for the next request. *)
Definition decoded (d : HttpReqDecoder) (r : HttpReq)
    (out : outcome (option HttpReq * HttpReqDecoder)) : Prop :=
  exists b', wf b' /\ view b' = []
    /\ out = Ret (Some r, mkDecoder (moved_req r) (body_max_bytes d) kExpectRequestLine b').

Lemma decode_loop_headers (nd : bool) n d hs rest :
  wf (dbuf d) -> state d = kExpectHeaders ->
  headers_view (S (length (view (dbuf d)))) (view (dbuf d)) (headers (req d)) = HeadersDone hs rest ->
  decoded d (final_req d hs rest) (decode_loop nd (S (S (S n))) d).
Proof.
  intros Hwf Hs Hv. rewrite decode_loop_S, Hs. unfold ParseHeaders.
  rewrite <-length_view by done.
  pose proof (parse_headers_refines (S (length (view (dbuf d)))) d Hwf) as Hr.
  rewrite Hv in Hr. destruct (Hr (or_intror I)) as (b' & Hwf' & Hv' & ->). mrun.
  rewrite decode_loop_S. cbn [state set_state].
  destruct (ParseBody_spec (set_state kExpectBody (set_buffer b' (set_req (set_headers hs (req d)) d)))
              Hwf') as (b2 & Hwf2 & Hv2 & ->).
  exists b2. rewrite decode_loop_S. cbn [state set_state set_buffer set_req req dbuf body_max_bytes] in *.
  by rewrite Hv'.
Qed.

Lemma decode_loop_line (nd : bool) n d q rest :
  wf (dbuf d) -> state d = kExpectRequestLine -> asserts_hold nd d ->
  line_view (view (dbuf d)) (req d) = LineDone q rest ->
  exists b', wf b' /\ view b' = rest /\ write_idx b' = write_idx (dbuf d)
    /\ buffer b' = buffer (dbuf d)
    /\ decode_loop nd (S n) d = decode_loop nd n (mkDecoder q (body_max_bytes d) kExpectHeaders b').
Proof.
  intros Hwf Hs Ha Hv. rewrite decode_loop_start by done.
  pose proof (ParseRequestLine_refines d Hwf) as Hr. rewrite Hv in Hr.
  destruct Hr as (b' & ? & ? & ? & ? & ->). exists b'. by split_and!.
Qed.

Lemma decode_loop_headers_wait (nd : bool) n d d1 :
  wf (dbuf d) -> state d = kExpectHeaders ->
  parse_headers_loop (S (length (view (dbuf d)))) d = Ret (false, d1) ->
  decode_loop nd (S n) d = Ret (None, d1).
Proof. intros Hwf Hs E. rewrite decode_loop_S, Hs. unfold ParseHeaders. by rewrite <-length_view, E. Qed.

(** ** The wire format of a request *)

Definition request_line (tok uri vtok : list byte) : list byte :=
  tok ++ [SP] ++ uri ++ [SP] ++ vtok ++ CRLF.
Definition header_wire (h : list byte * list byte) : list byte :=
  h.1 ++ [COLON; SP] ++ h.2 ++ CRLF.
Definition request_head (tok uri vtok : list byte) (hs : Headers) : list byte :=
  request_line tok uri vtok ++ mjoin (header_wire <$> hs) ++ CRLF.

(** A header a request may carry: no colon in the name, no line end in either part. *)
Definition wf_header (h : list byte * list byte) : Prop :=
  (COLON ∉ h.1) /\ prefix_b CRLF h.1 = false /\ first_at_end CRLF h.2.

#[export] Instance wf_header_dec h : Decision (wf_header h).
Proof. unfold wf_header. apply _. Defined.

(** A request the decoder understands. *)
Record wf_request (tok uri vtok : list byte) (hs : Headers) (m : Method) (ver : HttpVersion) : Prop := {
  wf_tok : map_find lex_lt tok method_map = Some m;
  wf_uri : SP ∉ uri;
  wf_vtok : map_find lex_lt vtok version_map = Some ver;
  wf_hs : Forall wf_header hs;
}.

(** The keys of the two static maps. *)
Lemma map_find_elem {V} (k : list byte) (v : V) m : map_find lex_lt k m = Some v -> (k, v) ∈ m.
Proof.
  induction m as [|[k' v'] m IH]; simpl; [done|].
  destruct (lex_lt k' k) eqn:E1; [by right; apply IH|].
  destruct (lex_lt k k') eqn:E2; [done|]. intros [= ->].
  rewrite (lex_lt_trichotomy k k') by done. left.
Qed.

Lemma method_token_no_space tok m : map_find lex_lt tok method_map = Some m -> SP ∉ tok.
Proof.
  intros H%map_find_elem. revert H.
  let x := eval vm_compute in method_map in change method_map with x.
  rewrite !elem_of_cons. intros H.
  repeat destruct H as [[= -> ->]|H]; try by inversion H.
  all: rewrite !not_elem_of_cons; split_and!; try done; apply not_elem_of_nil.
Qed.

Lemma version_token_end tok v : map_find lex_lt tok version_map = Some v -> first_at_end CRLF tok.
Proof.
  intros H%map_find_elem. revert H.
  let x := eval vm_compute in version_map in change version_map with x.
  rewrite !elem_of_cons. intros H.
  repeat destruct H as [[= -> ->]|H]; try by inversion H.
  all: vm_compute; reflexivity.
Qed.

Lemma line_view_split tok uri vtok rest q m :
  map_find lex_lt tok method_map = Some m -> SP ∉ uri -> first_at_end CRLF vtok ->
  line_view (request_line tok uri vtok ++ rest) q
  = match map_find lex_lt vtok version_map with
    | None => LineThrow
    | Some ver => LineDone (set_version ver (set_uri uri (set_method m q))) rest
    end.
Proof.
  intros Ht Hu Hend. unfold request_line. rewrite <-!app_assoc. cbn [app].
  unfold line_view. rewrite find_idx_here by eauto using method_token_no_space.
  rewrite take_app_length, Ht.
  rewrite (proj2 (Nat.eqb_neq _ _)) by (rewrite length_app; simpl; lia).
  replace (drop (length tok + 1) _) with (uri ++ SP :: vtok ++ CRLF ++ rest)
    by (rewrite <-drop_drop, drop_app_length; done).
  rewrite find_idx_here by done.
  rewrite (proj2 (Nat.eqb_neq _ _)) by (rewrite length_app; simpl; lia).
  rewrite take_app_length.
  replace (drop (length uri + 1) _) with (vtok ++ CRLF ++ rest)
    by (rewrite <-drop_drop, drop_app_length; done).
  rewrite search_idx_app by done.
  rewrite (proj2 (Nat.eqb_neq _ _)) by (rewrite !length_app, length_CRLF; lia).
  rewrite take_app_length. by rewrite <-drop_drop, drop_app_length.
Qed.

Lemma line_view_wire tok uri vtok hs m ver rest q :
  wf_request tok uri vtok hs m ver ->
  line_view (request_line tok uri vtok ++ rest) q
  = LineDone (set_version ver (set_uri uri (set_method m q))) rest.
Proof.
  intros [Ht Hu Hv _].
  by rewrite (line_view_split tok uri vtok rest q m Ht Hu (version_token_end _ _ Hv)), Hv.
Qed.

Lemma header_line_wire h rest :
  wf_header h -> header_line (header_wire h ++ rest) = Some (h.1, h.2, length (header_wire h)).
Proof.
  destruct h as [name value]. intros (Hn & _ & Hv). cbn [fst snd] in *.
  unfold header_wire. cbn [fst snd]. rewrite <-!app_assoc. cbn [app].
  unfold header_line. rewrite find_idx_here by done.
  rewrite (proj2 (Nat.eqb_neq _ _)) by (rewrite length_app; simpl; lia).
  replace (drop (length name + 1) _) with (SP :: value ++ CRLF ++ rest)
    by (rewrite <-drop_drop, drop_app_length; done).
  rewrite take_app_length, search_CRLF_cons_SP, search_idx_app by exact Hv.
  rewrite (proj2 (Nat.eqb_neq _ _)) by (cbn [length]; rewrite !length_app, length_CRLF; lia).
  unfold header_value. cbn [lookup list_lookup]. rewrite decide_True by done.
  unfold slice. cbn [drop]. replace (S (length value) - 1) with (length value) by lia.
  rewrite drop_0, take_app_length. f_equal. f_equal.
  rewrite !length_app. cbn [length]. rewrite length_app, length_CRLF. lia.
Qed.

Lemma header_wire_no_end h rest : wf_header h -> prefix_b CRLF (header_wire h ++ rest) = false.
Proof.
  destruct h as [name value]. intros (_ & Hp & _). cbn [fst] in Hp.
  unfold header_wire. cbn [fst snd]. rewrite <-!app_assoc.
  destruct name as [|x [|y name]]; unfold CRLF; cbn [app prefix_b] in *; [done| |done].
  by rewrite andb_false_r.
Qed.

Lemma length_header_wire h : 4 <= length (header_wire h).
Proof. unfold header_wire. rewrite !length_app, length_CRLF. simpl. lia. Qed.

Lemma headers_view_wire fuel hs hs0 rest :
  Forall wf_header hs -> length hs < fuel ->
  headers_view fuel (mjoin (header_wire <$> hs) ++ CRLF ++ rest) hs0
  = HeadersDone (foldl (fun acc h => map_emplace CaseInsensitiveComparator h.1 h.2 acc) hs0 hs) rest.
Proof.
  intros Hhs. revert fuel hs0. induction Hhs as [|h hs Hh Hhs IH]; intros [|fuel] hs0 Hf;
    cbn [length] in Hf; try lia; cbn [fmap list_fmap mjoin list_join headers_view foldl].
  - done.
  - cbn [list_fmap mjoin list_join]. rewrite <-app_assoc. rewrite header_wire_no_end by done.
    rewrite header_line_wire by done. rewrite drop_app_length. by apply IH; lia.
Qed.

(** ** Resumption: bytes that arrive later *)

(** A complete first line is not changed by what follows it, and a line that the
    following bytes complete waits for them. *)
Lemma line_view_app v k q q' rest' :
  line_view (v ++ k) q = LineDone q' rest' -> (SP ∉ v -> length v < 7) ->
  (exists m u, line_view v q = LineWait (set_uri u (set_method m q)))
  \/ (exists rest, line_view v q = LineDone q' rest /\ rest' = rest ++ k).
Proof.
  unfold line_view. intros H Hsp.
  destruct (Nat.eqb_spec (find_idx SP v) (length v)) as [E1|E1].
  { destruct (decide (SP ∈ v)) as [Hin|Hin]; [by apply find_idx_elem in Hin; lia|].
    rewrite (proj2 (Nat.leb_gt _ _)) by auto.
    left. exists (method q), (request_uri q). by destruct q. }
  pose proof (find_idx_le SP v) as Hi. rewrite find_idx_app_found in H by done.
  set (i := find_idx SP v) in *.
  rewrite (proj2 (Nat.eqb_neq i _)) in H by (rewrite length_app; lia).
  rewrite take_app_le in H by lia. rewrite drop_app_le in H by lia.
  destruct (map_find lex_lt (take i v) method_map) as [m|]; [|done].
  set (v2 := drop (i + 1) v) in *.
  destruct (Nat.eqb_spec (find_idx SP v2) (length v2)) as [E2|E2].
  { left. exists m, (request_uri q). by destruct q. }
  pose proof (find_idx_le SP v2) as Hj. rewrite find_idx_app_found in H by done.
  set (j := find_idx SP v2) in *.
  rewrite (proj2 (Nat.eqb_neq j _)) in H by (rewrite length_app; lia).
  rewrite take_app_le in H by lia. rewrite drop_app_le in H by lia.
  set (v3 := drop (j + 1) v2) in *.
  destruct (Nat.eqb_spec (search_idx CRLF v3) (length v3)) as [E3|E3].
  { left. by exists m, (take j v2). }
  right. pose proof (search_CRLF_room v3 E3) as Hk. rewrite search_idx_app_found in H by done.
  set (l := search_idx CRLF v3) in *.
  rewrite (proj2 (Nat.eqb_neq l _)) in H by (rewrite length_app; lia).
  rewrite take_app_le in H by lia. rewrite drop_app_le in H by lia.
  destruct (map_find lex_lt (take l v3) version_map) as [ver|]; [|done].
  injection H as <- <-. by exists (drop (l + 2) v3).
Qed.

Lemma header_line_app v k name value n :
  header_line v = Some (name, value, n) -> header_line (v ++ k) = Some (name, value, n).
Proof.
  unfold header_line. intros H.
  destruct (Nat.eqb_spec (find_idx COLON v) (length v)) as [E1|E1]; [done|].
  pose proof (find_idx_le COLON v) as Hi. rewrite find_idx_app_found by done.
  set (i := find_idx COLON v) in *.
  rewrite (proj2 (Nat.eqb_neq i _)) by (rewrite length_app; lia).
  rewrite take_app_le by lia. rewrite drop_app_le by lia. set (v2 := drop (i + 1) v) in *.
  destruct (Nat.eqb_spec (search_idx CRLF v2) (length v2)) as [E2|E2]; [done|].
  pose proof (search_CRLF_room v2 E2) as Hk. rewrite search_idx_app_found by done.
  rewrite (proj2 (Nat.eqb_neq _ _)) by (rewrite length_app; lia).
  injection H as <- <- <-. do 3 f_equal. unfold header_value.
  rewrite lookup_app_l by lia. rewrite slice_app_l by lia. done.
Qed.

Lemma headers_view_fuel f f' v hs :
  is_done (headers_view f v hs) -> length v < f' -> headers_view f' v hs = headers_view f v hs.
Proof.
  revert f' v hs. induction f as [|f IH]; intros f' v hs Hd Hf'; [done|].
  destruct f' as [|f']; [lia|]. cbn [headers_view] in *.
  destruct (prefix_b CRLF v); [done|].
  destruct (header_line v) as [[[name value] n]|] eqn:El; [|done].
  apply header_line_bound in El. apply IH; [done|]. rewrite length_drop. lia.
Qed.

Lemma headers_view_app f f' v k hs hs2 rest2 :
  headers_view f (v ++ k) hs = HeadersDone hs2 rest2 -> length v < f' ->
  (exists hs' r, headers_view f' v hs = HeadersWait hs' r
     /\ forall f2, length (r ++ k) < f2 -> headers_view f2 (r ++ k) hs' = HeadersDone hs2 rest2)
  \/ (exists rest, headers_view f' v hs = HeadersDone hs2 rest /\ rest2 = rest ++ k).
Proof.
  revert f' v hs. induction f as [|f IH]; intros f' v hs H Hf'; [done|].
  destruct f' as [|f']; [lia|].
  assert (Hwait : forall f2, length (v ++ k) < f2 -> headers_view f2 (v ++ k) hs = HeadersDone hs2 rest2).
  { intros f2 Hf2. rewrite <-H. apply headers_view_fuel; [by rewrite H | done]. }
  cbn [headers_view] in *.
  destruct (prefix_b CRLF v) eqn:Ep.
  { apply prefix_b_true in Ep as [r ->].
    rewrite (proj2 (prefix_b_true CRLF ((CRLF ++ r) ++ k))) in H
      by (exists (r ++ k); by rewrite app_assoc).
    injection H as <- <-. right. by exists r. }
  destruct (header_line v) as [[[name value] n]|] eqn:El; [|left; by exists hs, v].
  pose proof (header_line_bound _ _ _ _ El) as Hn.
  rewrite prefix_b_app_long, Ep in H by (rewrite length_CRLF; lia).
  rewrite (header_line_app _ _ _ _ _ El) in H. rewrite drop_app_le in H by lia.
  apply (IH f') in H; [done|]. rewrite length_drop. lia.
Qed.

(** ** Properties *)

(** The headers of the request: repeated names keep their first value. *)
Definition header_map (hs : Headers) : Headers :=
  foldl (fun acc h => map_emplace CaseInsensitiveComparator h.1 h.2 acc) [] hs.

(** The request the wire bytes stand for, under a body limit. *)
Definition parsed (d : HttpReqDecoder) (uri : list byte) (hs : Headers) (m : Method)
    (ver : HttpVersion) (bd : list byte) : HttpReq :=
  mkReq (take (Z.to_nat (body_max_bytes d)) bd) uri (header_map hs) m ver (is_body_truncated (req d)).

Lemma length_mjoin_headers hs : length hs <= length (mjoin (header_wire <$> hs)).
Proof.
  induction hs as [|h hs IH]; [done|].
  change (S (length hs) <= length (header_wire h ++ mjoin (header_wire <$> hs))).
  rewrite length_app. pose proof (length_header_wire h). lia.
Qed.

Lemma decode_whole (nd : bool) (d : HttpReqDecoder) (tok uri vtok bd : list byte) (hs : Headers)
    (m : Method) (ver : HttpVersion) :
  wf (dbuf d) -> state d = kExpectRequestLine -> headers (req d) = [] -> nd = true \/ body (req d) = [] ->
  wf_request tok uri vtok hs m ver ->
  view (dbuf d) = request_head tok uri vtok hs ++ bd ->
  decoded d (parsed d uri hs m ver bd) (Decode nd d).
Proof.
  intros Hwf Hs Hh Hb Hreq Hv. assert (Ha : asserts_hold nd d) by (destruct Hb; [by left|by right]).
  assert (Hl : line_view (view (dbuf d)) (req d)
    = LineDone (set_version ver (set_uri uri (set_method m (req d))))
        (mjoin (header_wire <$> hs) ++ CRLF ++ bd)).
  { rewrite Hv. unfold request_head. rewrite <-!app_assoc. by eapply line_view_wire. }
  destruct (decode_loop_line nd 3 d _ _ Hwf Hs Ha Hl) as (b' & Hwf' & Hv' & _ & _ & E).
  unfold Decode. rewrite E.
  destruct (decode_loop_headers nd 0 (mkDecoder (set_version ver (set_uri uri (set_method m (req d))))
    (body_max_bytes d) kExpectHeaders b') (header_map hs) bd Hwf' eq_refl)
    as (b2 & Hwf2 & Hv2 & E2).
  { cbn [dbuf req headers set_version set_uri set_method]. rewrite Hv', Hh.
    apply headers_view_wire; [by destruct Hreq|].
    rewrite length_app. pose proof (length_mjoin_headers hs). lia. }
  exists b2. split_and!; [done..|]. exact E2.
Qed.

(** C4: decoding a complete request.  For every method and version the decoder
    knows, every URI without a space and every list of well-formed headers, the
    bytes of the request, in a buffer with arbitrary old contents around them,
    decode to exactly that request; the header map keeps the first of repeated
    names (compared without case), the body is what follows, cut at the limit,
    and the decoder is ready for the next request with an empty buffer. *)
Theorem Decode_request (nd : bool) (d : HttpReqDecoder) (tok uri vtok bd : list byte) (hs : Headers)
    (m : Method) (ver : HttpVersion) :
  wf (dbuf d) -> state d = kExpectRequestLine -> headers (req d) = [] -> nd = true \/ body (req d) = [] ->
  wf_request tok uri vtok hs m ver ->
  view (dbuf d) = request_head tok uri vtok hs ++ bd ->
  decoded d (parsed d uri hs m ver bd) (Decode nd d).
Proof. apply decode_whole. Qed.

Lemma wf_request_dec tok uri vtok hs m ver :
  bool_decide (map_find lex_lt tok method_map = Some m /\ (SP ∉ uri)
    /\ map_find lex_lt vtok version_map = Some ver /\ Forall wf_header hs) = true ->
  wf_request tok uri vtok hs m ver.
Proof. intros H%bool_decide_eq_true. by destruct H as (? & ? & ? & ?). Qed.

Lemma Decode_request_witness :
  let hs := [(bytes "Host", bytes "jerry"); (bytes "Accept", bytes "a b"); (bytes "HOST", bytes "tom")] in
  let d := HttpReqDecoder_init
             (Append (request_head (bytes "POST") (bytes "/a:b") (bytes "HTTP/1.1") hs ++ bytes "body")
                (BaseBuffer_init 16)) in
  decoded d (mkReq (bytes "body") (bytes "/a:b")
               [(bytes "Accept", bytes "a b"); (bytes "Host", bytes "jerry")] POST Http11 false)
    (Decode false d).
Proof.
  intros hs d.
  apply (Decode_request false d (bytes "POST") (bytes "/a:b") (bytes "HTTP/1.1") (bytes "body") hs POST Http11).
  - vm_compute. lia.
  - reflexivity.
  - reflexivity.
  - right. reflexivity.
  - apply wf_request_dec. vm_compute. reflexivity.
  - vm_compute. reflexivity.
Defined.

(** ** Requests that arrive in pieces *)

(** [Decode] after each piece until a request is complete. *)
Fixpoint feed (nd : bool) (ws : list (list byte)) (d : HttpReqDecoder) : outcome (option HttpReq * HttpReqDecoder) :=
  match ws with
  | [] => Ret (None, d)
  | w :: ws =>
      r ← Decode nd (receive w d);
      let '(o, d) := (r : option HttpReq * HttpReqDecoder) in
      match o with None => feed nd ws d | Some q => Ret (Some q, d) end
  end.

(** The storage byte behind the data is not a stale CR or LF at any of the calls. *)
Fixpoint clean_run (nd : bool) (ws : list (list byte)) (d : HttpReqDecoder) : Prop :=
  match ws with
  | [] => True
  | w :: ws =>
      clean (dbuf (receive w d))
      /\ match Decode nd (receive w d) with Ret (None, d) => clean_run nd ws d | _ => True end
  end.

Section pieces.
Context (nd : bool) (tok uri vtok bd : list byte) (hs : Headers) (m : Method) (ver : HttpVersion).
Context (Hreq : wf_request tok uri vtok hs m ver) (d0 : HttpReqDecoder).

(** [d] was given [p] and waits for [k], which completes the request. *)
Record awaiting (p k : list byte) (d : HttpReqDecoder) : Prop := {
  aw_wf : wf (dbuf d);
  aw_body : nd = true \/ body (req d) = [];
  aw_max : body_max_bytes d = body_max_bytes d0;
  aw_flag : is_body_truncated (req d) = is_body_truncated (req d0);
  aw_place :
    state d = kExpectRequestLine /\ headers (req d) = [] /\ view (dbuf d) = p /\ p ++ k = request_head tok uri vtok hs ++ bd
    \/ state d = kExpectHeaders
       /\ method (req d) = m /\ request_uri (req d) = uri /\ version (req d) = ver
       /\ forall f, length (view (dbuf d) ++ k) < f ->
            headers_view f (view (dbuf d) ++ k) (headers (req d)) = HeadersDone (header_map hs) bd
}.

Lemma parsed_same d : body_max_bytes d = body_max_bytes d0 -> is_body_truncated (req d) = is_body_truncated (req d0) ->
  parsed d uri hs m ver bd = parsed d0 uri hs m ver bd.
Proof. intros Hm Hf. unfold parsed. by rewrite Hm, Hf. Qed.

(** The last piece. *)
Lemma awaiting_end p k d : awaiting p k d -> decoded d0 (parsed d0 uri hs m ver bd) (Decode nd (receive k d)).
Proof.
  intros [Hwf Hbd Hmax Hfl Hpl]. rewrite <-(parsed_same d) by done. unfold decoded. rewrite <-Hmax.
  destruct (Append_spec k (dbuf d) Hwf) as [Hwf1 Hv1].
  destruct Hpl as [(Hs & Hh & Hv & Hcut)|(Hs & Hm & Hu & Hver & Hlater)].
  - apply (decode_whole nd (receive k d) tok uri vtok bd hs m ver); [exact Hwf1|exact Hs|exact Hh|exact Hbd|done|].
    change (dbuf (receive k d)) with (Append k (dbuf d)). by rewrite Hv1, Hv.
  - pose proof (decode_loop_headers nd 1 (receive k d) (header_map hs) bd Hwf1 Hs) as Hd.
    change (dbuf (receive k d)) with (Append k (dbuf d)) in Hd. rewrite Hv1 in Hd. specialize (Hd (Hlater _ (Nat.lt_succ_diag_r _))).
    unfold final_req in Hd. replace (parsed d uri hs m ver bd) with (set_body (take (Z.to_nat (body_max_bytes (receive k d))) bd)
      (set_headers (header_map hs) (req (receive k d)))); [exact Hd|].
    unfold parsed. cbn [receive set_buffer req body_max_bytes]. rewrite <-Hm, <-Hu, <-Hver. by destruct (req d).
Qed.

(** A piece that ends within the headers. *)
Lemma headers_piece p w k d : wf (dbuf d) -> state d = kExpectHeaders -> clean (dbuf d) -> length bd < length k ->
  (forall f, length (view (dbuf d) ++ k) < f -> headers_view f (view (dbuf d) ++ k) (headers (req d)) = HeadersDone (header_map hs) bd) ->
  nd = true \/ body (req d) = [] ->
  body_max_bytes d = body_max_bytes d0 -> is_body_truncated (req d) = is_body_truncated (req d0) ->
  method (req d) = m -> request_uri (req d) = uri -> version (req d) = ver ->
  exists d1, (forall n, decode_loop nd (S n) d = Ret (None, d1)) /\ awaiting (p ++ w) k d1.
Proof.
  intros Hwf Hs Hcl Hk Hlater Hbd Hmax Hfl Hm Hu Hver. set (v := view (dbuf d)) in *.
  destruct (headers_view_app _ (S (length v)) _ _ _ _ _ (Hlater _ (Nat.lt_succ_diag_r _)) ltac:(lia))
    as [(hs' & r & Hwait & Hl)|(rest & _ & Hbad)].
  2:{ exfalso. apply (f_equal length) in Hbad. rewrite length_app in Hbad. lia. }
  pose proof (parse_headers_refines (S (length v)) d Hwf (or_introl Hcl)) as Hr. fold v in Hr. rewrite Hwait in Hr.
  destruct Hr as (b2 & Hwf2 & Hv2 & _ & _ & E2). eexists. split.
  - intros n. by apply decode_loop_headers_wait.
  - split; [exact Hwf2|exact Hbd|exact Hmax|exact Hfl|]. right. split; [exact Hs|]. split; [exact Hm|]. split; [exact Hu|]. split; [exact Hver|].
    cbn [dbuf set_buffer set_req req set_headers headers]. rewrite Hv2. exact Hl.
Qed.

Lemma awaiting_piece p w k d : awaiting p (w ++ k) d -> length bd < length k -> clean (dbuf (receive w d)) ->
  (SP ∉ p ++ w -> length (p ++ w) < 7) ->
  exists d1, Decode nd (receive w d) = Ret (None, d1) /\ awaiting (p ++ w) k d1.
Proof.
  intros [Hwf Hbd Hmax Hfl Hpl] Hk Hcl Hsp. destruct (Append_spec w (dbuf d) Hwf) as [Hwf1 Hv1].
  destruct Hpl as [(Hs & Hh & Hv & Hcut)|(Hs & Hm & Hu & Hver & Hlater)].
  - assert (Ha : asserts_hold nd (receive w d)) by (destruct Hbd; [by left|by right]).
    set (q := set_version ver (set_uri uri (set_method m (req d)))).
    assert (Hwhole : line_view ((p ++ w) ++ k) (req d) = LineDone q (mjoin (header_wire <$> hs) ++ CRLF ++ bd)).
    { rewrite <-app_assoc, Hcut. unfold request_head. rewrite <-!app_assoc. by eapply line_view_wire. }
    assert (Hv' : view (dbuf (receive w d)) = p ++ w) by (change (dbuf (receive w d)) with (Append w (dbuf d)); by rewrite Hv1, Hv).
    destruct (line_view_app _ _ _ _ _ Hwhole Hsp) as [(m' & u' & Hwait)|(rest & Hdone & Hrest)].
    + pose proof (ParseRequestLine_refines (receive w d) Hwf1) as Hr. rewrite Hv' in Hr.
      change (req (receive w d)) with (req d) in Hr. rewrite Hwait in Hr. cbn in Hr.
      eexists. split; [unfold Decode; rewrite decode_loop_start by done; by rewrite Hr|].
      split; [exact Hwf1|exact Hbd|exact Hmax|exact Hfl|]. left. split; [exact Hs|]. split; [exact Hh|]. split; [exact Hv'|]. by rewrite <-app_assoc.
    + rewrite <-Hv' in Hdone. destruct (decode_loop_line nd 3 (receive w d) _ _ Hwf1 Hs Ha Hdone) as (b' & Hwf' & Hv2 & Hw' & Hb' & E).
      assert (Hwire : forall f, length (rest ++ k) < f -> headers_view f (rest ++ k) [] = HeadersDone (header_map hs) bd).
      { intros f Hf. rewrite <-Hrest in *. apply headers_view_wire; [by destruct Hreq|].
        rewrite !length_app in Hf. pose proof (length_mjoin_headers hs). lia. }
      destruct (headers_piece p w k (mkDecoder q (body_max_bytes (receive w d)) kExpectHeaders b')) as (d1 & E1 & Hd1); try done.
      * unfold clean in *. cbn [dbuf]. by rewrite Hb', Hw'.
      * cbn [dbuf req headers q set_version set_uri set_method]. rewrite Hv2, Hh. exact Hwire.
      * exists d1. split; [|done]. unfold Decode. rewrite E. apply E1.
  - destruct (headers_piece p w k (receive w d)) as (d1 & E1 & Hd1); try done.
    + change (dbuf (receive w d)) with (Append w (dbuf d)). rewrite Hv1. intros f Hf. rewrite <-app_assoc in *. by apply Hlater.
    + exists d1. split; [apply E1|done].
Qed.

Lemma awaiting_pieces ws : forall p k d, awaiting p (mjoin ws ++ k) d -> length bd < length k -> clean_run nd ws d ->
  (forall i, SP ∉ p ++ mjoin (take i ws) -> length (p ++ mjoin (take i ws)) < 7) ->
  exists d1, feed nd ws d = Ret (None, d1) /\ awaiting (p ++ mjoin ws) k d1.
Proof.
  induction ws as [|w ws IH]; intros p k d Hd Hk Hcl Hsp.
  - exists d. split; [done|]. cbn. by rewrite app_nil_r.
  - destruct Hcl as [Hcl Hrun]. change (mjoin (w :: ws)) with (w ++ mjoin ws) in *. rewrite <-app_assoc in Hd.
    destruct (awaiting_piece p w (mjoin ws ++ k) d Hd) as (d1 & E & Hd1); [rewrite length_app; lia|done| |].
    { specialize (Hsp 1). cbn in Hsp. by rewrite app_nil_r in Hsp. }
    cbn [feed]. rewrite E in Hrun |- *. mrun. rewrite app_assoc. apply IH; [done..|]. intros i. specialize (Hsp (S i)). cbn in Hsp.
    rewrite <-!app_assoc. exact Hsp.
Qed.
End pieces.

(** C3: the decoder resumes.  Cut the head of a request into any number of pieces,
    anywhere: unless seven or more bytes without a space have come when it is
    called (which the code discards, see [options_fragment_lost]), and provided
    the storage byte behind the data is not a stale CR or LF at any of the calls,
    decoding after each piece returns nothing, and decoding after the last one,
    with which the body comes, returns the same request as decoding it whole. *)
Theorem Decode_resumable (nd : bool) (d : HttpReqDecoder) (tok uri vtok bd : list byte) (ws : list (list byte)) (w2 : list byte)
    (hs : Headers) (m : Method) (ver : HttpVersion) :
  wf (dbuf d) -> state d = kExpectRequestLine -> headers (req d) = [] -> nd = true \/ body (req d) = [] -> view (dbuf d) = [] ->
  wf_request tok uri vtok hs m ver ->
  mjoin ws ++ w2 = request_head tok uri vtok hs -> w2 <> [] ->
  (forall i, SP ∉ mjoin (take i ws) -> length (mjoin (take i ws)) < 7) -> clean_run nd ws d ->
  exists d1, feed nd ws d = Ret (None, d1)
    /\ decoded d (parsed d uri hs m ver bd) (Decode nd (receive (w2 ++ bd) d1)).
Proof.
  intros Hwf Hs Hh Hbd Hv Hreq Hcut Hw2 Hsp Hcl.
  destruct (awaiting_pieces nd tok uri vtok bd hs m ver Hreq d ws [] (w2 ++ bd) d) as (d1 & E & Hd1); [|..|done|exact Hsp|].
  - split; [done..|]. left. split; [done|]. split; [done|]. split; [done|]. by rewrite app_nil_l, app_assoc, Hcut.
  - rewrite length_app. destruct w2; cbn; [done|lia].
  - exists d1. split; [done|]. exact (awaiting_end nd tok uri vtok bd hs m ver Hreq d _ _ d1 Hd1).
Qed.

(** Cut within the URI, behind the colon of a header, and between CR and LF. *)
Lemma Decode_resumable_witness :
  let hs := [(bytes "Host", bytes "jerry")] in
  let head := request_head (bytes "GET") (bytes "/index") (bytes "HTTP/1.1") hs in
  let ws := [take 7 head; take 21 (drop 7 head); take 7 (drop 28 head)] in
  let d := HttpReqDecoder_init (BaseBuffer_init 64) in
  exists d1, feed false ws d = Ret (None, d1)
    /\ decoded d (mkReq (bytes "ab") (bytes "/index") hs GET Http11 false) (Decode false (receive (drop 35 head ++ bytes "ab") d1)).
Proof.
  intros hs head ws d.
  apply (Decode_resumable false d (bytes "GET") (bytes "/index") (bytes "HTTP/1.1") (bytes "ab") ws (drop 35 head) hs GET Http11).
  - vm_compute. lia.
  - reflexivity.
  - reflexivity.
  - right. reflexivity.
  - reflexivity.
  - apply wf_request_dec. vm_compute. reflexivity.
  - vm_compute. reflexivity.
  - vm_compute. discriminate.
  - intros [|i] H; [vm_compute; lia|]. exfalso. apply H. apply list_elem_of_In. vm_compute. tauto.
  - vm_compute. split; [exists Byte.x00; split; [reflexivity|split; discriminate]|].
    split; [exists Byte.x00; split; [reflexivity|split; discriminate]|].
    split; [exists Byte.x00; split; [reflexivity|split; discriminate]|]. exact I.
Defined.


Lemma decode_loop_body (nd : bool) n d :
  wf (dbuf d) -> state d = kExpectBody ->
  exists r d', decode_loop nd (S (S n)) d = Ret (Some r, d') /\ wf (dbuf d').
Proof.
  intros Hwf Hs. rewrite decode_loop_S, Hs.
  destruct (ParseBody_spec d Hwf) as (b' & Hwf' & _ & ->). rewrite decode_loop_S. cbn [state]. eauto.
Qed.

(** What a decoding step may do: see [Decode_safe]. *)
Definition safe_result (nd : bool) (d : HttpReqDecoder) (out : outcome (option HttpReq * HttpReqDecoder)) : Prop :=
  match out with
  | Ret (_, d') => wf (dbuf d')
  | Throw UndefinedBehaviour => WritableBytes (dbuf d) < 2
  | Throw OutOfRange => state d = kExpectRequestLine /\ line_view (view (dbuf d)) (req d) = LineThrow
  | Throw AssertFailed => state d = kExpectRequestLine /\ ~ asserts_hold nd d
  | Throw (BadAnyCast | OutOfFuel) => False
  end.

Lemma decode_loop_headers_safe (nd : bool) n d :
  wf (dbuf d) -> state d = kExpectHeaders -> safe_result nd d (decode_loop nd (S (S (S n))) d).
Proof.
  intros Hwf Hs. rewrite decode_loop_S, Hs. unfold ParseHeaders.
  rewrite <-length_view by done.
  pose proof (parse_headers_safe (S (length (view (dbuf d)))) d Hwf ltac:(lia)) as H.
  destruct (parse_headers_loop _ d) as [[[] d']|f]; mrun.
  - destruct H as [Hwf' Hs']. destruct (decode_loop_body nd n d' Hwf' Hs') as (r & d2 & E & ?).
    by rewrite E.
  - by destruct H.
  - by destruct H as [-> ?].
Qed.

Lemma Decode_total (nd : bool) (d : HttpReqDecoder) : wf (dbuf d) -> safe_result nd d (Decode nd d).
Proof.
  intros Hwf. unfold Decode. destruct (state d) eqn:Hs.
  - destruct (decide (nd = true \/ headers (req d) = [] /\ body (req d) = [])) as [Ha|Ha].
    2:{ rewrite decode_loop_S, Hs. destruct nd; [by destruct Ha; left|]. unfold cassert.
        destruct (is_empty (headers (req d))) eqn:Eh; [|by split]. destruct (is_empty (body (req d))) eqn:Eb; [|by split].
        destruct Ha. right. by destruct (headers (req d)), (body (req d)). }
    pose proof (ParseRequestLine_refines d Hwf) as Hr. rewrite decode_loop_start by done.
    destruct (line_view (view (dbuf d)) (req d)) eqn:E; cbn [line_refines] in Hr.
    + rewrite Hr. mrun. apply wf_DropAllBytes.
    + rewrite Hr. done.
    + rewrite Hr. done.
    + destruct Hr as (b' & Hwf' & Hv' & Hw' & Hb' & Hr). rewrite Hr. mrun.
      set (d' := set_state _ _).
      pose proof (decode_loop_headers_safe nd 0 d' Hwf' eq_refl) as H.
      destruct (decode_loop nd 3 d') as [[o d2]|[]]; cbn [safe_result] in *.
      * done.
      * unfold WritableBytes, EndOfWritable, BeginOfWritable in *. by rewrite <-Hw', <-Hb'.
      * by destruct H.
      * done.
      * by destruct H.
      * done.
  - by apply decode_loop_headers_safe.
  - destruct (decode_loop_body nd 2 d Hwf Hs) as (r & d' & -> & ?). done.
  - by rewrite decode_loop_S, Hs.
Qed.



(** An unknown HTTP version makes the decoder throw [std::out_of_range],
    which nothing in the sources catches. *)
Theorem unknown_version_throws (nd : bool) (d : HttpReqDecoder) (tok uri vtok rest : list byte) (m : Method) :
  wf (dbuf d) -> state d = kExpectRequestLine -> asserts_hold nd d ->
  map_find lex_lt tok method_map = Some m -> SP ∉ uri ->
  first_at_end CRLF vtok -> map_find lex_lt vtok version_map = None ->
  view (dbuf d) = request_line tok uri vtok ++ rest ->
  Decode nd d = Throw OutOfRange.
Proof.
  intros Hwf Hs Ha Ht Hu Hend Hv Hview. unfold Decode. rewrite decode_loop_start by done.
  pose proof (ParseRequestLine_refines d Hwf) as Hr. rewrite Hview in Hr.
  rewrite (line_view_split tok uri vtok rest _ m) in Hr by done. rewrite Hv in Hr.
  cbn [line_refines] in Hr. by rewrite Hr.
Qed.

Lemma unknown_version_throws_witness :
  Decode false (HttpReqDecoder_init (Append (request_line (bytes "GET") (bytes "/") (bytes "HTTP/2.0"))
            (BaseBuffer_init 64))) = Throw OutOfRange.
Proof.
  apply (unknown_version_throws _ _ (bytes "GET") (bytes "/") (bytes "HTTP/2.0") [] GET).
  - vm_compute. lia.
  - reflexivity.
  - right. by split.
  - vm_compute. reflexivity.
  - intros H%list_elem_of_In. vm_compute in H. destruct H as [H|[]]. discriminate.
  - vm_compute. reflexivity.
  - vm_compute. reflexivity.
  - vm_compute. reflexivity.
Defined.

(** An OPTIONS request whose first seven bytes arrive alone is lost: the
    decoder takes the method for garbage, drops it, and then drops the rest of
    the request when it arrives, whatever its URI, headers and body. *)
Theorem options_fragment_lost (nd : bool) (d : HttpReqDecoder) (uri vtok bd : list byte) (hs : Headers) :
  wf (dbuf d) -> state d = kExpectRequestLine -> asserts_hold nd d -> view (dbuf d) = bytes "OPTIONS" ->
  exists d1 d2, Decode nd d = Ret (None, d1) /\ view (dbuf d1) = []
    /\ Decode nd (receive (drop 7 (request_head (bytes "OPTIONS") uri vtok hs) ++ bd) d1) = Ret (None, d2)
    /\ view (dbuf d2) = [].
Proof.
  intros Hwf Hs Ha Hv.
  pose proof (ParseRequestLine_refines d Hwf) as Hr. rewrite Hv in Hr. cbn [line_refines] in Hr.
  change (line_view (bytes "OPTIONS") (req d)) with LineDrop in Hr. cbn [line_refines] in Hr.
  exists (set_buffer (DropAllBytes (dbuf d)) d).
  set (d1 := set_buffer (DropAllBytes (dbuf d)) d) in *.
  set (data := drop 7 _ ++ bd).
  destruct (Append_spec data (dbuf d1) (wf_DropAllBytes _)) as [Hwf2 Hv2].
  pose proof (ParseRequestLine_refines (receive data d1) Hwf2) as Hr2.
  change (dbuf (receive data d1)) with (Append data (dbuf d1)) in Hr2. rewrite Hv2 in Hr2.
  change (view (dbuf d1)) with (view (DropAllBytes (dbuf d))) in Hr2.
  rewrite view_DropAllBytes in Hr2.
  change (line_view ([] ++ data) (req (receive data d1))) with LineDrop in Hr2.
  cbn [line_refines] in Hr2.
  eexists. split_and!.
  - unfold Decode. by rewrite decode_loop_start, Hr.
  - apply view_DropAllBytes.
  - unfold Decode. by rewrite decode_loop_start, Hr2.
  - apply view_DropAllBytes.
Qed.

Lemma options_fragment_lost_witness :
  let d := HttpReqDecoder_init (Append (bytes "OPTIONS") (BaseBuffer_init 64)) in
  exists d1 d2, Decode false d = Ret (None, d1) /\ view (dbuf d1) = []
    /\ Decode false (receive (drop 7 (request_head (bytes "OPTIONS") (bytes "*") (bytes "HTTP/1.1") []) ++ []) d1)
       = Ret (None, d2)
    /\ view (dbuf d2) = [].
Proof.
  intros d. apply (options_fragment_lost false d (bytes "*") (bytes "HTTP/1.1") [] []).
  - vm_compute. lia.
  - reflexivity.
  - right. by split.
  - vm_compute. reflexivity.
Defined.

(** The end of the headers may be read from stale storage.  When a first
    line fills the readable bytes and the storage behind them still holds a CRLF
    of an earlier request, [Decode] returns a request without headers although
    no blank line has arrived. *)
Theorem stale_blank_line_accepted (nd : bool) (d : HttpReqDecoder) (tok uri vtok : list byte)
    (m : Method) (ver : HttpVersion) :
  wf (dbuf d) -> state d = kExpectRequestLine -> headers (req d) = [] -> nd = true \/ body (req d) = [] ->
  wf_request tok uri vtok [] m ver ->
  view (dbuf d) = request_line tok uri vtok ->
  buffer (dbuf d) !! write_idx (dbuf d) = Some CR ->
  buffer (dbuf d) !! (write_idx (dbuf d) + 1) = Some LF ->
  decoded d (parsed d uri [] m ver []) (Decode nd d).
Proof.
  intros Hwf Hs Hh Hbd Hreq Hv Hcr Hlf. assert (Ha : asserts_hold nd d) by (destruct Hbd; [by left|by right]).
  pose proof (line_view_wire tok uri vtok [] m ver [] (req d) Hreq) as Hl.
  rewrite app_nil_r, <-Hv in Hl.
  destruct (decode_loop_line nd 3 d _ _ Hwf Hs Ha Hl) as (b' & Hwf' & Hv' & Hw' & Hb' & E).
  unfold Decode. rewrite E, decode_loop_S. cbn [state]. unfold ParseHeaders.
  rewrite parse_headers_turn by done. cbn [dbuf].
  assert (Hr : read_idx b' = write_idx b').
  { pose proof (length_view_rw b' Hwf') as Hlen. rewrite Hv' in Hlen. destruct Hwf'. simpl in Hlen. lia. }
  unfold at_end_of_headers, deref, BeginOfReadable. rewrite Hb', Hr, Hw', Hcr. mrun.
  rewrite decide_True by done. rewrite Hlf. mrun. rewrite bool_decide_true by done.
  rewrite decode_loop_S. cbn [state set_state set_buffer].
  destruct (ParseBody_spec (set_state kExpectBody (set_buffer (DropBytes 2 b')
    (mkDecoder (set_version ver (set_uri uri (set_method m (req d)))) (body_max_bytes d) kExpectHeaders b')))
    (wf_DropBytes 2 b' Hwf')) as (b2 & Hwf2 & Hv2 & Eb).
  cbn [set_state set_buffer req body_max_bytes state dbuf] in Eb. rewrite Eb.
  rewrite decode_loop_S. cbn [state]. exists b2. split_and!; [done..|].
  rewrite view_DropBytes, Hv' by done. unfold parsed, set_body, set_version, set_uri, set_method.
  cbn. by rewrite Hh.
Qed.

(** A keep-alive connection that served one request and got the first line of the next. *)
Definition keep_alive_decoder : HttpReqDecoder :=
  let line := request_line (bytes "GET") (bytes "/") (bytes "HTTP/1.1") in
  match Decode false (HttpReqDecoder_init (Append (line ++ CRLF) (BaseBuffer_init 32))) with
  | Ret (_, d) => receive line d
  | Throw _ => HttpReqDecoder_init (BaseBuffer_init 0)
  end.

Lemma stale_blank_line_accepted_witness :
  decoded keep_alive_decoder (mkReq [] (bytes "/") [] GET Http11 false) (Decode false keep_alive_decoder).
Proof.
  apply (stale_blank_line_accepted false keep_alive_decoder (bytes "GET") (bytes "/") (bytes "HTTP/1.1")
           GET Http11).
  - vm_compute. lia.
  - vm_compute. reflexivity.
  - vm_compute. reflexivity.
  - right. vm_compute. reflexivity.
  - apply wf_request_dec. vm_compute. reflexivity.
  - vm_compute. reflexivity.
  - vm_compute. reflexivity.
  - vm_compute. reflexivity.
Defined.

(** The flag of the request a step leaves is the flag it started from. *)
Definition keeps_flag (d d' : HttpReqDecoder) : Prop :=
  is_body_truncated (req d') = is_body_truncated (req d).

Lemma ParseRequestLine_flag d ok d' : ParseRequestLine d = Ret (ok, d') -> keeps_flag d d'.
Proof.
  unfold ParseRequestLine, map_at, keeps_flag. intros H.
  repeat (case_match; mrun_in H; simplify_eq/=; try done).
Qed.

Lemma parse_headers_flag fuel d ok d' :
  parse_headers_loop fuel d = Ret (ok, d') -> keeps_flag d d'.
Proof.
  unfold keeps_flag. revert d. induction fuel as [|fuel IH]; intros d; [done|].
  cbn [parse_headers_loop]. mrun. intros H.
  repeat (case_match; simplify_eq/=; try done); by apply IH in H.
Qed.

Lemma ParseBody_flag d : keeps_flag d (ParseBody d).
Proof.
  unfold ParseBody, keeps_flag. case_test; [lia | done].
Qed.

Lemma decode_loop_flag (nd : bool) fuel d o d' :
  decode_loop nd fuel d = Ret (o, d') ->
  keeps_flag d d' /\ forall r, o = Some r -> is_body_truncated r = is_body_truncated (req d).
Proof.
  revert d. induction fuel as [|fuel IH]; intros d; [done|].
  rewrite decode_loop_S. destruct (state d).
  - unfold cassert. destruct (nd || is_empty (headers (req d))); [|done]. destruct (nd || is_empty (body (req d))); [|done]. mrun.
    destruct (ParseRequestLine d) as [[[] d1]|] eqn:E; [| |done];
      apply ParseRequestLine_flag in E; unfold keeps_flag in *; [|naive_solver].
    rewrite <-E. apply IH.
  - destruct (ParseHeaders d) as [[[] d1]|] eqn:E; [| |done];
      apply parse_headers_flag in E; unfold keeps_flag in *; [|naive_solver].
    rewrite <-E. apply IH.
  - unfold keeps_flag. rewrite <-(ParseBody_flag d). apply IH.
  - intros ?. unfold keeps_flag. naive_solver.
Qed.

(** A body longer than the limit is cut, but [is_body_truncated] is never
    set: whatever the buffer holds, the flag of the request [Decode] returns is
    the flag the decoder started with, and so is the one it goes on with. *)
Theorem truncation_never_reported (nd : bool) (d : HttpReqDecoder) (o : option HttpReq) (d' : HttpReqDecoder) :
  Decode nd d = Ret (o, d') ->
  is_body_truncated (req d') = is_body_truncated (req d)
  /\ forall r, o = Some r -> is_body_truncated r = is_body_truncated (req d).
Proof. apply decode_loop_flag. Qed.

(** A decoder with a limit of 4 bytes that receives a body of 10. *)
Definition limited_decoder : HttpReqDecoder :=
  receive (request_head (bytes "POST") (bytes "/") (bytes "HTTP/1.1") [] ++ bytes "0123456789")
    (SetBodyMaxBytes 4 (HttpReqDecoder_init (BaseBuffer_init 64))).

Lemma truncation_never_reported_witness :
  exists d', Decode false limited_decoder
               = Ret (Some (mkReq (bytes "0123") (bytes "/") [] POST Http11 false), d')
    /\ is_body_truncated (req d') = false.
Proof.
  destruct (Decode false limited_decoder) as [[o d']|] eqn:E; [|by vm_compute in E].
  pose proof (truncation_never_reported _ _ _ _ E) as [H _].
  assert (Ho : option_map (fun p => p.1) (match Decode false limited_decoder with Ret p => Some p | _ => None end)
     = Some (Some (mkReq (bytes "0123") (bytes "/") [] POST Http11 false))) by by vm_compute.
  rewrite E in Ho. simpl in Ho. injection Ho as ->.
  exists d'. split; [done|]. rewrite H. by vm_compute.
Defined.
