(* ===== verification/InetAddress.v ===== *)
(** * net/InetAddress: IPv4 addresses and their text

    [inet_pton] and [inet_ntop] of the C library are written out for [AF_INET];
    the addresses are kept as the kernel wants them, in network byte order. *)

From S2P Require Import Prelude CxxStd.
Local Open Scope Z_scope.

(** ** The C library *)

(** The dotted text of four octets. *)
Definition inet_ntop (addr : list Z) : list byte :=
  match addr with
  | [a; b; c; d] =>
      to_string a ++ bytes "." ++ to_string b ++ bytes "." ++ to_string c ++ bytes "." ++ to_string d
  | _ => []
  end.

Definition digit_value (c : byte) : Z := byte.unsigned c - 48.

(** One more digit of an octet, which has no leading zero and fits a byte. *)
Definition octet_digit (cur : option Z) (c : byte) : option Z :=
  match cur with
  | None => Some (digit_value c)
  | Some v => if (v =? 0) || (255 <? v * 10 + digit_value c) then None else Some (v * 10 + digit_value c)
  end.

(** [done] holds the octets that a dot has ended, [cur] what was read of the next. *)
Fixpoint inet_pton_loop (s : list byte) (done : list Z) (cur : option Z) : option (list Z) :=
  match s with
  | [] => match cur with
          | Some v => if (length done =? 3)%nat then Some (done ++ [v]) else None
          | None => None
          end
  | c :: s =>
      if is_digit c then
        match octet_digit cur c with Some v => inet_pton_loop s done (Some v) | None => None end
      else if decide (c = Byte.x2e) then
        match cur with
        | Some v => if (length done =? 3)%nat then None else inet_pton_loop s (done ++ [v]) None
        | None => None
        end
      else None
  end.
Definition inet_pton (s : list byte) : option (list Z) := inet_pton_loop s [] None.

(** [htons] on a little-endian machine; [ntohs] is the same function. *)
Definition htons (p : Z) : Z := (p mod 256) * 256 + (p / 256) mod 256.
Definition ntohs (p : Z) : Z := htons p.

(** ** [InetAddress] *)

Definition AF_INET : Z := 2.

(** [sockaddr_in]; [sin_addr] are its four bytes. *)
Record InetAddress := mkInetAddress {
  sin_family : Z;
  sin_port : Z;
  sin_addr : list Z;
}.

(** [InetAddress()]: all zero. *)
Definition InetAddress_zero : InetAddress := mkInetAddress 0 0 [0; 0; 0; 0].

(** [assert] is compiled out when [NDEBUG] is set; else a failed one ends the
    process ([None]).  [inet_pton] does not touch the address when it fails. *)
Definition InetAddress_init (ndebug : bool) (ip : list byte) (port : Z) (is_ipv6 : bool) : option InetAddress :=
  if negb ndebug && bool_decide (ip = []) then None
  else if negb ndebug && negb ((0 <? port) && (port <? 65535)) then None
  else if is_ipv6 then Some InetAddress_zero
  else
    match inet_pton (c_str ip) with
    | Some a => Some (mkInetAddress AF_INET (htons port) a)
    | None => if ndebug then Some (mkInetAddress AF_INET (htons port) (sin_addr InetAddress_zero)) else None
    end.

Definition GetPort (a : InetAddress) : Z := ntohs (sin_port a).
Definition GetIp (a : InetAddress) : list byte := inet_ntop (sin_addr a).
Definition GetHost (a : InetAddress) : list byte := GetIp a ++ bytes ":" ++ to_string (GetPort a).
Definition SetSockAddr (addr a : InetAddress) : InetAddress := addr.
Definition GetSockAddr (a : InetAddress) : InetAddress := a.
(** [sizeof(sockaddr_in)]. *)
Definition GetSockLength (a : InetAddress) : Z := 16.

(** ** Ports *)

Lemma htons_htons p : 0 <= p < 2 ^ 16 -> ntohs (htons p) = p.
Proof. intros Hp. unfold ntohs, htons. Z.div_mod_to_equations. lia. Qed.

(** ** Texts *)

Definition octet (z : Z) : Prop := 0 <= z < 256.
Definition octets (a : list Z) : Prop := length a = 4%nat /\ Forall octet a.

(** [text done cur] is what has been read. *)
Definition read_text (done : list Z) (cur : option Z) : list byte :=
  concat ((fun z => to_string z ++ bytes ".") <$> done) ++ match cur with Some v => to_string v | None => [] end.

Lemma ntop_read done v : length done = 3%nat -> inet_ntop (done ++ [v]) = read_text done (Some v).
Proof. destruct done as [|a [|b [|c []]]]; try done. intros _. unfold read_text. cbn. by rewrite <-!app_assoc. Qed.

(** Decimal numbers below 256, digit by digit. *)
Definition digit_step_ok (z : Z) : bool :=
  bool_decide (to_string z = (if z <? 10 then [] else to_string (z / 10)) ++ [byte.of_Z (z mod 10 + 48)]).

Lemma to_string_digit z : octet z ->
  to_string z = (if z <? 10 then [] else to_string (z / 10)) ++ [byte.of_Z (z mod 10 + 48)].
Proof.
  intros Hz. assert (Hc : digit_step_ok z = true).
  { apply (check_below_spec digit_step_ok 256 0); [vm_compute; reflexivity | unfold octet in Hz; lia]. }
  by apply bool_decide_eq_true in Hc.
Qed.

(** The digit of a number and back. *)
Lemma digit_byte d : 0 <= d < 10 -> is_digit (byte.of_Z (d + 48)) = true /\ digit_value (byte.of_Z (d + 48)) = d.
Proof.
  intros Hd. unfold is_digit, digit_value. rewrite byte.unsigned_of_Z. unfold byte.wrap. rewrite Z.mod_small by lia.
  rewrite andb_true_iff, !Z.leb_le. lia.
Qed.

Lemma byte_digit c : is_digit c = true -> 0 <= digit_value c < 10 /\ byte.of_Z (digit_value c + 48) = c.
Proof.
  unfold is_digit, digit_value. rewrite andb_true_iff, !Z.leb_le. intros Hc. split; [lia|].
  replace (byte.unsigned c - 48 + 48) with (byte.unsigned c) by lia. apply byte.of_Z_unsigned.
Qed.

(** A digit continues the text of the octet that is read. *)
Lemma octet_digit_text done cur c v :
  is_digit c = true -> (forall u, cur = Some u -> octet u) -> octet_digit cur c = Some v ->
  octet v /\ read_text done (Some v) = read_text done cur ++ [c].
Proof.
  intros [Hd Hb]%byte_digit Hcur E. unfold octet, read_text. rewrite <-app_assoc. destruct cur as [u|]; cbn in E.
  - specialize (Hcur u eq_refl). unfold octet in Hcur.
    destruct (Z.eqb_spec u 0), (Z.ltb_spec 255 (u * 10 + digit_value c)); try done. injection E as <-.
    split; [lia|]. f_equal. rewrite (to_string_digit (u * 10 + digit_value c)) by (unfold octet; lia).
    destruct (Z.ltb_spec (u * 10 + digit_value c) 10); [lia|].
    replace ((u * 10 + digit_value c) / 10) with u by (Z.div_mod_to_equations; lia).
    by replace ((u * 10 + digit_value c) mod 10) with (digit_value c) by (Z.div_mod_to_equations; lia); rewrite Hb.
  - injection E as <-. split; [lia|]. f_equal. rewrite to_string_digit by (unfold octet; lia).
    rewrite (proj2 (Z.ltb_lt _ _)) by lia. by rewrite Z.mod_small, Hb by lia.
Qed.

Lemma pton_sound s done cur a :
  (length done <= 3)%nat -> Forall octet done -> (forall u, cur = Some u -> octet u) ->
  inet_pton_loop s done cur = Some a -> octets a /\ inet_ntop a = read_text done cur ++ s.
Proof.
  revert done cur. induction s as [|c s IH]; intros done cur Hlen Hdone Hcur E; cbn [inet_pton_loop] in E.
  - destruct cur as [v|]; [|done]. destruct (Nat.eqb_spec (length done) 3) as [H3|]; [|done]. injection E as <-.
    split; [split|]; [rewrite length_app; cbn; lia | apply Forall_app_2; auto | by rewrite app_nil_r, ntop_read].
  - destruct (is_digit c) eqn:Hc.
    + destruct (octet_digit cur c) as [v|] eqn:Ev; [|done].
      destruct (octet_digit_text done cur c v Hc Hcur Ev) as [Hv Et].
      destruct (IH done (Some v)) as [Ha ->]; [done|done|by intros u [= <-]|done|]. split; [done|].
      by rewrite Et, <-app_assoc.
    + destruct (decide (c = Byte.x2e)) as [->|]; [|done]. destruct cur as [v|]; [|done].
      destruct (Nat.eqb_spec (length done) 3); [done|].
      destruct (IH (done ++ [v]) None) as [Ha ->]; [rewrite length_app; cbn; lia|apply Forall_app_2; auto|done|done|].
      split; [done|]. unfold read_text. rewrite fmap_app, concat_app. cbn. by rewrite !app_nil_r, <-!app_assoc.
Qed.

(** An octet is read back. *)
Lemma pton_octet z rest done : octet z ->
  inet_pton_loop (to_string z ++ rest) done None = inet_pton_loop rest done (Some z).
Proof.
  unfold octet. intros Hz. revert rest. destruct Hz as [Hz0 Hz]. revert z Hz0 Hz.
  refine (Zlt_0_ind _ _). intros z IH Hz0 Hz rest. rewrite to_string_digit by done. rewrite <-app_assoc. cbn [app].
  destruct (digit_byte (z mod 10)) as [Hc Hd]; [by apply Z.mod_pos_bound|].
  destruct (Z.ltb_spec z 10).
  - cbn [app inet_pton_loop]. rewrite Hc. cbn [octet_digit]. by rewrite Hd, Z.mod_small by lia.
  - rewrite IH by (Z.div_mod_to_equations; lia). cbn [inet_pton_loop]. rewrite Hc. cbn [octet_digit]. rewrite Hd.
    destruct (Z.eqb_spec (z / 10) 0); [Z.div_mod_to_equations; lia|].
    replace (z / 10 * 10 + z mod 10) with z by (Z.div_mod_to_equations; lia).
    by destruct (Z.ltb_spec 255 z); [lia|].
Qed.

Lemma pton_complete a : octets a -> inet_pton (inet_ntop a) = Some a.
Proof.
  intros [Hlen Ha]. destruct a as [|w [|x [|y [|z []]]]]; try done.
  apply Forall_cons in Ha as [Hw Ha]. apply Forall_cons in Ha as [Hx Ha]. apply Forall_cons in Ha as [Hy Ha].
  apply Forall_cons in Ha as [Hz _]. unfold inet_pton. cbn [inet_ntop].
  do 3 (rewrite pton_octet by done; change (bytes ".") with [Byte.x2e]; cbn [app inet_pton_loop];
        change (is_digit Byte.x2e) with false; rewrite decide_True by done; cbn [length app Nat.eqb]).
  rewrite <-(app_nil_r (to_string z)), pton_octet by done. done.
Qed.

(** Reading succeeds on the texts of addresses, in one spelling each, and on
    nothing else. *)
Lemma inet_pton_spec s a : inet_pton s = Some a <-> octets a /\ s = inet_ntop a.
Proof.
  split.
  - intros E. destruct (pton_sound s [] None a) as [Ha Et]; [cbn; lia|constructor|done|done|done].
  - intros [Ha ->]. by apply pton_complete.
Qed.

(** ** The class *)

Lemma c_str_ntop a : c_str (inet_ntop a) = inet_ntop a.
Proof.
  apply c_str_no_nul. destruct a as [|w [|x [|y [|z []]]]]; try apply not_elem_of_nil. cbn [inet_ntop].
  rewrite !elem_of_app. change (bytes ".") with [Byte.x2e]. rewrite !list_elem_of_singleton.
  by intros [?%to_string_no_nul|[?|[?%to_string_no_nul|[?|[?%to_string_no_nul|[?|?%to_string_no_nul]]]]]].
Qed.

Lemma ntop_not_empty a : octets a -> inet_ntop a <> [].
Proof.
  intros [Hlen _]. destruct a as [|w [|x [|y [|z []]]]]; try done. cbn [inet_ntop].
  change (bytes ".") with [Byte.x2e]. intros E%app_eq_nil. by destruct E as [_ E].
Qed.

(** A text that names an address. *)
Definition address_text (ip : list byte) : Prop := exists a, octets a /\ ip = inet_ntop a.

Lemma init_checked ip port addr : Byte.x00 ∉ ip ->
  InetAddress_init false ip port false = Some addr <->
  exists a, octets a /\ ip = inet_ntop a /\ 0 < port < 65535 /\ addr = mkInetAddress AF_INET (htons port) a.
Proof.
  intros Hip. unfold InetAddress_init. cbn [negb andb]. rewrite c_str_no_nul by done. case_bool_decide as He.
  { split; [done|]. intros (a & Ha & -> & _). by apply ntop_not_empty in He. }
  destruct (Z.ltb_spec 0 port), (Z.ltb_spec port 65535); cbn [negb andb];
    try (split; [done|]; intros (a & _ & _ & ? & _); lia).
  destruct (inet_pton ip) as [a|] eqn:E.
  - apply inet_pton_spec in E as [Ha ->]. split; [intros [= <-]; by exists a|].
    intros (a' & Ha' & E & _ & ->). apply (f_equal inet_pton) in E. rewrite !pton_complete in E by done. by injection E as <-.
  - split; [done|]. intros (a & Ha & -> & _). by rewrite pton_complete in E.
Qed.

(** C37: texts and addresses, in both builds.  The release build makes an address
    of every text and every port: [GetPort] gives the port back and [GetHost] puts it
    behind [GetIp], which gives back the dotted text of four octets (in one spelling)
    and is 0.0.0.0, every interface of the machine, for any other text.  The build
    with assertions makes the same address, exactly when the text is such a text
    and the port is in 1 .. 65534; otherwise it ends the process. *)
Theorem address_round_trip (ip : list byte) (port : Z) :
  Byte.x00 ∉ ip -> 0 <= port < 2 ^ 16 ->
  exists addr, InetAddress_init true ip port false = Some addr
    /\ GetPort addr = port /\ GetHost addr = GetIp addr ++ bytes ":" ++ to_string port
    /\ (address_text ip -> GetIp addr = ip)
    /\ (~ address_text ip -> GetIp addr = bytes "0.0.0.0")
    /\ (address_text ip /\ 0 < port < 65535 -> InetAddress_init false ip port false = Some addr)
    /\ (~ (address_text ip /\ 0 < port < 65535) -> InetAddress_init false ip port false = None).
Proof.
  intros Hip Hport.
  assert (Hdebug : ~ (address_text ip /\ 0 < port < 65535) -> InetAddress_init false ip port false = None).
  { intros Hno. destruct (InetAddress_init _ _ _ _) as [addr|] eqn:E; [|done]. exfalso. apply Hno.
    apply init_checked in E as (a & Ha & E & Hp & _); [|done]. split; [by exists a | done]. }
  unfold InetAddress_init at 1. cbn [negb andb]. rewrite c_str_no_nul by done.
  destruct (inet_pton ip) as [a|] eqn:E; (eexists; split; [done|]); unfold GetHost, GetPort, GetIp; cbn [sin_addr sin_port];
    rewrite htons_htons by done.
  - apply inet_pton_spec in E as [Ha ->]. assert (Ht : address_text (inet_ntop a)) by (by exists a).
    split_and!; try done. intros [_ Hp]. apply init_checked; [done|]. by exists a.
  - assert (Hno : ~ address_text ip) by (intros (a & Ha & ->); by rewrite pton_complete in E).
    split_and!; try done. by intros [].
Qed.

Lemma address_round_trip_witness :
  (exists addr, InetAddress_init true (bytes "192.168.0.10") 8080 false = Some addr
     /\ GetHost addr = bytes "192.168.0.10:8080" /\ sin_port addr = 36895
     /\ InetAddress_init false (bytes "192.168.0.10") 8080 false = Some addr)
  /\ InetAddress_init false (bytes "192.168.010.1") 8080 false = None
  /\ InetAddress_init false (bytes "127.0.0.1") 65535 false = None.
Proof.
  assert (Ht : address_text (bytes "192.168.0.10")).
  { exists [192; 168; 0; 10]. split; [|by vm_compute]. split; [done|]. by repeat constructor. }
  destruct (address_round_trip (bytes "192.168.0.10") 8080) as (addr & E & _ & Hh & Hip & _ & Hd & _);
    [by apply (bool_decide_unpack _) | lia |].
  split; [|by vm_compute]. exists addr. split; [done|]. rewrite Hh, (Hip Ht). split; [by vm_compute|].
  split; [vm_compute in E; by injection E as <-|]. apply Hd. split; [done|lia].
Defined.
