(* ===== verification/DateTime.v ===== *)
(** * utils/DateTime and the timer part of utils/FdHelper

    A [DateTime] is its [int64_t] number of microseconds since the epoch.
    [gmtime_r], [snprintf] and [strftime] are modelled as the C library
    specifies them; [gmtime_timegm] shows that the calendar is the right one. *)

From S2P Require Import Prelude CxxStd.
From S2P Require Binary64.
Local Open Scope Z_scope.

Definition DateTime := Z.

Definition kMicroSecondsPerSecond : Z := 1000000.

(** Signed 64-bit arithmetic overflows into undefined behaviour. *)
Definition i64_min : Z := - 2 ^ 63.
Definition i64_max : Z := 2 ^ 63 - 1.
Definition checked_i64 (z : Z) : outcome Z :=
  if (i64_min <=? z) && (z <=? i64_max) then Ret z else Throw UndefinedBehaviour.

(** [seconds * kMicroSecondsPerSecond] is a product of doubles, cut to an
    integer. *)
Definition AfterSeconds (seconds : Binary64.double) (d : DateTime) : outcome DateTime :=
  us ← Binary64.int64_of_double (Binary64.double_mul seconds (Binary64.double_of_Z kMicroSecondsPerSecond));
  checked_i64 (d + us).

Definition AfterMicroSeconds (micro_seconds : Z) (d : DateTime) : outcome DateTime :=
  checked_i64 (d + micro_seconds).

Definition DateTime_lt (d other : DateTime) : bool := d <? other.
Definition DateTime_le (d other : DateTime) : bool := d <=? other.
Definition DateTime_gt (d other : DateTime) : bool := other <? d.
Definition DateTime_ge (d other : DateTime) : bool := other <=? d.
Definition DateTime_eq (d other : DateTime) : bool := d =? other.
Definition DateTime_minus (d other : DateTime) : outcome Z := checked_i64 (d - other).

(** [gettimeofday] gives seconds and microseconds. *)
Definition Now (tv_sec tv_usec : Z) : outcome DateTime :=
  checked_i64 (tv_sec * kMicroSecondsPerSecond + tv_usec).

(** Whole seconds are added exactly, for more than 280 years either way. *)
Lemma AfterSeconds_whole n d : Z.abs n < 2 ^ 33 ->
  AfterSeconds (Binary64.double_of_Z n) d = checked_i64 (d + n * kMicroSecondsPerSecond).
Proof.
  intros Hn. unfold AfterSeconds, Binary64.int64_of_double, kMicroSecondsPerSecond.
  rewrite Binary64.mul_trunc by lia. rewrite (proj2 (andb_true_iff _ _)); [done|]. rewrite Z.leb_le, Z.ltb_lt. lia.
Qed.

(** Decimals may lose a microsecond: the product for 1.001 seconds is just below
    1001000, and the conversion does not round. *)
Lemma AfterSeconds_truncates :
  AfterSeconds (Binary64.double_ratio 1001 1000) 0 = Ret 1000999
  /\ AfterSeconds (Binary64.double_ratio 15 10) 0 = Ret 1500000.
Proof. vm_compute. split; reflexivity. Qed.

(** ** The C library's calendar *)

Record tm := mkTm {
  tm_year : Z; tm_mon : Z; tm_mday : Z; tm_hour : Z; tm_min : Z; tm_sec : Z; tm_wday : Z;
}.

(** Proleptic Gregorian date of a day of the 400-year era that starts on
    0000-03-01: years of the era, month 1..12, day 1..31. *)
Definition era_date (doe : Z) : Z * Z * Z :=
  let yoe := (doe - doe / 1460 + doe / 36524 - doe / 146096) / 365 in
  let doy := doe - (365 * yoe + yoe / 4 - yoe / 100) in
  let mp := (5 * doy + 2) / 153 in
  let day := doy - (153 * mp + 2) / 5 + 1 in
  let mon := if mp <? 10 then mp + 3 else mp - 9 in
  (if mon <=? 2 then yoe + 1 else yoe, mon, day).

Definition civil_of_days (days : Z) : Z * Z * Z :=
  let z := days + 719468 in
  let '(y, m, d) := era_date (z mod 146097) in
  (y + 400 * (z / 146097), m, d).

Definition gmtime (secs : Z) : tm :=
  let days := secs / 86400 in
  let rem := secs mod 86400 in
  let '(y, m, d) := civil_of_days days in
  mkTm (y - 1900) (m - 1) d (rem / 3600) (rem / 60 mod 60) (rem mod 60) ((days + 4) mod 7).

(** Day of the era of a date; the year starts in March. *)
Definition era_day (y m d : Z) : Z :=
  let y' := if m <=? 2 then y - 1 else y in
  let mp := if m <=? 2 then m + 9 else m - 3 in
  365 * y' + y' / 4 - y' / 100 + (153 * mp + 2) / 5 + d - 1.

Definition days_of_civil (y m d : Z) : Z :=
  let y' := if m <=? 2 then y - 1 else y in
  era_day (y' mod 400 + (if m <=? 2 then 1 else 0)) m d + 146097 * (y' / 400) - 719468.

(** [timegm], the inverse of [gmtime]. *)
Definition timegm (t : tm) : Z :=
  days_of_civil (tm_year t + 1900) (tm_mon t + 1) (tm_mday t) * 86400
  + tm_hour t * 3600 + tm_min t * 60 + tm_sec t.

(** ** [printf] conversions *)


(** [%0wu] and [%wu]: an unsigned decimal of at least [w] characters. *)
Definition fmt_0u (w : nat) (z : Z) : list byte :=
  let s := to_string (u32 z) in replicate (w - length s)%nat Byte.x30 ++ s.
Definition fmt_u (w : nat) (z : Z) : list byte :=
  let s := to_string (u32 z) in replicate (w - length s)%nat Byte.x20 ++ s.

(** ** [ToString] and [ToGmtString] *)

(** [char buf[27]]: at most 26 characters and the NUL.  C++ division
    truncates towards zero; a negative [us] is printed as unsigned. *)
Definition ToString (d : DateTime) : list byte :=
  let secs := Z.quot d kMicroSecondsPerSecond in
  let us := Z.rem d kMicroSecondsPerSecond in
  let t := gmtime secs in
  take 26
    (fmt_u 4 (tm_year t + 1900) ++ bytes "-" ++ fmt_0u 2 (tm_mon t + 1) ++ bytes "-"
     ++ fmt_0u 2 (tm_mday t) ++ bytes " " ++ fmt_0u 2 (tm_hour t + 8) ++ bytes ":"
     ++ fmt_0u 2 (tm_min t) ++ bytes ":" ++ fmt_0u 2 (tm_sec t) ++ bytes "." ++ fmt_0u 6 us).

(** [%a], [%b] in the C locale. *)
Definition abday : list (list byte) :=
  [bytes "Sun"; bytes "Mon"; bytes "Tue"; bytes "Wed"; bytes "Thu"; bytes "Fri"; bytes "Sat"].
Definition abmon : list (list byte) :=
  [bytes "Jan"; bytes "Feb"; bytes "Mar"; bytes "Apr"; bytes "May"; bytes "Jun";
   bytes "Jul"; bytes "Aug"; bytes "Sep"; bytes "Oct"; bytes "Nov"; bytes "Dec"].

(** [%Y] of [strftime]. *)
Definition fmt_year (y : Z) : list byte :=
  if y <? 0 then bytes "-" ++ to_string (- y) else to_string y.

Definition gmt_text (t : tm) : list byte :=
  nth (Z.to_nat (tm_wday t)) abday [] ++ bytes ", " ++ fmt_0u 2 (tm_mday t) ++ bytes " "
  ++ nth (Z.to_nat (tm_mon t)) abmon [] ++ bytes " " ++ fmt_year (tm_year t + 1900) ++ bytes " "
  ++ fmt_0u 2 (tm_hour t) ++ bytes ":" ++ fmt_0u 2 (tm_min t) ++ bytes ":" ++ fmt_0u 2 (tm_sec t)
  ++ bytes " GMT".

(** [char buf[30]]: when the text and its NUL do not fit, [strftime] leaves the
    contents of [buf] unspecified. *)
Definition ToGmtString (d : DateTime) : outcome (list byte) :=
  let s := gmt_text (gmtime (Z.quot d kMicroSecondsPerSecond)) in
  if (length s <? 30)%nat then Ret s else Throw UndefinedBehaviour.

(** ** [utils::SetTimerFd]: the [it_value] it arms the timer with *)

Record timespec := mkTimespec { tv_sec : Z; tv_nsec : Z }.

Definition SetTimerFd (expired_us : Z) : timespec :=
  let expired_us := if 100 <? expired_us then expired_us else 100 in
  mkTimespec (Z.quot expired_us kMicroSecondsPerSecond)
    (Z.rem expired_us kMicroSecondsPerSecond * 1000).

Example ToGmtString_example : ToGmtString 784111777000000 = Ret (bytes "Sun, 06 Nov 1994 08:49:37 GMT").
Proof. vm_compute. reflexivity. Qed.
Example ToString_example : ToString 1632039625944865 = bytes "2021-09-19 16:20:25.944865".
Proof. vm_compute. reflexivity. Qed.

(** ** The calendar is right *)

(** The year of the era a day is in, and the first day of a year. *)
Definition era_year (doe : Z) : Z := (doe - doe / 1460 + doe / 36524 - doe / 146096) / 365.
Definition year_start (y : Z) : Z := 365 * y + y / 4 - y / 100 + y / 400.

Lemma era_year_mono a b : 0 <= a <= b -> b < 146097 -> era_year a <= era_year b.
Proof.
  intros. unfold era_year. apply Z.div_le_mono; [lia|].
  assert (b / 1460 - a / 1460 <= b - a) by (Z.div_mod_to_equations; lia).
  assert (a / 36524 <= b / 36524) by (apply Z.div_le_mono; lia).
  assert (a / 146096 = 0 \/ a = 146096) as [Ha|Ha] by (Z.div_mod_to_equations; lia);
    assert (b / 146096 = 0 \/ b = 146096) as [Hb|Hb] by (Z.div_mod_to_equations; lia); try lia.
  - destruct (decide (a = b)) as [->|]; [lia|]. subst b.
    change (146096 / 1460) with 100. change (146096 / 36524) with 4.
    change (146096 / 146096) with 1. Z.div_mod_to_equations; lia.
  - assert (a = b) as -> by lia. lia.
  - assert (a = b) as -> by lia. lia.
Qed.

Lemma year_bounds y :
  0 <= y < 400 ->
  era_year (year_start y) = y /\ era_year (year_start (y + 1) - 1) = y
  /\ year_start (y + 1) - year_start y <= 366 /\ year_start y = 365 * y + y / 4 - y / 100.
Proof.
  intros Hy.
  assert (E : ((era_year (year_start y) =? y) && (era_year (year_start (y + 1) - 1) =? y)
    && (year_start (y + 1) - year_start y <=? 366)
    && (year_start y =? 365 * y + y / 4 - y / 100)) = true).
  { apply (check_below_spec (fun y => (era_year (year_start y) =? y)
      && (era_year (year_start (y + 1) - 1) =? y)
      && (year_start (y + 1) - year_start y <=? 366)
      && (year_start y =? 365 * y + y / 4 - y / 100)) 400 0); [|lia].
    vm_compute. reflexivity. }
  rewrite !andb_true_iff, !Z.eqb_eq, Z.leb_le in E. naive_solver.
Qed.

(** Every day of the era is in one of its years. *)
Lemma year_of_day doe :
  0 <= doe < 146097 -> exists y, 0 <= y < 400 /\ year_start y <= doe < year_start (y + 1).
Proof.
  intros H.
  assert (Hn : forall n : nat, (n <= 400)%nat -> doe < year_start (Z.of_nat n) ->
    exists y, 0 <= y < Z.of_nat n /\ year_start y <= doe < year_start (y + 1)).
  { induction n as [|n IH]; intros Hn Hd.
    - change (year_start (Z.of_nat 0)) with 0 in Hd. lia.
    - destruct (decide (year_start (Z.of_nat n) <= doe)).
      + exists (Z.of_nat n). replace (Z.of_nat n + 1) with (Z.of_nat (S n)) by lia. lia.
      + destruct IH as (y & ? & ?); [lia | lia|]. exists y. lia. }
  destruct (Hn 400%nat) as (y & ? & ?); [lia | apply H | ].
  exists y. lia.
Qed.

Lemma era_year_day y doe :
  0 <= y < 400 -> year_start y <= doe < year_start (y + 1) -> 0 <= doe < 146097 -> era_year doe = y.
Proof.
  intros Hy Hd Hr. destruct (year_bounds y Hy) as (E1 & E2 & _ & _).
  assert (Hs : forall z, 0 <= z <= 400 -> 0 <= year_start z <= 146097).
  { intros z Hz. unfold year_start.
    assert (z / 4 <= 100 /\ 0 <= z / 4 /\ 0 <= z / 100 <= z /\ 0 <= z / 400)
      by (Z.div_mod_to_equations; lia).
    destruct (decide (z = 400)) as [->|]; [done|].
    assert (z / 400 = 0) by (apply Z.div_small; lia). lia. }
  pose proof (Hs y ltac:(lia)). pose proof (Hs (y + 1) ltac:(lia)).
  pose proof (era_year_mono (year_start y) doe ltac:(lia) ltac:(lia)).
  pose proof (era_year_mono doe (year_start (y + 1) - 1) ltac:(lia) ltac:(lia)). lia.
Qed.

Lemma era_date_spec doe :
  0 <= doe < 146097 ->
  let '(y, m, d) := era_date doe in
  let y' := if m <=? 2 then y - 1 else y in
  0 <= y' < 400 /\ 1 <= m <= 12 /\ 1 <= d <= 31 /\ era_day y m d = doe.
Proof.
  intros H. destruct (year_of_day doe H) as (y & Hy & Hd).
  destruct (year_bounds y Hy) as (_ & _ & Hlen & Hs).
  pose proof (era_year_day y doe Hy Hd H) as E. unfold era_date. fold (era_year doe). rewrite E.
  replace (doe - (365 * y + y / 4 - y / 100)) with (doe - year_start y) by lia.
  set (k := doe - year_start y). assert (Hk : 0 <= k < 366) by lia.
  assert (Hmp : 0 <= (5 * k + 2) / 153 < 12) by (Z.div_mod_to_equations; lia).
  set (mp := (5 * k + 2) / 153) in *.
  assert (Hday : 0 <= k - (153 * mp + 2) / 5 < 31) by (unfold mp; Z.div_mod_to_equations; lia).
  unfold era_day.
  destruct (Z.ltb_spec mp 10);
    [destruct (Z.leb_spec (mp + 3) 2); [lia|] | destruct (Z.leb_spec (mp - 9) 2); [|lia]];
    cbv beta iota zeta.
  - replace (mp + 3 <=? 2) with false by (symmetry; apply Z.leb_gt; lia).
    replace (mp + 3 - 3) with mp by lia. split_and!; try lia.
  - replace (mp - 9 <=? 2) with true by (symmetry; apply Z.leb_le; lia).
    replace (mp - 9 + 9) with mp by lia. replace (y + 1 - 1) with y by lia. split_and!; try lia.
Qed.

Lemma civil_of_days_spec days :
  let '(y, m, d) := civil_of_days days in
  1 <= m <= 12 /\ 1 <= d <= 31 /\ days_of_civil y m d = days.
Proof.
  unfold civil_of_days, days_of_civil. set (z := days + 719468).
  pose proof (era_date_spec (z mod 146097) ltac:(apply Z.mod_pos_bound; lia)) as Hok.
  destruct (era_date (z mod 146097)) as [[y m] d]. cbv zeta in Hok.
  destruct Hok as (Hy & ? & ? & Hd). split_and!; [lia..|].
  assert (Hz : z = 146097 * (z / 146097) + z mod 146097) by (apply Z.div_mod; lia).
  set (k := z / 146097) in *.
  assert (Em : forall a, 0 <= a < 400 -> (a + 400 * k) mod 400 = a /\ (a + 400 * k) / 400 = k).
  { intros a Ha. rewrite (Z.mul_comm 400). rewrite Z.mod_add, Z.div_add by lia.
    rewrite Z.mod_small, Z.div_small by lia. lia. }
  destruct (Z.leb_spec m 2).
  - replace (y + 400 * k - 1) with (y - 1 + 400 * k) by lia.
    destruct (Em (y - 1)) as [-> ->]; [lia|]. replace (y - 1 + 1) with y by lia. lia.
  - destruct (Em y) as [-> ->]; [lia|]. rewrite Z.add_0_r. lia.
Qed.

Lemma gmtime_fields secs :
  let t := gmtime secs in
  0 <= tm_mon t < 12 /\ 1 <= tm_mday t <= 31 /\ 0 <= tm_hour t < 24 /\ 0 <= tm_min t < 60
  /\ 0 <= tm_sec t < 60 /\ 0 <= tm_wday t < 7.
Proof.
  unfold gmtime. pose proof (civil_of_days_spec (secs / 86400)) as H.
  destruct (civil_of_days (secs / 86400)) as [[y m] d]. simpl in *.
  pose proof (Z.mod_pos_bound secs 86400 ltac:(lia)).
  pose proof (Z.mod_pos_bound (secs mod 86400 / 60) 60 ltac:(lia)).
  pose proof (Z.mod_pos_bound (secs mod 86400) 60 ltac:(lia)).
  pose proof (Z.mod_pos_bound (secs / 86400 + 4) 7 ltac:(lia)).
  split_and!; try lia.
  - apply Z.div_pos; lia.
  - apply Z.div_lt_upper_bound; lia.
Qed.

Lemma gmtime_timegm secs : timegm (gmtime secs) = secs.
Proof.
  unfold timegm, gmtime. pose proof (civil_of_days_spec (secs / 86400)) as H.
  destruct (civil_of_days (secs / 86400)) as [[y m] d]. simpl in *.
  destruct H as (_ & _ & H).
  replace (y - 1900 + 1900) with y by lia. replace (m - 1 + 1) with m by lia. rewrite H.
  pose proof (Z.mod_pos_bound secs 86400 ltac:(lia)). set (r := secs mod 86400) in *.
  assert (r = r / 3600 * 3600 + r / 60 mod 60 * 60 + r mod 60).
  { replace (r / 3600) with (r / 60 / 60) by (rewrite Z.div_div; [done | lia | lia]).
    pose proof (Z.div_mod r 60 ltac:(lia)). pose proof (Z.div_mod (r / 60) 60 ltac:(lia)). lia. }
  pose proof (Z.div_mod secs 86400 ltac:(lia)). lia.
Qed.

(** ** Fixed-width decimals *)

Lemma length_fmt_0u_2 z : 0 <= z < 100 -> length (fmt_0u 2 z) = 2%nat.
Proof.
  intros H. assert (E : (length (fmt_0u 2 z) =? 2)%nat = true).
  { apply (check_below_spec (fun z => (length (fmt_0u 2 z) =? 2)%nat) 100 0); [|lia].
    vm_compute. reflexivity. }
  by apply Nat.eqb_eq.
Qed.

Lemma length_fmt_u_4 z : 0 <= z < 10000 -> length (fmt_u 4 z) = 4%nat.
Proof.
  intros H. apply Nat.eqb_eq.
  apply (check_below_spec (fun z => (length (fmt_u 4 z) =? 4)%nat) (Z.to_nat 10000) 0); [|lia].
  vm_compute. reflexivity.
Qed.

Definition digit (c : byte) : Z := byte.unsigned c - 48.
Definition dec2 (s : list byte) : Z := digit (nth 0 s Byte.x00) * 10 + digit (nth 1 s Byte.x00).

Lemma dec2_fmt z : 0 <= z < 100 -> dec2 (fmt_0u 2 z) = z.
Proof.
  intros H. apply Z.eqb_eq. apply (check_below_spec (fun z => dec2 (fmt_0u 2 z) =? z) 100 0); [|lia].
  vm_compute. reflexivity.
Qed.

Lemma abmon_inj i j : 0 <= i < 12 -> 0 <= j < 12 ->
  nth (Z.to_nat i) abmon [] = nth (Z.to_nat j) abmon [] -> i = j.
Proof.
  intros Hi Hj E.
  assert (Hn : NoDup abmon) by (apply (bool_decide_unpack _); vm_compute; exact I).
  rewrite (nth_lookup abmon), (nth_lookup abmon) in E.
  destruct (lookup_lt_is_Some_2 abmon (Z.to_nat i)) as [x Ex]; [change (length abmon) with 12%nat; lia|].
  destruct (lookup_lt_is_Some_2 abmon (Z.to_nat j)) as [y Ey]; [change (length abmon) with 12%nat; lia|].
  rewrite Ex, Ey in E. simpl in E. subst y.
  pose proof (NoDup_lookup _ _ _ _ Hn Ex Ey). lia.
Qed.

Lemma length_abmon i : 0 <= i < 12 -> length (nth (Z.to_nat i) abmon []) = 3%nat.
Proof.
  intros H. apply Nat.eqb_eq.
  apply (check_below_spec (fun i => (length (nth (Z.to_nat i) abmon []) =? 3)%nat) 12 0); [|lia].
  vm_compute. reflexivity.
Qed.

Lemma length_abday i : 0 <= i < 7 -> length (nth (Z.to_nat i) abday []) = 3%nat.
Proof.
  intros H. apply Nat.eqb_eq.
  apply (check_below_spec (fun i => (length (nth (Z.to_nat i) abday []) =? 3)%nat) 7 0); [|lia].
  vm_compute. reflexivity.
Qed.

Lemma gmtime_year_nonneg secs : 0 <= secs -> 0 <= tm_year (gmtime secs) + 1900.
Proof.
  intros H. unfold gmtime, civil_of_days. set (z := secs / 86400 + 719468).
  assert (0 <= secs / 86400) by (apply Z.div_pos; lia).
  pose proof (era_date_spec (z mod 146097) ltac:(apply Z.mod_pos_bound; lia)) as Hok.
  destruct (era_date (z mod 146097)) as [[y m] d]. cbv zeta in Hok. simpl.
  assert (0 <= z / 146097) by (apply Z.div_pos; lia).
  destruct (m <=? 2); lia.
Qed.

Lemma fmt_year_nonneg y : 0 <= y -> fmt_year y = to_string y.
Proof. intros. unfold fmt_year. case_test; [lia | done]. Qed.

(** The broken-down time can be read back from the text. *)
Lemma gmt_text_inj s1 s2 :
  0 <= s1 -> 0 <= s2 -> gmt_text (gmtime s1) = gmt_text (gmtime s2) -> s1 = s2.
Proof.
  intros H1 H2 E.
  pose proof (gmtime_fields s1) as F1. pose proof (gmtime_fields s2) as F2.
  pose proof (gmtime_year_nonneg s1 H1) as Y1. pose proof (gmtime_year_nonneg s2 H2) as Y2.
  rewrite <-(gmtime_timegm s1), <-(gmtime_timegm s2). unfold timegm.
  destruct (gmtime s1) as [y1 mo1 d1 h1 mi1 se1 w1], (gmtime s2) as [y2 mo2 d2 h2 mi2 se2 w2].
  unfold gmt_text in E. cbn [tm_year tm_mon tm_mday tm_hour tm_min tm_sec tm_wday] in *.
  destruct F1 as (?&?&?&?&?&?), F2 as (?&?&?&?&?&?).
  apply app_inj_1 in E as [_ E]; [|by rewrite !length_abday].
  apply app_inj_1 in E as [_ E]; [|done].
  apply app_inj_1 in E as [Ed E]; [|by rewrite !length_fmt_0u_2 by lia].
  apply app_inj_1 in E as [_ E]; [|done].
  apply app_inj_1 in E as [Em E]; [|by rewrite !length_abmon].
  apply app_inj_1 in E as [_ E]; [|done].
  apply app_inj_2 in E as [Ey E]; [|autorewrite with jlen; rewrite !length_fmt_0u_2 by lia; done].
  apply app_inj_1 in E as [_ E]; [|done].
  apply app_inj_1 in E as [Eh E]; [|by rewrite !length_fmt_0u_2 by lia].
  apply app_inj_1 in E as [_ E]; [|done].
  apply app_inj_1 in E as [Emi E]; [|by rewrite !length_fmt_0u_2 by lia].
  apply app_inj_1 in E as [_ E]; [|done].
  apply app_inj_1 in E as [Es _]; [|by rewrite !length_fmt_0u_2 by lia].
  apply (f_equal dec2) in Ed, Eh, Emi, Es. rewrite !dec2_fmt in Ed, Eh, Emi, Es by lia.
  apply abmon_inj in Em; [|lia..].
  rewrite !fmt_year_nonneg in Ey by lia. apply to_string_inj in Ey; [|lia..].
  do 5 f_equal; by simplify_eq.
Qed.

(** The GMT text names its second: two times that are formatted to the same
    HTTP date are in the same second since the epoch. *)
Theorem ToGmtString_same_second (d1 d2 : DateTime) (s : list byte) :
  0 <= d1 -> 0 <= d2 -> ToGmtString d1 = Ret s -> ToGmtString d2 = Ret s ->
  d1 / kMicroSecondsPerSecond = d2 / kMicroSecondsPerSecond.
Proof.
  intros H1 H2. unfold ToGmtString.
  do 2 (case_test; [|done]). intros [= E1] [= E2].
  unfold kMicroSecondsPerSecond in *. rewrite <-!Z.quot_div_nonneg by lia.
  apply gmt_text_inj; [apply Z.quot_pos; lia..|]. by rewrite E1, E2.
Qed.

Lemma ToGmtString_same_second_witness :
  784111777999999 / kMicroSecondsPerSecond = 784111777000000 / kMicroSecondsPerSecond.
Proof.
  apply (ToGmtString_same_second _ _ (bytes "Sun, 06 Nov 1994 08:49:37 GMT")); [lia | lia | |];
    vm_compute; reflexivity.
Defined.

(** [SetTimerFd] always gives the kernel a valid, non-zero [it_value] that
    lasts the requested time, and never less than 100 microseconds. *)
Theorem SetTimerFd_valid (us : Z) :
  let ts := SetTimerFd us in
  0 <= tv_sec ts /\ 0 <= tv_nsec ts < 10 ^ 9 /\ 0 < tv_sec ts * 10 ^ 9 + tv_nsec ts
  /\ tv_sec ts * 10 ^ 9 + tv_nsec ts = Z.max us 100 * 1000.
Proof.
  unfold SetTimerFd, kMicroSecondsPerSecond. simpl.
  set (e := if 100 <? us then us else 100).
  assert (He : e = Z.max us 100) by (unfold e; case_test; lia).
  rewrite <-He. pose proof (Z.quot_rem' e 1000000).
  pose proof (Z.rem_bound_pos e 1000000 ltac:(lia) ltac:(lia)).
  assert (0 <= Z.quot e 1000000) by (apply Z.quot_pos; lia). lia.
Qed.

(** [ToString] prints the UTC date with the UTC hour plus 8 and no carry: from
    16:00 UTC on it prints an hour between 24 and 31 on the wrong day. *)
Theorem ToString_hour_overflow (d : DateTime) :
  0 <= d -> tm_year (gmtime (d / kMicroSecondsPerSecond)) + 1900 <= 9999 ->
  16 <= tm_hour (gmtime (d / kMicroSecondsPerSecond)) ->
  24 <= dec2 (slice (ToString d) 11 13) <= 31
  /\ dec2 (slice (ToString d) 8 10) = tm_mday (gmtime (d / kMicroSecondsPerSecond)).
Proof.
  intros H0 Hy Hh. unfold ToString, kMicroSecondsPerSecond in *.
  assert (0 <= d / 1000000) by (apply Z.div_pos; lia).
  rewrite Z.quot_div_nonneg by lia. set (secs := d / 1000000) in *.
  pose proof (gmtime_fields secs) as F. pose proof (gmtime_year_nonneg secs ltac:(lia)) as Y.
  destruct (gmtime secs) as [y mo dd h mi se wd].
  cbn [tm_year tm_mon tm_mday tm_hour tm_min tm_sec tm_wday] in *.
  rewrite !slice_take by lia.
  assert (Hpre : length (fmt_u 4 (y + 1900) ++ bytes "-" ++ fmt_0u 2 (mo + 1) ++ bytes "-") = 8%nat).
  { rewrite !length_app, length_fmt_u_4, length_fmt_0u_2 by lia. done. }
  pose proof (length_fmt_0u_2 dd ltac:(lia)). pose proof (length_fmt_0u_2 (h + 8) ltac:(lia)).
  set (pre := fmt_u 4 (y + 1900) ++ bytes "-" ++ fmt_0u 2 (mo + 1) ++ bytes "-") in *.
  set (rest := bytes ":" ++ fmt_0u 2 mi ++ bytes ":" ++ fmt_0u 2 se ++ bytes "."
                 ++ fmt_0u 6 (Z.rem d 1000000)).
  replace (fmt_u 4 (y + 1900) ++ _)
    with (pre ++ fmt_0u 2 dd ++ (bytes " " ++ fmt_0u 2 (h + 8) ++ rest))
    by (unfold pre; rewrite <-!app_assoc; done).
  rewrite (slice_mid pre (fmt_0u 2 dd) _ 8 10) by lia.
  replace (pre ++ _) with ((pre ++ fmt_0u 2 dd ++ bytes " ") ++ fmt_0u 2 (h + 8) ++ rest)
    by (rewrite <-!app_assoc; done).
  rewrite slice_mid; [| rewrite !length_app, Hpre; change (length (bytes " ")) with 1%nat; lia
                     | lia].
  rewrite !dec2_fmt by lia. lia.
Qed.

Lemma ToString_hour_overflow_witness :
  24 <= dec2 (slice (ToString 1632067200000000) 11 13) <= 31
  /\ dec2 (slice (ToString 1632067200000000) 8 10) = 19.
Proof.
  destruct (ToString_hour_overflow 1632067200000000) as [H1 H2];
    [lia | vm_compute; discriminate | vm_compute; discriminate|].
  split; [exact H1|]. rewrite H2. vm_compute. reflexivity.
Defined.
