(* ===== verification/Channel.v ===== *)
(** * net/Channel and net/Poller: interest in events, and their dispatch

    A [Channel] is the owner of a file descriptor and of the mask of events it
    wants; a [Poller] is an epoll instance.  The kernel's side of the epoll
    instance, which maps a registered descriptor to the [epoll_event] it was
    registered with, is the state [EpollTable]. *)

From S2P Require Import Prelude CxxStd DateTime.
Local Open Scope Z_scope.

(** The constants of <sys/epoll.h>. *)
Definition EPOLLIN : Z := 1.
Definition EPOLLPRI : Z := 2.
Definition EPOLLOUT : Z := 4.
Definition EPOLLERR : Z := 8.
Definition EPOLLHUP : Z := 16.
Definition EPOLLRDHUP : Z := 8192.

(** [enum class EpollEvents]. *)
Definition kNoneEvent : Z := 0.
Definition kReadEvent : Z := Z.lor EPOLLIN EPOLLPRI.
Definition kWriteEvent : Z := EPOLLOUT.
Definition kCloseEvent : Z := EPOLLHUP.

(** The address of an object; a connection and its channel share one. *)
Definition ptr : Type := Z.

Record Channel := mkChannel {
  ch_fd : Z;
  events : Z;
  triggered_events : Z;
}.

Definition Channel_init (fd : Z) : Channel := mkChannel fd 0 0.

Definition set_events (e : Z) (c : Channel) : Channel := mkChannel (ch_fd c) e (triggered_events c).
Definition SetTriggeredEvent (evt : Z) (c : Channel) : Channel := mkChannel (ch_fd c) (events c) evt.
Definition GetFd (c : Channel) : Z := ch_fd c.

(** ** The epoll instance *)

Record epoll_event := mkEpollEvent { ev_events : Z; ev_ptr : option ptr }.
Abbreviation EpollTable := (gmap Z epoll_event).

Inductive epoll_op := EPOLL_CTL_ADD | EPOLL_CTL_DEL | EPOLL_CTL_MOD.

(** [epoll_ctl]: the return value and the table it leaves. *)
Definition epoll_ctl (t : EpollTable) (op : epoll_op) (fd : Z) (evt : epoll_event) : Z * EpollTable :=
  match op, t !! fd with
  | EPOLL_CTL_ADD, None => (0, <[fd := evt]> t)
  | EPOLL_CTL_MOD, Some _ => (0, <[fd := evt]> t)
  | EPOLL_CTL_DEL, Some _ => (0, delete fd t)
  | _, _ => (-1, t)
  end.

(** [Channel::GetEpollEvent]; [this] is the channel's address. *)
Definition GetEpollEvent (this : ptr) (c : Channel) : epoll_event :=
  mkEpollEvent (events c) (Some this).

(** [AddChannel] registers a zeroed [epoll_event]: no events, a null pointer. *)
Definition AddChannel (c : Channel) (t : EpollTable) : EpollTable :=
  (epoll_ctl t EPOLL_CTL_ADD (GetFd c) (mkEpollEvent 0 None)).2.
Definition RemoveChannel (c : Channel) (t : EpollTable) : EpollTable :=
  (epoll_ctl t EPOLL_CTL_DEL (GetFd c) (mkEpollEvent 0 None)).2.
Definition UpdateChannel (this : ptr) (c : Channel) (t : EpollTable) : EpollTable :=
  (epoll_ctl t EPOLL_CTL_MOD (GetFd c) (GetEpollEvent this c)).2.

(** ** Interest in events *)

Definition IsActivateReading (c : Channel) : bool := negb (Z.land (events c) kReadEvent =? 0).
Definition IsActivateWriting (c : Channel) : bool := negb (Z.land (events c) kWriteEvent =? 0).

(** [events |= e], [events &= ~e] on [uint32_t]. *)
Definition add_events (e : Z) (c : Channel) : Channel := set_events (Z.lor (events c) e) c.
Definition remove_events (e : Z) (c : Channel) : Channel :=
  set_events (Z.land (events c) (u32 (Z.lnot e))) c.

Definition ActivateReading (this : ptr) (c : Channel) (t : EpollTable) : Channel * EpollTable :=
  if negb (IsActivateReading c) then
    let c := add_events kReadEvent c in (c, UpdateChannel this c t)
  else (c, t).
Definition DeactivateReading (this : ptr) (c : Channel) (t : EpollTable) : Channel * EpollTable :=
  if IsActivateReading c then
    let c := remove_events kReadEvent c in (c, UpdateChannel this c t)
  else (c, t).
Definition ActivateWriting (this : ptr) (c : Channel) (t : EpollTable) : Channel * EpollTable :=
  if negb (IsActivateWriting c) then
    let c := add_events kWriteEvent c in (c, UpdateChannel this c t)
  else (c, t).
Definition DeactivateWriting (this : ptr) (c : Channel) (t : EpollTable) : Channel * EpollTable :=
  if IsActivateWriting c then
    let c := remove_events kWriteEvent c in (c, UpdateChannel this c t)
  else (c, t).
Definition ActivateRW (this : ptr) (c : Channel) (t : EpollTable) : Channel * EpollTable :=
  if negb (IsActivateReading c) || negb (IsActivateWriting c) then
    let c := add_events kWriteEvent (add_events kReadEvent c) in (c, UpdateChannel this c t)
  else (c, t).
Definition DeactivateRW (this : ptr) (c : Channel) (t : EpollTable) : Channel * EpollTable :=
  if IsActivateReading c || IsActivateWriting c then
    let c := set_events kNoneEvent c in (c, UpdateChannel this c t)
  else (c, t).

Definition AddToPoller (c : Channel) (t : EpollTable) : EpollTable := AddChannel c t.
Definition RemoveFromPoller (c : Channel) (t : EpollTable) : EpollTable := RemoveChannel c t.

(** ** Dispatch of a triggered event *)

(** The four [std::function]s of a channel, which act on a state [S]. *)
Record ChannelCallback (S : Type) := mkChannelCallback {
  OnWritable : option (DateTime -> S -> outcome S);
  OnReadable : option (DateTime -> S -> outcome S);
  OnPeerClose : option (DateTime -> S -> outcome S);
  OnError : option (DateTime -> S -> outcome S);
}.
Arguments mkChannelCallback {S}.
Arguments OnWritable {S}.
Arguments OnReadable {S}.
Arguments OnPeerClose {S}.
Arguments OnError {S}.

(** [if (f) f(time);] *)
Definition call_if {S} (f : option (DateTime -> S -> outcome S)) (time : DateTime) (s : S) : outcome S :=
  match f with Some f => f time s | None => Ret s end.

Definition has_event (evts e : Z) : bool := negb (Z.land evts e =? 0).

(** The text of [GetEventTypeName]; [back()] of an empty string is undefined. *)
Definition event_names (e : Z) : list byte :=
  mjoin ((fun p => if has_event e p.1 then bytes p.2 else []) <$>
    [(EPOLLIN, "EPOLLIN "); (EPOLLPRI, "EPOLLPRI "); (EPOLLOUT, "EPOLLOUT ");
     (EPOLLERR, "EPOLLERR "); (EPOLLHUP, "EPOLLHUP "); (EPOLLRDHUP, "EPOLLRDHUP ")]%string).
Definition GetEventTypeName (e : Z) : outcome (list byte) :=
  let name := event_names e in
  match last name with
  | None => Throw UndefinedBehaviour
  | Some c => Ret (if decide (c = Byte.x20) then take (length name - 1) name else name)
  end.

(** The level of the log decides whether the arguments of [LOG_DEBUG], and with
    them the name of the event, are evaluated. *)
Definition HandleEvent {S} (log_debug : bool) (cb : ChannelCallback S) (evts : Z) (time : DateTime) (s : S) : outcome S :=
  _ ← (if log_debug then GetEventTypeName evts else Ret []);
  if has_event evts kCloseEvent then call_if (OnPeerClose cb) time s
  else if has_event evts kReadEvent then call_if (OnReadable cb) time s
  else if has_event evts kWriteEvent then call_if (OnWritable cb) time s
  else call_if (OnError cb) time s.

(** ** The two switches a channel implements *)

(** The mask of a channel that wants to read, to write, both or neither. *)
Definition mask (r w : bool) : Z :=
  Z.lor (if r then kReadEvent else 0) (if w then kWriteEvent else 0).

Inductive channel_op :=
| OpActivateReading | OpDeactivateReading | OpActivateWriting | OpDeactivateWriting
| OpActivateRW | OpDeactivateRW.

Definition run_channel_op (this : ptr) (op : channel_op) (s : Channel * EpollTable)
    : Channel * EpollTable :=
  let '(c, t) := s in
  match op with
  | OpActivateReading => ActivateReading this c t
  | OpDeactivateReading => DeactivateReading this c t
  | OpActivateWriting => ActivateWriting this c t
  | OpDeactivateWriting => DeactivateWriting this c t
  | OpActivateRW => ActivateRW this c t
  | OpDeactivateRW => DeactivateRW this c t
  end.

(** What the operation means for the pair (reading, writing). *)
Definition switch (op : channel_op) (rw : bool * bool) : bool * bool :=
  match op with
  | OpActivateReading => (true, rw.2)
  | OpDeactivateReading => (false, rw.2)
  | OpActivateWriting => (rw.1, true)
  | OpDeactivateWriting => (rw.1, false)
  | OpActivateRW => (true, true)
  | OpDeactivateRW => (false, false)
  end.

(** The channel shows [rw], and the kernel waits for exactly these events.
    Before the first change the registration is still the zeroed one. *)
Definition in_sync (this : ptr) (rw : bool * bool) (c : Channel) (t : EpollTable) : Prop :=
  events c = mask rw.1 rw.2
  /\ exists p, t !! GetFd c = Some (mkEpollEvent (mask rw.1 rw.2) p)
       /\ (p = Some this \/ p = None /\ rw = (false, false)).

(** What an operation keeps: the descriptor and the other registrations. *)
Definition same_others (c : Channel) (t : EpollTable) (c' : Channel) (t' : EpollTable) : Prop :=
  GetFd c' = GetFd c /\ triggered_events c' = triggered_events c
  /\ forall fd, fd <> GetFd c -> t' !! fd = t !! fd.

Lemma UpdateChannel_lookup this c t e :
  t !! GetFd c = Some e -> UpdateChannel this c t = <[GetFd c := GetEpollEvent this c]> t.
Proof. intros E. unfold UpdateChannel, epoll_ctl. by rewrite E. Qed.

Lemma IsActivateReading_mask c r w : events c = mask r w -> IsActivateReading c = r.
Proof. intros E. unfold IsActivateReading. rewrite E. by destruct r, w. Qed.
Lemma IsActivateWriting_mask c r w : events c = mask r w -> IsActivateWriting c = w.
Proof. intros E. unfold IsActivateWriting. rewrite E. by destruct r, w. Qed.

Lemma run_channel_op_spec this op c t rw :
  in_sync this rw c t ->
  let '(c', t') := run_channel_op this op (c, t) in
  in_sync this (switch op rw) c' t' /\ same_others c t c' t'.
Proof.
  intros (He & p & Ht & Hp). destruct c as [fd ev tr], rw as [r w]. simpl in He, Ht. subst ev.
  unfold GetFd in Ht; simpl in Ht.
  assert (Hupd : forall c', ch_fd c' = fd ->
      UpdateChannel this c' t = <[fd := mkEpollEvent (events c') (Some this)]> t).
  { intros c' Hc. rewrite (UpdateChannel_lookup _ _ _ (mkEpollEvent (mask r w) p)); unfold GetFd;
      by rewrite Hc. }
  unfold run_channel_op, ActivateReading, DeactivateReading, ActivateWriting, DeactivateWriting,
    ActivateRW, DeactivateRW.
  rewrite (IsActivateReading_mask _ r w), (IsActivateWriting_mask _ r w) by done.
  destruct op, r, w; cbn [negb orb]; rewrite ?Hupd by done; clear Hupd;
    (split; [split; [done|] | split_and!; [done | done |]]);
    unfold GetFd; cbn [ch_fd add_events remove_events set_events].
  all: first [exists (Some this); split; [by rewrite lookup_insert_eq | by left]
             | exists p; split; [done | destruct Hp as [->|[-> [=]]]; auto]
             | intros fd' Hne; by rewrite ?lookup_insert_ne by congruence].
Qed.

(** C27: whatever sequence of activations and deactivations a registered channel
    goes through, its mask and the kernel's interest in its descriptor are those
    of two independent switches; the kernel gets the channel's address with the
    first change, and no other registration is touched. *)
Theorem channel_refines_switches (this : ptr) (ops : list channel_op) (c : Channel)
    (t : EpollTable) (rw : bool * bool) :
  in_sync this rw c t ->
  let '(c', t') := foldl (fun s op => run_channel_op this op s) (c, t) ops in
  in_sync this (foldl (fun rw op => switch op rw) rw ops) c' t' /\ same_others c t c' t'.
Proof.
  revert c t rw. induction ops as [|op ops IH]; intros c t rw Hs.
  { split; [done|]. by unfold same_others. }
  cbn [foldl]. pose proof (run_channel_op_spec this op c t rw Hs) as H1.
  destruct (run_channel_op this op (c, t)) as [c1 t1]. destruct H1 as [Hs1 (Hfd & Htr & Ho)].
  specialize (IH c1 t1 _ Hs1). destruct (foldl _ (c1, t1) ops) as [c' t'].
  destruct IH as [Hs' (Hfd' & Htr' & Ho')]. split; [done|].
  split_and!; [congruence | congruence|]. intros fd Hne. rewrite Ho', Ho; congruence.
Qed.

Lemma channel_refines_switches_witness :
  let ops := [OpActivateReading; OpActivateWriting; OpActivateWriting; OpDeactivateReading] in
  let '(c', t') := foldl (fun s op => run_channel_op 7 op s)
    (Channel_init 5, AddToPoller (Channel_init 5) ∅) ops in
  in_sync 7 (false, true) c' t'
  /\ same_others (Channel_init 5) (AddToPoller (Channel_init 5) ∅) c' t'.
Proof.
  apply (channel_refines_switches 7 [OpActivateReading; OpActivateWriting; OpActivateWriting;
    OpDeactivateReading] (Channel_init 5) (AddToPoller (Channel_init 5) ∅) (false, false)).
  split; [vm_compute; reflexivity|]. exists None. split; [vm_compute; reflexivity | by right].
Defined.

(** ** Which callback an event reaches *)

Lemma land_pow2 a n : 0 <= n -> (Z.land a (2 ^ n) =? 0) = negb (Z.testbit a n).
Proof.
  intros Hn. destruct (Z.testbit a n) eqn:E; simpl.
  - apply Z.eqb_neq. intros H. apply (f_equal (fun z => Z.testbit z n)) in H.
    rewrite Z.land_spec, Z.pow2_bits_true, E, Z.bits_0 in H by lia. done.
  - apply Z.eqb_eq. apply Z.bits_inj'. intros m Hm. rewrite Z.land_spec, Z.bits_0.
    destruct (decide (m = n)) as [->|]; [by rewrite E|].
    rewrite Z.pow2_bits_false by lia. apply andb_false_r.
Qed.

Lemma has_event_bit e n : 0 <= n -> has_event e (2 ^ n) = Z.testbit e n.
Proof. intros. unfold has_event. rewrite land_pow2 by done. apply negb_involutive. Qed.

Lemma has_event_lor e a b : has_event e (Z.lor a b) = has_event e a || has_event e b.
Proof.
  unfold has_event. rewrite Z.land_lor_distr_r.
  destruct (Z.eqb_spec (Z.land e a) 0) as [->|Ha].
  - rewrite Z.lor_0_l. done.
  - simpl. apply negb_true_iff, Z.eqb_neq. intros H. apply Z.lor_eq_0_iff in H. tauto.
Qed.

(** [epoll_wait] reports a descriptor with an event it waits for, or with an error
    or a hang-up, for which it always waits. *)
Definition reportable (evts : Z) : Prop :=
  has_event evts EPOLLIN || has_event evts EPOLLPRI || has_event evts EPOLLOUT
  || has_event evts EPOLLERR || has_event evts EPOLLHUP = true.
#[export] Instance reportable_dec evts : Decision (reportable evts).
Proof. unfold reportable. apply _. Defined.

(** An event is logged when there is something to name. *)
Definition nameable (log_debug : bool) (evts : Z) : Prop := log_debug = true -> reportable evts.
#[export] Instance nameable_dec log_debug evts : Decision (nameable log_debug evts).
Proof. unfold nameable. apply _. Defined.

Lemma GetEventTypeName_reportable evts : reportable evts -> exists name, GetEventTypeName evts = Ret name.
Proof.
  intros Hr. unfold GetEventTypeName. destruct (last (event_names evts)) eqn:E; [by eexists|]. exfalso.
  apply last_None in E. unfold reportable in Hr. unfold event_names in E. cbn [fmap list_fmap fst snd] in E.
  destruct (has_event evts EPOLLIN); [done|]. destruct (has_event evts EPOLLPRI); [done|].
  destruct (has_event evts EPOLLOUT); [done|]. destruct (has_event evts EPOLLERR); [done|].
  destruct (has_event evts EPOLLHUP); done.
Qed.

(** An event without any of the named bits: [back()] of an empty string. *)
Lemma GetEventTypeName_unnamed : GetEventTypeName 0 = Throw UndefinedBehaviour.
Proof. vm_compute. reflexivity. Qed.

Lemma HandleEvent_cases {S} (log_debug : bool) (cb : ChannelCallback S) (evts : Z) (time : DateTime) (s : S) :
  nameable log_debug evts ->
  HandleEvent log_debug cb evts time s
  = call_if (if has_event evts kCloseEvent then OnPeerClose cb
             else if has_event evts kReadEvent then OnReadable cb
             else if has_event evts kWriteEvent then OnWritable cb
             else OnError cb) time s.
Proof.
  intros Hn. unfold HandleEvent.
  assert (exists name, (if log_debug then GetEventTypeName evts else Ret []) = Ret name) as [name ->].
  { destruct log_debug; [by apply GetEventTypeName_reportable, Hn|by exists []]. }
  mrun. by repeat case_match.
Qed.

(** Exactly one callback handles an event, chosen by the bits of the mask:
    EPOLLHUP before EPOLLIN or EPOLLPRI before EPOLLOUT, and the error callback
    for everything else; so a hang-up hides data that arrived with it. *)
Theorem HandleEvent_dispatch {S} (log_debug : bool) (cb : ChannelCallback S) (evts : Z) (time : DateTime) (s : S) :
  nameable log_debug evts ->
  HandleEvent log_debug cb evts time s
  = call_if (if Z.testbit evts 4 then OnPeerClose cb
             else if Z.testbit evts 0 || Z.testbit evts 1 then OnReadable cb
             else if Z.testbit evts 2 then OnWritable cb
             else OnError cb) time s.
Proof.
  intros Hn. rewrite HandleEvent_cases by done. unfold kReadEvent. rewrite has_event_lor.
  change kCloseEvent with (2 ^ 4). change EPOLLIN with (2 ^ 0). change EPOLLPRI with (2 ^ 1).
  change kWriteEvent with (2 ^ 2). rewrite !has_event_bit by lia.
  by destruct (Z.testbit evts 4), (Z.testbit evts 0), (Z.testbit evts 1), (Z.testbit evts 2).
Qed.
