(* ===== verification/TcpConn.v ===== *)
(** * net/TcpConn: a connection in its event loop

    [Worker] is the state one event-loop thread works on: the live [TcpConn]
    objects, the epoll instance, the set of connections of the worker, and the
    calls made so far.  An operation of [TcpConn] takes the address of its
    object; using an object after its destruction is undefined behaviour. *)

From S2P Require Import Prelude CxxStd CxxMap DateTime BaseBuffer Channel InetAddress.
Local Open Scope Z_scope.

(** [TcpConn::State]. *)
Inductive ConnState := kConnected | kDisconnected | kShutdown.

#[export] Instance ConnState_eq_dec : EqDecision ConnState.
Proof. solve_decision. Defined.

(** System calls and calls of the user's functions, in the order they are made.
    [SysWrite] and [SysRead] record the bytes the kernel took or delivered. *)
Inductive effect :=
| SysWrite (fd : Z) (data : list byte)
| SysRead (fd : Z) (data : list byte)
| SysShutdown (fd : Z)
| SysClose (fd : Z)
| CallConnected (p : ptr)
| CallDisconnected (p : ptr)
| CallDataReceived (p : ptr).

(** [std::any]: [any_of] stores a value of type [T], [any_cast] gets it back and
    fails on values of other types. *)
Class AnyCast (T Any : Type) := {
  any_of : T -> Any;
  any_cast : Any -> option T;
  any_cast_of : forall x, any_cast (any_of x) = Some x;
}.
#[export] Instance any_cast_self T : AnyCast T T :=
  {| any_of x := x; any_cast x := Some x; any_cast_of x := eq_refl |}.

(** [std::any_cast<T>(x)]; an empty [std::any] holds no value of any type. *)
Definition cast_to {T Any} `{AnyCast T Any} (x : option Any) : outcome T :=
  match x ≫= any_cast with Some y => Ret y | None => Throw BadAnyCast end.

Section any.
(** The values a [std::any] holds. *)
Context {Any : Type}.

(** [TcpContext]: a [std::map<std::string, std::any>] behind a mutex. *)
Definition TcpContext : Type := list (list byte * Any).

(** [context.find(key.data())]: the key is read as a C string. *)
Definition TcpContext_Get (key : list byte) (c : TcpContext) : option Any :=
  map_find lex_lt (c_str key) c.
Definition TcpContext_Set (key : list byte) (value : Any) (c : TcpContext) : TcpContext :=
  map_emplace lex_lt key value c.

Record TcpConn := mkConn {
  channel : Channel;
  send_buffer : BaseBuffer;
  recv_buffer : BaseBuffer;
  context : TcpContext;
  codec : option Any;
  conn_state : ConnState;
  local_addr : InetAddress;
  peer_addr : InetAddress;
}.

Definition TcpConn_init (fd : Z) (local_addr peer_addr : InetAddress) : TcpConn :=
  mkConn (Channel_init fd) (BaseBuffer_init 1024) (BaseBuffer_init 1024) [] None kConnected local_addr peer_addr.

Definition set_channel (ch : Channel) (c : TcpConn) : TcpConn :=
  mkConn ch (send_buffer c) (recv_buffer c) (context c) (codec c) (conn_state c) (local_addr c) (peer_addr c).
Definition set_send_buffer (b : BaseBuffer) (c : TcpConn) : TcpConn :=
  mkConn (channel c) b (recv_buffer c) (context c) (codec c) (conn_state c) (local_addr c) (peer_addr c).
Definition set_recv_buffer (b : BaseBuffer) (c : TcpConn) : TcpConn :=
  mkConn (channel c) (send_buffer c) b (context c) (codec c) (conn_state c) (local_addr c) (peer_addr c).
Definition set_context (x : TcpContext) (c : TcpConn) : TcpConn :=
  mkConn (channel c) (send_buffer c) (recv_buffer c) x (codec c) (conn_state c) (local_addr c) (peer_addr c).
Definition set_codec (x : option Any) (c : TcpConn) : TcpConn :=
  mkConn (channel c) (send_buffer c) (recv_buffer c) (context c) x (conn_state c) (local_addr c) (peer_addr c).
(** [ExchangeState]. *)
Definition ExchangeState (s : ConnState) (c : TcpConn) : TcpConn :=
  mkConn (channel c) (send_buffer c) (recv_buffer c) (context c) (codec c) s (local_addr c) (peer_addr c).

(** The addresses of the two ends. *)
Definition GetLocalAddress (c : TcpConn) : InetAddress := local_addr c.
Definition GetPeerAddress (c : TcpConn) : InetAddress := peer_addr c.

(** [conn_set] is the worker's [TcpConnSet]; [held] holds the connections another
    [shared_ptr] points to (a timer or a task of the user). *)
Record Worker := mkWorker {
  heap : gmap ptr TcpConn;
  epoll : EpollTable;
  conn_set : gset ptr;
  held : gset ptr;
  encrypted : bool;
  trace : list effect;
}.

Definition set_heap (h : gmap ptr TcpConn) (w : Worker) : Worker :=
  mkWorker h (epoll w) (conn_set w) (held w) (encrypted w) (trace w).
Definition set_epoll (t : EpollTable) (w : Worker) : Worker :=
  mkWorker (heap w) t (conn_set w) (held w) (encrypted w) (trace w).
Definition set_conns (s : gset ptr) (w : Worker) : Worker :=
  mkWorker (heap w) (epoll w) s (held w) (encrypted w) (trace w).
Definition emit (e : effect) (w : Worker) : Worker :=
  mkWorker (heap w) (epoll w) (conn_set w) (held w) (encrypted w) (trace w ++ [e]).

(** Reading and writing the object at [p]. *)
Definition conn_at (p : ptr) (w : Worker) : outcome TcpConn :=
  match heap w !! p with Some c => Ret c | None => Throw UndefinedBehaviour end.
Definition put_conn (p : ptr) (c : TcpConn) (w : Worker) : Worker :=
  set_heap (<[p := c]> (heap w)) w.

(** Runs an interest operation on the channel of the connection at [p]. *)
Definition on_channel (op : ptr -> Channel -> EpollTable -> Channel * EpollTable) (p : ptr)
    (c : TcpConn) (w : Worker) : Worker :=
  let '(ch, t) := op p (channel c) (epoll w) in
  set_epoll t (put_conn p (set_channel ch c) w).

(** What the kernel and OpenSSL answer may depend on all that happened.
    [log_debug]: the library was built with [SHOW_LOG] and the level of the log is
    [kDebug]. *)
Record Kernel := mkKernel {
  sys_readv : Worker -> Z -> list nat -> read_result;
  sys_write : Worker -> Z -> list byte -> Z;
  sys_write_peer_gone : Worker -> Z -> bool;   (* errno is EPIPE or ECONNRESET *)
  sys_shutdown : Worker -> Z -> Z;
  ssl_read : Worker -> Z -> Z -> read_result;
  ssl_write : Worker -> Z -> list byte -> Z -> Z;
  ssl_want_read : Worker -> Z -> Z -> bool;    (* SSL_get_error is SSL_ERROR_WANT_READ *)
  now : Worker -> DateTime;
  log_debug : bool;
}.

(** [TcpCallback], the user's functions. *)
Record TcpCallback := mkTcpCallback {
  OnConnected : option (ptr -> DateTime -> Worker -> outcome Worker);
  OnDisconnected : option (ptr -> DateTime -> Worker -> outcome Worker);
  OnDataReceived : option (ptr -> DateTime -> Worker -> outcome Worker);
}.

Definition call_user (f : option (ptr -> DateTime -> Worker -> outcome Worker)) (e : ptr -> effect)
    (p : ptr) (time : DateTime) (w : Worker) : outcome Worker :=
  match f with Some f => f p time (emit (e p) w) | None => Ret w end.

Section operations.
Context (sys : Kernel) (callback : TcpCallback).

Definition IsConnected (c : TcpConn) : bool := bool_decide (conn_state c = kConnected).

Definition Send (p : ptr) (data : list byte) (w : Worker) : outcome Worker :=
  c ← conn_at p w;
  if negb (IsConnected c) then Ret w
  else
    let c := set_send_buffer (Append data (send_buffer c)) c in
    Ret (on_channel ActivateWriting p c w).

(** [~TcpConn] deletes the channel, which closes the descriptor; the kernel
    then drops its registration. *)
Definition destroy (p : ptr) (c : TcpConn) (w : Worker) : Worker :=
  let fd := GetFd (channel c) in
  emit (SysClose fd) (set_heap (delete p (heap w)) (set_epoll (delete fd (epoll w)) w)).

(** [worker->RemoveTcpConn(GetSharedPtr())]: the temporary [shared_ptr] keeps the
    object alive until the end of the call. *)
Definition RemoveFromIOWorker (p : ptr) (w : Worker) : outcome Worker :=
  c ← conn_at p w;
  let w := set_conns (conn_set w ∖ {[p]}) w in
  if decide (p ∈ held w) then Ret w else Ret (destroy p c w).

Definition OnChannelClose (p : ptr) (time : DateTime) (w : Worker) : outcome Worker :=
  c ← conn_at p w;
  let c := ExchangeState kDisconnected c in
  let t := RemoveFromPoller (channel c) (epoll w) in
  let c := set_recv_buffer (Release (recv_buffer c)) (set_send_buffer (Release (send_buffer c)) c) in
  w ← call_user (OnDisconnected callback) CallDisconnected p time (set_epoll t (put_conn p c w));
  RemoveFromIOWorker p w.

(** The channel's [OnPeerClose] and [OnError] are [OnChannelClose]. *)
Definition ForceClose (p : ptr) (w : Worker) : outcome Worker :=
  _ ← conn_at p w;
  OnChannelClose p (now sys w) w.

Definition Shutdown (p : ptr) (w : Worker) : outcome Worker :=
  c ← conn_at p w;
  let w := on_channel DeactivateWriting p (ExchangeState kShutdown c) w in
  let fd := GetFd (channel c) in
  let rc := sys_shutdown sys w fd in
  let w := emit (SysShutdown fd) w in
  if negb (rc =? 0) then ForceClose p w else Ret w.

Definition SetContext (p : ptr) (key : list byte) (value : Any) (w : Worker) : outcome Worker :=
  c ← conn_at p w;
  Ret (put_conn p (set_context (TcpContext_Set key value (context c)) c) w).
Definition GetContext {T} `{AnyCast T Any} (p : ptr) (key : list byte) (w : Worker) : outcome (option T) :=
  c ← conn_at p w;
  match TcpContext_Get key (context c) with
  | Some x => x ← cast_to (Some x); Ret (Some x)
  | None => Ret None
  end.
Definition GetDecoder {T} `{AnyCast T Any} (p : ptr) (w : Worker) : outcome T :=
  c ← conn_at p w;
  cast_to (codec c).
Definition SetStreamCodec (p : ptr) (x : Any) (w : Worker) : outcome Worker :=
  c ← conn_at p w;
  Ret (put_conn p (set_codec (Some x) c) w).

Definition OnChannelReadable (p : ptr) (time : DateTime) (w : Worker) : outcome Worker :=
  c ← conn_at p w;
  if negb (IsConnected c) then Ret w
  else
    let fd := GetFd (channel c) in
    if encrypted w then
      let '(n, b) := ReadBytesFromSsl true (ssl_read sys w fd) (recv_buffer c) in
      let w1 := put_conn p (set_recv_buffer b c) w in
      if n =? 0 then Shutdown p w1
      else if n <? 0 then
        if ssl_want_read sys w1 fd n then Ret w1 else ForceClose p w1
      else
        call_user (OnDataReceived callback) CallDataReceived p time
          (emit (SysRead fd (drop (ReadableBytes (recv_buffer c)) (ToStringView b))) w1)
    else
      let '(n, b) := ReadBytesFromFd (sys_readv sys w fd) (recv_buffer c) in
      let w1 := put_conn p (set_recv_buffer b c) w in
      if n <=? 0 then ForceClose p w1
      else
        call_user (OnDataReceived callback) CallDataReceived p time
          (emit (SysRead fd (drop (ReadableBytes (recv_buffer c)) (ToStringView b))) w1).

(** The last test of [OnChannelWritable]. *)
Definition stop_writing_if_empty (p : ptr) (w : Worker) : outcome Worker :=
  c ← conn_at p w;
  if (ReadableBytes (send_buffer c) =? 0)%nat then Ret (on_channel DeactivateWriting p c w)
  else Ret w.

Definition OnChannelWritable (p : ptr) (w : Worker) : outcome Worker :=
  c ← conn_at p w;
  if negb (IsConnected c) then Ret w
  else
    let fd := GetFd (channel c) in
    let wrote (n : Z) := SysWrite fd (take (Z.to_nat n) (ToStringView (send_buffer c))) in
    if encrypted w then
      let '(n, b) := WriteBytesToSsl true (ssl_write sys w fd) (send_buffer c) in
      let w1 := emit (wrote n) (put_conn p (set_send_buffer b c) w) in
      (* no return after [ForceClose] *)
      w2 ← (if n <=? 0 then ForceClose p w1 else Ret w1);
      stop_writing_if_empty p w2
    else
      let '(n, b) := WriteBytesToFd (sys_write sys w fd) (send_buffer c) in
      let w1 := emit (wrote n) (put_conn p (set_send_buffer b c) w) in
      if (n <? 0) && sys_write_peer_gone sys w fd then
        call_user (OnDisconnected callback) CallDisconnected p (now sys w1) w1
      else stop_writing_if_empty p w1.

(** [SetCallback]: the functions a connection gives its channel. *)
Definition channel_callback (p : ptr) : ChannelCallback Worker :=
  mkChannelCallback (Some (fun _ w => OnChannelWritable p w))
    (Some (OnChannelReadable p)) (Some (OnChannelClose p)) (Some (OnChannelClose p)).

(** The event loop calls [HandleEvent] of the connection's channel. *)
Definition handle_event (p : ptr) (time : DateTime) (w : Worker) : outcome Worker :=
  c ← conn_at p w;
  HandleEvent (log_debug sys) (channel_callback p) (triggered_events (channel c)) time w.
End operations.
End any.
Arguments TcpConn : clear implicits.
Arguments Worker : clear implicits.
Arguments Kernel : clear implicits.
Arguments TcpCallback : clear implicits.
