(* ===== verification/TcpConnInv.v ===== *)
(** * The invariant of the connections of a worker

    Registrations agree with the channels, an open connection with unsent data
    waits to write, and an object lives exactly as long as somebody owns it.
    Every operation and event handler of net/TcpConn keeps the invariant. *)

From S2P Require Import Prelude CxxStd CxxMap DateTime BaseBuffer Channel InetAddress TcpConn.
Local Open Scope Z_scope.

Definition fd_of {Any} (c : TcpConn Any) : Z := GetFd (channel c).

(** A connected connection is registered, and waits to write whenever it has
    something to send; one that was shut down never waits to write. *)
Definition registration_ok {Any} (p : ptr) (c : TcpConn Any) (t : EpollTable) : Prop :=
  match conn_state c with
  | kConnected => exists wr, in_sync p (true, wr) (channel c) t
                    /\ (view (send_buffer c) <> [] -> wr = true)
  | kShutdown => t !! fd_of c = None \/ in_sync p (true, false) (channel c) t
  | kDisconnected => t !! fd_of c = None
  end.

Record conn_ok {Any} (p : ptr) (c : TcpConn Any) (t : EpollTable) : Prop := {
  ok_send : wf (send_buffer c);
  ok_recv : wf (recv_buffer c);
  ok_reg : registration_ok p c t;
}.

Record wf_worker {Any} (w : Worker Any) : Prop := {
  wf_conns : forall p c, heap w !! p = Some c -> conn_ok p c (epoll w);
  wf_fds : forall p q c d, heap w !! p = Some c -> heap w !! q = Some d -> fd_of c = fd_of d -> p = q;
  wf_owned : dom (heap w) = conn_set w ∪ held w;
}.

Definition alive {Any} (p : ptr) (w : Worker Any) : Prop := is_Some (heap w !! p).

(** The addresses of a connection. *)
Definition ends {Any} (c : TcpConn Any) : InetAddress * InetAddress := (GetLocalAddress c, GetPeerAddress c).

(** The connection at [q], if there is one, is the same afterwards, as open or
    closed as before, still in the worker's set and registered if it was, and has
    the same event to handle; its buffers may have changed. *)
Definition left_open {Any} (q : ptr) (w w' : Worker Any) : Prop :=
  forall c, heap w !! q = Some c -> exists c', heap w' !! q = Some c'
    /\ conn_state c' = conn_state c /\ fd_of c' = fd_of c
    /\ triggered_events (channel c') = triggered_events (channel c)
    /\ (q ∈ conn_set w -> q ∈ conn_set w')
    /\ (is_Some (epoll w !! fd_of c) -> is_Some (epoll w' !! fd_of c)).

(** What a call on the connection at [p] may do to a well-formed worker: close
    [p], but shut down, close, unregister or remove no other connection; it makes
    no connection, and the addresses of those that stay do not change. *)
Record step_ok {Any} (p : ptr) (w w' : Worker Any) : Prop := {
  so_wf : wf_worker w';
  so_encrypted : encrypted w' = encrypted w;
  so_others : forall q, q <> p -> left_open q w w';
  so_ends : forall q c', heap w' !! q = Some c' -> exists c, heap w !! q = Some c /\ ends c' = ends c;
}.

Section invariant.
Context {Any : Type}.
Implicit Types (c : TcpConn Any) (w : Worker Any) (t : EpollTable) (p q : ptr).

Lemma conn_at_alive p c w : heap w !! p = Some c -> conn_at p w = Ret c.
Proof. intros E. unfold conn_at. by rewrite E. Qed.

Lemma conn_ok_frame p c t t' : t' !! fd_of c = t !! fd_of c -> conn_ok p c t -> conn_ok p c t'.
Proof.
  intros E [Hs Hr Hg]. split; [done..|]. unfold registration_ok, in_sync in *.
  unfold fd_of in *. destruct (conn_state c); rewrite E; done.
Qed.

(** Replacing one object, and at most its own registration. *)
Lemma wf_update p c c' t' w :
  wf_worker w -> heap w !! p = Some c -> fd_of c' = fd_of c ->
  (forall fd, fd <> fd_of c -> t' !! fd = epoll w !! fd) -> conn_ok p c' t' ->
  wf_worker (set_epoll t' (put_conn p c' w)).
Proof.
  intros [Hc Hf Ho] Hp Hfd Ht Hok. split; cbn.
  - intros q d. rewrite lookup_insert_Some. intros [[<- <-]|[Hne Hq]]; [done|].
    apply (conn_ok_frame q d (epoll w)); [|by apply Hc].
    apply Ht. intros E. apply Hne. by rewrite (Hf q p d c).
  - intros q1 q2 c1 c2. rewrite !lookup_insert_Some.
    intros [[<- <-]|[? ?]] [[<- <-]|[? ?]] E; [done| | |by eapply Hf].
    + rewrite Hfd in E. by apply (Hf _ _ c c2).
    + rewrite Hfd in E. by apply (Hf _ _ c1 c).
  - rewrite dom_insert_L, Ho. apply elem_of_dom_2 in Hp. rewrite Ho in Hp. set_solver.
Qed.

Lemma wf_put p c c' w :
  wf_worker w -> heap w !! p = Some c -> fd_of c' = fd_of c -> conn_ok p c' (epoll w) ->
  wf_worker (put_conn p c' w).
Proof.
  intros Hw Hp Hfd Hok. apply (wf_update p c c' (epoll w)) in Hp; [|done..]. by destruct w.
Qed.

Lemma wf_emit e w : wf_worker w -> wf_worker (emit e w).
Proof. intros [? ? ?]. by split. Qed.

Lemma left_open_refl q w : left_open q w w.
Proof. intros c Hc. by exists c. Qed.

Lemma left_open_trans q w1 w2 w3 : left_open q w1 w2 -> left_open q w2 w3 -> left_open q w1 w3.
Proof.
  intros H1 H2 c Hc. destruct (H1 c Hc) as (c2 & Hc2 & Es & Ef & Et & Hi & He).
  destruct (H2 c2 Hc2) as (c3 & Hc3 & Es' & Ef' & Et' & Hi' & He'). rewrite Ef in *.
  exists c3. split_and!; try congruence; auto.
Qed.

Lemma left_open_alive q w w' : left_open q w w' -> alive q w -> alive q w'.
Proof. intros H [c Hc]. destruct (H c Hc) as (c' & ? & _). by exists c'. Qed.

Lemma so_alive p w w' : step_ok p w w' -> forall q, q <> p -> alive q w -> alive q w'.
Proof. intros Hs q Hq. by apply left_open_alive, (so_others p w w'). Qed.

Lemma step_refl p w : wf_worker w -> step_ok p w w.
Proof. split; try done; [intros q _; apply left_open_refl|]. intros q c'. by exists c'. Qed.

Lemma step_trans p w1 w2 w3 : step_ok p w1 w2 -> step_ok p w2 w3 -> step_ok p w1 w3.
Proof.
  intros [? ? ? H1] [? ? ? H2]. split; [done | congruence | |].
  { intros q Hq. eapply left_open_trans; auto. }
  intros q c3 (c2 & Hc2 & ->)%H2. by apply H1.
Qed.

(** The objects of others and their registrations are not touched. *)
Lemma left_open_put p c c' w w' q :
  wf_worker w -> heap w !! p = Some c -> heap w' = <[p := c']> (heap w) -> conn_set w' = conn_set w ->
  (forall fd, fd <> fd_of c -> epoll w' !! fd = epoll w !! fd) -> q <> p -> left_open q w w'.
Proof.
  intros Hw Hp E Ec Ht Hq d Hd. exists d. rewrite E, Ec, lookup_insert_ne by done. split_and!; try done.
  rewrite Ht; [done|]. intros Ed. apply Hq. by apply (wf_fds w Hw q p d c).
Qed.

Lemma ends_put p c c' w w' :
  heap w !! p = Some c -> heap w' = <[p := c']> (heap w) -> ends c' = ends c ->
  forall q d', heap w' !! q = Some d' -> exists d, heap w !! q = Some d /\ ends d' = ends d.
Proof.
  intros Hp -> He q d'. rewrite lookup_insert_Some. intros [[<- <-]|[_ Hq]]; [by exists c|by exists d'].
Qed.

(** Steps from the changed object and its registration. *)
Lemma step_update p c c' t' w :
  wf_worker w -> heap w !! p = Some c -> fd_of c' = fd_of c /\ ends c' = ends c ->
  (forall fd, fd <> fd_of c -> t' !! fd = epoll w !! fd) -> conn_ok p c' t' ->
  step_ok p w (set_epoll t' (put_conn p c' w)).
Proof.
  intros Hw Hp [? ?] ? ?. split; [by apply (wf_update p c) | done | | by apply (ends_put p c c')].
  intros q. by apply (left_open_put p c c').
Qed.

Lemma step_put p c c' w :
  wf_worker w -> heap w !! p = Some c -> fd_of c' = fd_of c /\ ends c' = ends c -> conn_ok p c' (epoll w) ->
  step_ok p w (put_conn p c' w).
Proof.
  intros Hw Hp [? ?] ?. split; [by apply (wf_put p c) | done | | by apply (ends_put p c c')].
  intros q. by apply (left_open_put p c c').
Qed.

Lemma step_emit p e w w' : step_ok p w w' -> step_ok p w (emit e w').
Proof. intros [? ? ? ?]. split; [by apply wf_emit | done..]. Qed.

Lemma UpdateChannel_unregistered this ch t :
  t !! GetFd ch = None -> UpdateChannel this ch t = t.
Proof. intros E. unfold UpdateChannel, epoll_ctl. by rewrite E. Qed.

Lemma DeactivateWriting_unregistered this ch t :
  t !! GetFd ch = None ->
  exists ch', DeactivateWriting this ch t = (ch', t) /\ GetFd ch' = GetFd ch.
Proof.
  intros E. unfold DeactivateWriting. destruct (IsActivateWriting ch); [|by exists ch].
  exists (remove_events kWriteEvent ch). by rewrite UpdateChannel_unregistered.
Qed.

Lemma on_channel_spec op f p c w rw :
  (forall ch t, f p ch t = run_channel_op p op (ch, t)) ->
  in_sync p rw (channel c) (epoll w) ->
  exists ch t', on_channel f p c w = set_epoll t' (put_conn p (set_channel ch c) w)
    /\ in_sync p (switch op rw) ch t' /\ GetFd ch = fd_of c
    /\ forall fd, fd <> fd_of c -> t' !! fd = epoll w !! fd.
Proof.
  intros Hf Hs. unfold on_channel. rewrite Hf.
  pose proof (run_channel_op_spec p op (channel c) (epoll w) rw Hs) as H.
  destruct (run_channel_op p op (channel c, epoll w)) as [ch t']. destruct H as [Hs' (Hfd & _ & Ho)].
  by exists ch, t'.
Qed.

(** What [Send] does to an open connection: it queues the data and waits to
    write. *)
Lemma Send_open p c w d :
  wf_worker w -> heap w !! p = Some c -> conn_state c = kConnected ->
  exists c' t', Send p d w = Ret (set_epoll t' (put_conn p c' w))
    /\ step_ok p w (set_epoll t' (put_conn p c' w)) /\ fd_of c' = fd_of c
    /\ conn_state c' = kConnected /\ view (send_buffer c') = view (send_buffer c) ++ d
    /\ recv_buffer c' = recv_buffer c /\ codec c' = codec c /\ context c' = context c.
Proof.
  intros Hw Hp Hst. pose proof (wf_conns w Hw p c Hp) as [Hs Hr Hg].
  unfold registration_ok in Hg. rewrite Hst in Hg. destruct Hg as (wr & Hsync & _).
  unfold Send. rewrite (conn_at_alive p c) by done. mrun.
  unfold IsConnected. rewrite bool_decide_eq_true_2 by done. cbn [negb].
  set (c1 := set_send_buffer (Append d (send_buffer c)) c).
  destruct (on_channel_spec OpActivateWriting ActivateWriting p c1 w (true, wr))
    as (ch & t' & -> & Hsync' & Hfd & Ho); [done..|].
  exists (set_channel ch c1), t'. split_and!; try done.
  - apply (step_update p c); try done.
    split; [by apply wf_Append | done |]. unfold registration_ok. cbn. rewrite Hst. by exists true.
  - cbn. by apply view_Append.
Qed.

Lemma Send_closed p c w d :
  heap w !! p = Some c -> conn_state c <> kConnected -> Send p d w = Ret w.
Proof.
  intros Hp Hst. unfold Send. rewrite (conn_at_alive p c) by done. mrun.
  unfold IsConnected. by rewrite bool_decide_eq_false_2.
Qed.

(** ** Closing *)

Section closing.
Context (sys : Kernel Any) (callback : TcpCallback Any).

(** A user function that works on any well-formed worker. *)
Definition user_ok (keeps_alive : bool) (f : option (ptr -> DateTime -> Worker Any -> outcome (Worker Any)))
    : Prop :=
  forall g p time w, f = Some g -> wf_worker w -> alive p w ->
    exists w', g p time w = Ret w' /\ step_ok p w w' /\ (keeps_alive = true -> alive p w').

Lemma call_user_ok k f e p time w :
  user_ok k f -> wf_worker w -> alive p w ->
  exists w', call_user f e p time w = Ret w' /\ step_ok p w w' /\ (k = true -> alive p w').
Proof.
  intros Hf Hw Hp. unfold call_user. destruct f as [g|] eqn:E; [|exists w; split; [done|]; split; [by apply step_refl|done]].
  destruct (Hf g p time (emit (e p) w) eq_refl) as (w' & ? & [? ? ? ?] & ?); [by apply wf_emit | done|].
  by exists w'.
Qed.

Lemma RemoveFromIOWorker_ok p w :
  wf_worker w -> alive p w ->
  exists w', RemoveFromIOWorker p w = Ret w' /\ step_ok p w w' /\ (p ∉ conn_set w')
    /\ (alive p w' <-> p ∈ held w).
Proof.
  intros [Hc Hf Ho] [c Hp].
  assert (Hothers : forall h t es, (forall q, q <> p -> h !! q = heap w !! q) ->
    (forall fd, fd <> fd_of c -> t !! fd = epoll w !! fd) ->
    forall q, q <> p -> left_open q w (mkWorker h t (conn_set w ∖ {[p]}) (held w) (encrypted w) es)).
  { intros h t es Hh Ht q Hq d Hd. exists d. cbn. rewrite Hh by done. split_and!; try done; [set_solver|].
    rewrite Ht; [done|]. intros Ed. apply Hq. by apply (Hf q p d c). }
  unfold RemoveFromIOWorker. rewrite (conn_at_alive p c) by done. mrun.
  cbv zeta. cbn [held set_conns]. case_decide as Hh.
  - eexists. split; [done|]. cbn. split_and!; [split; [split; cbn; [done | done |] | done | by apply Hothers | intros q d; by exists d] | set_solver |].
    + rewrite Ho. apply set_eq. intros x. destruct (decide (x = p)) as [->|]; set_solver.
    + split; [done|]. by exists c.
  - eexists. split; [done|]. cbn. split_and!; [split; [split; cbn | done | apply Hothers |] | set_solver |].
    + intros q d [Hne Hq]%lookup_delete_Some. apply (conn_ok_frame q d (epoll w)); [|by apply Hc].
      rewrite lookup_delete_ne; [done|]. intros E. apply Hne. by apply (Hf p q c d).
    + intros q1 q2 c1 c2 [_ H1]%lookup_delete_Some [_ H2]%lookup_delete_Some. by apply Hf.
    + rewrite dom_delete_L, Ho. set_solver.
    + intros q Hq. cbn. by rewrite lookup_delete_ne.
    + intros fd Hfd. cbn. rewrite lookup_delete_ne; [done|]. by intros <-.
    + cbn. intros q d [_ Hd]%lookup_delete_Some. by exists d.
    + unfold alive. cbn. rewrite lookup_delete_eq. split; [by intros []|done].
Qed.

(** [OnChannelClose] up to the call of the user's function, whose result [w2] is
    then removed from the worker. *)
Lemma OnChannelClose_user p c time w :
  user_ok true (OnDisconnected callback) -> wf_worker w -> heap w !! p = Some c ->
  exists w1 w2, OnChannelClose callback p time w = RemoveFromIOWorker p w2
    /\ call_user (OnDisconnected callback) CallDisconnected p time w1 = Ret w2
    /\ (step_ok p w w2 /\ alive p w2) /\ held w1 = held w.
Proof.
  intros Hu Hw Hp. pose proof (wf_conns w Hw p c Hp) as [Hs Hr Hg].
  unfold OnChannelClose. rewrite (conn_at_alive p c) by done. mrun.
  set (c1 := set_recv_buffer _ _). set (t1 := RemoveFromPoller _ _).
  assert (Hreg : t1 !! fd_of c = None /\ forall fd, fd <> fd_of c -> t1 !! fd = epoll w !! fd).
  { unfold t1, RemoveFromPoller, RemoveChannel, epoll_ctl. cbn. change (GetFd (channel c)) with (fd_of c).
    destruct (epoll w !! fd_of c) eqn:E; cbn; [|done].
    split; [apply lookup_delete_eq|]. intros. by rewrite lookup_delete_ne by congruence. }
  destruct Hreg as [Hnone Hothers].
  assert (Hs1 : step_ok p w (set_epoll t1 (put_conn p c1 w))).
  { by apply (step_update p c). }
  destruct (call_user_ok true _ CallDisconnected p time _ Hu (so_wf _ _ _ Hs1)) as (w2 & E & Hs2 & Ha2).
  { eexists. cbn. apply lookup_insert_eq. }
  exists (set_epoll t1 (put_conn p c1 w)), w2. rewrite E.
  split_and!; [done | done | by eapply step_trans | by apply Ha2 | done].
Qed.

Lemma OnChannelClose_ok p time w :
  user_ok true (OnDisconnected callback) -> wf_worker w -> alive p w ->
  exists w', OnChannelClose callback p time w = Ret w' /\ step_ok p w w' /\ (p ∉ conn_set w').
Proof.
  intros Hu Hw [c Hp]. destruct (OnChannelClose_user p c time w Hu Hw Hp) as (w1 & w2 & -> & _ & [Hs2 Ha2] & _).
  destruct (RemoveFromIOWorker_ok p w2 (so_wf _ _ _ Hs2) Ha2) as (w3 & -> & Hs3 & Hn & _).
  exists w3. split_and!; [done | by eapply step_trans | done].
Qed.

Lemma ForceClose_ok p w :
  user_ok true (OnDisconnected callback) -> wf_worker w -> alive p w ->
  exists w', ForceClose sys callback p w = Ret w' /\ step_ok p w w' /\ (p ∉ conn_set w').
Proof.
  intros Hu Hw [c Hp]. unfold ForceClose. rewrite (conn_at_alive p c) by done. mrun.
  apply OnChannelClose_ok; [done..|by exists c].
Qed.

(** Without another owner the object is gone afterwards. *)
Lemma ForceClose_destroys p c w :
  user_ok true (OnDisconnected callback) ->
  (forall g time w w', OnDisconnected callback = Some g -> g p time w = Ret w' ->
     p ∉ held w -> p ∉ held w') ->
  wf_worker w -> heap w !! p = Some c -> p ∉ held w ->
  exists w', ForceClose sys callback p w = Ret w' /\ heap w' !! p = None.
Proof.
  intros Hu Hkeep Hw Hp Hheld. unfold ForceClose. rewrite (conn_at_alive p c) by done. mrun.
  destruct (OnChannelClose_user p c (now sys w) w Hu Hw Hp) as (w1 & w2 & -> & Hcall & [Hs2 Ha2] & Hheq).
  assert (Hh2 : p ∉ held w2).
  { unfold call_user in Hcall. destruct (OnDisconnected callback) as [g|] eqn:E.
    - apply (Hkeep g _ _ _ eq_refl Hcall). cbn. by rewrite Hheq.
    - injection Hcall as <-. by rewrite Hheq. }
  destruct (RemoveFromIOWorker_ok p w2 (so_wf _ _ _ Hs2) Ha2) as (w3 & E & _ & _ & Hdead).
  exists w3. split; [done|]. destruct (heap w3 !! p) eqn:E3; [|done]. exfalso. apply Hh2, Hdead. by eexists.
Qed.

(** [Shutdown] of any object: nothing will be written any more. *)
Lemma Shutdown_half p c w :
  wf_worker w -> heap w !! p = Some c ->
  exists c' t', on_channel DeactivateWriting p (ExchangeState kShutdown c) w
      = set_epoll t' (put_conn p c' w)
    /\ step_ok p w (set_epoll t' (put_conn p c' w)) /\ fd_of c' = fd_of c
    /\ conn_state c' = kShutdown /\ send_buffer c' = send_buffer c /\ recv_buffer c' = recv_buffer c
    /\ (forall fd, fd <> fd_of c -> t' !! fd = epoll w !! fd).
Proof.
  intros Hw Hp. pose proof (wf_conns w Hw p c Hp) as [Hs Hr Hg].
  set (c1 := ExchangeState kShutdown c).
  assert (Hcase : epoll w !! fd_of c = None \/ exists wr, in_sync p (true, wr) (channel c) (epoll w)).
  { unfold registration_ok in Hg. destruct (conn_state c); [right | by left | naive_solver].
    destruct Hg as (wr & ? & _). eauto. }
  destruct Hcase as [Hnone|[wr Hsync]].
  - destruct (DeactivateWriting_unregistered p (channel c) (epoll w) Hnone) as (ch & E & Hfd).
    exists (set_channel ch c1), (epoll w). unfold on_channel. cbn [channel ExchangeState c1] in *.
    change (channel c1) with (channel c). rewrite E. split_and!; try done.
    apply (step_update p c); try done. split; [done..|]. left. unfold fd_of. cbn. by rewrite Hfd.
  - destruct (on_channel_spec OpDeactivateWriting DeactivateWriting p c1 w (true, wr))
      as (ch & t' & -> & Hsync' & Hfd & Ho); [done..|].
    exists (set_channel ch c1), t'. split_and!; try done.
    apply (step_update p c); try done. split; [done..|]. by right.
Qed.

Lemma Shutdown_ok p w :
  user_ok true (OnDisconnected callback) -> wf_worker w -> alive p w ->
  exists w', Shutdown sys callback p w = Ret w' /\ step_ok p w w'.
Proof.
  intros Hu Hw [c Hp]. unfold Shutdown. rewrite (conn_at_alive p c) by done. mrun.
  destruct (Shutdown_half p c w Hw Hp) as (c' & t' & -> & Hs' & _).
  set (w1 := set_epoll t' _) in *. cbv zeta. set (w1' := emit _ w1).
  assert (Hs1 : step_ok p w w1') by by apply step_emit.
  destruct (negb _); [|by exists w1'].
  destruct (ForceClose_ok p w1' Hu (so_wf _ _ _ Hs1)) as (w2 & -> & ? & _).
  - eexists. cbn. apply lookup_insert_eq.
  - exists w2. split; [done|]. by eapply step_trans.
Qed.

(** ** Events *)

(** What the system calls guarantee: they deliver at most what fits, take at
    most what is offered, and a failed call returns no byte count. *)
Record kernel_ok : Prop := {
  k_readv : forall w fd, readv_conforms (sys_readv sys w fd);
  k_readv_fail : forall w fd iov rc, sys_readv sys w fd iov = ReadFail rc -> rc <= 0;
  k_write : forall w fd v, -1 <= sys_write sys w fd v <= Z.min (Z.of_nat (length v)) write_max;
  k_ssl_read : forall w fd n d, ssl_read sys w fd n = ReadData d -> (length d <= Z.to_nat n)%nat;
  k_ssl_read_fail : forall w fd n rc, ssl_read sys w fd n = ReadFail rc -> rc <= 0;
}.

Context (Hsys : kernel_ok).
Context (Hdis : user_ok true (OnDisconnected callback)) (Hdata : user_ok false (OnDataReceived callback)).

(** A read only changes the receive buffer. *)
Lemma step_put_recv p c b w :
  wf_worker w -> heap w !! p = Some c -> wf b -> step_ok p w (put_conn p (set_recv_buffer b c) w).
Proof.
  intros Hw Hp Hb. pose proof (wf_conns w Hw p c Hp) as [Hs Hr Hg].
  by apply (step_put p c).
Qed.

Lemma put_alive p c w : alive p (put_conn p c w).
Proof. eexists. cbn. apply lookup_insert_eq. Qed.

(** A step followed by closing, or by shutting down, is a step. *)
Lemma then_ForceClose p w w1 :
  step_ok p w w1 -> alive p w1 -> exists w', ForceClose sys callback p w1 = Ret w' /\ step_ok p w w'.
Proof.
  intros Hs Ha. destruct (ForceClose_ok p w1 Hdis (so_wf _ _ _ Hs) Ha) as (w' & ? & ? & _).
  exists w'. split; [done|]. by eapply step_trans.
Qed.

Lemma then_Shutdown p w w1 :
  step_ok p w w1 -> alive p w1 -> exists w', Shutdown sys callback p w1 = Ret w' /\ step_ok p w w'.
Proof.
  intros Hs Ha. destruct (Shutdown_ok p w1 Hdis (so_wf _ _ _ Hs) Ha) as (w' & ? & ?).
  exists w'. split; [done|]. by eapply step_trans.
Qed.

Lemma then_user k f e p time w w1 :
  user_ok k f -> step_ok p w w1 -> alive p w1 ->
  exists w', call_user f e p time w1 = Ret w' /\ step_ok p w w'.
Proof.
  intros Hf Hs Ha. destruct (call_user_ok k f e p time w1 Hf (so_wf _ _ _ Hs) Ha) as (w' & ? & ? & _).
  exists w'. split; [done|]. by eapply step_trans.
Qed.

Lemma OnChannelReadable_ok p time w :
  wf_worker w -> alive p w ->
  exists w', OnChannelReadable sys callback p time w = Ret w' /\ step_ok p w w'.
Proof.
  intros Hw [c Hp]. pose proof (wf_conns w Hw p c Hp) as [Hs Hr Hg].
  unfold OnChannelReadable. rewrite (conn_at_alive p c) by done. mrun.
  destruct (negb (IsConnected c)); [exists w; split; [done | by apply step_refl]|]. cbv zeta.
  assert (Hrecv : forall b, wf b -> step_ok p w (put_conn p (set_recv_buffer b c) w))
    by (intros; by apply step_put_recv).
  assert (Hgo : forall b d, wf b -> exists w',
    call_user (OnDataReceived callback) CallDataReceived p time
      (emit (SysRead (GetFd (channel c)) d) (put_conn p (set_recv_buffer b c) w)) = Ret w'
    /\ step_ok p w w').
  { intros b d Hb. apply (then_user false); [done | by apply step_emit, Hrecv | apply put_alive]. }
  destruct (encrypted w).
  - set (rd := ssl_read sys w (GetFd (channel c))).
    destruct (rd (i32 (Z.of_nat (WritableBytes (EnsureWritableSpace 1024 (recv_buffer c))))))
      as [rc|d] eqn:E.
    + rewrite (ReadBytesFromSsl_fail rd _ rc) by done.
      pose proof (Hrecv _ (wf_EnsureWritableSpace 1024 _ Hr)) as Hs1.
      repeat case_test; [apply then_Shutdown; [done|apply put_alive] | |
        by apply Hgo, wf_EnsureWritableSpace].
      destruct (ssl_want_read _ _ _ _); [eauto|]. apply then_ForceClose; [done|apply put_alive].
    + destruct (ReadBytesFromSsl_delivered rd (recv_buffer c) d Hr (k_ssl_read Hsys w _) E)
        as (b' & -> & Hb' & _).
      repeat case_test; [| lia | by apply Hgo].
      apply then_Shutdown; [by apply Hrecv|apply put_alive].
  - set (rd := sys_readv sys w (GetFd (channel c))).
    destruct (rd (iov_of (recv_buffer c))) as [rc|d] eqn:E.
    + rewrite (ReadBytesFromFd_fail rd _ rc E).
      pose proof (k_readv_fail Hsys _ _ _ _ E). case_test; [|lia].
      apply then_ForceClose; [by apply Hrecv|apply put_alive].
    + pose proof (ReadBytesFromFd_delivered rd (recv_buffer c) Hr (k_readv Hsys w _) d E) as H.
      destruct (ReadBytesFromFd rd (recv_buffer c)) as [n b']. destruct H as (-> & Hb' & _).
      case_test; [|by apply Hgo]. apply then_ForceClose; [by apply Hrecv|apply put_alive].
Qed.

(** A step that only touches the object at [p]. *)
Record only_conn p w w' : Prop := {
  oc_heap : forall q, q <> p -> heap w' !! q = heap w !! q;
  oc_set : conn_set w' = conn_set w;
  oc_held : held w' = held w;
  oc_encrypted : encrypted w' = encrypted w;
}.

Lemma only_conn_trans p w1 w2 w3 : only_conn p w1 w2 -> only_conn p w2 w3 -> only_conn p w1 w3.
Proof.
  intros [Ha ? ? ?] [Hb ? ? ?]. split; [|congruence..].
  intros q Hq. by rewrite Hb, Ha.
Qed.

Lemma only_conn_put p c t es w :
  only_conn p w (mkWorker (<[p := c]> (heap w)) t (conn_set w) (held w) (encrypted w) es).
Proof. split; try done. cbn. intros q Hq. by rewrite lookup_insert_ne. Qed.

(** The write buffer after [n] bytes were taken. *)
Lemma stop_writing_spec p c w :
  wf_worker w -> heap w !! p = Some c -> conn_state c = kConnected ->
  exists w' c', stop_writing_if_empty p w = Ret w' /\ step_ok p w w' /\ only_conn p w w'
    /\ trace w' = trace w /\ heap w' !! p = Some c' /\ fd_of c' = fd_of c
    /\ conn_state c' = kConnected /\ send_buffer c' = send_buffer c
    /\ (recv_buffer c' = recv_buffer c /\ codec c' = codec c /\ context c' = context c)
    /\ (view (send_buffer c) = [] -> in_sync p (true, false) (channel c') (epoll w')).
Proof.
  intros Hw Hp Hst. pose proof (wf_conns w Hw p c Hp) as [Hs Hr Hg].
  unfold registration_ok in Hg. rewrite Hst in Hg. destruct Hg as (wr & Hsync & Hwr).
  unfold stop_writing_if_empty. rewrite (conn_at_alive p c) by done. mrun.
  rewrite <-length_view by done. destruct (Nat.eqb_spec (length (view (send_buffer c))) 0) as [E|E].
  - apply nil_length_inv in E.
    destruct (on_channel_spec OpDeactivateWriting DeactivateWriting p c w (true, wr))
      as (ch & t' & -> & Hsync' & Hfd & Ho); [done..|].
    eexists _, (set_channel ch c). split; [done|]. split_and!; try done.
    + apply (step_update p c); try done. split; [done..|]. unfold registration_ok. cbn. rewrite Hst.
      exists false. split; [done|]. by rewrite E.
    + exact (only_conn_put p (set_channel ch c) t' (trace w) w).
    + cbn. apply lookup_insert_eq.
  - eexists _, c. split; [done|]. split; [by apply step_refl|]. split_and!; try done.
    intros Hv. by rewrite Hv in E.
Qed.

(** A writable event on an open plain connection: the bytes the kernel took
    leave the buffer; when nothing is left the connection stops waiting. *)
Lemma OnChannelWritable_open p c w :
  wf_worker w -> heap w !! p = Some c -> conn_state c = kConnected -> encrypted w = false ->
  let n := sys_write sys w (fd_of c) (view (send_buffer c)) in
  (n <? 0) && sys_write_peer_gone sys w (fd_of c) = false ->
  exists w' c', OnChannelWritable sys callback p w = Ret w' /\ step_ok p w w' /\ only_conn p w w'
    /\ trace w' = trace w ++ [SysWrite (fd_of c) (take (Z.to_nat n) (view (send_buffer c)))]
    /\ heap w' !! p = Some c' /\ fd_of c' = fd_of c /\ conn_state c' = kConnected
    /\ view (send_buffer c') = drop (Z.to_nat n) (view (send_buffer c))
    /\ (recv_buffer c' = recv_buffer c /\ codec c' = codec c /\ context c' = context c)
    /\ (view (send_buffer c') = [] -> in_sync p (true, false) (channel c') (epoll w')).
Proof.
  intros Hw Hp Hst Henc n Hn. pose proof (wf_conns w Hw p c Hp) as [Hs Hr Hg].
  unfold OnChannelWritable. rewrite (conn_at_alive p c) by done. mrun. unfold IsConnected.
  rewrite bool_decide_eq_true_2 by done. cbn [negb]. cbv zeta. rewrite Henc. fold (fd_of c).
  pose proof (k_write Hsys w (fd_of c)) as Hk. unfold write_max in Hk.
  destruct (WriteBytesToFd (sys_write sys w (fd_of c)) (send_buffer c)) as [k b] eqn:E.
  apply WriteBytesToFd_spec in E as (-> & Hb & Hv);
    [ | done | intros v; specialize (Hk v); lia | specialize (Hk (view (send_buffer c))); lia].
  fold n in Hv |- *. rewrite Hn.
  set (c1 := set_send_buffer b c). set (e := SysWrite _ _).
  assert (Hs1 : step_ok p w (emit e (put_conn p c1 w))).
  { apply step_emit. apply (step_put p c); [done..|]. split; [done..|].
    unfold registration_ok in *. cbn. rewrite Hst in *. destruct Hg as (wr & Hsync & Hwr).
    exists wr. split; [done|]. intros Hne. apply Hwr. intros Hnil. apply Hne.
    rewrite Hv, Hnil. apply drop_nil. }
  destruct (stop_writing_spec p c1 _ (so_wf _ _ _ Hs1))
    as (w' & c' & -> & Hw' & Honly & Ht & Hp' & Hfd & Hst' & Hs' & Hc' & Hoff);
    [cbn; apply lookup_insert_eq | done |].
  exists w', c'. split_and!; try done; try (by destruct Hc' as (? & ? & ?)).
  - by eapply step_trans.
  - apply (only_conn_trans p _ (emit e (put_conn p c1 w))); [|done].
    exact (only_conn_put p c1 (epoll w) (trace w ++ [e]) w).
  - by rewrite Hs'.
  - rewrite Hs'. exact Hoff.
Qed.

Lemma OnChannelWritable_ok p w :
  wf_worker w -> alive p w -> encrypted w = false ->
  exists w', OnChannelWritable sys callback p w = Ret w' /\ step_ok p w w'.
Proof.
  intros Hw [c Hp] Henc. destruct (decide (conn_state c = kConnected)) as [Hst|Hst].
  2:{ exists w. unfold OnChannelWritable. rewrite (conn_at_alive p c) by done. mrun. unfold IsConnected.
      rewrite bool_decide_eq_false_2 by done. split; [done | by apply step_refl]. }
  set (n := sys_write sys w (fd_of c) (view (send_buffer c))).
  destruct ((n <? 0) && sys_write_peer_gone sys w (fd_of c)) eqn:Hgone.
  - unfold OnChannelWritable. rewrite (conn_at_alive p c) by done. mrun. unfold IsConnected.
    rewrite bool_decide_eq_true_2 by done. cbn [negb]. cbv zeta. rewrite Henc. fold (fd_of c).
    pose proof (wf_conns w Hw p c Hp) as [Hs Hr Hg].
    pose proof (k_write Hsys w (fd_of c)) as Hk. unfold write_max in Hk.
    apply andb_true_iff in Hgone as [Hneg Hgone].
    unfold WriteBytesToFd. fold n. pose proof (Hk (view (send_buffer c))) as Hkn. fold n in Hkn.
    rewrite i32_small by lia. apply Z.ltb_lt in Hneg. rewrite Hgone. repeat case_test; try lia.
    apply (then_user true); [done | | apply put_alive].
    apply step_emit, (step_put p c); [done..|]. by destruct c.
  - destruct (OnChannelWritable_open p c w Hw Hp Hst Henc Hgone) as (w' & c' & ? & ? & _). eauto.
Qed.

(** ** Calls and events of one connection *)

Inductive conn_call :=
| CallSend (data : list byte) | CallShutdown | CallForceClose
| CallSetContext (key : list byte) (value : Any) | CallSetStreamCodec (x : Any)
| EventReadable (time : DateTime) | EventWritable (time : DateTime) | EventClose (time : DateTime)
| EventTriggered (time : DateTime).   (* whatever the channel was triggered with *)

Definition run_call (p : ptr) (call : conn_call) (w : Worker Any) : outcome (Worker Any) :=
  match call with
  | CallSend d => Send p d w
  | CallShutdown => Shutdown sys callback p w
  | CallForceClose => ForceClose sys callback p w
  | CallSetContext k v => SetContext p k v w
  | CallSetStreamCodec x => SetStreamCodec p x w
  | EventReadable time => OnChannelReadable sys callback p time w
  | EventWritable _ => OnChannelWritable sys callback p w
  | EventClose time => OnChannelClose callback p time w
  | EventTriggered time => handle_event sys callback p time w
  end.

(** An event that is handled has a name when it is logged. *)
Definition call_ok (p : ptr) (call : conn_call) (w : Worker Any) : Prop :=
  match call with
  | EventTriggered _ => forall c, heap w !! p = Some c -> nameable (log_debug sys) (triggered_events (channel c))
  | _ => True
  end.

Lemma run_call_ok p call w :
  wf_worker w -> alive p w -> encrypted w = false -> call_ok p call w ->
  exists w', run_call p call w = Ret w' /\ step_ok p w w'.
Proof.
  intros Hw [c Hp] Henc Hcall. pose proof (wf_conns w Hw p c Hp) as Hok.
  assert (Ha : alive p w) by by exists c.
  assert (Hclose : forall time, exists w', OnChannelClose callback p time w = Ret w' /\ step_ok p w w').
  { intros time. destruct (OnChannelClose_ok p time w Hdis Hw Ha) as (w' & ? & ? & _). eauto. }
  destruct call as [d| | |k v|x|time|time|time|time]; cbn [run_call].
  - destruct (decide (conn_state c = kConnected)) as [Hst|Hst].
    + destruct (Send_open p c w d Hw Hp Hst) as (c' & t' & ? & ? & _). eauto.
    + exists w. rewrite (Send_closed p c) by done. split; [done | by apply step_refl].
  - by apply Shutdown_ok.
  - destruct (ForceClose_ok p w Hdis Hw Ha) as (w' & ? & ? & _). eauto.
  - unfold SetContext. rewrite (conn_at_alive p c) by done. eexists. split; [done|].
    by apply (step_put p c); [..|destruct Hok].
  - unfold SetStreamCodec. rewrite (conn_at_alive p c) by done. eexists. split; [done|].
    by apply (step_put p c); [..|destruct Hok].
  - by apply OnChannelReadable_ok.
  - by apply OnChannelWritable_ok.
  - apply Hclose.
  - unfold handle_event. rewrite (conn_at_alive p c) by done. mrun. rewrite HandleEvent_cases by by apply Hcall.
    cbn [channel_callback OnPeerClose OnReadable OnWritable OnError call_if].
    repeat case_match; [apply Hclose | by apply OnChannelReadable_ok | by apply OnChannelWritable_ok | apply Hclose].
Qed.
End closing.
End invariant.
