(* ===== verification/TcpStream.v ===== *)
(** * What a connection promises: the theorems about net/TcpConn

    Safety of every call and event, the byte stream a connection carries, and
    the defects of its closing paths. *)

From S2P Require Import Prelude CxxStd CxxMap DateTime BaseBuffer Channel InetAddress TcpConn TcpConnInv.
Local Open Scope Z_scope.

(** The echo server of examples/EchoServer.cc. *)
Definition echo {Any} (p : ptr) (time : DateTime) (w : Worker Any) : outcome (Worker Any) :=
  c ← conn_at p w;
  w ← Send p (ToStringView (recv_buffer c)) w;
  c ← conn_at p w;
  Ret (put_conn p (set_recv_buffer (DropAllBytes (recv_buffer c)) c) w).

Definition echo_callback {Any} : TcpCallback Any := mkTcpCallback None None (Some echo).

(** A kernel that delivers [d] to every read and takes every write; [rc] is what
    [shutdown] returns. *)
Definition test_kernel {Any} (d : list byte) (rc : Z) : Kernel Any :=
  mkKernel (fun _ _ => readv_of d) (fun _ _ v => Z.min (Z.of_nat (length v)) write_max)
    (fun _ _ => false) (fun _ _ => rc) (fun _ _ n => ReadData (take (Z.to_nat n) d))
    (fun _ _ v _ => -1) (fun _ _ _ => false) (fun _ => 0) true.

Lemma test_kernel_ok {Any} d rc : kernel_ok (test_kernel (Any := Any) d rc).
Proof.
  split; cbn.
  - intros _ _. apply readv_of_conforms.
  - done.
  - intros _ _ v. unfold write_max. lia.
  - intros _ _ n d' [= <-]. rewrite length_take. lia.
  - done.
Qed.

(** A plain worker with one established connection, at address 7 with descriptor 5,
    that waits to read and has nothing to send. *)
Definition lone_conn {Any} (recv : BaseBuffer) (codec : option Any) : TcpConn Any :=
  mkConn (mkChannel 5 kReadEvent 0) (BaseBuffer_init 1024) recv [] codec kConnected InetAddress_zero InetAddress_zero.
Definition lone_worker {Any} (c : TcpConn Any) : Worker Any :=
  mkWorker {[ 7 := c ]} {[ 5 := mkEpollEvent kReadEvent (Some 7) ]} {[ 7 ]} ∅ false [].

Lemma lone_worker_wf {Any} recv (codec : option Any) : wf recv -> wf_worker (lone_worker (lone_conn recv codec)).
Proof.
  intros Hr. split; cbn -[BaseBuffer_init].
  - intros p c [<- <-]%lookup_singleton_Some. split; [apply wf_init | done |].
    exists false. split; [|done]. split; [done|]. exists (Some 7). auto.
  - intros p q c d [<- _]%lookup_singleton_Some [<- _]%lookup_singleton_Some. done.
  - by rewrite dom_singleton_L, right_id_L by apply _.
Qed.

Lemma lone_worker_heap {Any} (c : TcpConn Any) : heap (lone_worker c) !! (7 : ptr) = Some c.
Proof. apply lookup_singleton_eq. Qed.

Definition one_conn : Worker unit := lone_worker (lone_conn (BaseBuffer_init 1024) None).

Lemma one_conn_wf : wf_worker one_conn.
Proof. apply lone_worker_wf, wf_init. Qed.

Section stream.
Context {Any : Type} (sys : Kernel Any) (callback : TcpCallback Any).
Implicit Types (c : TcpConn Any) (w : Worker Any) (p : ptr).

Lemma user_ok_none k : user_ok k (@None (ptr -> DateTime -> Worker Any -> outcome (Worker Any))).
Proof. by intros g. Qed.

Lemma user_ok_ret k : user_ok k (Some (fun (_ : ptr) (_ : DateTime) w => Ret w)).
Proof. intros g p time w [= <-] Hw Ha. exists w. split_and!; [done | by apply step_refl | done]. Qed.

Lemma echo_ok : user_ok false (Some (@echo Any)).
Proof.
  intros g p time w [= <-] Hw [c Hp]. unfold echo. rewrite (conn_at_alive p c) by done. mrun.
  assert (Hgo : forall w1 c1, step_ok p w w1 -> heap w1 !! p = Some c1 ->
    step_ok p w (put_conn p (set_recv_buffer (DropAllBytes (recv_buffer c1)) c1) w1)).
  { intros w1 c1 Hs Hp1. eapply step_trans; [exact Hs|].
    apply (step_put_recv p c1); [apply Hs | done | apply wf_DropAllBytes]. }
  destruct (decide (conn_state c = kConnected)) as [Hst|Hst].
  - destruct (Send_open p c w (view (recv_buffer c)) Hw Hp Hst) as (c' & t' & -> & Hs & _).
    assert (Hp' : heap (set_epoll t' (put_conn p c' w)) !! p = Some c') by apply lookup_insert_eq.
    rewrite (conn_at_alive p c') by done. eexists. split; [done|]. split; [by apply Hgo | done].
  - rewrite (Send_closed p c) by done. rewrite (conn_at_alive p c) by done.
    eexists. split; [done|]. split; [|done]. apply Hgo; [by apply step_refl | done].
Qed.
End stream.

(** C1: on plain connections every call and every event is safe.  Whatever the
    kernel answers within its documentation, and for user functions that
    themselves return and keep to this contract, it never uses a destroyed
    object and it keeps the invariant: registrations match the channels, an open
    connection with unsent data waits to write, objects are alive exactly as long
    as somebody owns them.  It shuts down, closes, unregisters or removes no other
    connection ([left_open]), makes none, and changes no address.  An event that
    is handled while debug lines are logged must be one [epoll_wait] reports. *)
Theorem conn_calls_safe {Any} (sys : Kernel Any) (callback : TcpCallback Any) (p : ptr)
    (call : conn_call) (w : Worker Any) :
  kernel_ok sys -> user_ok true (OnDisconnected callback) -> user_ok false (OnDataReceived callback) ->
  wf_worker w -> alive p w -> encrypted w = false -> call_ok sys p call w ->
  exists w', run_call sys callback p call w = Ret w' /\ step_ok p w w'.
Proof. intros. by apply run_call_ok. Qed.

(** A second connection, at address 9 with descriptor 6, beside the first. *)
Definition two_conns : Worker unit :=
  mkWorker {[ 7 := set_channel (mkChannel 5 kReadEvent EPOLLIN) (lone_conn (BaseBuffer_init 1024) None);
              9 := set_channel (mkChannel 6 kReadEvent 0) (lone_conn (BaseBuffer_init 1024) None) ]}
    {[ 5 := mkEpollEvent kReadEvent (Some 7); 6 := mkEpollEvent kReadEvent (Some 9) ]} {[ 7; 9 ]} ∅ false [].

Lemma two_conns_lookup p c : heap two_conns !! p = Some c ->
  p = 7 /\ c = set_channel (mkChannel 5 kReadEvent EPOLLIN) (lone_conn (BaseBuffer_init 1024) None)
  \/ p = 9 /\ c = set_channel (mkChannel 6 kReadEvent 0) (lone_conn (BaseBuffer_init 1024) None).
Proof. unfold two_conns. cbn [heap]. intros [[<- <-]|[_ [<- <-]%lookup_singleton_Some]]%lookup_insert_Some; auto. Qed.

Lemma two_conns_wf : wf_worker two_conns.
Proof.
  split.
  - intros p c [[-> ->]|[-> ->]]%two_conns_lookup; (split; [apply wf_init | apply wf_init |]);
      exists false; (split; [|done]); (split; [done|]); eexists; (split; [vm_compute; reflexivity|by left]).
  - intros p q c d [[-> ->]|[-> ->]]%two_conns_lookup [[-> ->]|[-> ->]]%two_conns_lookup; done.
  - vm_compute. reflexivity.
Qed.

(** The first connection echoes; the second stays as it is. *)
Lemma conn_calls_safe_witness :
  exists w', run_call (test_kernel (bytes "Tom and Jerry") 0) echo_callback 7 (EventTriggered 0) two_conns = Ret w'
    /\ step_ok 7 two_conns w' /\ left_open 9 two_conns w'.
Proof.
  destruct (conn_calls_safe (test_kernel (bytes "Tom and Jerry") 0) echo_callback 7 (EventTriggered 0) two_conns)
    as (w' & E & Hs).
  - apply test_kernel_ok.
  - apply user_ok_none.
  - apply echo_ok.
  - apply two_conns_wf.
  - eexists. vm_compute. reflexivity.
  - reflexivity.
  - intros c [[_ ->]|[? _]]%two_conns_lookup; [|done]. intros _. vm_compute. reflexivity.
  - exists w'. split; [exact E|]. split; [exact Hs|]. by apply (so_others _ _ _ Hs).
Defined.

(** The room [readv] is given. *)
Lemma iov_of_writable b : (WritableBytes b <= sum_list (iov_of b))%nat.
Proof. unfold iov_of. generalize (WritableBytes b), extra_buffer_size. intros n x. destruct (_ <? _)%nat; cbn; lia. Qed.

Lemma iov_of_room b : (0 < sum_list (iov_of b))%nat.
Proof.
  unfold iov_of. assert (Hx : (0 < extra_buffer_size)%nat) by (unfold extra_buffer_size; lia). revert Hx.
  generalize (WritableBytes b), extra_buffer_size. intros n x Hx. destruct (Nat.ltb_spec n x); cbn; lia.
Qed.

(** ** The byte stream *)

(** The bytes the kernel took for a descriptor. *)
Definition written (fd : Z) (es : list effect) : list byte :=
  mjoin ((fun e => match e with
                   | SysWrite f d => if decide (f = fd) then d else []
                   | _ => []
                   end) <$> es).

Lemma written_app fd es1 es2 : written fd (es1 ++ es2) = written fd es1 ++ written fd es2.
Proof. unfold written. by rewrite fmap_app, join_app. Qed.

Lemma written_one fd d : written fd [SysWrite fd d] = d.
Proof. unfold written. cbn. rewrite decide_True by done. apply app_nil_r. Qed.

(** Sending data, and the events in which the kernel takes some of it. *)
Inductive stream_op := StreamSend (data : list byte) | StreamWritable.

Definition stream_data (ops : list stream_op) : list byte :=
  mjoin ((fun op => match op with StreamSend d => d | StreamWritable => [] end) <$> ops).

Lemma stream_data_writable n : stream_data (replicate n StreamWritable) = [].
Proof. induction n as [|n IH]; [done|exact IH]. Qed.

Section streams.
Context {Any : Type} (sys : Kernel Any) (callback : TcpCallback Any).
Implicit Types (c : TcpConn Any) (w : Worker Any) (p : ptr).

Definition run_stream_op (p : ptr) (op : stream_op) (w : Worker Any) : outcome (Worker Any) :=
  match op with
  | StreamSend d => Send p d w
  | StreamWritable => OnChannelWritable sys callback p w
  end.

Fixpoint run_stream (p : ptr) (ops : list stream_op) (w : Worker Any) : outcome (Worker Any) :=
  match ops with
  | [] => Ret w
  | op :: ops => w ← run_stream_op p op w; run_stream p ops w
  end.

(** The peer does not reset the connection under a write. *)
Definition peer_stays : Prop :=
  forall w fd v, (sys_write sys w fd v <? 0) && sys_write_peer_gone sys w fd = false.

(** The peer keeps sending: a connection that is reported readable has data. *)
Definition peer_sends : Prop :=
  forall w fd iov, (0 < sum_list iov)%nat -> exists d, sys_readv sys w fd iov = ReadData d /\ d <> [].

(** The connection at [p] is open on the plain worker [w]. *)
Definition open_at (p : ptr) (w : Worker Any) (c : TcpConn Any) : Prop :=
  wf_worker w /\ heap w !! p = Some c /\ conn_state c = kConnected /\ encrypted w = false.

(** One step of the stream, with what it wrote. *)
Lemma run_stream_op_spec p op w c :
  kernel_ok sys -> peer_stays -> open_at p w c ->
  exists w' c' es, run_stream_op p op w = Ret w' /\ open_at p w' c' /\ fd_of c' = fd_of c
    /\ trace w' = trace w ++ es
    /\ written (fd_of c) es ++ view (send_buffer c') = view (send_buffer c) ++ stream_data [op].
Proof.
  intros Hk Hpeer (Hw & Hp & Hst & Henc). destruct op as [d|]; cbn [run_stream_op].
  - destruct (Send_open p c w d Hw Hp Hst) as (c' & t' & -> & Hw' & Hfd & Hst' & Hv & _).
    exists (set_epoll t' (put_conn p c' w)), c', []. split_and!; try done.
    + split_and!; try done; [apply Hw' | apply lookup_insert_eq].
    + cbn. by rewrite app_nil_r.
    + rewrite Hv. unfold stream_data. cbn. by rewrite app_nil_r.
  - destruct (OnChannelWritable_open sys callback Hk p c w Hw Hp Hst Henc (Hpeer _ _ _))
      as (w' & c' & -> & Hw' & Ho & Ht & Hp' & Hfd & Hst' & Hv & _).
    exists w', c', [SysWrite (fd_of c) (take (Z.to_nat (sys_write sys w (fd_of c) (view (send_buffer c))))
                                             (view (send_buffer c)))].
    split_and!; try done.
    + split_and!; try done; [apply Hw' | by rewrite (oc_encrypted _ _ _ Ho)].
    + rewrite written_one, Hv, take_drop. unfold stream_data. cbn. by rewrite app_nil_r.
Qed.

Lemma run_stream_spec p ops w c :
  kernel_ok sys -> peer_stays -> open_at p w c ->
  exists w' c' es, run_stream p ops w = Ret w' /\ open_at p w' c' /\ fd_of c' = fd_of c
    /\ trace w' = trace w ++ es
    /\ written (fd_of c) es ++ view (send_buffer c') = view (send_buffer c) ++ stream_data ops.
Proof.
  intros Hk Hpeer. revert w c. induction ops as [|op ops IH]; intros w c Ho.
  { exists w, c, []. cbn. by rewrite !app_nil_r. }
  destruct (run_stream_op_spec p op w c Hk Hpeer Ho) as (w1 & c1 & es1 & E1 & Ho1 & Hfd1 & Ht1 & Hb1).
  destruct (IH w1 c1 Ho1) as (w2 & c2 & es2 & E2 & Ho2 & Hfd2 & Ht2 & Hb2).
  exists w2, c2, (es1 ++ es2). cbn [run_stream]. rewrite E1. mrun. split_and!; [done | done | congruence | |].
  - by rewrite Ht2, Ht1, app_assoc.
  - rewrite Hfd1 in Hb2. rewrite written_app, <-app_assoc, Hb2, app_assoc, Hb1, <-app_assoc. f_equal.
    unfold stream_data. cbn. by rewrite app_nil_r.
Qed.

(** With progress of the kernel, one writable event per pending byte is enough. *)
Lemma flush_spec p n w c :
  kernel_ok sys -> peer_stays -> (forall w fd v, v <> [] -> 0 < sys_write sys w fd v) ->
  open_at p w c -> (length (view (send_buffer c)) < n)%nat ->
  exists w' c', run_stream p (replicate n StreamWritable) w = Ret w' /\ open_at p w' c'
    /\ view (send_buffer c') = []
    /\ in_sync p (true, false) (channel c') (epoll w').
Proof.
  intros Hk Hpeer Hprog. revert w c. induction n as [|n IH]; intros w c Ho Hlen; [lia|].
  destruct Ho as (Hw & Hp & Hst & Henc). cbn [replicate run_stream run_stream_op].
  destruct (OnChannelWritable_open sys callback Hk p c w Hw Hp Hst Henc (Hpeer _ _ _))
    as (w1 & c1 & -> & Hw1 & Ho1 & _ & Hp1 & Hfd1 & Hst1 & Hv1 & _ & Hoff). mrun.
  assert (Hopen : open_at p w1 c1)
    by (split_and!; try done; [apply Hw1 | by rewrite (oc_encrypted _ _ _ Ho1)]).
  destruct n as [|n].
  - destruct (view (send_buffer c)) eqn:E; [|cbn in Hlen; lia].
    rewrite drop_nil in Hv1. exists w1, c1. auto.
  - apply (IH w1 c1); [done|]. rewrite Hv1, length_drop.
    destruct (view (send_buffer c)) as [|b v] eqn:E; [cbn; lia|].
    pose proof (Hprog w (fd_of c) (b :: v) ltac:(done)). cbn [length] in *. lia.
Qed.

(** Writable events leave the receive buffer and the codec alone. *)
Lemma run_writable_keeps p n w c w' c' :
  kernel_ok sys -> peer_stays -> open_at p w c ->
  run_stream p (replicate n StreamWritable) w = Ret w' -> heap w' !! p = Some c' ->
  recv_buffer c' = recv_buffer c /\ codec c' = codec c.
Proof.
  intros Hk Hpeer. revert w c. induction n as [|n IH]; intros w c (Hw & Hp & Hst & Henc) E Hp'; cbn [replicate run_stream run_stream_op] in E.
  - injection E as <-. rewrite Hp in Hp'. by injection Hp' as <-.
  - destruct (OnChannelWritable_open sys callback Hk p c w Hw Hp Hst Henc (Hpeer _ _ _))
      as (w1 & c1 & E1 & Hw1 & Ho1 & _ & Hp1 & _ & Hst1 & _ & (Hr1 & Hc1 & _) & _).
    rewrite E1 in E. revert E. mrun. intros E. destruct (IH w1 c1) as [-> ->]; [|done..].
    split_and!; [apply Hw1|done|done|by rewrite (oc_encrypted _ _ _ Ho1)].
Qed.
End streams.

(** Data arrives in the receive buffer. *)
Definition deliver {Any} (p : ptr) (data : list byte) (w : Worker Any) : outcome (Worker Any) :=
  c ← conn_at p w;
  Ret (put_conn p (set_recv_buffer (Append data (recv_buffer c)) c) w).

Lemma deliver_spec {Any} (p : ptr) data (w : Worker Any) c :
  wf_worker w -> heap w !! p = Some c ->
  exists b, deliver p data w = Ret (put_conn p (set_recv_buffer b c) w)
    /\ step_ok p w (put_conn p (set_recv_buffer b c) w) /\ view b = view (recv_buffer c) ++ data.
Proof.
  intros Hw Hp. pose proof (wf_conns w Hw p c Hp) as [_ Hr _]. unfold deliver. rewrite (conn_at_alive p c) by done. mrun.
  exists (Append data (recv_buffer c)). split; [done|]. split; [|by apply view_Append].
  apply step_put_recv; [done..|by apply wf_Append].
Qed.

(** A readable event in which the kernel delivers data: the data is appended to
    the receive buffer, and the user's function is called. *)
Lemma OnChannelReadable_open {Any} (sys : Kernel Any) (callback : TcpCallback Any) (p : ptr) (time : DateTime)
    (w : Worker Any) (c : TcpConn Any) (d : list byte) :
  kernel_ok sys -> open_at p w c -> sys_readv sys w (fd_of c) (iov_of (recv_buffer c)) = ReadData d -> d <> [] ->
  exists b, wf b /\ view b = view (recv_buffer c) ++ d
    /\ OnChannelReadable sys callback p time w
       = call_user (OnDataReceived callback) CallDataReceived p time
           (emit (SysRead (fd_of c) d) (put_conn p (set_recv_buffer b c) w)).
Proof.
  intros Hk (Hw & Hp & Hst & Henc) Hd Hne. pose proof (wf_conns w Hw p c Hp) as [_ Hr _].
  pose proof (ReadBytesFromFd_delivered _ (recv_buffer c) Hr (k_readv sys Hk w (fd_of c)) d Hd) as H.
  unfold OnChannelReadable. rewrite (conn_at_alive p c) by done. mrun. unfold IsConnected.
  rewrite bool_decide_eq_true_2 by done. cbn [negb]. rewrite Henc. change (GetFd (channel c)) with (fd_of c).
  destruct (ReadBytesFromFd (sys_readv sys w (fd_of c)) (recv_buffer c)) as [n b]. destruct H as (-> & Hb & Hv).
  exists b. split; [done|]. split; [done|]. destruct (Z.leb_spec (Z.of_nat (length d)) 0); [by destruct d|].
  change (ToStringView b) with (view b). rewrite Hv, <-(length_view (recv_buffer c)) by done. by rewrite drop_app_length.
Qed.

(** C6: the stream of an open connection is first-in first-out: after any sequence
    of sends and writable events, what the kernel took followed by what is
    still queued is exactly what was queued before followed by all data sent,
    in order; nothing is lost, repeated or reordered. *)
Theorem stream_fifo {Any} (sys : Kernel Any) (callback : TcpCallback Any) (p : ptr)
    (ops : list stream_op) (w : Worker Any) (c : TcpConn Any) :
  kernel_ok sys -> peer_stays sys -> open_at p w c ->
  exists w' c' es, run_stream sys callback p ops w = Ret w' /\ open_at p w' c'
    /\ trace w' = trace w ++ es
    /\ written (fd_of c) es ++ view (send_buffer c') = view (send_buffer c) ++ stream_data ops.
Proof.
  intros Hk Hp Ho. destruct (run_stream_spec sys callback p ops w c Hk Hp Ho)
    as (w' & c' & es & ? & ? & _ & ? & ?). eauto 10.
Qed.

Lemma test_kernel_stays {Any} d rc : peer_stays (test_kernel (Any := Any) d rc).
Proof. intros w fd v. apply andb_false_r. Qed.

Lemma one_conn_open : open_at 7 one_conn (set_channel (mkChannel 5 kReadEvent 0) (TcpConn_init 5 InetAddress_zero InetAddress_zero)).
Proof. split_and!; [apply one_conn_wf | apply lookup_singleton_eq | done | done]. Qed.

Lemma stream_fifo_witness :
  let ops := [StreamSend (bytes "Tom"); StreamWritable; StreamSend (bytes " and Jerry"); StreamWritable] in
  exists w' c' es, run_stream (test_kernel [] 0) echo_callback 7 ops one_conn = Ret w'
    /\ open_at 7 w' c' /\ trace w' = [] ++ es
    /\ written 5 es ++ view (send_buffer c') = bytes "Tom and Jerry".
Proof.
  apply (stream_fifo (test_kernel [] 0) echo_callback 7
           [StreamSend (bytes "Tom"); StreamWritable; StreamSend (bytes " and Jerry"); StreamWritable] one_conn
           (set_channel (mkChannel 5 kReadEvent 0) (TcpConn_init 5 InetAddress_zero InetAddress_zero))).
  - apply test_kernel_ok.
  - apply test_kernel_stays.
  - apply one_conn_open.
Defined.

(** C24: everything queued is sent: when the kernel takes at least one byte of each
    write, a bounded number of writable events (one more than the number of
    pending bytes) empties the queue, after which the connection no longer
    waits to write, so the event loop does not spin. *)
Theorem stream_flushes {Any} (sys : Kernel Any) (callback : TcpCallback Any) (p : ptr)
    (n : nat) (w : Worker Any) (c : TcpConn Any) :
  kernel_ok sys -> peer_stays sys -> (forall w fd v, v <> [] -> 0 < sys_write sys w fd v) ->
  open_at p w c -> (length (view (send_buffer c)) < n)%nat ->
  exists w' c', run_stream sys callback p (replicate n StreamWritable) w = Ret w'
    /\ open_at p w' c' /\ view (send_buffer c') = [] /\ in_sync p (true, false) (channel c') (epoll w').
Proof. intros. by apply flush_spec with c. Qed.

Lemma stream_flushes_witness :
  exists w' c', run_stream (test_kernel [] 0) echo_callback 7 (replicate 3 StreamWritable) one_conn = Ret w'
    /\ open_at 7 w' c' /\ view (send_buffer c') = [] /\ in_sync 7 (true, false) (channel c') (epoll w').
Proof.
  apply (stream_flushes (test_kernel [] 0) echo_callback 7 3 one_conn
           (set_channel (mkChannel 5 kReadEvent 0) (TcpConn_init 5 InetAddress_zero InetAddress_zero))).
  - apply test_kernel_ok.
  - apply test_kernel_stays.
  - intros w fd v Hv. destruct v; [done|]. cbn. unfold write_max. lia.
  - apply one_conn_open.
  - vm_compute. lia.
Defined.

(** ** Closing *)

(** The calls and events of a connection that was shut down and whose peer has
    not closed yet. *)
Definition half_closed_call {Any} (call : conn_call (Any := Any)) : bool :=
  match call with
  | CallSend _ | EventReadable _ | EventWritable _ => true
  | _ => false
  end.

Fixpoint run_calls {Any} (sys : Kernel Any) (callback : TcpCallback Any) (p : ptr)
    (calls : list conn_call) (w : Worker Any) : outcome (Worker Any) :=
  match calls with
  | [] => Ret w
  | call :: calls => w ← run_call sys callback p call w; run_calls sys callback p calls w
  end.

Lemma half_closed_idle {Any} (sys : Kernel Any) callback p call w c :
  heap w !! p = Some c -> conn_state c <> kConnected -> half_closed_call call = true ->
  run_call sys callback p call w = Ret w.
Proof.
  intros Hp Hst Hcall. destruct call; try done; cbn [run_call].
  - by apply (Send_closed p c).
  - unfold OnChannelReadable. rewrite (conn_at_alive p c) by done. mrun. unfold IsConnected.
    by rewrite bool_decide_eq_false_2.
  - unfold OnChannelWritable. rewrite (conn_at_alive p c) by done. mrun. unfold IsConnected.
    by rewrite bool_decide_eq_false_2.
Qed.

(** The connection at [p], if it is still there, is not open; no byte was read or
    written on the descriptor [fd]. *)
Definition not_open {Any} (p : ptr) (fd : Z) (w : Worker Any) : Prop :=
  forall c, heap w !! p = Some c -> conn_state c <> kConnected /\ fd_of c = fd.
Definition silent (fd : Z) (es : list effect) : Prop :=
  Forall (fun e => match e with SysWrite f _ | SysRead f _ => f <> fd | _ => True end) es.
Definition silent_step {Any} (p : ptr) (fd : Z) (w w' : Worker Any) : Prop :=
  not_open p fd w' /\ exists es, trace w' = trace w ++ es /\ silent fd es.

Section silence.
Context {Any : Type} (sys : Kernel Any) (callback : TcpCallback Any) (p : ptr) (fd : Z).
Implicit Types (w : Worker Any) (c : TcpConn Any).

(** The user's function neither opens the connection again nor reads or writes
    the descriptor by itself. *)
Definition user_silent (f : option (ptr -> DateTime -> Worker Any -> outcome (Worker Any))) : Prop :=
  forall g time w w', f = Some g -> not_open p fd w -> g p time w = Ret w' -> silent_step p fd w w'.
Context (Huser : user_silent (OnDisconnected callback)).

Lemma silent_refl w : not_open p fd w -> silent_step p fd w w.
Proof. intros Hw. split; [done|]. exists []. split; [by rewrite app_nil_r | constructor]. Qed.

Lemma silent_trans w1 w2 w3 : silent_step p fd w1 w2 -> silent_step p fd w2 w3 -> silent_step p fd w1 w3.
Proof.
  intros [_ (es & E & Hes)] [Hw (es' & E' & Hes')]. split; [done|]. exists (es ++ es').
  split; [by rewrite E', E, app_assoc | by apply Forall_app].
Qed.

(** A step that logs [es] and leaves at [p] nothing or an object that is not open. *)
Lemma silent_intro w w' es :
  (forall c, heap w' !! p = Some c -> conn_state c <> kConnected /\ fd_of c = fd) ->
  trace w' = trace w ++ es -> silent fd es -> silent_step p fd w w'.
Proof. intros Hn E Hs. split; [done|]. by exists es. Qed.

Lemma silent_put c t w : conn_state c <> kConnected -> fd_of c = fd -> silent_step p fd w (set_epoll t (put_conn p c w)).
Proof.
  intros Hst Hfd. apply (silent_intro _ _ []); [|by rewrite app_nil_r|constructor].
  intros d. cbn. rewrite lookup_insert_eq. by intros [= <-].
Qed.

Lemma silent_close time w w' :
  not_open p fd w -> OnChannelClose callback p time w = Ret w' -> silent_step p fd w w'.
Proof.
  intros Hn. unfold OnChannelClose. destruct (heap w !! p) as [c|] eqn:Hp; [|unfold conn_at; by rewrite Hp].
  rewrite (conn_at_alive p c) by done. mrun. destruct (Hn c Hp) as [Hst Hfd].
  set (c1 := set_recv_buffer _ _). set (t := RemoveFromPoller _ _).
  assert (H1 : silent_step p fd w (set_epoll t (put_conn p c1 w))) by by apply silent_put.
  set (w1 := set_epoll t _) in *.
  assert (Hcall : forall w2, call_user (OnDisconnected callback) CallDisconnected p time w1 = Ret w2 -> silent_step p fd w1 w2).
  { intros w2. unfold call_user. destruct (OnDisconnected callback) as [g|] eqn:Eg; [|intros [= <-]; by apply silent_refl, H1].
    intros E. eapply silent_trans; [|by apply (Huser g time _ w2 eq_refl); [|exact E]; exact (proj1 H1)].
    apply (silent_intro _ _ [CallDisconnected p]); [exact (proj1 H1)|done|by repeat constructor]. }
  destruct (call_user _ _ _ _ w1) as [w2|]; mrun; [|done]. specialize (Hcall w2 eq_refl).
  unfold RemoveFromIOWorker. destruct (heap w2 !! p) as [c2|] eqn:Hp2; [|unfold conn_at; by rewrite Hp2].
  rewrite (conn_at_alive p c2) by done. mrun. cbv zeta. cbn [held set_conns]. intros E.
  eapply silent_trans; [exact H1|]. eapply silent_trans; [exact Hcall|]. case_decide; injection E as <-.
  - apply (silent_intro _ _ []); [exact (proj1 Hcall)|by rewrite app_nil_r|constructor].
  - apply (silent_intro _ _ [SysClose (GetFd (channel c2))]); [|done|by repeat constructor].
    intros d. cbn. by rewrite lookup_delete_eq.
Qed.

Lemma silent_shutdown c w w' :
  heap w !! p = Some c -> fd_of c = fd -> Shutdown sys callback p w = Ret w' -> silent_step p fd w w'.
Proof.
  intros Hp Hfd. unfold Shutdown. rewrite (conn_at_alive p c) by done. mrun.
  assert (H1 : silent_step p fd w (emit (SysShutdown (GetFd (channel c))) (on_channel DeactivateWriting p (ExchangeState kShutdown c) w))).
  { unfold on_channel. destruct (DeactivateWriting p (channel (ExchangeState kShutdown c)) (epoll w)) as [ch t] eqn:Ed.
    assert (Hch : GetFd ch = fd).
    { revert Ed. unfold DeactivateWriting. destruct (IsActivateWriting _); intros [= <- _]; exact Hfd. }
    apply (silent_intro _ _ [SysShutdown (GetFd (channel c))]); [|done|by repeat constructor].
    intros d. cbn. rewrite lookup_insert_eq. by intros [= <-]. }
  set (w1 := emit _ _) in *. cbv zeta. destruct (negb _); [|by intros [= <-]].
  unfold ForceClose. destruct (conn_at p w1); mrun; [|done]. intros Hc.
  eapply silent_trans; [exact H1|]. by eapply silent_close; [apply H1|].
Qed.

Lemma silent_call call w w' : not_open p fd w -> run_call sys callback p call w = Ret w' -> silent_step p fd w w'.
Proof.
  intros Hn. destruct (heap w !! p) as [c|] eqn:Hp.
  2:{ destruct call; cbn [run_call]; unfold Send, Shutdown, ForceClose, SetContext, SetStreamCodec, OnChannelReadable,
        OnChannelWritable, OnChannelClose, handle_event, conn_at; rewrite Hp; done. }
  destruct (Hn c Hp) as [Hst Hfd].
  assert (Hidle : half_closed_call call = true -> run_call sys callback p call w = Ret w' -> silent_step p fd w w').
  { intros Hh. rewrite (half_closed_idle sys callback p call w c) by done. intros [= <-]. by apply silent_refl. }
  destruct call as [d| | |k v|x|time|time|time|time]; try (by apply Hidle); cbn [run_call].
  - by apply (silent_shutdown c).
  - unfold ForceClose. rewrite (conn_at_alive p c) by done. mrun. by apply silent_close.
  - unfold SetContext. rewrite (conn_at_alive p c) by done. intros [= <-].
    exact (silent_put (set_context (TcpContext_Set k v (context c)) c) (epoll w) w Hst Hfd).
  - unfold SetStreamCodec. rewrite (conn_at_alive p c) by done. intros [= <-].
    exact (silent_put (set_codec (Some x) c) (epoll w) w Hst Hfd).
  - by apply silent_close.
  - unfold handle_event, HandleEvent. rewrite (conn_at_alive p c) by done. mrun.
    destruct (if log_debug sys then _ else _); mrun; [|done].
    cbn [channel_callback OnPeerClose OnReadable OnWritable OnError call_if].
    pose proof (half_closed_idle sys callback p (EventReadable time) w c Hp Hst eq_refl) as Er.
    pose proof (half_closed_idle sys callback p (EventWritable time) w c Hp Hst eq_refl) as Ew. cbn [run_call] in Er, Ew.
    rewrite Er, Ew. repeat case_match; try (by apply silent_close); intros [= <-]; by apply silent_refl.
Qed.

Lemma silent_calls calls w w' : not_open p fd w -> run_calls sys callback p calls w = Ret w' -> silent_step p fd w w'.
Proof.
  revert w. induction calls as [|call calls IH]; intros w Hn; cbn [run_calls].
  - intros [= <-]. by apply silent_refl.
  - destruct (run_call sys callback p call w) as [w1|] eqn:E; mrun; [|done]. intros E1.
    apply silent_call in E; [|done]. eapply silent_trans; [exact E|]. by apply IH; [apply E|].
Qed.
End silence.

(** C39: [Shutdown] abandons the data that is still queued and stops reading.
    Whatever [shutdown] answers, and whatever calls and events follow in any
    order - sends, another shutdown, a close, readable, writable and close
    events - as long as none is a fault, not one byte is written to or read from
    the descriptor any more, provided that the user's function for the end of the
    connection does not do so itself.  Until the connection closes, sends and
    readable and writable events do nothing at all, and the queued bytes stay
    where they are. *)
Theorem shutdown_abandons_data {Any} (sys : Kernel Any) (callback : TcpCallback Any) (p : ptr)
    (w : Worker Any) (c : TcpConn Any) :
  open_at p w c -> user_silent p (fd_of c) (OnDisconnected callback) ->
  (forall calls w', (w1 ← Shutdown sys callback p w; run_calls sys callback p calls w1) = Ret w' ->
     not_open p (fd_of c) w' /\ exists es, trace w' = trace w ++ es /\ silent (fd_of c) es)
  /\ (sys_shutdown sys (on_channel DeactivateWriting p (ExchangeState kShutdown c) w) (fd_of c) = 0 ->
      exists w1 c1, Shutdown sys callback p w = Ret w1 /\ heap w1 !! p = Some c1
        /\ send_buffer c1 = send_buffer c /\ trace w1 = trace w ++ [SysShutdown (fd_of c)]
        /\ forall calls, forallb half_closed_call calls = true -> run_calls sys callback p calls w1 = Ret w1).
Proof.
  intros (Hw & Hp & _ & _) Hu. split.
  { intros calls w'. destruct (Shutdown sys callback p w) as [w1|] eqn:E; mrun; [|done]. intros Er.
    apply (silent_shutdown sys callback p (fd_of c) Hu c) in E; [|done..].
    apply (silent_trans p (fd_of c) w w1); [done|]. by apply (silent_calls sys callback p (fd_of c) Hu calls); [apply E|]. }
  unfold Shutdown. rewrite (conn_at_alive p c) by done. mrun.
  destruct (Shutdown_half p c w Hw Hp) as (c' & t' & -> & _ & _ & Hst & Hs & _). cbv zeta.
  fold (fd_of c). intros ->. cbn [negb Z.eqb].
  exists (emit (SysShutdown (fd_of c)) (set_epoll t' (put_conn p c' w))), c'.
  assert (Hp' : heap (emit (SysShutdown (fd_of c)) (set_epoll t' (put_conn p c' w))) !! p
                = Some c') by apply lookup_insert_eq.
  split_and!; try done.
  induction calls as [|call calls IH]; [done|]. cbn [forallb run_calls]. intros [H1 H2]%andb_true_iff.
  rewrite (half_closed_idle sys callback p call _ c') by (done || by rewrite Hst). mrun. auto.
Qed.

(** An established connection with 16 queued bytes. *)
Definition queued_conn : Worker unit :=
  match Send 7 (bytes "400 Bad Request") one_conn with Ret w => w | Throw _ => one_conn end.

Lemma queued_conn_open : exists c, open_at 7 queued_conn c /\ view (send_buffer c) = bytes "400 Bad Request".
Proof.
  destruct one_conn_open as (Hw & Hp & Hst & _).
  destruct (Send_open 7 _ one_conn (bytes "400 Bad Request") Hw Hp Hst)
    as (c' & t' & E & Hw' & _ & Hst' & Hv & _).
  exists c'. unfold queued_conn. rewrite E. split; [|by rewrite Hv].
  split_and!; [apply Hw' | apply lookup_insert_eq | done | done].
Qed.

Lemma shutdown_abandons_data_witness :
  exists w1 c1, Shutdown (test_kernel (bytes "more") 0) echo_callback 7 queued_conn = Ret w1
    /\ heap w1 !! (7 : ptr) = Some c1 /\ view (send_buffer c1) = bytes "400 Bad Request"
    /\ run_calls (test_kernel (bytes "more") 0) echo_callback 7 [EventWritable 0; EventReadable 0] w1 = Ret w1
    /\ exists w2, run_calls (test_kernel (bytes "more") 0) echo_callback 7 [CallSend (bytes "x"); EventWritable 0; CallForceClose] w1
         = Ret w2 /\ exists es, trace w2 = es /\ silent 5 es.
Proof.
  destruct queued_conn_open as (c & Ho & Hv).
  assert (Hfd : fd_of c = 5).
  { destruct Ho as (_ & Hp & _). vm_compute in Hp. injection Hp as <-. reflexivity. }
  destruct (shutdown_abandons_data (test_kernel (bytes "more") 0) echo_callback 7 queued_conn c Ho)
    as [Hall Hhalf]; [by intros g|].
  destruct Hhalf as (w1 & c1 & E & Hp & Hs & _ & Hrun); [done|].
  exists w1, c1. split; [exact E|]. split; [done|]. split; [by rewrite Hs|]. split; [by apply Hrun|].
  assert (Hret : exists w2, (w1 ← Shutdown (test_kernel (bytes "more") 0) echo_callback 7 queued_conn;
     run_calls (test_kernel (bytes "more") 0) echo_callback 7 [CallSend (bytes "x"); EventWritable 0; CallForceClose] w1) = Ret w2)
    by (eexists; vm_compute; reflexivity).
  destruct Hret as [w2 E2]. destruct (Hall _ _ E2) as (_ & es & Ht & Hsil). rewrite E in E2.
  exists w2. split; [exact E2|]. exists es. rewrite Hfd in Hsil. by rewrite Ht.
Defined.

(** A write that fails because the peer reset the connection tells the user
    that the connection is gone, but neither closes nor unregisters it; the
    close event that follows tells the user a second time. *)
Theorem disconnected_twice {Any} (sys : Kernel Any) (callback : TcpCallback Any) (p : ptr)
    (time : DateTime) (w : Worker Any) (c : TcpConn Any) :
  open_at p w c -> OnDisconnected callback = Some (fun _ _ w => Ret w) ->
  sys_write sys w (fd_of c) (view (send_buffer c)) = -1 -> sys_write_peer_gone sys w (fd_of c) = true ->
  exists w1 w2, OnChannelWritable sys callback p w = Ret w1
    /\ heap w1 !! p = Some c /\ epoll w1 = epoll w /\ conn_set w1 = conn_set w
    /\ OnChannelClose callback p time w1 = Ret w2
    /\ exists es, trace w2 = trace w ++ [SysWrite (fd_of c) []; CallDisconnected p; CallDisconnected p] ++ es.
Proof.
  intros (Hw & Hp & Hst & Henc) Hcb Hwr Hgone.
  unfold OnChannelWritable. rewrite (conn_at_alive p c) by done. mrun. unfold IsConnected.
  rewrite bool_decide_eq_true_2 by done. cbn [negb]. cbv zeta. rewrite Henc. fold (fd_of c).
  assert (Ewr : WriteBytesToFd (sys_write sys w (fd_of c)) (send_buffer c) = (-1, send_buffer c)).
  { unfold WriteBytesToFd. by rewrite Hwr. }
  rewrite Ewr. replace (set_send_buffer (send_buffer c) c) with c by by destruct c.
  change (-1 <? 0) with true. rewrite Hgone, Hcb. cbn [andb call_user].
  eexists _, _. split; [done|]. split_and!; [apply lookup_insert_eq | done | done | |].
  - unfold OnChannelClose, conn_at. cbn [heap emit put_conn set_heap]. rewrite lookup_insert_eq. mrun.
    cbv zeta. rewrite Hcb. cbn [call_user]. unfold RemoveFromIOWorker, conn_at.
    cbn [heap emit put_conn set_heap set_epoll]. rewrite lookup_insert_eq. mrun.
    instantiate (1 := if decide (p ∈ held w) then _ else _). cbv zeta.
    cbn [held set_conns emit put_conn set_heap set_epoll]. by case_decide.
  - case_decide; cbn; rewrite <-!app_assoc; cbn; eexists; [|done]. done.
Qed.

(** A kernel whose writes fail with EPIPE, and whose TLS writes fail. *)
Definition broken_kernel : Kernel unit :=
  mkKernel (fun _ _ => readv_of []) (fun _ _ _ => -1) (fun _ _ => true) (fun _ _ => 0)
    (fun _ _ _ => ReadFail (-1)) (fun _ _ _ _ => -1) (fun _ _ _ => true) (fun _ => 0) true.

Definition counting_callback {Any} : TcpCallback Any :=
  mkTcpCallback None (Some (fun _ _ w => Ret w)) None.

Lemma disconnected_twice_witness :
  exists w1 w2, OnChannelWritable broken_kernel counting_callback 7 one_conn = Ret w1
    /\ OnChannelClose counting_callback 7 0 w1 = Ret w2
    /\ exists es, trace w2 = [] ++ [SysWrite 5 []; CallDisconnected 7; CallDisconnected 7] ++ es.
Proof.
  destruct (disconnected_twice broken_kernel counting_callback 7 0 one_conn
              (set_channel (mkChannel 5 kReadEvent 0) (TcpConn_init 5 InetAddress_zero InetAddress_zero)) one_conn_open)
    as (w1 & w2 & E1 & _ & _ & _ & E2 & es & Ht); [reflexivity..|].
  exists w1, w2. split_and!; [exact E1 | exact E2 | exists es; exact Ht].
Defined.

(** On a TLS connection a failed [SSL_write] (also the harmless one that only
    asks to be retried) closes the connection and then goes on using it: unless
    somebody else owns it, the object is already destroyed. *)
Theorem ssl_write_error_use_after_free {Any} (sys : Kernel Any) (callback : TcpCallback Any)
    (p : ptr) (w : Worker Any) (c : TcpConn Any) :
  wf_worker w -> heap w !! p = Some c -> conn_state c = kConnected -> encrypted w = true ->
  p ∉ held w -> user_ok true (OnDisconnected callback) ->
  (forall g time w w', OnDisconnected callback = Some g -> g p time w = Ret w' -> p ∉ held w -> p ∉ held w') ->
  ssl_write sys w (fd_of c) (view (send_buffer c)) (i32 (Z.of_nat (ReadableBytes (send_buffer c)))) <= 0 ->
  OnChannelWritable sys callback p w = Throw UndefinedBehaviour.
Proof.
  intros Hw Hp Hst Henc Hheld Hu Hkeep Hfail. pose proof (wf_conns w Hw p c Hp) as [Hs Hr Hg].
  unfold OnChannelWritable. rewrite (conn_at_alive p c) by done. mrun. unfold IsConnected.
  rewrite bool_decide_eq_true_2 by done. cbn [negb]. cbv zeta. rewrite Henc. fold (fd_of c).
  unfold WriteBytesToSsl. cbv zeta. set (n := ssl_write _ _ _ _ _) in *.
  replace (0 <? n) with false by (symmetry; apply Z.ltb_ge; lia).
  replace (set_send_buffer (send_buffer c) c) with c by by destruct c.
  replace (n <=? 0) with true by (symmetry; apply Z.leb_le; lia).
  set (w1 := emit _ _).
  assert (Hw1 : wf_worker w1) by (apply wf_emit, (wf_put p c); done).
  assert (Hp1 : heap w1 !! p = Some c) by apply lookup_insert_eq.
  assert (Hdead : exists w2, ForceClose sys callback p w1 = Ret w2 /\ heap w2 !! p = None).
  { by apply (ForceClose_destroys sys callback p c). }
  destruct Hdead as (w2 & -> & Hnone). unfold stop_writing_if_empty, conn_at. by rewrite Hnone.
Qed.

Lemma ssl_write_error_use_after_free_witness :
  let w := mkWorker (heap one_conn) (epoll one_conn) (conn_set one_conn) ∅ true [] in
  OnChannelWritable broken_kernel counting_callback 7 w = Throw UndefinedBehaviour.
Proof.
  apply (ssl_write_error_use_after_free broken_kernel counting_callback 7 _
           (set_channel (mkChannel 5 kReadEvent 0) (TcpConn_init 5 InetAddress_zero InetAddress_zero))).
  - destruct one_conn_wf. by split.
  - apply lookup_singleton_eq.
  - reflexivity.
  - reflexivity.
  - apply not_elem_of_empty.
  - apply user_ok_ret.
  - intros g time w w' [= <-] [= <-]. done.
  - cbn. lia.
Defined.

(** [SetContext] stores a value under a new key and [GetContext] finds it, but
    a key that is already bound keeps its old value. *)
Theorem SetContext_keeps_first {Any} (p : ptr) (key key2 : list byte) (value : Any)
    (w : Worker Any) (c : TcpConn Any) :
  heap w !! p = Some c -> Byte.x00 ∉ key2 ->
  exists w', SetContext p key value w = Ret w'
    /\ GetContext p key2 w'
       = Ret (match TcpContext_Get key2 (context c) with
              | Some old => Some old
              | None => if decide (key2 = key) then Some value else None
              end).
Proof.
  intros Hp Hnul. unfold SetContext. rewrite (conn_at_alive p c) by done. eexists. split; [done|].
  unfold GetContext, conn_at. cbn [heap put_conn set_heap]. rewrite lookup_insert_eq. mrun. f_equal.
  cbn [context set_context]. unfold TcpContext_Get, TcpContext_Set. rewrite c_str_no_nul by done.
  rewrite map_find_emplace by apply _. rewrite equiv_key_lex.
  destruct (decide (key = key2)) as [->|Hne].
  - rewrite bool_decide_eq_true_2, decide_True by done. by destruct (map_find _ _ _).
  - rewrite bool_decide_eq_false_2, decide_False by done. by destruct (map_find _ _ _).
Qed.

Lemma SetContext_keeps_first_witness :
  let w := match SetContext 7 (bytes "user") 1%nat
                   (mkWorker {[ 7 := TcpConn_init 5 InetAddress_zero InetAddress_zero ]} ∅ ∅ ∅ false []) with
           | Ret w => w | Throw _ => mkWorker ∅ ∅ ∅ ∅ false [] end in
  exists w', SetContext 7 (bytes "user") 2%nat w = Ret w' /\ GetContext 7 (bytes "user") w' = Ret (Some 1%nat).
Proof.
  apply (SetContext_keeps_first 7 (bytes "user") (bytes "user") 2%nat _
           (set_context [(bytes "user", 1%nat)] (TcpConn_init 5 InetAddress_zero InetAddress_zero))).
  - reflexivity.
  - apply (bool_decide_unpack (Byte.x00 ∉ bytes "user")). vm_compute. exact I.
Defined.
