(* ===== verification/Acceptor.v ===== *)
(** * net/Acceptor, TcpConnSet, TcpRateLimiter and the callbacks of TcpServer

    Accepting a connection, the set of the connections of a worker, the limiter,
    and closing the remaining connections when the event loop has stopped. *)

From stdpp Require Import sorting.
From S2P Require Import Prelude CxxStd CxxMap DateTime BaseBuffer Channel InetAddress TcpConn TcpConnInv.
Local Open Scope Z_scope.

(** [TcpRateLimiterConfig]. *)
Record TcpRateLimiterConfig := mkLimits {
  max_conns_per_ip : nat;
  max_conns_per_io_worker : nat;
  max_qps_per_host : nat;
  max_qps_per_io_worker : nat;
}.

(** The default member initialisers. *)
Definition TcpRateLimiterConfig_init : TcpRateLimiterConfig := mkLimits 0 0 0 0.

Section worker.
Context {Any : Type}.
Implicit Types (w : Worker Any).

(** ** [TcpConnSet] *)

Definition ConnSet_Empty w : bool := bool_decide (conn_set w = ∅).
Definition ConnSet_Size w : nat := size (conn_set w).
Definition ConnSet_Add (p : ptr) w : Worker Any := set_conns ({[p]} ∪ conn_set w) w.
Definition ConnSet_Remove (p : ptr) w : Worker Any := set_conns (conn_set w ∖ {[p]}) w.

(** The range-for of [LockForEach] visits a [std::set] in the order of the
    addresses.  Going on from an element that [func] erased is undefined. *)
Fixpoint for_each_conn (func : ptr -> Worker Any -> outcome (Worker Any)) (todo : list ptr) w
    : outcome (Worker Any) :=
  match todo with
  | [] => Ret w
  | p :: todo =>
      w ← func p w;
      if decide (p ∈ conn_set w) then for_each_conn func todo w else Throw UndefinedBehaviour
  end.
Definition LockForEach (func : ptr -> Worker Any -> outcome (Worker Any)) w : outcome (Worker Any) :=
  for_each_conn func (merge_sort Z.le (elements (conn_set w))) w.

Definition GetConnNums w : nat := ConnSet_Size w.

(** ** [TcpRateLimiter] *)

Definition ReachConnectionLimits (config : TcpRateLimiterConfig) w : bool :=
  (max_conns_per_io_worker config <=? GetConnNums w)%nat.
Definition ReachQpsLimits (config : TcpRateLimiterConfig) w : bool := false.

Section callbacks.
Context (sys : Kernel Any).

(** The virtual functions a server overrides. *)
Context (OnTcpConnected OnTcpDisconnected OnTcpReceivedData : ptr -> DateTime -> Worker Any -> outcome (Worker Any)).
Context (limiter : option TcpRateLimiterConfig).

(** The callback object [Serve] builds.  [Shutdown] only needs its
    [OnDisconnected]. *)
Definition on_disconnected_only : TcpCallback Any := mkTcpCallback None (Some OnTcpDisconnected) None.

Definition Serve_callback : TcpCallback Any :=
  mkTcpCallback
    (Some (fun p time w =>
       match limiter with
       | Some l => if ReachConnectionLimits l w then Shutdown sys on_disconnected_only p w
                   else OnTcpConnected p time w
       | None => OnTcpConnected p time w
       end))
    (Some OnTcpDisconnected)
    (Some (fun p time w =>
       match limiter with
       | Some l => if ReachQpsLimits l w then Shutdown sys on_disconnected_only p w
                   else OnTcpReceivedData p time w
       | None => OnTcpReceivedData p time w
       end)).
End callbacks.

(** [TcpServer::OnTcpReceivedData]: the data is dropped by default. *)
Definition default_OnTcpReceivedData (p : ptr) (time : DateTime) w : outcome (Worker Any) :=
  c ← conn_at p w;
  Ret (put_conn p (set_recv_buffer (DropAllBytes (recv_buffer c)) c) w).

(** ** [Acceptor] *)

(** What [accept] gives: a descriptor and the address of the client, or a failure
    ([true]: EMFILE). *)
Inductive accept_result := Accepted (fd : Z) (peer_addr : InetAddress) | AcceptFailed (emfile : bool).

(** [listen_addr] is what the listening socket was bound to. *)
Record Acceptor := mkAcceptor { reserved_fd : Z; listen_addr : InetAddress }.

Section acceptor.
Context (sys : Kernel Any) (tcp_callback : TcpCallback Any).

(** [InitSsl] reads the object; creating the [SSL] object has no other effect. *)
Definition InitSsl (p : ptr) w : outcome (Worker Any) := _ ← conn_at p w; Ret w.

(** The steps that set up the new object at [p] before the user is told. *)
Definition new_conn (p : ptr) (fd : Z) (local_addr peer_addr : InetAddress) w : Worker Any :=
  let c := TcpConn_init fd local_addr peer_addr in
  let w := ConnSet_Add p (put_conn p c w) in
  let w := set_epoll (AddToPoller (channel c) (epoll w)) w in
  on_channel ActivateReading p c w.

(** [p] is the address [new TcpConn] returns; [again] and [reopened] are the
    results of the second [accept] and of opening /dev/null again. *)
Definition OnPeerConnect (accepted : accept_result) (again reopened : Z) (p : ptr) (time : DateTime)
    (a : Acceptor) w : outcome (Acceptor * Worker Any) :=
  match accepted with
  | AcceptFailed emfile =>
      if emfile then
        let w := emit (SysClose (reserved_fd a)) w in
        let a := mkAcceptor again (listen_addr a) in
        let w := emit (SysClose (reserved_fd a)) w in
        Ret (mkAcceptor reopened (listen_addr a), w)
      else Ret (a, w)
  | Accepted client_fd peer_addr =>
      let w := new_conn p client_fd (listen_addr a) peer_addr w in
      w ← call_user (OnConnected tcp_callback) CallConnected p time w;
      w ← InitSsl p w;
      Ret (a, w)
  end.

(** ** Stopping *)

(** After the loop: [LockForEach] closes every established connection. *)
Definition close_all w : outcome (Worker Any) := LockForEach (ForceClose sys tcp_callback) w.
End acceptor.
End worker.

Section properties.
Context {Any : Type} (sys : Kernel Any) (callback : TcpCallback Any).
Implicit Types (w : Worker Any) (c : TcpConn Any) (p : ptr).

(** ** Accepting *)

(** The address and the descriptor are not in use. *)
Definition fresh_conn (p : ptr) (fd : Z) w : Prop :=
  heap w !! p = None /\ epoll w !! fd = None /\ forall q c, heap w !! q = Some c -> fd_of c <> fd.

Lemma new_conn_spec p fd local peer w :
  wf_worker w -> fresh_conn p fd w ->
  let w' := new_conn p fd local peer w in
  exists c, heap w' !! p = Some c /\ (conn_state c = kConnected /\ ends c = (local, peer))
    /\ wf_worker w' /\ encrypted w' = encrypted w
    /\ conn_set w' = {[p]} ∪ conn_set w /\ held w' = held w
    /\ (forall q, left_open q w w')
    /\ forall q d, q <> p -> heap w' !! q = Some d -> heap w !! q = Some d.
Proof.
  intros [Hc Hf Ho] (Hp & Hfd & Hnew). unfold new_conn. cbv zeta.
  set (c := TcpConn_init fd local peer). set (w0 := set_epoll _ _).
  assert (Ht : epoll w0 = <[fd := mkEpollEvent 0 None]> (epoll w)).
  { unfold w0, AddToPoller, AddChannel, epoll_ctl. cbn. unfold GetFd. cbn. by rewrite Hfd. }
  assert (Hs0 : in_sync p (false, false) (channel c) (epoll w0)).
  { split; [done|]. exists None. rewrite Ht. split; [apply lookup_insert_eq | auto]. }
  destruct (on_channel_spec OpActivateReading ActivateReading p c w0 (false, false))
    as (ch & t' & -> & Hs & Hch & Hoth); [done..|].
  exists (set_channel ch c). split_and!; try done; [cbn; apply lookup_insert_eq | | |].
  - assert (Hheap : forall q d, heap (set_epoll t' (put_conn p (set_channel ch c) w0)) !! q = Some d ->
      q = p /\ d = set_channel ch c \/ q <> p /\ heap w !! q = Some d).
    { intros q d. cbn. rewrite insert_insert_eq, lookup_insert_Some. naive_solver. }
    split.
    + intros q d [[-> ->]|[Hq Hd]]%Hheap.
      * split; [apply wf_init..|]. exists false. split; [done|].
        intros Hne. destruct (Hne (view_init 1024)).
      * apply (conn_ok_frame q d (epoll w)); [|by apply Hc]. cbn. pose proof (Hnew q d Hd).
        rewrite Hoth by done. rewrite Ht. by rewrite lookup_insert_ne by congruence.
    + intros q1 q2 c1 c2 [[-> ->]|[Hq1 H1]]%Hheap [[-> ->]|[Hq2 H2]]%Hheap E; [done| | |by eapply Hf].
      * destruct (Hnew q2 c2 H2). by rewrite <-E; unfold fd_of; cbn; rewrite Hch.
      * destruct (Hnew q1 c1 H1). by rewrite E; unfold fd_of; cbn; rewrite Hch.
    + cbn. rewrite !dom_insert_L, Ho. set_solver.
  - intros q d Hd. destruct (decide (q = p)) as [->|]; [congruence|].
    exists d. split; [cbn; by rewrite !lookup_insert_ne by congruence|]. do 3 (split; [done|]). split; [cbn; set_solver|].
    pose proof (Hnew q d Hd). cbn. rewrite Hoth by done. rewrite Ht. by rewrite lookup_insert_ne by congruence.
  - intros q d Hq. cbn. by rewrite !lookup_insert_ne by congruence.
Qed.

Lemma OnPeerConnect_spec (a : Acceptor) (p : ptr) (fd again reopened : Z) (peer : InetAddress) (time : DateTime) (w : Worker Any) :
  wf_worker w -> fresh_conn p fd w -> user_ok true (OnConnected callback) ->
  exists w', OnPeerConnect callback (Accepted fd peer) again reopened p time a w = Ret (a, w')
    /\ wf_worker w' /\ encrypted w' = encrypted w
    /\ (exists c, heap w' !! p = Some c /\ ends c = (listen_addr a, peer))
    /\ (forall q, left_open q w w')
    /\ forall q c', q <> p -> heap w' !! q = Some c' -> exists c, heap w !! q = Some c /\ ends c' = ends c.
Proof.
  intros Hw Hfresh Hu.
  destruct (new_conn_spec p fd (listen_addr a) peer w Hw Hfresh) as (c & Hp & [_ Hends] & Hw1 & Henc & _ & _ & Ha & Hold).
  unfold OnPeerConnect. cbv zeta.
  destruct (call_user_ok true _ CallConnected p time _ Hu Hw1) as (w' & -> & Hs & Halive); [by exists c|].
  mrun. destruct (Halive eq_refl) as [c' Hp']. unfold InitSsl. rewrite (conn_at_alive p c') by done. mrun.
  exists w'. split; [done|]. split; [apply Hs|]. split; [rewrite (so_encrypted _ _ _ Hs); exact Henc|]. split_and!.
  - exists c'. split; [done|]. destruct (so_ends _ _ _ Hs p c' Hp') as (c1 & Hc1 & ->). cbn in Hc1, Hp. congruence.
  - intros q. destruct (decide (q = p)) as [->|Hq]; [intros d Hd; destruct Hfresh as [Hn _]; congruence|].
    eapply left_open_trans; [apply Ha|]. exact (so_others _ _ _ Hs q Hq).
  - intros q d Hq Hd. destruct (so_ends _ _ _ Hs q d Hd) as (d1 & Hd1 & ->). exists d1. split; [|done]. by apply Hold.
Qed.

(** Accepting a client keeps the invariant: the new object is registered for
    reading, owned by the worker and open when the user is told, and no other
    connection is touched; it needs the user's function to leave the new
    connection alive, because the object is still used after it. *)
Theorem OnPeerConnect_safe (a : Acceptor) (p : ptr) (fd again reopened : Z) (peer : InetAddress) (time : DateTime) (w : Worker Any) :
  wf_worker w -> fresh_conn p fd w -> user_ok true (OnConnected callback) ->
  exists w', OnPeerConnect callback (Accepted fd peer) again reopened p time a w = Ret (a, w')
    /\ wf_worker w' /\ alive p w' /\ forall q, alive q w -> alive q w'.
Proof.
  intros Hw Hf Hu. destruct (OnPeerConnect_spec a p fd again reopened peer time w Hw Hf Hu) as (w' & ? & ? & _ & (c & ? & ?) & Ho & _).
  exists w'. do 2 (split; [done|]). split; [by exists c|]. intros q. by apply left_open_alive.
Qed.

(** ** The rate limiter *)

Section limiter.
Context (OnTcpConnected OnTcpDisconnected OnTcpReceivedData : ptr -> DateTime -> Worker Any -> outcome (Worker Any)).
Context (limits : TcpRateLimiterConfig).

Definition limited_callback : TcpCallback Any :=
  Serve_callback sys OnTcpConnected OnTcpDisconnected OnTcpReceivedData (Some limits).

Lemma new_conn_count p fd local peer w :
  wf_worker w -> fresh_conn p fd w -> GetConnNums (new_conn p fd local peer w) = S (GetConnNums w).
Proof.
  intros Hw Hf. destruct (new_conn_spec p fd local peer w Hw Hf) as (c & _ & _ & _ & _ & E & _).
  unfold GetConnNums, ConnSet_Size. rewrite E. destruct Hf as (Hp & _).
  rewrite size_union, size_singleton; [done|]. apply disjoint_singleton_l. intros Hin.
  assert (p ∈ dom (heap w)) as Hd by (rewrite (wf_owned w Hw); set_solver).
  apply elem_of_dom in Hd as [d Hd]. congruence.
Qed.

Lemma limited_connect p fd local peer time w :
  wf_worker w -> fresh_conn p fd w ->
  call_user (OnConnected limited_callback) CallConnected p time (new_conn p fd local peer w)
  = (if (max_conns_per_io_worker limits <=? S (GetConnNums w))%nat
     then Shutdown sys (on_disconnected_only OnTcpDisconnected) p
     else OnTcpConnected p time) (emit (CallConnected p) (new_conn p fd local peer w)).
Proof.
  intros Hw Hf. unfold limited_callback, Serve_callback. cbn [OnConnected call_user].
  unfold ReachConnectionLimits. rewrite <-(new_conn_count p fd local peer w) by done.
  change (GetConnNums (emit _ _)) with (GetConnNums (new_conn p fd local peer w)). by case_match.
Qed.
End limiter.

(** ** Stopping *)

Lemma close_first p todo w :
  user_ok true (OnDisconnected callback) -> wf_worker w -> alive p w ->
  for_each_conn (ForceClose sys callback) (p :: todo) w = Throw UndefinedBehaviour.
Proof.
  intros Hu Hw Ha. destruct (ForceClose_ok sys callback p w Hu Hw Ha) as (w' & E & _ & Hn).
  cbn [for_each_conn]. rewrite E. mrun. by rewrite decide_False.
Qed.
Lemma close_all_spec w :
  user_ok true (OnDisconnected callback) -> wf_worker w ->
  close_all sys callback w = if ConnSet_Empty w then Ret w else Throw UndefinedBehaviour.
Proof.
  intros Hu Hw. unfold close_all, LockForEach, ConnSet_Empty. case_bool_decide as E.
  { by rewrite E, elements_empty. }
  destruct (merge_sort Z.le (elements (conn_set w))) as [|p todo] eqn:Es.
  - exfalso. apply E, leibniz_equiv, elements_empty_inv. pose proof (merge_sort_Permutation Z.le (elements (conn_set w))) as Hp.
    rewrite Es in Hp. by apply Permutation_nil in Hp.
  - apply close_first; [done..|].
    assert (Hin : p ∈ conn_set w).
    { apply elem_of_elements. rewrite <-(merge_sort_Permutation Z.le (elements (conn_set w))), Es.
      apply list_elem_of_here. }
    apply elem_of_dom. rewrite (wf_owned w Hw). set_solver.
Qed.
End properties.

(** A user function that shuts the new connection down or serves it. *)
Definition ret_user {Any} (p : ptr) (time : DateTime) (w : Worker Any) : outcome (Worker Any) := Ret w.

Definition empty_worker : Worker unit := mkWorker ∅ ∅ ∅ ∅ false [].

Lemma empty_worker_wf : wf_worker empty_worker.
Proof. split; cbn; [by intros p c ?%lookup_empty_Some | by intros p q c d ?%lookup_empty_Some | set_solver]. Qed.

Lemma fresh_in_empty p fd : fresh_conn p fd empty_worker.
Proof. split_and!; [done | done |]. cbn. by intros q c ?%lookup_empty_Some. Qed.

Lemma OnPeerConnect_safe_witness :
  exists w', OnPeerConnect (mkTcpCallback (Some ret_user) None None) (Accepted 5 InetAddress_zero) 0 0 7 0 (mkAcceptor 3 InetAddress_zero)
               empty_worker = Ret (mkAcceptor 3 InetAddress_zero, w')
    /\ wf_worker w' /\ alive 7 w' /\ forall q, alive q empty_worker -> alive q w'.
Proof.
  apply (OnPeerConnect_safe (mkTcpCallback (Some ret_user) None None)).
  - apply empty_worker_wf.
  - apply fresh_in_empty.
  - intros g p time w [= <-] Hw Ha. exists w. split_and!; [done | by apply step_refl | done].
Defined.

(** A limit of [N] connections per worker admits only [N - 1]: the connection
    being accepted is already counted, so it is shut down when [N - 1] others
    exist; the default limit 0 shuts every connection down. *)
Theorem limiter_off_by_one {Any} (sys : Kernel Any)
    (OnTcpConnected OnTcpDisconnected OnTcpReceivedData : ptr -> DateTime -> Worker Any -> outcome (Worker Any))
    (limits : TcpRateLimiterConfig) (p : ptr) (fd again reopened : Z) (peer : InetAddress) (time : DateTime) (a : Acceptor)
    (w : Worker Any) :
  wf_worker w -> fresh_conn p fd w -> (forall w fd, sys_shutdown sys w fd = 0) ->
  (max_conns_per_io_worker limits <= GetConnNums w + 1)%nat ->
  exists w' c, OnPeerConnect (limited_callback sys OnTcpConnected OnTcpDisconnected OnTcpReceivedData limits)
      (Accepted fd peer) again reopened p time a w = Ret (a, w')
    /\ heap w' !! p = Some c /\ conn_state c = kShutdown.
Proof.
  intros Hw Hf Hrc Hlim. unfold OnPeerConnect. cbv zeta. rewrite limited_connect by done.
  replace (_ <=? S (GetConnNums w))%nat with true by (symmetry; apply Nat.leb_le; lia).
  destruct (new_conn_spec p fd (listen_addr a) peer w Hw Hf) as (c & Hp & _ & Hw1 & _).
  set (w1 := emit _ _). unfold Shutdown. rewrite (conn_at_alive p c) by done. mrun.
  destruct (Shutdown_half p c w1) as (c' & t' & -> & _ & _ & Hst & _); [by apply wf_emit | done |].
  cbv zeta. rewrite Hrc. change (negb (0 =? 0)) with false. mrun. unfold InitSsl.
  rewrite (conn_at_alive p c') by apply lookup_insert_eq. mrun. eexists _, c'. split_and!; [done | apply lookup_insert_eq | done].
Qed.

Lemma limiter_off_by_one_witness :
  exists w' c, OnPeerConnect (limited_callback (mkKernel (fun _ _ _ => ReadFail 0) (fun _ _ _ => 0)
      (fun _ _ => false) (fun _ _ => 0) (fun _ _ _ => ReadFail 0) (fun _ _ _ _ => 0) (fun _ _ _ => false)
      (fun _ => 0) true) ret_user ret_user ret_user TcpRateLimiterConfig_init)
      (Accepted 5 InetAddress_zero) 0 0 7 0 (mkAcceptor 3 InetAddress_zero) empty_worker = Ret (mkAcceptor 3 InetAddress_zero, w')
    /\ heap w' !! (7 : ptr) = Some c /\ conn_state c = kShutdown.
Proof.
  apply limiter_off_by_one.
  - apply empty_worker_wf.
  - apply fresh_in_empty.
  - reflexivity.
  - vm_compute. lia.
Defined.

(** When the limiter refuses a client whose connection is already gone,
    [shutdown] fails, the object is closed and destroyed inside [OnConnected],
    and [OnPeerConnect] then uses it. *)
Theorem refused_client_use_after_free {Any} (sys : Kernel Any)
    (OnTcpConnected OnTcpDisconnected OnTcpReceivedData : ptr -> DateTime -> Worker Any -> outcome (Worker Any))
    (limits : TcpRateLimiterConfig) (p : ptr) (fd again reopened : Z) (peer : InetAddress) (time : DateTime) (a : Acceptor)
    (w : Worker Any) :
  wf_worker w -> fresh_conn p fd w -> user_ok true (Some OnTcpDisconnected) ->
  (forall time w w', OnTcpDisconnected p time w = Ret w' -> p ∉ held w -> p ∉ held w') ->
  (forall w fd, sys_shutdown sys w fd <> 0) -> (max_conns_per_io_worker limits <= GetConnNums w + 1)%nat ->
  OnPeerConnect (limited_callback sys OnTcpConnected OnTcpDisconnected OnTcpReceivedData limits)
    (Accepted fd peer) again reopened p time a w = Throw UndefinedBehaviour.
Proof.
  intros Hw Hf Hu Hheld Hrc Hlim. unfold OnPeerConnect. cbv zeta. rewrite limited_connect by done.
  replace (_ <=? S (GetConnNums w))%nat with true by (symmetry; apply Nat.leb_le; lia).
  destruct (new_conn_spec p fd (listen_addr a) peer w Hw Hf) as (c & Hp & _ & Hw1 & _ & _ & Hh & _).
  set (w1 := emit _ _). unfold Shutdown. rewrite (conn_at_alive p c) by done. mrun.
  destruct (Shutdown_half p c w1) as (c' & t' & -> & Hs & _); [by apply wf_emit | done |].
  cbv zeta. set (w2 := emit _ (set_epoll t' _)).
  assert (Hne : forall w fd, negb (sys_shutdown sys w fd =? 0) = true)
    by (intros; apply negb_true_iff, Z.eqb_neq; done).
  rewrite Hne.
  assert (Hfresh : p ∉ held w).
  { intros Hin. assert (Hd : p ∈ dom (heap w)) by (rewrite (wf_owned w Hw); set_solver).
    apply elem_of_dom in Hd as [d Hd]. destruct Hf as [Hf _]. congruence. }
  destruct (ForceClose_destroys sys (on_disconnected_only OnTcpDisconnected) p c' w2) as (w3 & -> & Hnone).
  - done.
  - intros g t0 v v' [= <-] E. by apply (Hheld t0).
  - by apply wf_emit, Hs.
  - apply lookup_insert_eq.
  - change (held w2) with (held (new_conn p fd (listen_addr a) peer w)). by rewrite Hh.
  - unfold InitSsl, conn_at. by rewrite Hnone.
Qed.

Lemma refused_client_use_after_free_witness :
  OnPeerConnect (limited_callback (mkKernel (fun _ _ _ => ReadFail 0) (fun _ _ _ => 0)
      (fun _ _ => false) (fun _ _ => -1) (fun _ _ _ => ReadFail 0) (fun _ _ _ _ => 0) (fun _ _ _ => false)
      (fun _ => 0) true) ret_user ret_user ret_user TcpRateLimiterConfig_init)
      (Accepted 5 InetAddress_zero) 0 0 7 0 (mkAcceptor 3 InetAddress_zero) empty_worker = Throw UndefinedBehaviour.
Proof.
  apply refused_client_use_after_free.
  - apply empty_worker_wf.
  - apply fresh_in_empty.
  - intros g p time w [= <-] Hw Ha. exists w. split_and!; [done | by apply step_refl | done].
  - intros time w w' [= <-]. done.
  - discriminate.
  - vm_compute. lia.
Defined.

(** A worker with one established connection. *)
Definition one_client : Worker unit := new_conn 7 5 InetAddress_zero InetAddress_zero empty_worker.

Lemma one_client_wf : wf_worker one_client /\ encrypted one_client = false
  /\ exists c, heap one_client !! (7 : ptr) = Some c /\ fd_of c = 5.
Proof.
  destruct (new_conn_spec (Any := unit) 7 5 InetAddress_zero InetAddress_zero empty_worker empty_worker_wf (fresh_in_empty 7 5))
    as (c & Hp & _ & Hw & Henc & _).
  split_and!; [done | done |]. exists c. split; [done|]. vm_compute in Hp. by injection Hp as <-.
Qed.

(** Stopping a worker that still has a connection is undefined behaviour:
    [LockForEach] goes on from the element that [ForceClose] erased.  Without
    connections it does nothing. *)
Theorem close_all_undefined {Any} (sys : Kernel Any) (callback : TcpCallback Any) (w : Worker Any) :
  user_ok true (OnDisconnected callback) -> wf_worker w ->
  close_all sys callback w = if ConnSet_Empty w then Ret w else Throw UndefinedBehaviour.
Proof. apply close_all_spec. Qed.

Lemma close_all_undefined_witness :
  close_all (mkKernel (fun _ _ _ => ReadFail 0) (fun _ _ v => 0) (fun _ _ => false) (fun _ _ => 0)
      (fun _ _ _ => ReadFail 0) (fun _ _ _ _ => 0) (fun _ _ _ => false) (fun _ => 0) true)
    (mkTcpCallback None (Some ret_user) None) one_client = Throw UndefinedBehaviour.
Proof.
  destruct one_client_wf as (Hw & _).
  apply (close_all_undefined _ (mkTcpCallback None (Some ret_user) None) one_client).
  - intros g p time w [= <-] Hw' Ha. exists w. split_and!; [done | by apply step_refl | done].
  - exact Hw.
Defined.
