(* ===== verification/Posix.v ===== *)
(** * The system calls the sources make to set up and tear down descriptors

    The kernel is a parameter: a type of states with one function for the
    system calls ([Kernel]) and laws that state what the manual pages promise
    ([KernelLaws]).  Only the descriptors of the component at work are visible,
    so other threads may open and close theirs between any two calls.
    Computations that call the kernel form the monad [proc]; [LOG_FATAL] ends them. *)

From S2P Require Import Prelude CxxStd DateTime Channel InetAddress.
Local Open Scope Z_scope.

(** The constants of the headers. *)
Definition O_NONBLOCK : Z := 2048.
Definition FD_CLOEXEC : Z := 1.
Definition SOL_SOCKET : Z := 1.
Definition SO_REUSEADDR : Z := 2.
Definition SO_KEEPALIVE : Z := 9.
Definition SO_REUSEPORT : Z := 15.
Definition IPPROTO_TCP : Z := 6.
Definition TCP_NODELAY : Z := 1.
Definition TCP_KEEPIDLE : Z := 4.
Definition TCP_KEEPINTVL : Z := 5.
Definition TCP_KEEPCNT : Z := 6.
Definition SOMAXCONN : Z := 4096.
Definition EMFILE : Z := 24.

(** ** Descriptors *)

(** A socket: its status flags, its descriptor flags, its options by level and
    name, its address, and whether it listens. *)
Record SocketState := mkSocketState {
  so_status : Z;
  so_fd_flags : Z;
  so_options : gmap (Z * Z) Z;
  so_addr : option InetAddress;
  so_listening : bool;
}.
Definition SocketState_init : SocketState := mkSocketState 0 0 ∅ None false.

(** What [accept4] makes with SOCK_NONBLOCK and SOCK_CLOEXEC. *)
Definition accepted_socket : SocketState := mkSocketState O_NONBLOCK FD_CLOEXEC ∅ None false.

Inductive Desc :=
| DSocket (s : SocketState)
| DEpoll (t : EpollTable)
| DEvent
| DTimer (armed : option timespec)
| DNull.

Abbreviation FdTable := (gmap Z Desc).

Inductive syscall :=
| SysSocket
| SysOpenNull
| SysEpollCreate
| SysEventFd
| SysTimerFdCreate
| SysClose (fd : Z)
| SysSetSockOpt (fd level name value : Z)
| SysGetFl (fd : Z)
| SysSetFl (fd flags : Z)
| SysGetFd (fd : Z)
| SysSetFd (fd flags : Z)
| SysBind (fd : Z) (addr : InetAddress)
| SysListen (fd backlog : Z)
| SysAccept (fd : Z)
| SysConnect (fd : Z) (addr : InetAddress)
| SysErrno
| SysEpollCtl (epfd : Z) (op : epoll_op) (fd : Z) (evt : epoll_event)
| SysTimerSet (fd : Z) (when : timespec).

(** The calls that make a descriptor. *)
Definition creates (c : syscall) : option Desc :=
  match c with
  | SysSocket => Some (DSocket SocketState_init)
  | SysAccept _ => Some (DSocket accepted_socket)
  | SysOpenNull => Some DNull
  | SysEpollCreate => Some (DEpoll ∅)
  | SysEventFd => Some DEvent
  | SysTimerFdCreate => Some (DTimer None)
  | _ => None
  end.

(** Closing a descriptor also takes it out of the epoll instances. *)
Definition forget (fd : Z) (d : Desc) : Desc := match d with DEpoll t => DEpoll (delete fd t) | d => d end.
Definition close_desc (fd : Z) (m : FdTable) : FdTable := delete fd (forget fd <$> m).

Definition with_option (level name value : Z) (s : SocketState) : SocketState :=
  mkSocketState (so_status s) (so_fd_flags s) (<[(level, name) := value]> (so_options s)) (so_addr s) (so_listening s).
Definition with_status (flags : Z) (s : SocketState) : SocketState :=
  mkSocketState flags (so_fd_flags s) (so_options s) (so_addr s) (so_listening s).
Definition with_fd_flags (flags : Z) (s : SocketState) : SocketState :=
  mkSocketState (so_status s) flags (so_options s) (so_addr s) (so_listening s).
Definition with_addr (a : InetAddress) (s : SocketState) : SocketState :=
  mkSocketState (so_status s) (so_fd_flags s) (so_options s) (Some a) (so_listening s).
Definition with_listening (s : SocketState) : SocketState :=
  mkSocketState (so_status s) (so_fd_flags s) (so_options s) (so_addr s) true.

Definition reuses_port (s : SocketState) : Prop := so_options s !! (SOL_SOCKET, SO_REUSEPORT) = Some 1.

(** ** The kernel *)

Class Kernel (K : Type) := {
  sys : syscall -> K -> Z * K;
  own : K -> FdTable;                      (* the descriptors of this component *)
  peer_of : Z -> K -> InetAddress;         (* the address [accept4] stored for the descriptor *)
  addr_free : InetAddress -> K -> Prop;    (* nobody else keeps the address from being bound *)
}.

Class KernelLaws (K : Type) `{Kernel K} := {
  law_create : forall c d k, creates c = Some d ->
    ((sys c k).1 = -1 /\ own (sys c k).2 = own k)
    \/ (0 <= (sys c k).1 /\ own k !! (sys c k).1 = None /\ own (sys c k).2 = <[(sys c k).1 := d]> (own k));
  law_close : forall fd k, own (sys (SysClose fd) k).2 = close_desc fd (own k);
  law_setsockopt : forall fd name value s k, own k !! fd = Some (DSocket s) ->
    name = SO_REUSEADDR \/ name = SO_REUSEPORT ->
    own (sys (SysSetSockOpt fd SOL_SOCKET name value) k).2 = <[fd := DSocket (with_option SOL_SOCKET name value s)]> (own k);
  law_getfl : forall fd s k, own k !! fd = Some (DSocket s) ->
    (sys (SysGetFl fd) k).1 = so_status s /\ own (sys (SysGetFl fd) k).2 = own k;
  law_setfl : forall fd flags s k, own k !! fd = Some (DSocket s) ->
    own (sys (SysSetFl fd flags) k).2 = <[fd := DSocket (with_status flags s)]> (own k);
  law_getfd : forall fd s k, own k !! fd = Some (DSocket s) ->
    (sys (SysGetFd fd) k).1 = so_fd_flags s /\ own (sys (SysGetFd fd) k).2 = own k;
  law_setfd : forall fd flags s k, own k !! fd = Some (DSocket s) ->
    own (sys (SysSetFd fd flags) k).2 = <[fd := DSocket (with_fd_flags flags s)]> (own k);
  (* [bind] fails or binds; it binds an address that only sockets share that all have SO_REUSEPORT *)
  law_bind : forall fd a s k, own k !! fd = Some (DSocket s) ->
    ((sys (SysBind fd a) k).1 = -1 /\ own (sys (SysBind fd a) k).2 = own k)
    \/ ((sys (SysBind fd a) k).1 = 0 /\ own (sys (SysBind fd a) k).2 = <[fd := DSocket (with_addr a s)]> (own k));
  law_bind_shared : forall fd a s k, own k !! fd = Some (DSocket s) -> so_addr s = None -> addr_free a k ->
    reuses_port s -> (forall fd' s', own k !! fd' = Some (DSocket s') -> so_addr s' = Some a -> reuses_port s') ->
    (sys (SysBind fd a) k).1 = 0;
  law_listen : forall fd n s k, own k !! fd = Some (DSocket s) ->
    ((sys (SysListen fd n) k).1 = -1 /\ own (sys (SysListen fd n) k).2 = own k)
    \/ ((sys (SysListen fd n) k).1 = 0 /\ own (sys (SysListen fd n) k).2 = <[fd := DSocket (with_listening s)]> (own k));
  (* a registration may also fail for want of memory or watches *)
  law_epoll_ctl : forall ep op fd evt t d k, own k !! ep = Some (DEpoll t) -> own k !! fd = Some d -> ep <> fd ->
    ((sys (SysEpollCtl ep op fd evt) k).1 = -1 /\ own (sys (SysEpollCtl ep op fd evt) k).2 = own k)
    \/ ((sys (SysEpollCtl ep op fd evt) k).1 = (epoll_ctl t op fd evt).1
        /\ own (sys (SysEpollCtl ep op fd evt) k).2 = <[ep := DEpoll (epoll_ctl t op fd evt).2]> (own k));
  law_timer_set : forall fd when a k, own k !! fd = Some (DTimer a) ->
    own (sys (SysTimerSet fd when) k).2 = <[fd := DTimer (Some when)]> (own k);
  law_errno : forall k, own (sys SysErrno k).2 = own k;
  law_addr_free : forall a c k, addr_free a k -> addr_free a (sys c k).2;
}.

(** ** Computations *)

(** The process: the kernel, the errors that were logged, and the closed
    descriptors in order, each with whether it was the component's to close. *)
Record Process (K : Type) := mkProcess {
  kernel : K;
  errors : list (list byte);
  closes : list (Z * bool);
  next_ptr : ptr;
}.
Arguments mkProcess {K}.
Arguments kernel {K}.
Arguments errors {K}.
Arguments closes {K}.
Arguments next_ptr {K}.

(** A computation returns, or ends the process with the text of [LOG_FATAL] or
    of a failed assertion. *)
Inductive exit (K A : Type) :=
| Done (x : A) (w : Process K)
| Aborted (reason : list byte) (w : Process K).
Arguments Done {K A}.
Arguments Aborted {K A}.

Definition proc (K A : Type) : Type := Process K -> exit K A.
#[export] Instance proc_ret K : MRet (proc K) := fun A x w => Done x w.
#[export] Instance proc_bind K : MBind (proc K) := fun A B f m w =>
  match m w with Done x w => f x w | Aborted r w => Aborted r w end.

Section calls.
Context {K : Type} `{Kernel K}.
Implicit Types w : Process K.

Definition call (c : syscall) : proc K Z := fun w =>
  let '(r, k) := sys c (kernel w) in
  Done r (mkProcess k (errors w)
            (closes w ++ match c with SysClose fd => [(fd, bool_decide (is_Some (own (kernel w) !! fd)))] | _ => [] end)
            (next_ptr w)).
Definition LOG_FATAL {A} (reason : list byte) : proc K A := fun w => Aborted reason w.
Definition LOG_ERROR (msg : list byte) : proc K unit := fun w =>
  Done tt (mkProcess (kernel w) (errors w ++ [msg]) (closes w) (next_ptr w)).
(** [assert(b)]; [NDEBUG] compiles it out. *)
Definition assert_ (ndebug b : bool) (text : list byte) : proc K unit := fun w =>
  if ndebug || b then Done tt w else Aborted text w.
(** A value a call left in memory. *)
Definition ask {A} (f : K -> A) : proc K A := fun w => Done (f (kernel w)) w.
(** The address of a new object. *)
Definition new_ptr : proc K ptr := fun w =>
  Done (next_ptr w) (mkProcess (kernel w) (errors w) (closes w) (next_ptr w + 1)).
End calls.

(** ** Total correctness: a postcondition for the return and one for the end of the process *)

Definition wp {K A} (m : proc K A) (Q : A -> Process K -> Prop) (E : list byte -> Process K -> Prop) (w : Process K) : Prop :=
  match m w with Done x w => Q x w | Aborted r w => E r w end.

Section wp.
Context {K : Type} `{KernelLaws K}.
Implicit Types (w : Process K) (m : FdTable).

Lemma wp_ret {A} (x : A) Q E w : Q x w -> wp (mret x) Q E w.
Proof. done. Qed.

Lemma wp_bind {A B} (p : proc K A) (f : A -> proc K B) Q E w :
  wp p (fun x => wp (f x) Q E) E w -> wp (p ≫= f) Q E w.
Proof. unfold wp, mbind, proc_bind. by destruct (p w). Qed.

Lemma wp_mono {A} (p : proc K A) (Q Q' : A -> Process K -> Prop) (E E' : list byte -> Process K -> Prop) w :
  wp p Q E w -> (forall x w, Q x w -> Q' x w) -> (forall r w, E r w -> E' r w) -> wp p Q' E' w.
Proof. unfold wp. destruct (p w); auto. Qed.

(** What is known of a process: the descriptors, the logged errors, the closed
    descriptors, and a fact [F] of the kernel that system calls leave true. *)
Context (F : K -> Prop) (HF : forall c k, F k -> F (sys c k).2).

Definition state_is m (es : list (list byte)) (cl : list (Z * bool)) w : Prop :=
  own (kernel w) = m /\ errors w = es /\ closes w = cl /\ F (kernel w).

Definition is_close (c : syscall) : bool := match c with SysClose _ => true | _ => false end.

(** A call whose result and effect on the descriptors are described by [P]. *)
Lemma wp_call (P : Z -> FdTable -> Prop) c m es cl w Q E :
  state_is m es cl w -> is_close c = false -> (forall k, F k -> own k = m -> P (sys c k).1 (own (sys c k).2)) ->
  (forall r m' w', P r m' -> state_is m' es cl w' -> Q r w') -> wp (call c) Q E w.
Proof.
  intros (Hm & He & Hc & Hf) Hnc HP HQ. unfold wp, call. specialize (HP (kernel w) Hf Hm).
  pose proof (HF c (kernel w) Hf) as Hf'. destruct (sys c (kernel w)) as [r k]. apply (HQ r (own k)); [exact HP|].
  split; [done|]. split; [done|]. split; [|done]. cbn. rewrite Hc. destruct c; cbn in *; rewrite ?app_nil_r; done.
Qed.

Lemma wp_create c d m es cl w Q E :
  state_is m es cl w -> creates c = Some d -> (forall w', state_is m es cl w' -> Q (-1) w') ->
  (forall fd w', 0 <= fd -> m !! fd = None -> state_is (<[fd := d]> m) es cl w' -> Q fd w') -> wp (call c) Q E w.
Proof.
  intros Hs Hd Hfail Hok. apply (wp_call (fun r m' => (r = -1 /\ m' = m) \/ (0 <= r /\ m !! r = None /\ m' = <[r := d]> m)) c m es cl); [done|by destruct c|..].
  - intros k _ <-. by apply law_create.
  - intros r m' w' [[-> ->]|(Hr & Hn & ->)] Hw'; eauto.
Qed.

Lemma wp_close fd m es cl w Q E :
  state_is m es cl w ->
  (forall r w', state_is (close_desc fd m) es (cl ++ [(fd, bool_decide (is_Some (m !! fd)))]) w' -> Q r w') ->
  wp (call (SysClose fd)) Q E w.
Proof.
  intros (Hm & He & Hc & Hf) HQ. unfold wp, call. pose proof (law_close fd (kernel w)) as Hcl.
  pose proof (HF (SysClose fd) (kernel w) Hf) as Hf'. destruct (sys (SysClose fd) (kernel w)) as [r k]. apply HQ.
  split; [by rewrite <-Hm|]. split; [done|]. split; [|done]. cbn. by rewrite Hc, Hm.
Qed.

(** A call that changes the descriptors in one way whatever it returns. *)
Lemma wp_call_set c m m' es cl w Q E :
  state_is m es cl w -> is_close c = false -> (forall k, F k -> own k = m -> own (sys c k).2 = m') ->
  (forall r w', state_is m' es cl w' -> Q r w') -> wp (call c) Q E w.
Proof.
  intros Hs Hc HP HQ. apply (wp_call (fun _ m'' => m'' = m') c m es cl); [done..|]. intros r m'' w' -> Hw'. by apply (HQ r).
Qed.

Lemma wp_error msg m es cl w Q E :
  state_is m es cl w -> (forall w', state_is m (es ++ [msg]) cl w' -> Q tt w') -> wp (LOG_ERROR msg) Q E w.
Proof. intros (Hm & He & Hc & Hf) HQ. apply HQ. split_and!; cbn; congruence. Qed.

Lemma wp_new_ptr m es cl w Q E :
  state_is m es cl w -> (forall p w', state_is m es cl w' -> Q p w') -> wp new_ptr Q E w.
Proof. intros Hs HQ. by apply HQ. Qed.

Lemma wp_assert ndebug b text m es cl w Q (E : list byte -> Process K -> Prop) :
  state_is m es cl w -> (ndebug || b = true -> Q tt w) -> E text w -> wp (assert_ ndebug b text) Q E w.
Proof. intros Hs HQ HE. unfold wp, assert_. destruct (ndebug || b); auto. Qed.
End wp.

Lemma wp_then_ret {K A B} (p : proc K A) (f : A -> proc K B) Q E w :
  wp (x ← p; y ← f x; mret y) Q E w -> wp (p ≫= f) Q E w.
Proof. unfold wp, mbind, proc_bind. destruct (p w) as [x w'|]; [|done]. by destruct (f x w'). Qed.

(** Closing a descriptor of a table. *)
Lemma close_desc_new fd d (m : FdTable) : close_desc fd (<[fd := d]> m) = close_desc fd m.
Proof. unfold close_desc. by rewrite fmap_insert, delete_insert_eq. Qed.

Lemma close_desc_other fd fd' d (m : FdTable) :
  fd <> fd' -> close_desc fd (<[fd' := d]> m) = <[fd' := forget fd d]> (close_desc fd m).
Proof. intros Hne. unfold close_desc. by rewrite fmap_insert, delete_insert_ne. Qed.

(** Descriptors are not negative, and registrations are of descriptors in the table. *)
Definition wf_fds (m : FdTable) : Prop :=
  m !! (-1) = None /\ forall ep t fd, m !! ep = Some (DEpoll t) -> is_Some (t !! fd) -> is_Some (m !! fd).

Lemma close_desc_unknown fd (m : FdTable) : wf_fds m -> m !! fd = None -> close_desc fd m = m.
Proof.
  intros [_ Hwf] Hn. unfold close_desc. rewrite delete_id by by rewrite lookup_fmap, Hn. apply map_eq. intros i.
  rewrite lookup_fmap. destruct (m !! i) as [[s|t| |a|]|] eqn:E; cbn; try done. do 2 f_equal. apply delete_id.
  destruct (t !! fd) eqn:Et; [|done]. destruct (Hwf i t fd E) as [d Hd]; [by eexists|]. congruence.
Qed.

Lemma close_desc_added fd d (m : FdTable) : wf_fds m -> m !! fd = None -> close_desc fd (<[fd := d]> m) = m.
Proof. intros. rewrite close_desc_new. by apply close_desc_unknown. Qed.

Lemma lookup_close_desc_Some fd i (m : FdTable) : i <> fd -> is_Some (close_desc fd m !! i) <-> is_Some (m !! i).
Proof. intros Hne. unfold close_desc. by rewrite lookup_delete_ne, lookup_fmap, fmap_is_Some by done. Qed.

Lemma close_desc_wf fd (m : FdTable) : wf_fds m -> wf_fds (close_desc fd m).
Proof.
  intros [Hm1 Hwf]. split.
  - unfold close_desc. destruct (decide (fd = -1)) as [->|]; [apply lookup_delete_eq|].
    by rewrite lookup_delete_ne, lookup_fmap, Hm1 by done.
  - intros ep t x Hep Hx. assert (Hep' : fd <> ep) by (intros ->; unfold close_desc in Hep; by rewrite lookup_delete_eq in Hep).
    unfold close_desc in Hep. rewrite lookup_delete_ne, lookup_fmap in Hep by done.
    destruct (m !! ep) as [[s|t0| |a|]|] eqn:E; cbn in Hep; try done. injection Hep as <-.
    destruct (decide (x = fd)) as [->|Hxf]; [rewrite lookup_delete_eq in Hx; by destruct Hx|].
    rewrite lookup_delete_ne in Hx by done. apply lookup_close_desc_Some; [done|]. by apply (Hwf ep t0).
Qed.
