(* ===== verification/PosixModel.v ===== *)
(** * A kernel that obeys the laws of [Posix]

    A machine gives the lowest number that is free, as POSIX prescribes, below a
    limit.  On [intruding] machines another thread opens a file as soon as this
    component closes a descriptor.  Theorems on all kernels are applied to
    machines in their witnesses. *)

From S2P Require Import Prelude CxxStd DateTime Channel InetAddress Posix.
Local Open Scope Z_scope.

#[export] Instance InetAddress_eq_dec : EqDecision InetAddress.
Proof. solve_decision. Defined.

Record Machine := mkMachine {
  mine : FdTable;
  theirs : list Z;       (* the descriptors of the other thread *)
  limit : Z;             (* descriptors are below it *)
  intruding : bool;
}.

Definition set_mine (t : FdTable) (m : Machine) : Machine := mkMachine t (theirs m) (limit m) (intruding m).
Definition on_socket (fd : Z) (f : SocketState -> SocketState) (m : Machine) : Z * Machine :=
  match mine m !! fd with Some (DSocket s) => (0, set_mine (<[fd := DSocket (f s)]> (mine m)) m) | _ => (-1, m) end.
Definition ask_socket (fd : Z) (f : SocketState -> Z) (m : Machine) : Z * Machine :=
  match mine m !! fd with Some (DSocket s) => (f s, m) | _ => (-1, m) end.

(** Another socket holds the address, and the two do not share it. *)
Definition addr_in_use (a : InetAddress) (s : SocketState) (t : FdTable) : bool :=
  existsb (fun p => match p.2 with
                    | DSocket s' => bool_decide (so_addr s' = Some a) && negb (bool_decide (reuses_port s) && bool_decide (reuses_port s'))
                    | _ => false
                    end) (map_to_list t).

Definition lowest_free (t : FdTable) (others : list Z) (limit : Z) : option Z :=
  head (filter (fun fd => t !! fd = None /\ fd ∉ others) (seqZ 3 (limit - 3))).

Definition machine_close (fd : Z) (m : Machine) : Z * Machine :=
  let t := close_desc fd (mine m) in
  match mine m !! fd with
  | Some _ =>
      let others := match lowest_free t (theirs m) (limit m) with
                    | Some fd' => if intruding m then fd' :: theirs m else theirs m
                    | None => theirs m
                    end in
      (0, mkMachine t others (limit m) (intruding m))
  | None => (if bool_decide (fd ∈ theirs m) then 0 else -1, mkMachine t (filter (fun x => x <> fd) (theirs m)) (limit m) (intruding m))
  end.

Definition machine_create (d : Desc) (m : Machine) : Z * Machine :=
  match lowest_free (mine m) (theirs m) (limit m) with
  | Some fd => (fd, set_mine (<[fd := d]> (mine m)) m)
  | None => (-1, m)
  end.

Definition machine_sys (c : syscall) (m : Machine) : Z * Machine :=
  match c with
  | SysSocket => machine_create (DSocket SocketState_init) m
  | SysOpenNull => machine_create DNull m
  | SysEpollCreate => machine_create (DEpoll ∅) m
  | SysEventFd => machine_create DEvent m
  | SysTimerFdCreate => machine_create (DTimer None) m
  | SysClose fd => machine_close fd m
  | SysSetSockOpt fd level name value => on_socket fd (with_option level name value) m
  | SysGetFl fd => ask_socket fd so_status m
  | SysSetFl fd flags => on_socket fd (with_status flags) m
  | SysGetFd fd => ask_socket fd so_fd_flags m
  | SysSetFd fd flags => on_socket fd (with_fd_flags flags) m
  | SysBind fd a =>
      match mine m !! fd with
      | Some (DSocket s) => if bool_decide (so_addr s = None) && negb (addr_in_use a s (mine m)) then on_socket fd (with_addr a) m else (-1, m)
      | _ => (-1, m)
      end
  | SysListen fd _ => on_socket fd with_listening m
  | SysAccept _ => machine_create (DSocket accepted_socket) m
  | SysConnect _ _ => (0, m)
  | SysErrno => (match lowest_free (mine m) (theirs m) (limit m) with None => EMFILE | Some _ => 11 end, m)
  | SysEpollCtl ep op fd evt =>
      match mine m !! ep, mine m !! fd with
      | Some (DEpoll t), Some _ => if ep =? fd then (-1, m) else ((epoll_ctl t op fd evt).1, set_mine (<[ep := DEpoll (epoll_ctl t op fd evt).2]> (mine m)) m)
      | _, _ => (-1, m)
      end
  | SysTimerSet fd when =>
      match mine m !! fd with Some (DTimer _) => (0, set_mine (<[fd := DTimer (Some when)]> (mine m)) m) | _ => (-1, m) end
  end.

#[export] Instance Machine_kernel : Kernel Machine := 
  {| sys := machine_sys; own := mine; peer_of := fun fd _ => mkInetAddress AF_INET (htons fd) [127; 0; 0; 1]; addr_free := fun _ _ => True |}.

Lemma machine_creates c d m : creates c = Some d -> machine_sys c m = machine_create d m.
Proof. by destruct c; intros [= <-]. Qed.

Lemma addr_in_use_shared a s t : reuses_port s ->
  (forall fd' s', t !! fd' = Some (DSocket s') -> so_addr s' = Some a -> reuses_port s') -> addr_in_use a s t = false.
Proof.
  intros Hs Hall. unfold addr_in_use. apply not_true_is_false. rewrite existsb_exists. intros ([fd' d] & Hin & Hd).
  apply list_elem_of_In, elem_of_map_to_list in Hin. cbn [snd] in Hd. destruct d as [s'| | | |]; [|done..].
  apply andb_true_iff in Hd as [Ha Hr]. apply bool_decide_eq_true in Ha.
  rewrite !bool_decide_eq_true_2 in Hr; [done|by apply (Hall fd')|done].
Qed.

#[export] Instance Machine_laws : KernelLaws Machine.
Proof.
  split; cbn [sys own addr_free Machine_kernel]; try done.
  - intros c d m Hc. rewrite (machine_creates c d m Hc). unfold machine_create.
    destruct (lowest_free _ _ _) as [fd|] eqn:E; [right|by left]. apply head_Some_elem_of in E.
    apply list_elem_of_filter in E as [[Hn _] Hin]. apply elem_of_seqZ in Hin. split; [cbn; lia|done].
  - intros fd m. cbn. unfold machine_close. by destruct (mine m !! fd).
  - intros fd name value s m Hs _. cbn. unfold on_socket. by rewrite Hs.
  - intros fd s m Hs. cbn. unfold ask_socket. by rewrite Hs.
  - intros fd f s m Hs. cbn. unfold on_socket. by rewrite Hs.
  - intros fd s m Hs. cbn. unfold ask_socket. by rewrite Hs.
  - intros fd f s m Hs. cbn. unfold on_socket. by rewrite Hs.
  - intros fd a s m Hs. cbn. rewrite Hs. destruct (_ && _); [|by left]. right. unfold on_socket. by rewrite Hs.
  - intros fd a s m Hs Ha _ Hr Hall. cbn. rewrite Hs, bool_decide_eq_true_2, addr_in_use_shared by done. cbn. unfold on_socket. by rewrite Hs.
  - intros fd n s m Hs. cbn. unfold on_socket. rewrite Hs. by right.
  - intros ep op fd evt t d m Ht Hd Hne. cbn. rewrite Ht, Hd. destruct (Z.eqb_spec ep fd) as [|_]; [done|]. by right.
  - intros fd when a m Ha. cbn. by rewrite Ha.
Qed.

(** A process on a machine with nothing open. *)
Definition fresh_process (limit : Z) (intruding : bool) : Process Machine := mkProcess (mkMachine ∅ [] limit intruding) [] [] 1.
