(* ===== verification/Lifecycle.v ===== *)
(** * Descriptors from construction to destruction

    utils/FdHelper.cc, utils/SockOption.cc, net/Socket.cc, and the constructors
    and destructors of Channel, Poller, TimerQueue, Acceptor, IOWorker and
    WorkerGroup: which descriptors they make, in which order, how they are
    prepared and registered, and who closes them. *)

From S2P Require Import Prelude CxxStd DateTime Channel InetAddress Posix.
Local Open Scope Z_scope.

Section code.
Context {K : Type} `{Kernel K} (ndebug : bool).

(** ** utils/FdHelper.cc *)

Definition Close (fd : Z) : proc K unit := if fd <? 0 then mret tt else (_ ← call (SysClose fd); mret tt).
Definition CreateEpollFd : proc K Z := call SysEpollCreate.
Definition CreateEventFd : proc K Z := call SysEventFd.
Definition CreateTimerFd : proc K Z := call SysTimerFdCreate.
Definition set_timer_fd (fd expired_us : Z) : proc K unit := _ ← call (SysTimerSet fd (SetTimerFd expired_us)); mret tt.

(** ** utils/SockOption.cc: no result is tested *)

Definition SetTcpNoDelay (fd : Z) : proc K unit := _ ← call (SysSetSockOpt fd IPPROTO_TCP TCP_NODELAY 1); mret tt.
Definition SetReuseAddr (fd : Z) : proc K unit := _ ← call (SysSetSockOpt fd SOL_SOCKET SO_REUSEADDR 1); mret tt.
Definition SetReusePort (fd : Z) : proc K unit := _ ← call (SysSetSockOpt fd SOL_SOCKET SO_REUSEPORT 1); mret tt.
Definition SetNonBlockAndCloseOnExec (fd : Z) : proc K unit :=
  flags ← call (SysGetFl fd);
  _ ← call (SysSetFl fd (Z.lor flags O_NONBLOCK));
  flags ← call (SysGetFd fd);
  _ ← call (SysSetFd fd (Z.lor flags FD_CLOEXEC));
  mret tt.
Definition SetKeepAlive (fd idle_secs interval_secs cnt : Z) : proc K unit :=
  _ ← call (SysSetSockOpt fd SOL_SOCKET SO_KEEPALIVE 1);
  _ ← call (SysSetSockOpt fd IPPROTO_TCP TCP_KEEPIDLE idle_secs);
  _ ← call (SysSetSockOpt fd IPPROTO_TCP TCP_KEEPINTVL interval_secs);
  _ ← call (SysSetSockOpt fd IPPROTO_TCP TCP_KEEPCNT cnt);
  mret tt.

(** ** net/Socket.cc *)

Record Socket := mkSocket { sock_fd : Z; local_addr : InetAddress }.

Definition Socket_ctor : proc K Socket :=
  fd ← call SysSocket;
  if fd <? 0 then LOG_FATAL (bytes "Created socket failed") else mret (mkSocket fd InetAddress_zero).
Definition Socket_dtor (s : Socket) : proc K unit := Close (sock_fd s).
Definition Bind (addr : InetAddress) (s : Socket) : proc K Socket :=
  _ ← assert_ ndebug (0 <? sock_fd s) (bytes "fd > 0");
  let s := mkSocket (sock_fd s) addr in
  ret ← call (SysBind (sock_fd s) addr);
  if ret =? -1 then
    LOG_FATAL (bytes "Socket fd = " ++ to_string (sock_fd s) ++ bytes " bind [" ++ GetHost addr ++ bytes "] failed")
  else mret s.
Definition Listen (s : Socket) : proc K unit :=
  _ ← assert_ ndebug (0 <? sock_fd s) (bytes "fd > 0");
  ret ← call (SysListen (sock_fd s) SOMAXCONN);
  if ret <? 0 then LOG_FATAL (bytes "Listen failed, sockfd = " ++ to_string (sock_fd s)) else mret tt.

(** [strerror]'s text is left out. *)
Definition Accept (s : Socket) : proc K (Z * InetAddress) :=
  client_fd ← call (SysAccept (sock_fd s));
  _ ← (if client_fd <? 0 then LOG_ERROR (bytes "Socket accept failed, sockfd = " ++ to_string (sock_fd s)) else mret tt);
  addr ← ask (fun k => if client_fd <? 0 then InetAddress_zero else peer_of client_fd k);
  mret (client_fd, addr).
Definition Connect (peer_addr : InetAddress) (s : Socket) : proc K Z := call (SysConnect (sock_fd s) peer_addr).
Definition GetLocalAddr (s : Socket) : InetAddress := local_addr s.

(** ** net/Channel.cc and the registrations of net/Poller.cc *)

(** A channel with its address and the descriptor of its poller. *)
Record ChannelObj := mkChannelObj { ch_this : ptr; ch_state : Channel; ch_poller : Z }.

Definition Channel_ctor (fd poller : Z) : proc K ChannelObj :=
  this ← new_ptr;
  mret (mkChannelObj this (Channel_init fd) poller).
Definition Channel_dtor (c : ChannelObj) : proc K unit := Close (ch_fd (ch_state c)).

(** A registration that fails is logged, and that is all; the text of
    [strerror] is left out. *)
Definition poller_ctl (op : epoll_op) (evt : epoll_event) (what link : list byte) (c : ChannelObj) : proc K unit :=
  ret ← call (SysEpollCtl (ch_poller c) op (GetFd (ch_state c)) evt);
  if ret =? -1 then
    LOG_ERROR (bytes "Failed to " ++ what ++ bytes " channel " ++ to_string (GetFd (ch_state c)) ++ link ++ to_string (ch_poller c))
  else mret tt.
Definition AddToPoller_sys (c : ChannelObj) : proc K unit :=
  poller_ctl EPOLL_CTL_ADD (mkEpollEvent 0 None) (bytes "add") (bytes " => poller ") c.
Definition RemoveFromPoller_sys (c : ChannelObj) : proc K unit :=
  poller_ctl EPOLL_CTL_DEL (mkEpollEvent 0 None) (bytes "Remove") (bytes " from poller ") c.
Definition UpdateChannel_sys (c : ChannelObj) : proc K unit :=
  poller_ctl EPOLL_CTL_MOD (GetEpollEvent (ch_this c) (ch_state c)) (bytes "update") (bytes " in poller ") c.
Definition ActivateReading_sys (c : ChannelObj) : proc K ChannelObj :=
  if negb (IsActivateReading (ch_state c)) then
    let c := mkChannelObj (ch_this c) (add_events kReadEvent (ch_state c)) (ch_poller c) in
    _ ← UpdateChannel_sys c;
    mret c
  else mret c.

(** ** net/Poller.cc *)

Record PollerObj := mkPollerObj { poller_fd : Z; wakeup_channel : ChannelObj }.

Definition Poller_ctor : proc K PollerObj :=
  fd ← CreateEpollFd;
  if fd =? -1 then LOG_FATAL (bytes "Create poller failed!")
  else
    wakeup_fd ← CreateEventFd;
    if wakeup_fd =? -1 then LOG_FATAL (bytes "Create wakeup fd failed!")
    else
      c ← Channel_ctor wakeup_fd fd;
      _ ← AddToPoller_sys c;
      c ← ActivateReading_sys c;
      mret (mkPollerObj fd c).
Definition Poller_dtor (p : PollerObj) : proc K unit :=
  _ ← RemoveFromPoller_sys (wakeup_channel p);
  _ ← Channel_dtor (wakeup_channel p);
  _ ← call (SysClose (poller_fd p));
  mret tt.

(** ** net/TimerQueue.cc *)

Definition TimerQueue_ctor (poller : PollerObj) : proc K ChannelObj :=
  timer_fd ← CreateTimerFd;
  if timer_fd =? -1 then LOG_FATAL (bytes "Create timer fd failed")
  else
    c ← Channel_ctor timer_fd (poller_fd poller);
    _ ← AddToPoller_sys c;
    ActivateReading_sys c.
Definition TimerQueue_dtor (timer_channel : ChannelObj) : proc K unit := Channel_dtor timer_channel.

(** ** net/Acceptor.cc *)

Record AcceptorObj := mkAcceptorObj { reserved_fd : Z; acceptor_socket : Socket; acceptor_channel : ChannelObj }.

Definition Acceptor_ctor (poller : PollerObj) (listen_addr : InetAddress) : proc K AcceptorObj :=
  acceptor ← Socket_ctor;
  reserved_fd ← call SysOpenNull;
  _ ← assert_ ndebug (0 <? reserved_fd) (bytes "reserved_fd > 0");
  let acceptor_fd := sock_fd acceptor in
  _ ← SetNonBlockAndCloseOnExec acceptor_fd;
  _ ← SetReuseAddr acceptor_fd;
  _ ← SetReusePort acceptor_fd;
  acceptor ← Bind listen_addr acceptor;
  _ ← Listen acceptor;
  c ← Channel_ctor acceptor_fd (poller_fd poller);
  _ ← AddToPoller_sys c;
  c ← ActivateReading_sys c;
  mret (mkAcceptorObj reserved_fd acceptor c).
Definition Acceptor_dtor (a : AcceptorObj) : proc K unit :=
  _ ← Socket_dtor (acceptor_socket a);
  _ ← Channel_dtor (acceptor_channel a);
  _ ← call (SysClose (reserved_fd a));
  mret tt.

(** The start of [OnPeerConnect]: the new client's descriptor and address, or
    [None] when there is none to serve.  [Acceptor.OnPeerConnect] models the rest. *)
Definition accept_client (a : AcceptorObj) : proc K (AcceptorObj * option (Z * InetAddress)) :=
  client ← Accept (acceptor_socket a);
  if client.1 <? 0 then
    errno ← call SysErrno;
    if errno =? EMFILE then
      _ ← call (SysClose (reserved_fd a));
      refused ← Accept (acceptor_socket a);
      let a := mkAcceptorObj refused.1 (acceptor_socket a) (acceptor_channel a) in
      _ ← call (SysClose (reserved_fd a));
      reopened ← call SysOpenNull;
      mret (mkAcceptorObj reopened (acceptor_socket a) (acceptor_channel a), None)
    else mret (a, None)
  else mret (a, Some client).

(** ** net/IOWorker.cc *)

Record WorkerObj := mkWorkerObj { worker_tid : Z; worker_poller : PollerObj; worker_acceptor : AcceptorObj; worker_timer : ChannelObj }.

(** The assertions on the pointers hold: [new] does not give a null pointer. *)
Definition IOWorker_ctor (tid : Z) (listen_addr : InetAddress) : proc K WorkerObj :=
  poller ← Poller_ctor;
  acceptor ← Acceptor_ctor poller listen_addr;
  timer_queue ← TimerQueue_ctor poller;
  mret (mkWorkerObj tid poller acceptor timer_queue).
Definition IOWorker_dtor (w : WorkerObj) : proc K unit :=
  _ ← Poller_dtor (worker_poller w);
  _ ← Acceptor_dtor (worker_acceptor w);
  TimerQueue_dtor (worker_timer w).

(** ** net/WorkerGroup.cc: the loop of [Start], and the destruction of [worker_set] *)

Fixpoint start_workers (n : nat) (i : Z) (listen_addr : InetAddress) : proc K (list WorkerObj) :=
  match n with
  | O => mret []
  | S n =>
      worker ← IOWorker_ctor i listen_addr;
      workers ← start_workers n (i + 1) listen_addr;
      mret (worker :: workers)
  end.
Definition WorkerGroup_Start (workers : nat) (listen_addr : InetAddress) : proc K (list WorkerObj) :=
  start_workers workers 0 listen_addr.
Fixpoint delete_workers (workers : list WorkerObj) : proc K unit :=
  match workers with
  | [] => mret tt
  | w :: workers => _ ← IOWorker_dtor w; delete_workers workers
  end.
End code.

(** ** Registering a channel *)

(** What [ActivateReading] leaves registered. *)
Definition read_event (this : ptr) : epoll_event := mkEpollEvent kReadEvent (Some this).
Definition reading_channel (this : ptr) (fd poller : Z) : ChannelObj := mkChannelObj this (mkChannel fd kReadEvent 0) poller.

Section specs.
Context {K : Type} `{HK : KernelLaws K} (F : K -> Prop) (HF : forall c k, F k -> F (sys c k).2) (ndebug : bool).
Implicit Types (w : Process K) (m : FdTable) (es : list (list byte)) (cl : list (Z * bool)).
Abbreviation state_is := (state_is F).

Lemma wp_poller_ctl op evt what link c t d m es cl w (Q : unit -> Process K -> Prop) E :
  let ep := ch_poller c in let fd := GetFd (ch_state c) in
  state_is m es cl w -> m !! ep = Some (DEpoll t) -> m !! fd = Some d -> ep <> fd ->
  (forall msg w', state_is m (es ++ [msg]) cl w' -> Q tt w') ->
  (forall w', (epoll_ctl t op fd evt).1 = 0 -> state_is (<[ep := DEpoll (epoll_ctl t op fd evt).2]> m) es cl w' -> Q tt w') ->
  wp (poller_ctl op evt what link c) Q E w.
Proof.
  intros ep fd Hs Hep Hfd Hne Hlog Hok. apply wp_bind.
  apply (wp_call F HF (fun r m' => (r = -1 /\ m' = m)
    \/ (r = (epoll_ctl t op fd evt).1 /\ m' = <[ep := DEpoll (epoll_ctl t op fd evt).2]> m)) _ m es cl); [done..| |].
  { intros k _ <-. by apply (law_epoll_ctl ep op fd evt t d). }
  intros r m' w' [[-> ->]|[-> ->]] Hw'; [by apply (wp_error F _ m es cl); eauto|].
  assert (Hcases : epoll_ctl t op fd evt = (-1, t) \/ (epoll_ctl t op fd evt).1 = 0).
  { unfold epoll_ctl. destruct op, (t !! fd); auto. }
  destruct Hcases as [Hr|Hr].
  - rewrite Hr in Hw' |- *. cbn [fst snd] in *. rewrite insert_id in Hw' by done. apply (wp_error F _ m es cl); eauto.
  - rewrite Hr. by apply Hok.
Qed.

(** A new channel is added and waits to read, unless an error was logged. *)
Lemma wp_register {A} (k : ChannelObj -> proc K A) this fd ep t d m es cl w Q E :
  let c := mkChannelObj this (Channel_init fd) ep in
  state_is m es cl w -> m !! ep = Some (DEpoll t) -> m !! fd = Some d -> ep <> fd -> t !! fd = None ->
  (forall t' es' w', state_is (<[ep := DEpoll t']> m) (es ++ es') cl w' ->
     (es' = [] -> t' = <[fd := read_event this]> t) -> (forall x, x <> fd -> t' !! x = t !! x) ->
     wp (k (reading_channel this fd ep)) Q E w') ->
  wp (_ ← AddToPoller_sys c; c ← ActivateReading_sys c; k c) Q E w.
Proof.
  intros c Hs Hep Hfd Hne Ht HQ. apply wp_bind.
  assert (Hact : forall t1 es1 w1, state_is (<[ep := DEpoll t1]> m) (es ++ es1) cl w1 ->
    (forall x, x <> fd -> t1 !! x = t !! x) -> (es1 = [] -> t1 = <[fd := mkEpollEvent 0 None]> t) ->
    wp (c ← ActivateReading_sys c; k c) Q E w1).
  { intros t1 es1 w1 Hs1 Hx Heq. unfold ActivateReading_sys. change (negb (IsActivateReading (ch_state c))) with true. cbv iota.
    change (mkChannelObj _ (add_events _ _) _) with (reading_channel this fd ep). do 2 apply wp_bind.
    unfold UpdateChannel_sys. apply (wp_poller_ctl _ _ _ _ (reading_channel this fd ep) t1 d (<[ep := DEpoll t1]> m) (es ++ es1) cl w1); [done|..].
    - apply lookup_insert_eq.
    - by rewrite lookup_insert_ne.
    - done.
    - intros msg w' Hw'. apply wp_ret. rewrite <-app_assoc in Hw'. eapply HQ; [exact Hw'| |done]. by destruct es1.
    - intros w' Hr Hw'. apply wp_ret. cbn [ch_poller ch_state reading_channel] in *. rewrite insert_insert_eq in Hw'.
      eapply HQ; [exact Hw'|..].
      + intros ->. rewrite (Heq eq_refl). cbn. rewrite lookup_insert_eq. cbn. by rewrite insert_insert_eq.
      + intros x Hx'. rewrite <-(Hx x Hx'). cbn. destruct (t1 !! fd); cbn; [by rewrite lookup_insert_ne|done]. }
  unfold AddToPoller_sys. apply (wp_poller_ctl _ _ _ _ c t d m es cl w); [done..| |].
  - intros msg w' Hw'. eapply (Hact t [_]); [by rewrite insert_id|done..].
  - intros w' _ Hw'. unfold epoll_ctl in Hw'. change (GetFd (ch_state c)) with fd in Hw'. rewrite Ht in Hw'. cbn [snd] in Hw'.
    eapply (Hact _ []); [rewrite app_nil_r; exact Hw'| |done].
    intros x Hx. by rewrite lookup_insert_ne.
Qed.

(** ** The constructors *)

(** The texts with which a constructor can end the process; [fr] says that
    nothing but its own sockets can keep the address from being bound. *)
Definition create_failed (r : list byte) : Prop :=
  In r [bytes "Create poller failed!"; bytes "Create wakeup fd failed!"; bytes "Created socket failed";
        bytes "reserved_fd > 0"; bytes "fd > 0"; bytes "Create timer fd failed"].
Definition ctor_failed (fr : Prop) (a : InetAddress) (r : list byte) : Prop :=
  create_failed r
  \/ (exists fd, r = bytes "Listen failed, sockfd = " ++ to_string fd)
  \/ (~ fr /\ exists fd, r = bytes "Socket fd = " ++ to_string fd ++ bytes " bind [" ++ GetHost a ++ bytes "] failed").

Definition wake_fd (p : PollerObj) : Z := ch_fd (ch_state (wakeup_channel p)).
Definition poller_new (p : PollerObj) m : Prop :=
  0 <= poller_fd p /\ m !! poller_fd p = None /\ 0 <= wake_fd p /\ m !! wake_fd p = None /\ poller_fd p <> wake_fd p
  /\ exists this, wakeup_channel p = reading_channel this (wake_fd p) (poller_fd p).
Definition add_poller (p : PollerObj) (t : EpollTable) m : FdTable := <[poller_fd p := DEpoll t]> (<[wake_fd p := DEvent]> m).

(** [r] is [t] with the registration of a reading channel, if no error was logged. *)
Definition registered (c : ChannelObj) (es' : list (list byte)) (t t' : EpollTable) : Prop :=
  (es' = [] -> t' = <[ch_fd (ch_state c) := read_event (ch_this c)]> t)
  /\ forall x, x <> ch_fd (ch_state c) -> t' !! x = t !! x.

Lemma insert_over (i j : Z) (x y z : Desc) m : i <> j -> <[i := x]> (<[j := y]> (<[i := z]> m)) = <[i := x]> (<[j := y]> m).
Proof. intros Hne. by rewrite (insert_insert_ne m j i y z) by done; rewrite insert_insert_eq. Qed.

Lemma wp_Poller_ctor m es cl w (Q : PollerObj -> Process K -> Prop) (E : list byte -> Process K -> Prop) :
  state_is m es cl w ->
  (forall r w', create_failed r -> E r w') ->
  (forall p t es' w', poller_new p m -> registered (wakeup_channel p) es' ∅ t -> state_is (add_poller p t m) (es ++ es') cl w' -> Q p w') ->
  wp Poller_ctor Q E w.
Proof.
  intros Hs HE HQ. apply wp_bind. apply (wp_create F HF _ (DEpoll ∅) m es cl); [done..| |].
  { intros w' _. apply HE. cbn. tauto. }
  intros ep w1 Hep Hn1 H1. destruct (Z.eqb_spec ep (-1)) as [|_]; [lia|]. apply wp_bind.
  apply (wp_create F HF _ DEvent _ es cl _ _ _ H1); [done|..].
  { intros w' _. apply HE. cbn. tauto. }
  intros wake w2 Hwake Hn2 H2. destruct (Z.eqb_spec wake (-1)) as [|_]; [lia|].
  assert (Hne : ep <> wake) by (intros ->; by rewrite lookup_insert_eq in Hn2). rewrite lookup_insert_ne in Hn2 by done.
  do 2 apply wp_bind. apply (wp_new_ptr F _ es cl _ _ _ H2). intros this w3 H3. apply wp_ret.
  apply (wp_register (fun c => mret (mkPollerObj ep c)) this wake ep ∅ DEvent _ es cl w3 _ _ H3); [|apply lookup_insert_eq|done|done|].
  { by rewrite lookup_insert_ne, lookup_insert_eq. }
  intros t' es' w' Hw' Heq Hx. apply wp_ret. rewrite insert_over in Hw' by done.
  apply (HQ _ t' es'); [|done|done]. split_and!; try done. by exists this.
Qed.

(** The operations on a socket that is in the table. *)
Lemma wp_set_option (name : Z) (fd : Z) s m es cl w (Q : unit -> Process K -> Prop) E :
  state_is (<[fd := DSocket s]> m) es cl w -> name = SO_REUSEADDR \/ name = SO_REUSEPORT ->
  (forall w', state_is (<[fd := DSocket (with_option SOL_SOCKET name 1 s)]> m) es cl w' -> Q tt w') ->
  wp (_ ← call (SysSetSockOpt fd SOL_SOCKET name 1); mret tt) Q E w.
Proof.
  intros Hs Hn HQ. apply wp_bind. apply (wp_call_set F HF _ _ (<[fd := DSocket (with_option SOL_SOCKET name 1 s)]> m) es cl _ _ _ Hs); [done|..].
  - intros k _ Hk. rewrite (law_setsockopt fd name 1 s k); [|by rewrite Hk, lookup_insert_eq|done]. by rewrite Hk, insert_insert_eq.
  - intros _ w' Hw'. apply wp_ret. by apply HQ.
Qed.

Lemma wp_SetNonBlockAndCloseOnExec fd s m es cl w (Q : unit -> Process K -> Prop) E :
  state_is (<[fd := DSocket s]> m) es cl w ->
  (forall w', state_is (<[fd := DSocket (with_fd_flags (Z.lor (so_fd_flags s) FD_CLOEXEC)
                                          (with_status (Z.lor (so_status s) O_NONBLOCK) s))]> m) es cl w' -> Q tt w') ->
  wp (SetNonBlockAndCloseOnExec fd) Q E w.
Proof.
  intros Hs HQ. apply wp_bind.
  apply (wp_call F HF (fun r m' => r = so_status s /\ m' = <[fd := DSocket s]> m) _ _ es cl _ _ _ Hs); [done|..].
  { intros k _ Hk. rewrite <-Hk. apply law_getfl. by rewrite Hk, lookup_insert_eq. }
  intros _ _ w1 [-> ->] H1. apply wp_bind.
  apply (wp_call_set F HF _ _ (<[fd := DSocket (with_status (Z.lor (so_status s) O_NONBLOCK) s)]> m) es cl _ _ _ H1); [done|..].
  { intros k _ Hk. rewrite (law_setfl fd _ s k); [|by rewrite Hk, lookup_insert_eq]. by rewrite Hk, insert_insert_eq. }
  intros _ w2 H2. apply wp_bind. set (s' := with_status _ s) in *.
  apply (wp_call F HF (fun r m' => r = so_fd_flags s' /\ m' = <[fd := DSocket s']> m) _ _ es cl _ _ _ H2); [done|..].
  { intros k _ Hk. rewrite <-Hk. apply law_getfd. by rewrite Hk, lookup_insert_eq. }
  intros _ _ w3 [-> ->] H3. apply wp_bind.
  apply (wp_call_set F HF _ _ (<[fd := DSocket (with_fd_flags (Z.lor (so_fd_flags s) FD_CLOEXEC) s')]> m) es cl _ _ _ H3); [done| |intros _ w4 H4; apply wp_ret, HQ, H4].
  intros k _ Hk. rewrite (law_setfd fd _ s' k); [|by rewrite Hk, lookup_insert_eq]. by rewrite Hk, insert_insert_eq.
Qed.

(** [fr] says that the address is free; sockets that share it have SO_REUSEPORT. *)
Context (fr : Prop) (addr : InetAddress) (HFa : forall k, F k -> fr -> addr_free addr k).
Definition shares_port m : Prop :=
  forall fd s, m !! fd = Some (DSocket s) -> so_addr s = Some addr -> reuses_port s.

Lemma wp_Bind fd la s m es cl w (Q : Socket -> Process K -> Prop) (E : list byte -> Process K -> Prop) :
  state_is (<[fd := DSocket s]> m) es cl w -> so_addr s = None -> reuses_port s -> (fr -> shares_port m) ->
  (forall r w', ctor_failed fr addr r -> E r w') ->
  (forall w', state_is (<[fd := DSocket (with_addr addr s)]> m) es cl w' -> Q (mkSocket fd addr) w') ->
  wp (Bind ndebug addr (mkSocket fd la)) Q E w.
Proof.
  intros Hs Ha Hr Hsh HE HQ. apply wp_bind. apply (wp_assert F _ _ _ _ es cl _ _ _ Hs); [intros _|apply HE; left; cbn; tauto].
  cbn [sock_fd]. apply wp_bind.
  apply (wp_call F HF (fun r m' => (r = -1 /\ ~ fr) \/ (r = 0 /\ m' = <[fd := DSocket (with_addr addr s)]> m)) _ _ es cl _ _ _ Hs); [done|..].
  - intros k Hk Hm. assert (Hfd : own k !! fd = Some (DSocket s)) by by rewrite Hm, lookup_insert_eq.
    destruct (law_bind fd addr s k Hfd) as [[Hb _]|[Hb Hm']]; [left|right; rewrite Hm', Hm, insert_insert_eq; done].
    split; [done|]. intros Hfr. assert (Hb' : (sys (SysBind fd addr) k).1 = 0); [|lia].
    apply (law_bind_shared fd addr s k); auto. intros fd' s' Hm' Ha'. rewrite Hm in Hm'.
    apply lookup_insert_Some in Hm' as [[<- [= <-]]|[_ Hm']]; [done|by apply (Hsh Hfr fd')].
  - intros r m' w' [[-> Hnf]|[-> ->]] Hw'; cbn; [|by apply HQ].
    apply HE. right; right. split; [done|]. by exists fd.
Qed.

Lemma wp_Listen fd la s m es cl w (Q : unit -> Process K -> Prop) (E : list byte -> Process K -> Prop) :
  state_is (<[fd := DSocket s]> m) es cl w ->
  (forall r w', ctor_failed fr addr r -> E r w') ->
  (forall w', state_is (<[fd := DSocket (with_listening s)]> m) es cl w' -> Q tt w') ->
  wp (Listen ndebug (mkSocket fd la)) Q E w.
Proof.
  intros Hs HE HQ. apply wp_bind. apply (wp_assert F _ _ _ _ es cl _ _ _ Hs); [intros _|apply HE; left; cbn; tauto].
  cbn [sock_fd]. apply wp_bind.
  apply (wp_call F HF (fun r m' => r = -1 \/ (r = 0 /\ m' = <[fd := DSocket (with_listening s)]> m)) _ _ es cl _ _ _ Hs); [done|..].
  - intros k _ Hm. destruct (law_listen fd SOMAXCONN s k) as [[Hb _]|[Hb Hm']]; [by rewrite Hm, lookup_insert_eq|auto|].
    right. by rewrite Hm', Hm, insert_insert_eq.
  - intros r m' w' [->|[-> ->]] Hw'; cbn; [|by apply HQ]. apply HE. right; left. by exists fd.
Qed.

(** The socket of an acceptor. *)
Definition listening_socket : SocketState :=
  mkSocketState O_NONBLOCK FD_CLOEXEC (<[(SOL_SOCKET, SO_REUSEPORT) := 1]> (<[(SOL_SOCKET, SO_REUSEADDR) := 1]> ∅)) (Some addr) true.
Definition reserve (fd : Z) m : FdTable := if 0 <=? fd then <[fd := DNull]> m else m.
Definition acceptor_fd (x : AcceptorObj) : Z := sock_fd (acceptor_socket x).
Definition acceptor_new (p : PollerObj) (x : AcceptorObj) m : Prop :=
  0 <= acceptor_fd x /\ m !! acceptor_fd x = None /\ local_addr (acceptor_socket x) = addr
  /\ -1 <= reserved_fd x /\ (0 <= reserved_fd x -> m !! reserved_fd x = None) /\ reserved_fd x <> acceptor_fd x
  /\ exists this, acceptor_channel x = reading_channel this (acceptor_fd x) (poller_fd p).
Definition add_acceptor (x : AcceptorObj) m : FdTable := <[acceptor_fd x := DSocket listening_socket]> (reserve (reserved_fd x) m).

Lemma lookup_reserve r m fd d : m !! fd = Some d -> (0 <= r -> m !! r = None) -> reserve r m !! fd = Some d.
Proof.
  intros Hm Hr. unfold reserve. destruct (Z.leb_spec 0 r) as [Hr0|]; [|done]. rewrite lookup_insert_ne; [done|].
  intros <-. rewrite Hr in Hm; done.
Qed.

Lemma shares_add fd s m : so_addr s = None -> shares_port m -> shares_port (<[fd := DSocket s]> m).
Proof. intros Ha Hm fd' s' [[<- [= <-]]|[_ Hs']]%lookup_insert_Some Ha'; [congruence|by apply (Hm fd')]. Qed.

Lemma wp_OpenNull m es cl w (Q : Z -> Process K -> Prop) E :
  state_is m es cl w ->
  (forall r w', -1 <= r -> (0 <= r -> m !! r = None) -> state_is (reserve r m) es cl w' -> Q r w') -> wp (call SysOpenNull) Q E w.
Proof.
  intros Hs HQ. apply (wp_create F HF _ DNull m es cl); [done..| |].
  - intros w' Hw'. apply HQ; [lia|lia|done].
  - intros r w' Hr Hn Hw'. apply HQ; [lia|done|]. unfold reserve. by rewrite (proj2 (Z.leb_le 0 r)).
Qed.

Lemma wp_Acceptor_ctor p t m es cl w (Q : AcceptorObj -> Process K -> Prop) (E : list byte -> Process K -> Prop) :
  state_is m es cl w -> m !! poller_fd p = Some (DEpoll t) -> (forall fd, m !! fd = None -> t !! fd = None) ->
  (fr -> shares_port m) ->
  (forall r w', ctor_failed fr addr r -> E r w') ->
  (forall x t' es' w', acceptor_new p x m -> registered (acceptor_channel x) es' t t' ->
     state_is (<[poller_fd p := DEpoll t']> (add_acceptor x m)) (es ++ es') cl w' -> Q x w') ->
  wp (Acceptor_ctor ndebug p addr) Q E w.
Proof.
  intros Hs Hep Ht Hsh HE HQ. do 2 apply wp_bind. apply (wp_create F HF _ (DSocket SocketState_init) m es cl); [done..| |].
  { intros w' _. apply HE. left. cbn. tauto. }
  intros fd w1 Hfd Hn H1. rewrite (proj2 (Z.ltb_ge fd 0)) by done. apply wp_ret. apply wp_bind.
  apply (wp_OpenNull _ es cl _ _ _ H1). intros r w2 Hr Hrn H2. apply wp_bind.
  apply (wp_assert F _ _ _ _ es cl _ _ _ H2); [intros _|apply HE; left; cbn; tauto].
  assert (Hrfd : r <> fd) by (intros ->; rewrite lookup_insert_eq in Hrn; by specialize (Hrn Hfd)).
  assert (Hrm : 0 <= r -> m !! r = None) by (intros Hr0; specialize (Hrn Hr0); by rewrite lookup_insert_ne in Hrn by done).
  assert (Hres : reserve r (<[fd := DSocket SocketState_init]> m) = <[fd := DSocket SocketState_init]> (reserve r m)).
  { unfold reserve. destruct (0 <=? r); [|done]. by apply insert_insert_ne. }
  rewrite Hres in H2. clear Hres Hrn. cbn [sock_fd]. apply wp_bind.
  apply (wp_SetNonBlockAndCloseOnExec _ _ _ es cl _ _ _ H2). intros w3 H3. apply wp_bind.
  apply (wp_set_option SO_REUSEADDR _ _ _ es cl _ _ _ H3); [by left|]. intros w4 H4. apply wp_bind.
  apply (wp_set_option SO_REUSEPORT _ _ _ es cl _ _ _ H4); [by right|]. intros w5 H5. apply wp_bind.
  apply (wp_Bind fd InetAddress_zero _ _ es cl _ _ _ H5); [done|by apply lookup_insert_eq| |done|].
  { intros Hfr fd' s' Hs' Ha'. apply (Hsh Hfr fd' s'); [|done]. unfold reserve in Hs'. destruct (0 <=? r); [|done].
    by apply lookup_insert_Some in Hs' as [[_ [=]]|[_ Hs']]. }
  intros w6 H6. apply wp_bind. apply (wp_Listen fd addr _ _ es cl _ _ _ H6); [done|]. intros w7 H7. do 2 apply wp_bind.
  apply (wp_new_ptr F _ es cl _ _ _ H7). intros this w8 H8. apply wp_ret.
  change (with_listening _) with listening_socket in H8.
  assert (Hne : poller_fd p <> fd) by (intros <-; congruence).
  apply (wp_register (fun c => mret (mkAcceptorObj r (mkSocket fd addr) c)) this fd (poller_fd p) t (DSocket listening_socket) _ es cl w8 _ _ H8);
    [|apply lookup_insert_eq|done|by apply Ht|].
  { rewrite lookup_insert_ne by done. by apply lookup_reserve. }
  intros t' es' w' Hw' Heq Hx. apply wp_ret. apply (HQ _ t' es'); [|done|done].
  split; [done|]. split; [done|]. split; [done|]. split; [done|]. split; [done|]. split; [done|]. by exists this.
Qed.

Definition timer_new (p : PollerObj) (c : ChannelObj) m : Prop :=
  0 <= ch_fd (ch_state c) /\ m !! ch_fd (ch_state c) = None
  /\ exists this, c = reading_channel this (ch_fd (ch_state c)) (poller_fd p).

Lemma wp_TimerQueue_ctor p t m es cl w (Q : ChannelObj -> Process K -> Prop) (E : list byte -> Process K -> Prop) :
  state_is m es cl w -> m !! poller_fd p = Some (DEpoll t) -> (forall fd, m !! fd = None -> t !! fd = None) ->
  (forall r w', create_failed r -> E r w') ->
  (forall c t' es' w', timer_new p c m -> registered c es' t t' ->
     state_is (<[poller_fd p := DEpoll t']> (<[ch_fd (ch_state c) := DTimer None]> m)) (es ++ es') cl w' -> Q c w') ->
  wp (TimerQueue_ctor p) Q E w.
Proof.
  intros Hs Hep Ht HE HQ. apply wp_bind. apply (wp_create F HF _ (DTimer None) m es cl); [done..| |].
  { intros w' _. apply HE. cbn. tauto. }
  intros fd w1 Hfd Hn H1. destruct (Z.eqb_spec fd (-1)) as [|_]; [lia|]. do 2 apply wp_bind.
  apply (wp_new_ptr F _ es cl _ _ _ H1). intros this w2 H2. apply wp_ret.
  assert (Hne : poller_fd p <> fd) by (intros <-; congruence). apply wp_then_ret.
  apply (wp_register mret this fd (poller_fd p) t (DTimer None) _ es cl w2 _ _ H2); [|apply lookup_insert_eq|done|by apply Ht|].
  { by rewrite lookup_insert_ne. }
  intros t' es' w' Hw' Heq Hx. apply wp_ret. apply (HQ _ t' es'); [|done|done]. split; [done|]. split; [done|]. by exists this.
Qed.

(** ** A worker *)

Definition timer_fd (x : WorkerObj) : Z := ch_fd (ch_state (worker_timer x)).
(** The descriptors of a worker; [reserved_fd] is -1 when [open] failed in a release build. *)
Definition worker_fds (x : WorkerObj) : list Z :=
  [poller_fd (worker_poller x); wake_fd (worker_poller x); acceptor_fd (worker_acceptor x);
   reserved_fd (worker_acceptor x); timer_fd x].
(** The table with the descriptors of a worker, whose epoll instance holds [t]. *)
Definition with_worker (x : WorkerObj) (t : EpollTable) m : FdTable :=
  <[poller_fd (worker_poller x) := DEpoll t]> (<[timer_fd x := DTimer None]>
    (add_acceptor (worker_acceptor x) (<[wake_fd (worker_poller x) := DEvent]> m))).
Definition worker_channels (x : WorkerObj) : list ChannelObj :=
  [worker_timer x; acceptor_channel (worker_acceptor x); wakeup_channel (worker_poller x)].

(** The channels read the descriptors of the parts. *)
Definition worker_shape (x : WorkerObj) : Prop :=
  Forall (fun c => ch_fd (ch_state c) <> -1 /\ c = reading_channel (ch_this c) (ch_fd (ch_state c)) (poller_fd (worker_poller x)))
    (worker_channels x)
  /\ poller_fd (worker_poller x) <> -1
  /\ ch_fd (ch_state (acceptor_channel (worker_acceptor x))) = acceptor_fd (worker_acceptor x)
  /\ local_addr (acceptor_socket (worker_acceptor x)) = addr.
(** The descriptors are distinct and new. *)
Definition worker_new (x : WorkerObj) m : Prop :=
  NoDup (worker_fds x) /\ (forall fd, In fd (worker_fds x) -> fd = -1 \/ (0 <= fd /\ m !! fd = None)) /\ worker_shape x.
(** Only the channels are registered, and all are if no error was logged. *)
Definition worker_registrations (x : WorkerObj) (es' : list (list byte)) (t : EpollTable) : Prop :=
  (forall fd, is_Some (t !! fd) -> In fd (map (fun c => ch_fd (ch_state c)) (worker_channels x)))
  /\ (es' = [] -> t = list_to_map (map (fun c => (ch_fd (ch_state c), read_event (ch_this c))) (worker_channels x))).

Lemma lookup_add_poller_None p t m fd : add_poller p t m !! fd = None -> fd <> poller_fd p /\ fd <> wake_fd p /\ m !! fd = None.
Proof. unfold add_poller. by intros [[? ?]%lookup_insert_None ?]%lookup_insert_None. Qed.
Lemma lookup_add_acceptor_None x m fd :
  add_acceptor x m !! fd = None -> fd <> acceptor_fd x /\ (0 <= fd -> fd <> reserved_fd x) /\ m !! fd = None.
Proof.
  unfold add_acceptor, reserve. intros [Hm Hne]%lookup_insert_None. split; [done|].
  destruct (Z.leb_spec 0 (reserved_fd x)); [apply lookup_insert_None in Hm as [? ?]|]; (split; [lia || done|done]).
Qed.
Lemma lookup_add_acceptor x p m fd d : acceptor_new p x m -> m !! fd = Some d -> add_acceptor x m !! fd = Some d.
Proof.
  intros (_ & Hn & _ & _ & Hr & _) Hm. unfold add_acceptor. rewrite lookup_insert_ne by congruence. by apply lookup_reserve.
Qed.
Lemma add_acceptor_insert x m fd d : fd <> acceptor_fd x -> fd <> reserved_fd x ->
  add_acceptor x (<[fd := d]> m) = <[fd := d]> (add_acceptor x m).
Proof.
  intros H1 H2. unfold add_acceptor, reserve.
  destruct (0 <=? reserved_fd x); [rewrite (insert_insert_ne m (reserved_fd x) fd) by done|]; by rewrite (insert_insert_ne _ (acceptor_fd x) fd).
Qed.

Lemma shares_add_other fd d m : (forall s, d <> DSocket s) -> shares_port m -> shares_port (<[fd := d]> m).
Proof. intros Hd Hm fd' s' [[_ Hs]|[_ Hs]]%lookup_insert_Some; [by destruct (Hd s')|by apply Hm with fd']. Qed.

Lemma wp_IOWorker_ctor tid m es cl w (Q : WorkerObj -> Process K -> Prop) (E : list byte -> Process K -> Prop) :
  state_is m es cl w -> (fr -> shares_port m) ->
  (forall r w', ctor_failed fr addr r -> E r w') ->
  (forall x t es' w', worker_tid x = tid -> worker_new x m -> worker_registrations x es' t ->
     state_is (with_worker x t m) (es ++ es') cl w' -> Q x w') ->
  wp (IOWorker_ctor ndebug tid addr) Q E w.
Proof.
  intros Hs Hsh HE HQ. apply wp_bind. apply (wp_Poller_ctor m es cl w _ _ Hs); [intros; apply HE; by left|].
  intros p t1 es1 w1 (Hp0 & Hpn & Hw0 & Hwn & Hpw & cw & Hcw) [Hr1 Hx1] H1. apply wp_bind.
  assert (Hcw' : ch_fd (ch_state (wakeup_channel p)) = wake_fd p) by done. rewrite Hcw' in *.
  apply (wp_Acceptor_ctor p t1 _ _ cl w1 _ _ H1).
  { apply lookup_insert_eq. }
  { intros fd (_ & ? & _)%lookup_add_poller_None. by rewrite Hx1. }
  { intros Hfr. by do 2 (apply shares_add_other; [done|]); apply Hsh. }
  { done. }
  intros x t2 es2 w2 Hx [Hr2 Hx2] H2. apply wp_bind.
  destruct (Hx) as (Ha0 & Han & Hal & Hrr & Hrn & Hra & ca & Hca).
  rewrite Hca in Hr2, Hx2. cbn [ch_fd ch_state reading_channel ch_this] in Hr2, Hx2.
  apply (wp_TimerQueue_ctor p t2 _ _ cl w2 _ _ H2).
  { apply lookup_insert_eq. }
  { intros fd [(Hne & _ & Hm)%lookup_add_acceptor_None Hnp]%lookup_insert_None.
    rewrite Hx2 by done. apply lookup_add_poller_None in Hm as (_ & ? & _). by rewrite Hx1. }
  { intros r w' Hr. apply HE. by left. }
  intros c t3 es3 w3 Hc [Hr3 Hx3] H3. apply wp_ret. destruct Hc as (Hc0 & Hcn & cc & Hcc).
  rewrite <-!app_assoc in H3.
  apply lookup_insert_None in Hcn as [(Htf & Htr & (_ & Htw & Hcm)%lookup_add_poller_None)%lookup_add_acceptor_None Htp].
  specialize (Htr Hc0).
  apply lookup_add_poller_None in Han as (Hfp & Hfw & Han).
  assert (Hrp : 0 <= reserved_fd x -> reserved_fd x <> poller_fd p /\ reserved_fd x <> wake_fd p /\ m !! reserved_fd x = None).
  { intros Hr0. exact (lookup_add_poller_None _ _ _ _ (Hrn Hr0)). }
  assert (Hrne : reserved_fd x <> poller_fd p /\ reserved_fd x <> wake_fd p) by (destruct (decide (0 <= reserved_fd x)); [tauto|lia]).
  rewrite insert_over in H3 by done. unfold add_poller in H3.
  rewrite add_acceptor_insert, insert_over in H3 by (done || naive_solver).
  apply (HQ _ t3 (es1 ++ es2 ++ es3)); [done|..|done].
  - unfold worker_new, worker_shape, worker_channels, worker_fds, timer_fd. cbn [worker_poller worker_acceptor worker_timer]. split; [|split].
    + rewrite !NoDup_cons, !not_elem_of_cons. pose proof (NoDup_nil_2 (A := Z)). pose proof (not_elem_of_nil (A := Z)). naive_solver.
    + cbn [In]. intros fd' Hfd'. destruct (decide (0 <= reserved_fd x)); [|assert (reserved_fd x = -1) by lia]; naive_solver.
    + split; [|split; [lia|split; [by rewrite Hca|done]]]. rewrite Hcc, Hca, Hcw.
      repeat (constructor; [split; [cbn; lia|done]|]). constructor.
  - unfold worker_registrations, worker_channels, worker_fds, timer_fd. cbn [worker_poller worker_acceptor worker_timer map list_to_map foldr In].
    rewrite Hca. cbn [ch_fd ch_state ch_this reading_channel]. split.
    + intros fd' Hfd'. destruct (decide (fd' = ch_fd (ch_state c))); [by left|]. rewrite Hx3 in Hfd' by done.
      destruct (decide (fd' = acceptor_fd x)); [by right; left|]. rewrite Hx2 in Hfd' by done.
      destruct (decide (fd' = wake_fd p)); [by right; right; left|]. rewrite Hx1, lookup_empty in Hfd' by done. by destruct Hfd'.
    + intros [-> [-> ->]%app_nil]%app_nil. by rewrite Hr3, Hr2, Hr1.
Qed.

(** ** The workers of a group *)

Definition with_workers (l : list (WorkerObj * EpollTable)) m : FdTable := fold_left (fun m '(x, t) => with_worker x t m) l m.
Fixpoint workers_new (l : list (WorkerObj * EpollTable)) m : Prop :=
  match l with
  | [] => True
  | (x, t) :: l =>
      worker_new x m /\ (forall fd, is_Some (t !! fd) -> In fd (map (fun c => ch_fd (ch_state c)) (worker_channels x)))
      /\ workers_new l (with_worker x t m)
  end.
Definition all_registered (l : list (WorkerObj * EpollTable)) : Prop :=
  Forall (fun '(x, t) => t = list_to_map (map (fun c => (ch_fd (ch_state c), read_event (ch_this c))) (worker_channels x))) l.

Lemma shares_with_worker x t m : shares_port m -> shares_port (with_worker x t m).
Proof.
  intros Hm. unfold with_worker, add_acceptor, reserve. do 2 (apply shares_add_other; [done|]).
  intros fd s [[_ [= <-]]|[_ Hs]]%lookup_insert_Some Ha; [by apply lookup_insert_eq|].
  revert Hs Ha. change (shares_port _) with (forall fd s, m !! fd = Some (DSocket s) -> so_addr s = Some addr -> reuses_port s) in Hm.
  destruct (0 <=? reserved_fd (worker_acceptor x)).
  - intros [[_ [=]]|[_ Hs]]%lookup_insert_Some. revert Hs. intros [[_ [=]]|[_ Hs]]%lookup_insert_Some. by apply (Hm fd).
  - intros [[_ [=]]|[_ Hs]]%lookup_insert_Some. by apply (Hm fd).
Qed.

Lemma wp_start_workers n i m es cl w (Q : list WorkerObj -> Process K -> Prop) (E : list byte -> Process K -> Prop) :
  state_is m es cl w -> (fr -> shares_port m) ->
  (forall r w', ctor_failed fr addr r -> E r w') ->
  (forall l es' w', worker_tid <$> l.*1 = seqZ i (Z.of_nat n) -> workers_new l m -> (es' = [] -> all_registered l) ->
     state_is (with_workers l m) (es ++ es') cl w' -> Q l.*1 w') ->
  wp (start_workers ndebug n i addr) Q E w.
Proof.
  revert i m es w Q. induction n as [|n IH]; intros i m es w Q Hs Hsh HE HQ.
  - apply wp_ret. apply (HQ [] []); [done|done|intros _; constructor|by rewrite app_nil_r].
  - apply wp_bind. apply (wp_IOWorker_ctor i m es cl w _ _ Hs Hsh HE). intros x t es1 w1 Hi Hx [Hdom Hreg] H1. apply wp_bind.
    apply (IH (i + 1) (with_worker x t m) (es ++ es1) w1); [done|intros; by apply shares_with_worker; auto|done|].
    intros l es2 w2 Hl Hnew Hall H2. apply wp_ret. apply (HQ ((x, t) :: l) (es1 ++ es2)).
    + change (worker_tid x :: (worker_tid <$> l.*1) = seqZ i (Z.of_nat (S n))). rewrite Hi, Hl, (seqZ_cons i) by lia. f_equal. f_equal; lia.
    + done.
    + intros [-> ->]%app_nil. constructor; [auto|by apply Hall].
    + by rewrite <-app_assoc in H2.
Qed.

(** ** The destructors *)

Definition close_fds (fds : list Z) m : FdTable := fold_left (fun m fd => close_desc fd m) fds m.

Lemma wp_Close fd m es cl w (Q : unit -> Process K -> Prop) E :
  state_is m es cl w -> 0 <= fd ->
  (forall w', state_is (close_desc fd m) es (cl ++ [(fd, bool_decide (is_Some (m !! fd)))]) w' -> Q tt w') -> wp (Close fd) Q E w.
Proof.
  intros Hs Hfd HQ. unfold Close. rewrite (proj2 (Z.ltb_ge fd 0)) by done. apply wp_bind.
  apply (wp_close F HF fd m es cl); [done|]. intros _ w' Hw'. apply wp_ret. by apply HQ.
Qed.

Lemma lookup_close_fds fds i m : ~ In i fds -> is_Some (close_fds fds m !! i) <-> is_Some (m !! i).
Proof.
  revert m. induction fds as [|fd fds IH]; intros m Hi; [done|]. cbn in Hi. rewrite <-(lookup_close_desc_Some fd i m) by naive_solver.
  apply IH. tauto.
Qed.

(** The descriptors of a worker are in the table, whatever else is. *)
Definition worker_in (x : WorkerObj) m : Prop :=
  NoDup (worker_fds x) /\ worker_shape x /\ (exists t, m !! poller_fd (worker_poller x) = Some (DEpoll t))
  /\ forall fd, In fd (worker_fds x) -> (fd = -1 /\ m !! fd = None) \/ (0 <= fd /\ is_Some (m !! fd)).
(** What the destructor closes, in order. *)
Definition dtor_fds (x : WorkerObj) : list Z :=
  [wake_fd (worker_poller x); poller_fd (worker_poller x); acceptor_fd (worker_acceptor x); acceptor_fd (worker_acceptor x);
   reserved_fd (worker_acceptor x); timer_fd x].
Definition dtor_closes (x : WorkerObj) : list (Z * bool) :=
  [(wake_fd (worker_poller x), true); (poller_fd (worker_poller x), true); (acceptor_fd (worker_acceptor x), true);
   (acceptor_fd (worker_acceptor x), false); (reserved_fd (worker_acceptor x), 0 <=? reserved_fd (worker_acceptor x)); (timer_fd x, true)].

Lemma wp_Poller_dtor p m es cl w (Q : unit -> Process K -> Prop) E this t d :
  state_is m es cl w -> wakeup_channel p = reading_channel this (wake_fd p) (poller_fd p) -> poller_fd p <> wake_fd p ->
  0 <= wake_fd p -> 0 <= poller_fd p -> m !! poller_fd p = Some (DEpoll t) -> m !! wake_fd p = Some d ->
  (forall es' w', state_is (close_desc (poller_fd p) (close_desc (wake_fd p) m)) (es ++ es')
     (cl ++ [(wake_fd p, true); (poller_fd p, true)]) w' -> Q tt w') ->
  wp (Poller_dtor p) Q E w.
Proof.
  intros Hs Hc Hne Hw Hp Hep Hwk HQ. apply wp_bind.
  assert (Hrest : forall t' es' w', state_is (<[poller_fd p := DEpoll t']> m) (es ++ es') cl w' ->
    wp (_ ← Channel_dtor (wakeup_channel p); _ ← call (SysClose (poller_fd p)); mret tt) Q E w').
  { intros t' es' w' Hw'. apply wp_bind. apply (wp_Close (wake_fd p) _ _ _ _ _ _ Hw' Hw). intros w1 H1. apply wp_bind.
    apply (wp_close F HF (poller_fd p) _ _ _ _ _ _ H1). intros _ w2 H2. apply wp_ret. apply (HQ es').
    rewrite close_desc_other, close_desc_new in H2 by done. rewrite <-app_assoc in H2. revert H2.
    rewrite lookup_insert_ne, Hwk, lookup_insert_eq by done. done. }
  unfold RemoveFromPoller_sys. apply (wp_poller_ctl _ _ _ _ (wakeup_channel p) t d m es cl w _ _ Hs); rewrite Hc; [done..| |].
  - intros msg w' Hw'. rewrite <-Hc. apply (Hrest t [msg]). by rewrite insert_id.
  - intros w' _ Hw'. rewrite <-Hc. eapply (Hrest _ []). rewrite app_nil_r. exact Hw'.
Qed.

Lemma wp_Acceptor_dtor x m es cl w (Q : unit -> Process K -> Prop) E :
  state_is m es cl w -> ch_fd (ch_state (acceptor_channel x)) = acceptor_fd x -> 0 <= acceptor_fd x -> is_Some (m !! acceptor_fd x) ->
  reserved_fd x <> acceptor_fd x ->
  (forall w', state_is (close_fds [acceptor_fd x; acceptor_fd x; reserved_fd x] m) es
     (cl ++ [(acceptor_fd x, true); (acceptor_fd x, false); (reserved_fd x, bool_decide (is_Some (m !! reserved_fd x)))]) w' -> Q tt w') ->
  wp (Acceptor_dtor x) Q E w.
Proof.
  intros Hs Hc Hx Hm Hne HQ. apply wp_bind. apply (wp_Close (acceptor_fd x) _ _ _ _ _ _ Hs Hx). intros w1 H1. apply wp_bind.
  unfold Channel_dtor. rewrite Hc. apply (wp_Close (acceptor_fd x) _ _ _ _ _ _ H1 Hx). intros w2 H2. apply wp_bind.
  apply (wp_close F HF (reserved_fd x) _ _ _ _ _ _ H2). intros _ w3 H3. apply wp_ret. apply HQ.
  rewrite <-!app_assoc in H3. rewrite (bool_decide_ext _ _ (lookup_close_desc_Some (acceptor_fd x) (reserved_fd x) _ Hne)) in H3.
  rewrite (bool_decide_ext _ _ (lookup_close_desc_Some (acceptor_fd x) (reserved_fd x) _ Hne)) in H3.
  rewrite (bool_decide_eq_true_2 (is_Some (m !! acceptor_fd x))) in H3 by done.
  rewrite (bool_decide_eq_false_2 (is_Some (close_desc (acceptor_fd x) m !! acceptor_fd x))) in H3; [done|].
  unfold close_desc. rewrite lookup_delete_eq. by intros [? [=]].
Qed.

Lemma wp_IOWorker_dtor x m es cl w (Q : unit -> Process K -> Prop) E :
  state_is m es cl w -> worker_in x m ->
  (forall es' w', state_is (close_fds (dtor_fds x) m) (es ++ es') (cl ++ dtor_closes x) w' -> Q tt w') ->
  wp (IOWorker_dtor x) Q E w.
Proof.
  intros Hs (Hnd & (Hch & Hp & Ha & _) & [t Ht] & Hin) HQ. unfold worker_fds in Hnd.
  apply Forall_cons in Hch as [[Ht0 Htm] [[Ha0 Hac] [[Hw0 Hwk] _]%Forall_cons]%Forall_cons].
  rewrite !NoDup_cons, !not_elem_of_cons in Hnd. destruct Hnd as ((Hpw & Hpa & Hpr & Hpt & _) & (Hwa & Hwr & Hwt & _) & (Har & Hat & _) & (Hrt & _) & _).
  assert (Hfd : forall fd, In fd (worker_fds x) -> fd <> -1 -> 0 <= fd /\ is_Some (m !! fd)) by (intros fd Hfd Hne; destruct (Hin fd Hfd); tauto).
  destruct (Hfd (poller_fd (worker_poller x))) as [Hp0 _]; [cbn; tauto|done|].
  destruct (Hfd (wake_fd (worker_poller x))) as [Hwk0 [dw Hdw]]; [cbn; tauto|done|].
  destruct (Hfd (acceptor_fd (worker_acceptor x))) as [Hac0 Hsa]; [cbn; tauto|congruence|].
  destruct (Hfd (timer_fd x)) as [Htm0 Hst]; [cbn; tauto|done|].
  apply wp_bind. apply (wp_Poller_dtor _ m es cl w _ _ _ t dw Hs Hwk); [done..|]. intros es' w1 H1. apply wp_bind.
  apply (wp_Acceptor_dtor _ _ _ _ w1 _ _ H1); [done|done| |done|].
  { by rewrite !lookup_close_desc_Some by done. }
  intros w2 H2. apply (wp_Close _ _ _ _ _ _ _ H2); [done|]. intros w3 H3. apply (HQ es'). rewrite <-!app_assoc in H3.
  unfold dtor_closes. enough (bool_decide (is_Some (close_desc (poller_fd (worker_poller x)) (close_desc (wake_fd (worker_poller x)) m)
      !! reserved_fd (worker_acceptor x))) = (0 <=? reserved_fd (worker_acceptor x))) as <-.
  { rewrite (bool_decide_eq_true_2 (is_Some (close_fds _ _ !! _))) in H3; [exact H3|].
    rewrite lookup_close_fds, !lookup_close_desc_Some by (done || cbn; naive_solver). done. }
  rewrite (bool_decide_ext _ (is_Some (m !! reserved_fd (worker_acceptor x)))) by (by rewrite !lookup_close_desc_Some by done).
  destruct (Hin (reserved_fd (worker_acceptor x))) as [[-> Hr]|[Hr0 Hr]]; [cbn; tauto|by rewrite Hr|].
  rewrite bool_decide_eq_true_2 by done. symmetry. by apply Z.leb_le.
Qed.

(** ** What is left of the table *)

(** [fd] is not one of the worker's descriptors. *)
Definition off (x : WorkerObj) (fd : Z) : Prop :=
  fd <> poller_fd (worker_poller x) /\ fd <> wake_fd (worker_poller x) /\ fd <> acceptor_fd (worker_acceptor x)
  /\ fd <> timer_fd x /\ (0 <= reserved_fd (worker_acceptor x) -> fd <> reserved_fd (worker_acceptor x)).

Lemma lookup_reserve_ne r m fd : (0 <= r -> fd <> r) -> reserve r m !! fd = m !! fd.
Proof. unfold reserve. destruct (Z.leb_spec 0 r); intros Hne; [rewrite lookup_insert_ne; [done|naive_solver]|done]. Qed.
Lemma lookup_reserve_is_Some r m fd : 0 <= fd -> fd = r \/ is_Some (m !! fd) -> is_Some (reserve r m !! fd).
Proof.
  intros Hfd Hor. unfold reserve. destruct (Z.leb_spec 0 r); [rewrite lookup_insert_is_Some'|]; [naive_solver|].
  destruct Hor as [->|?]; [lia|done].
Qed.
Lemma close_reserve fd r m : (0 <= r -> fd <> r) -> close_desc fd (reserve r m) = reserve r (close_desc fd m).
Proof. unfold reserve. destruct (Z.leb_spec 0 r); intros Hne; [apply close_desc_other; auto|done]. Qed.
Lemma close_reserved r m : wf_fds m -> -1 <= r -> (0 <= r -> m !! r = None) -> close_desc r (reserve r m) = m.
Proof.
  unfold reserve. intros Hwf Hr1 Hr. destruct (Z.leb_spec 0 r); [apply close_desc_added; auto|].
  replace r with (-1) by lia. apply close_desc_unknown; [done|]. apply Hwf.
Qed.

Lemma lookup_with_worker x t m fd : off x fd -> with_worker x t m !! fd = m !! fd.
Proof.
  intros (H1 & H2 & H3 & H4 & H5). unfold with_worker, add_acceptor.
  by rewrite !lookup_insert_ne, lookup_reserve_ne, lookup_insert_ne by auto.
Qed.
Lemma close_with_worker x t m fd : off x fd -> t !! fd = None -> close_desc fd (with_worker x t m) = with_worker x t (close_desc fd m).
Proof.
  intros (H1 & H2 & H3 & H4 & H5) Ht. unfold with_worker, add_acceptor.
  rewrite !close_desc_other by done. rewrite close_reserve, close_desc_other by done. cbn. by rewrite delete_id.
Qed.

Lemma new_fds x m : worker_new x m ->
  (forall fd, is_Some (m !! fd) -> off x fd) /\ off x (-1)
  /\ forall t fd, In fd (worker_fds x) -> fd <> -1 -> 0 <= fd /\ is_Some (with_worker x t m !! fd).
Proof.
  intros (Hnd & Hfd & (Hch & Hp & Ha & _)).
  apply Forall_cons in Hch as [[Ht0 _] [[Ha0 _] [[Hw0 _] _]%Forall_cons]%Forall_cons]. rewrite Ha in Ha0.
  change (ch_fd (ch_state (worker_timer x))) with (timer_fd x) in Ht0. change (ch_fd (ch_state (wakeup_channel _))) with (wake_fd (worker_poller x)) in Hw0.
  assert (Hn : forall fd, In fd (worker_fds x) -> fd <> -1 -> 0 <= fd /\ m !! fd = None) by (intros fd Hin Hne; destruct (Hfd fd Hin); tauto).
  split; [|split].
  - intros fd [d Hd]. unfold off. split_and!; [| | | |intros Hr0]; intros ->;
      (edestruct Hn as [_ Hm]; [| |rewrite Hm in Hd; discriminate]); cbn; auto; lia.
  - unfold off. split_and!; auto; lia.
  - intros t fd Hin Hne. destruct (Hn fd Hin Hne) as [Hfd0 _]. split; [done|]. unfold with_worker, add_acceptor.
    rewrite !lookup_insert_is_Some'. cbn in Hin.
    destruct Hin as [<-|[<-|[<-|[<-|[<-|[]]]]]]; [by left| |by right; right; left| |by right; left];
      do 3 right; apply lookup_reserve_is_Some; rewrite ?lookup_insert_is_Some'; auto.
Qed.

Lemma worker_in_new x t m : worker_new x m -> m !! (-1) = None -> worker_in x (with_worker x t m).
Proof.
  intros Hx Hm1. destruct (new_fds x m Hx) as (_ & Hoff & Hin). destruct Hx as (Hnd & _ & Hsh).
  split; [done|]. split; [done|]. split; [exists t; unfold with_worker; by rewrite lookup_insert_eq|].
  intros fd Hfd. destruct (decide (fd = -1)) as [->|Hne]; [|by right; apply Hin].
  left. by rewrite lookup_with_worker.
Qed.

(** Destroying a worker that was just made leaves the table as it was. *)
Lemma close_new_worker x t m : worker_new x m -> wf_fds m ->
  close_fds (dtor_fds x) (with_worker x t m) = m.
Proof.
  intros Hx Hwf. destruct Hx as (Hnd & Hfd & (Hch & Hp & Ha & _)).
  apply Forall_cons in Hch as [[Ht0 _] [[Ha0 _] [[Hw0 _] _]%Forall_cons]%Forall_cons]. rewrite Ha in Ha0.
  change (ch_fd (ch_state (worker_timer x))) with (timer_fd x) in Ht0. change (ch_fd (ch_state (wakeup_channel _))) with (wake_fd (worker_poller x)) in Hw0.
  unfold worker_fds in Hnd. rewrite !NoDup_cons, !not_elem_of_cons in Hnd.
  destruct Hnd as ((Hpw & Hpa & Hpr & Hpt & _) & (Hwa & Hwr & Hwt & _) & (Har & Hat & _) & (Hrt & _) & _).
  assert (Hn : forall fd, In fd (worker_fds x) -> fd <> -1 -> m !! fd = None) by (intros fd Hin Hne; destruct (Hfd fd Hin); tauto).
  assert (Hr1 : -1 <= reserved_fd (worker_acceptor x)) by (destruct (Hfd (reserved_fd (worker_acceptor x))); [cbn; tauto|lia..]).
  assert (Hrn : 0 <= reserved_fd (worker_acceptor x) -> m !! reserved_fd (worker_acceptor x) = None) by (intros; apply Hn; [cbn; tauto|lia]).
  assert (Hcl : forall fd, In fd (worker_fds x) -> fd <> -1 -> close_desc fd m = m) by (intros; apply close_desc_unknown; auto).
  unfold dtor_fds, with_worker, add_acceptor. cbn [close_fds fold_left].
  rewrite !(close_desc_other (wake_fd (worker_poller x))), close_reserve, (close_desc_added (wake_fd (worker_poller x)) _ m)
    by (done || (apply Hn; [cbn; tauto|done])).
  cbn [forget].
  rewrite (close_desc_new (poller_fd (worker_poller x))), !(close_desc_other (poller_fd (worker_poller x))), close_reserve, Hcl
    by (done || (cbn; tauto)).
  cbn [forget].
  rewrite !(close_desc_other (acceptor_fd (worker_acceptor x)) (timer_fd x)) by done. rewrite close_desc_new, !close_reserve, !Hcl by (done || (cbn; tauto)).
  cbn [forget].
  rewrite close_desc_other, close_reserved by done. apply close_desc_added; [done|]. apply Hn; [cbn; tauto|done].
Qed.

(** Workers that were made later are not touched. *)
Lemma workers_keep l m fd : workers_new l m -> is_Some (m !! fd) \/ fd = -1 -> with_workers l m !! fd = m !! fd.
Proof.
  revert m. induction l as [|[x t] l IH]; intros m Hl Hfd; [done|]. destruct Hl as (Hx & _ & Hl).
  destruct (new_fds x m Hx) as (Hoff & Hoff1 & _). assert (Hx' : off x fd) by (destruct Hfd as [?| ->]; auto).
  cbn. change (with_workers l (with_worker x t m) !! fd = m !! fd).
  rewrite IH; rewrite ?lookup_with_worker by done; done.
Qed.

Lemma workers_new_sub l m m' : (forall fd, is_Some (m !! fd) -> is_Some (m' !! fd)) -> workers_new l m' -> workers_new l m.
Proof.
  revert m m'. induction l as [|[x t] l IH]; intros m m' Hsub; [done|]. intros (Hx & Hdom & Hl).
  assert (Hx' : worker_new x m).
  { destruct Hx as (Hnd & Hfd & Hsh). split; [done|]. split; [|done]. intros fd Hin. destruct (Hfd fd Hin) as [|[? Hn]]; [by left|].
    right. split; [done|]. destruct (m !! fd) eqn:E; [|done]. destruct (Hsub fd); [by eexists|congruence]. }
  split; [done|]. split; [done|]. apply (IH _ (with_worker x t m')); [|done]. intros fd.
  unfold with_worker, add_acceptor, reserve. destruct (0 <=? reserved_fd (worker_acceptor x)); rewrite !lookup_insert_is_Some'; naive_solver.
Qed.

Lemma close_fds_workers fds l m : workers_new l m -> (forall fd, In fd fds -> is_Some (m !! fd) \/ fd = -1) ->
  close_fds fds (with_workers l m) = with_workers l (close_fds fds m).
Proof.
  revert m. induction l as [|[x t] l IH]; intros m Hl Hfds; [done|]. destruct Hl as (Hx & Hdom & Hl).
  destruct (new_fds x m Hx) as (Hoff & Hoff1 & Hin). cbn. change (close_fds fds (with_workers l (with_worker x t m)) = with_workers l (with_worker x t (close_fds fds m))).
  assert (Hx' : forall fd, In fd fds -> off x fd) by (intros fd Hfd; destruct (Hfds fd Hfd) as [?| ->]; auto).
  rewrite IH; [|done|].
  - f_equal. clear IH Hl Hfds. revert Hx'. generalize m. induction fds as [|fd fds IH]; intros m' Hx'; [done|]. cbn.
    rewrite close_with_worker; [apply IH; intros; apply Hx'; by right|apply Hx'; by left|].
    destruct (t !! fd) eqn:E; [|done]. exfalso. destruct (Hdom fd ltac:(by eexists)) as [Hc|[Hc|[Hc|[]]]];
      destruct (Hx' fd (or_introl eq_refl)) as (_ & ? & ? & ? & _); destruct Hx as (_ & _ & _ & _ & ? & _); unfold timer_fd, wake_fd in *; congruence.
  - intros fd Hfd. destruct (Hfds fd Hfd) as [?|]; [left|by right]. rewrite lookup_with_worker; auto.
Qed.

Lemma wp_delete_workers l m es cl w (Q : unit -> Process K -> Prop) E :
  state_is (with_workers l m) es cl w -> workers_new l m -> wf_fds m ->
  (forall es' w', state_is m (es ++ es') (cl ++ (l.*1 ≫= dtor_closes)) w' -> Q tt w') ->
  wp (delete_workers l.*1) Q E w.
Proof.
  revert m es cl w. induction l as [|[x t] l IH]; intros m es cl w Hs Hl Hwf HQ.
  - apply wp_ret. apply (HQ []). by rewrite !app_nil_r.
  - destruct Hl as (Hx & Hdom & Hl). pose proof (worker_in_new x t m Hx (proj1 Hwf)) as (Hnd & Hsh & [t' Ht'] & Hin).
    assert (Hkeep : forall fd, In fd (worker_fds x) -> with_workers l (with_worker x t m) !! fd = with_worker x t m !! fd).
    { intros fd Hfd. apply workers_keep; [done|]. destruct (Hin fd Hfd) as [[-> _]|[_ ?]]; auto. }
    apply wp_bind. apply (wp_IOWorker_dtor x _ es cl w _ _ Hs).
    { split; [done|]. split; [done|]. split; [exists t'; rewrite Hkeep; [done|by left]|]. intros fd Hfd. rewrite Hkeep by done. by apply Hin. }
    intros es1 w1 H1. change (with_workers ((x, t) :: l) m) with (with_workers l (with_worker x t m)) in H1.
    rewrite close_fds_workers, close_new_worker in H1; [|done..|].
    + apply (IH m _ _ w1 H1); [|done|].
      { apply (workers_new_sub l m (with_worker x t m)); [|done]. intros fd Hfd.
        rewrite lookup_with_worker; [done|]. by apply (new_fds x m Hx). }
      intros es2 w2 H2. apply (HQ (es1 ++ es2)). by rewrite <-!app_assoc in H2.
    + intros fd Hfd. assert (Hfd' : In fd (worker_fds x)) by (unfold dtor_fds in Hfd; cbn in *; tauto).
      destruct (Hin fd Hfd') as [[-> _]|[_ ?]]; auto.
Qed.
End specs.
