(* ===== verification/Workers.v ===== *)
(** * The descriptors of a group of workers

    The theorems on [Lifecycle]: what [WorkerGroup::Start] leaves open and
    registered or why it ends the process, that the workers share the address
    they listen on, and what their destructors close. *)

From S2P Require Import Prelude CxxStd DateTime Channel InetAddress Posix PosixModel Lifecycle.
Local Open Scope Z_scope.

Section workers.
Context {K : Type} `{KernelLaws K} (ndebug : bool).
Implicit Types w : Process K.

Lemma state_now (F : K -> Prop) w : F (kernel w) -> state_is F (own (kernel w)) (errors w) (closes w) w.
Proof. intros HF. split; [done|]. split; [done|]. by split. Qed.

(** What [WorkerGroup::Start] leaves: one worker per index, each with five new
    descriptors (an epoll instance, an event, a socket that listens on the
    address, does not block and is closed on exec, a spare descriptor and a
    timer) and three channels, which are registered for reading unless an error
    was logged.  Nothing else is opened or closed. *)
Definition group_up (n : nat) (addr : InetAddress) (w w' : Process K) (ws : list WorkerObj) : Prop :=
  exists l es', ws = l.*1 /\ worker_tid <$> ws = seqZ 0 (Z.of_nat n)
    /\ workers_new addr l (own (kernel w)) /\ own (kernel w') = with_workers addr l (own (kernel w))
    /\ errors w' = errors w ++ es' /\ (es' = [] -> all_registered l) /\ closes w' = closes w.

(** Otherwise it ends the process because the system could not create a
    descriptor, bind or listen. *)
Lemma group_starts n addr w :
  wp (WorkerGroup_Start ndebug n addr) (fun ws w' => group_up n addr w w' ws)
    (fun r _ => create_failed r \/ (exists fd, r = bytes "Listen failed, sockfd = " ++ to_string fd)
       \/ exists fd, r = bytes "Socket fd = " ++ to_string fd ++ bytes " bind [" ++ GetHost addr ++ bytes "] failed") w.
Proof.
  apply (wp_start_workers (fun _ => True) ltac:(done) ndebug False addr ltac:(done) n 0 _ _ _ w _ _ (state_now _ w I)); [done|..].
  - intros r _ [?|[?|[_ ?]]]; auto.
  - intros l es' w' Hl Hnew Hreg (Hm & He & Hc & _). by exists l, es'.
Qed.

Lemma workers_listen addr l (m : FdTable) : workers_new addr l m ->
  Forall (fun x => with_workers addr l m !! acceptor_fd (worker_acceptor x) = Some (DSocket (listening_socket addr))) l.*1.
Proof.
  revert m. induction l as [|[x t] l IH]; intros m; [constructor|]. intros (Hx & Hdom & Hl). constructor; [|by apply IH].
  change (with_workers addr l (with_worker addr x t m) !! acceptor_fd (worker_acceptor x) = Some (DSocket (listening_socket addr))).
  assert (Hs : with_worker addr x t m !! acceptor_fd (worker_acceptor x) = Some (DSocket (listening_socket addr))).
  { destruct Hx as (Hnd & _). unfold worker_fds in Hnd. rewrite !NoDup_cons, !not_elem_of_cons in Hnd.
    destruct Hnd as ((_ & Hpa & _) & _ & (_ & Hat & _) & _). unfold with_worker, add_acceptor.
    by rewrite !lookup_insert_ne, lookup_insert_eq by done. }
  rewrite (workers_keep addr l) by (try done; left; by eexists). done.
Qed.

Lemma workers_distinct addr l (m : FdTable) : workers_new addr l m ->
  (forall fd, is_Some (m !! fd) -> ~ In fd (map (fun x => acceptor_fd (worker_acceptor x)) l.*1))
  /\ NoDup (map (fun x => acceptor_fd (worker_acceptor x)) l.*1).
Proof.
  revert m. induction l as [|[x t] l IH]; intros m; [by split; [intros fd _ []|apply NoDup_nil_2]|]. intros (Hx & _ & Hl).
  destruct (IH _ Hl) as [Hout Hnd]. destruct (new_fds addr x m Hx) as (Hoff & _ & Hin). split.
  - intros fd Hfd [Heq|Hin']; [by destruct (Hoff fd Hfd) as (_ & _ & ? & _)|].
    revert Hin'. apply Hout. rewrite lookup_with_worker; auto.
  - constructor; [|done]. rewrite list_elem_of_In. apply Hout. apply Hin; [cbn; tauto|].
    cbn. destruct Hx as (_ & _ & Hch & _ & Ha & _). apply Forall_cons in Hch as [_ [[Ha0 _] _]%Forall_cons]. by rewrite <-Ha.
Qed.


(** C14: Destroying the workers of a group leaves the descriptors exactly as they
    were before [Start], whatever was open, although every listening socket is
    closed twice, the second time when it is no longer the worker's. *)
Theorem group_restores n addr w :
  wf_fds (own (kernel w)) ->
  wp (ws ← WorkerGroup_Start ndebug n addr; _ ← delete_workers ws; mret ws)
    (fun ws w' => length ws = n /\ own (kernel w') = own (kernel w) /\ closes w' = closes w ++ (ws ≫= dtor_closes))
    (fun r _ => ctor_failed False addr r) w.
Proof.
  intros Hwf. apply wp_bind.
  apply (wp_start_workers (fun _ => True) ltac:(done) ndebug False addr ltac:(done) n 0 _ _ _ w _ _ (state_now _ w I)); [done|done|].
  intros l es' w' Hl Hnew _ Hw'. apply wp_bind.
  apply (wp_delete_workers (fun _ => True) ltac:(done) addr l _ _ _ w' _ _ Hw'); [done|done|].
  intros es2 w2 (Hm & _ & Hc & _). apply wp_ret. apply (f_equal length) in Hl. rewrite length_fmap, length_seqZ in Hl. split; [lia|done].
Qed.

(** Destroying an acceptor closes its listening descriptor twice, first by
    the socket and then by the channel, and at the second time the number is no
    longer the acceptor's. *)
Lemma acceptor_closes_twice x w :
  ch_fd (ch_state (acceptor_channel x)) = acceptor_fd x -> 0 <= acceptor_fd x -> is_Some (own (kernel w) !! acceptor_fd x) ->
  reserved_fd x <> acceptor_fd x ->
  wp (Acceptor_dtor x)
    (fun _ w' => exists b, closes w' = closes w ++ [(acceptor_fd x, true); (acceptor_fd x, false); (reserved_fd x, b)])
    (fun _ _ => False) w.
Proof.
  intros Hc Hfd Hin Hne.
  apply (wp_Acceptor_dtor (fun _ => True) ltac:(done) x _ _ _ w _ _ (state_now _ w I)); [done..|]. intros w' (_ & _ & Hcl & _). eauto.
Qed.

(** ** Running out of descriptors *)

(** [Accept] is one system call; a failure is logged. *)
Lemma Accept_runs s w :
  exists addr w', Accept s w = Done ((sys (SysAccept (sock_fd s)) (kernel w)).1, addr) w'
    /\ kernel w' = (sys (SysAccept (sock_fd s)) (kernel w)).2 /\ closes w' = closes w.
Proof.
  unfold Accept, mbind, proc_bind, call. destruct (sys (SysAccept (sock_fd s)) (kernel w)) as [fd k]. cbn [fst snd].
  destruct (fd <? 0); do 2 eexists; (split; [reflexivity|]); cbn; by rewrite app_nil_r.
Qed.

Lemma call_runs c w :
  exists w', call c w = Done (sys c (kernel w)).1 w' /\ kernel w' = (sys c (kernel w)).2
    /\ closes w' = closes w ++ match c with SysClose fd => [(fd, bool_decide (is_Some (own (kernel w) !! fd)))] | _ => [] end.
Proof. unfold call. destruct (sys c (kernel w)) as [r k]. by eexists. Qed.

(** The kernel when [OnPeerConnect] has read [errno], after it has given up the spare
    descriptor, and the result of the second [accept4]. *)
Definition after_errno (x : AcceptorObj) (k : K) : K :=
  (sys SysErrno (sys (SysAccept (acceptor_fd x)) k).2).2.
Definition after_release (x : AcceptorObj) (k : K) : K := (sys (SysClose (reserved_fd x)) (after_errno x k)).2.
Definition refused (x : AcceptorObj) (k : K) : Z := (sys (SysAccept (acceptor_fd x)) (after_release x k)).1.

(** C38: When [accept] fails because the process is out of descriptors ([errno]
    is EMFILE), the acceptor serves nobody: it closes its spare descriptor, accepts
    once more with the number that became free, closes what that gave, so that a
    client it took is hung up on, and opens a spare descriptor again.  Afterwards
    the table holds what it held before, but for the spare descriptor, which may
    have another number or could not be opened. *)
Theorem accept_out_of_descriptors x w :
  wf_fds (own (kernel w)) ->
  (sys (SysAccept (acceptor_fd x)) (kernel w)).1 = -1 ->
  (sys SysErrno (sys (SysAccept (acceptor_fd x)) (kernel w)).2).1 = EMFILE ->
  wp (accept_client x)
    (fun '(x', client) w' =>
       client = None /\ acceptor_socket x' = acceptor_socket x /\ acceptor_channel x' = acceptor_channel x
       /\ closes w' = closes w ++ [(reserved_fd x, bool_decide (is_Some (own (kernel w) !! reserved_fd x)));
                                   (refused x (kernel w), bool_decide (0 <= refused x (kernel w)))]
       /\ -1 <= reserved_fd x'
       /\ own (kernel w') = reserve (reserved_fd x') (close_desc (reserved_fd x) (own (kernel w))))
    (fun _ _ => False) w.
Proof.
  intros Hwf Hfail Herr. set (m := close_desc (reserved_fd x) (own (kernel w))).
  assert (Hm : wf_fds m) by by apply close_desc_wf.
  assert (Hk2 : own (after_errno x (kernel w)) = own (kernel w)).
  { unfold after_errno. rewrite law_errno. destruct (law_create (SysAccept (acceptor_fd x)) _ (kernel w) eq_refl) as [[_ ?]|[? _]]; [done|lia]. }
  assert (Hk3 : own (after_release x (kernel w)) = m) by (unfold after_release; by rewrite law_close, Hk2).
  unfold wp, accept_client, mbind, proc_bind. fold (acceptor_fd x) in *.
  destruct (Accept_runs (acceptor_socket x) w) as (a1 & w1 & -> & E1 & C1). fold (acceptor_fd x) in *. cbn [fst]. rewrite Hfail.
  change (-1 <? 0) with true. cbv iota. destruct (call_runs SysErrno w1) as (w2 & -> & E2 & C2). rewrite E1 in *. rewrite Herr.
  change (EMFILE =? EMFILE) with true. cbv iota. fold (after_errno x (kernel w)) in E2.
  destruct (call_runs (SysClose (reserved_fd x)) w2) as (w3 & -> & E3 & C3). rewrite E2 in *. fold (after_release x (kernel w)) in E3.
  destruct (Accept_runs (acceptor_socket x) w3) as (a4 & w4 & -> & E4 & C4). fold (acceptor_fd x) in *. cbn [fst reserved_fd]. rewrite E3 in *.
  fold (refused x (kernel w)).
  destruct (call_runs (SysClose (refused x (kernel w))) w4) as (w5 & -> & E5 & C5).
  assert (Hr : close_desc (refused x (kernel w)) (own (kernel w4)) = m
    /\ bool_decide (is_Some (own (kernel w4) !! refused x (kernel w))) = bool_decide (0 <= refused x (kernel w))).
  { rewrite E4. destruct (law_create (SysAccept (acceptor_fd x)) _ (after_release x (kernel w)) eq_refl) as [[Er ->]|(Er & Hn & ->)];
      fold (refused x (kernel w)) in *; rewrite Hk3 in *.
    - rewrite Er. split; [by apply close_desc_unknown, Hm|]. by rewrite (proj1 Hm).
    - split; [by apply close_desc_added|]. rewrite lookup_insert_eq. by rewrite !bool_decide_eq_true_2 by (done || by eexists). }
  destruct Hr as [Hr Hb]. destruct (call_runs SysOpenNull w5) as (w6 & -> & E6 & C6). cbn.
  rewrite C6, app_nil_r, C5, C4, C3, C2, app_nil_r, C1, Hb, Hk2, <-app_assoc. do 3 (split; [done|]). split; [done|].
  assert (Hk5 : own (kernel w5) = m) by (by rewrite E5, law_close). rewrite E6.
  destruct (law_create SysOpenNull DNull (kernel w5) eq_refl) as [[-> ->]|(Er & Hn & ->)]; rewrite Hk5; [by split|].
  split; [lia|]. unfold reserve. by rewrite (proj2 (Z.leb_le 0 _)).
Qed.

(** Otherwise [accept] gives a client, or fails and nothing changes. *)
Lemma accept_client_else x w :
  (sys (SysAccept (acceptor_fd x)) (kernel w)).1 <> -1
  \/ (sys SysErrno (sys (SysAccept (acceptor_fd x)) (kernel w)).2).1 <> EMFILE ->
  wp (accept_client x)
    (fun '(x', client) w' => x' = x /\ closes w' = closes w
       /\ match client with
          | Some (fd, addr) => 0 <= fd /\ own (kernel w) !! fd = None
                               /\ own (kernel w') = <[fd := DSocket accepted_socket]> (own (kernel w))
          | None => own (kernel w') = own (kernel w)
          end)
    (fun _ _ => False) w.
Proof.
  intros Hc. unfold wp, accept_client, mbind, proc_bind.
  destruct (Accept_runs (acceptor_socket x) w) as (a1 & w1 & -> & E1 & C1). fold (acceptor_fd x) in *. cbn [fst].
  destruct (law_create (SysAccept (acceptor_fd x)) _ (kernel w) eq_refl) as [[Er Eo]|(Er & Hn & Eo)].
  - rewrite Er in *. change (-1 <? 0) with true. cbv iota. destruct Hc as [|Hc]; [done|].
    destruct (call_runs SysErrno w1) as (w2 & -> & E2 & C2). rewrite E1 in *. rewrite (proj2 (Z.eqb_neq _ _)) by done.
    cbn. rewrite C2, app_nil_r, E2, law_errno. by rewrite Eo.
  - rewrite (proj2 (Z.ltb_ge _ 0)) by done. cbn. rewrite E1. by split_and!.
Qed.
End workers.

(** ** Runs on a machine *)

Definition any_addr : InetAddress := mkInetAddress AF_INET (htons 8080) [0; 0; 0; 0].

(** Two workers on a machine that allows enough descriptors. *)
Example two_workers :
  match WorkerGroup_Start false 2 any_addr (fresh_process 100 false) with
  | Done ws w => map worker_fds ws = [[3; 4; 5; 6; 7]; [8; 9; 10; 11; 12]] /\ errors w = []
  | Aborted _ _ => False
  end.
Proof. vm_compute. by split. Qed.

(** When it allows too few, the second worker ends the process. *)
Example out_of_descriptors :
  match WorkerGroup_Start false 2 any_addr (fresh_process 12 false) with
  | Done _ _ => False
  | Aborted r _ => r = bytes "Create timer fd failed"
  end.
Proof. vm_compute. done. Qed.


Lemma group_restores_witness :
  wp (ws ← WorkerGroup_Start false 2 any_addr; _ ← delete_workers ws; mret ws)
    (fun ws w' => length ws = 2%nat /\ own (kernel w') = own (kernel (fresh_process 100 false))
       /\ closes w' = closes (fresh_process 100 false) ++ (ws ≫= dtor_closes))
    (fun r _ => ctor_failed False any_addr r) (fresh_process 100 false).
Proof. apply (group_restores false 2 any_addr (fresh_process 100 false)). split; [done|]. intros ep t fd Hep. cbn in Hep. by rewrite lookup_empty in Hep. Defined.

(** Another thread opens a file as soon as a number is free: the acceptor of a
    worker closes that file. *)
Definition one_acceptor : AcceptorObj := mkAcceptorObj 6 (mkSocket 5 any_addr) (reading_channel 2 5 3).
Definition intruded : Process Machine :=
  mkProcess (mkMachine (<[5 := DSocket (listening_socket any_addr)]> (<[6 := DNull]> (<[3 := DEpoll ∅]> (<[4 := DEvent]> ∅)))) [] 100 true) [] [] 1.
Example intruder_loses_file :
  (exists b w', Acceptor_dtor one_acceptor intruded = Done tt w' /\ closes w' = [(5, true); (5, false); (6, b)])
  /\ theirs (machine_close 5 (kernel intruded)).2 = [5]
  /\ theirs (machine_close 5 (machine_close 5 (kernel intruded)).2).2 = [].
Proof.
  split; [|by vm_compute].
  pose proof (acceptor_closes_twice one_acceptor intruded eq_refl ltac:(done) ltac:(by eexists) ltac:(done)) as Hw. unfold wp in Hw.
  destruct (Acceptor_dtor one_acceptor intruded) as [[] w'|r w']; [|done]. destruct Hw as [b Hb]. by exists b, w'.
Defined.

(** A machine without a free descriptor: the client is refused and the spare
    descriptor is opened again, unless another thread takes the number first;
    then the acceptor has no spare descriptor any more. *)
Definition full_process (intruding : bool) : Process Machine :=
  mkProcess (mkMachine (<[3 := DEpoll ∅]> (<[4 := DEvent]> (<[5 := DSocket (listening_socket any_addr)]> (<[6 := DNull]> ∅)))) [] 7 intruding) [] [] 1.
Example spare_descriptor_kept :
  match accept_client one_acceptor (full_process false) with
  | Done (x, client) w => reserved_fd x = 6 /\ client = None /\ closes w = [(6, true); (6, true)]
  | Aborted _ _ => False
  end.
Proof. vm_compute. done. Qed.
Example spare_descriptor_lost :
  match accept_client one_acceptor (full_process true) with
  | Done (x, client) w => reserved_fd x = -1 /\ client = None /\ closes w = [(6, true); (-1, false)]
  | Aborted _ _ => False
  end.
Proof. vm_compute. done. Qed.

Lemma accept_out_of_descriptors_witness :
  exists x w', accept_client one_acceptor (full_process false) = Done (x, None) w'
    /\ closes w' = [(6, true); (6, true)] /\ reserved_fd x = 6
    /\ own (kernel w') = reserve 6 (close_desc 6 (own (kernel (full_process false)))).
Proof.
  assert (Hwf : wf_fds (own (kernel (full_process false)))).
  { split; [done|]. intros ep t fd Hep. cbn in Hep. repeat ((apply lookup_insert_Some in Hep as [[_ [= <-]]|[_ Hep]]; [by intros []|]) || (apply lookup_insert_Some in Hep as [[_ [=]]|[_ Hep]])).
    by rewrite lookup_empty in Hep. }
  pose proof (accept_out_of_descriptors one_acceptor (full_process false) Hwf ltac:(by vm_compute) ltac:(by vm_compute)) as Hw.
  unfold wp in Hw. destruct (accept_client one_acceptor (full_process false)) as [[x client] w'|r w'] eqn:E; [|done].
  destruct Hw as (-> & _ & _ & Hc & _ & Ho). exists x, w'. split; [done|].
  assert (Hx : reserved_fd x = 6) by (apply (f_equal (fun e => match e with Done (x, _) _ => reserved_fd x | Aborted _ _ => 0 end)) in E; by vm_compute in E).
  rewrite Hx in Ho. split; [|done]. rewrite Hc. by vm_compute.
Defined.
