(* ===== verification/SslContext.v ===== *)
(** * net/SslContext and the configuration of a server

    [SslContext] prepares an OpenSSL context with which the workers make the TLS
    sessions of their connections; [TcpServer::Config] makes it and
    [~TcpServer] frees it.  OpenSSL is a parameter: [answer] gives the result of
    a call from the calls that came before, and [err_text] what
    [ERR_error_string_n] writes. *)

From S2P Require Import Prelude CxxStd DateTime Channel InetAddress Posix.
Local Open Scope Z_scope.

Definition TLS1_2_VERSION : Z := 771.
Definition SSL_FILETYPE_PEM : Z := 1.

Inductive ssl_call :=
| SSL_CTX_new
| SSL_CTX_free (ctx : ptr)
| SSL_CTX_set_min_proto_version (ctx : ptr) (version : Z)
| SSL_CTX_set_default_verify_paths (ctx : ptr)
| SSL_CTX_use_certificate_chain_file (ctx : ptr) (file : list byte)
| SSL_CTX_use_PrivateKey_file (ctx : ptr) (file : list byte) (type : Z)
| SSL_CTX_check_private_key (ctx : ptr).

(** The part [ssl] of [ServerConfig]. *)
Record SslConfig := mkSslConfig {
  use_ssl : bool;
  disable_old_ssl_version : bool;
  enable_validation : bool;
  cert_file : list byte;
  private_key_file : list byte;
}.
Definition SslConfig_init : SslConfig := mkSslConfig false false false [] [].

(** The state of the library is the calls made so far. *)
Section ssl.
Context (answer : list ssl_call -> ssl_call -> Z) (err_text : list ssl_call -> list byte).
(** Whether the program is built with USE_OPENSSL. *)
Context (USE_OPENSSL : bool).

Abbreviation ssl_proc := (proc (list ssl_call)).

Definition openssl (c : ssl_call) : ssl_proc Z := fun w =>
  Done (answer (kernel w) c) (mkProcess (kernel w ++ [c]) (errors w) (closes w) (next_ptr w)).
(** [ERR_error_string_n(ERR_get_error(), err_msg, sizeof(err_msg))] on a zeroed buffer of 4096. *)
Definition err_msg : ssl_proc (list byte) := fun w => Done (take 4095 (c_str (err_text (kernel w)))) w.

Record SslContext := mkSslContext { ctx : ptr }.

Definition SslContext_ctor : ssl_proc SslContext :=
  if USE_OPENSSL then (ctx ← openssl SSL_CTX_new; mret (mkSslContext ctx)) else mret (mkSslContext 0).
Definition SslContext_dtor (s : SslContext) : ssl_proc unit :=
  if USE_OPENSSL then (_ ← openssl (SSL_CTX_free (ctx s)); mret tt) else mret tt.
Definition DisableOldVersion (s : SslContext) : ssl_proc unit :=
  if USE_OPENSSL then (_ ← openssl (SSL_CTX_set_min_proto_version (ctx s) TLS1_2_VERSION); mret tt) else mret tt.
Definition EnableValidation (s : SslContext) : ssl_proc unit :=
  if USE_OPENSSL then (_ ← openssl (SSL_CTX_set_default_verify_paths (ctx s)); mret tt) else mret tt.
Definition SetCertPath (cert_path key_path : list byte) (s : SslContext) : ssl_proc unit :=
  if USE_OPENSSL then
    rc ← openssl (SSL_CTX_use_certificate_chain_file (ctx s) (c_str cert_path));
    _ ← (if rc =? 1 then mret tt else
           (err ← err_msg; LOG_FATAL (bytes "SSL load certificate chain file failed: " ++ c_str cert_path ++ bytes ", " ++ err)));
    rc ← openssl (SSL_CTX_use_PrivateKey_file (ctx s) (c_str key_path) SSL_FILETYPE_PEM);
    _ ← (if rc =? 1 then mret tt else
           (err ← err_msg; LOG_FATAL (bytes "SSL load private key file failed: " ++ c_str cert_path ++ bytes ", " ++ err)));
    rc ← openssl (SSL_CTX_check_private_key (ctx s));
    if rc =? 1 then mret tt else
      (err ← err_msg; LOG_FATAL (bytes "SSL private key not matches the certificate public key, " ++ err))
  else mret tt.
Definition SslContext_Get (s : SslContext) : ptr := if USE_OPENSSL then ctx s else 0.

(** ** net/TcpServer: [Config] and the destructor *)

(** The members they touch. *)
Record SslServer := mkSslServer { server_config : SslConfig; ssl_ctx : option SslContext }.
Definition SslServer_init : SslServer := mkSslServer SslConfig_init None.

Definition Config (config : SslConfig) (server : SslServer) : ssl_proc SslServer :=
  let server := mkSslServer config (ssl_ctx server) in
  if use_ssl config then
    s ← SslContext_ctor;
    let server := mkSslServer (server_config server) (Some s) in
    _ ← (if disable_old_ssl_version config then DisableOldVersion s else mret tt);
    _ ← (if enable_validation config then EnableValidation s else mret tt);
    _ ← SetCertPath (cert_file config) (private_key_file config) s;
    mret server
  else mret server.
Definition TcpServer_dtor (server : SslServer) : ssl_proc unit :=
  match ssl_ctx server with Some s => SslContext_dtor s | None => mret tt end.
End ssl.

(** ** What [Config] leaves *)

Section specs.
Context (answer : list ssl_call -> ssl_call -> Z) (err_text : list ssl_call -> list byte).
Implicit Types (w : Process (list ssl_call)) (h : list ssl_call).

Definition setup_calls (config : SslConfig) (c : ptr) : list ssl_call :=
  (if disable_old_ssl_version config then [SSL_CTX_set_min_proto_version c TLS1_2_VERSION] else [])
  ++ (if enable_validation config then [SSL_CTX_set_default_verify_paths c] else []).
(** The calls that must succeed, with the text that ends the process when one does not. *)
Definition check_calls (config : SslConfig) (c : ptr) : list (ssl_call * list byte) :=
  [(SSL_CTX_use_certificate_chain_file c (c_str (cert_file config)),
    bytes "SSL load certificate chain file failed: " ++ c_str (cert_file config) ++ bytes ", ");
   (SSL_CTX_use_PrivateKey_file c (c_str (private_key_file config)) SSL_FILETYPE_PEM,
    bytes "SSL load private key file failed: " ++ c_str (cert_file config) ++ bytes ", ");
   (SSL_CTX_check_private_key c, bytes "SSL private key not matches the certificate public key, ")].
(** The first [i] of the calls [l], made after [h], succeed. *)
Definition succeed h (l : list (ssl_call * list byte)) (i : nat) : Prop :=
  forall j c msg, (j < i)%nat -> l !! j = Some (c, msg) -> answer (h ++ take j l.*1) c = 1.

Lemma succeed_S h l i c msg : succeed h l i -> l !! i = Some (c, msg) -> answer (h ++ take i l.*1) c = 1 -> succeed h l (S i).
Proof.
  intros Hs Hi Ha j c' msg' Hj Hj'. destruct (decide (j = i)) as [->|]; [congruence|]. apply (Hs j c' msg'); [lia|done].
Qed.

(** One checked call. *)
Lemma wp_check {A} (k : unit -> proc (list ssl_call) A) h l i c msg text w (Q : A -> Process (list ssl_call) -> Prop) E :
  kernel w = h ++ take i l.*1 -> l !! i = Some (c, msg) -> (forall err, text err = msg ++ err) -> succeed h l i ->
  (forall w', kernel w' = h ++ take (S i) l.*1 -> succeed h l (S i) -> wp (k tt) Q E w') ->
  (forall r w', (exists err, r = msg ++ err) -> kernel w' = h ++ take (S i) l.*1 -> answer (h ++ take i l.*1) c <> 1 -> succeed h l i -> E r w') ->
  wp (rc ← openssl answer c; u ← (if rc =? 1 then mret tt else (err ← err_msg err_text; LOG_FATAL (text err))); k u) Q E w.
Proof.
  intros Hw Hi Htext Hs HQ HE. assert (Hc : (h ++ take i l.*1) ++ [c] = h ++ take (S i) l.*1).
  { rewrite <-app_assoc. f_equal. symmetry. apply take_S_r. by rewrite list_lookup_fmap, Hi. }
  apply wp_bind. unfold wp at 1, openssl. rewrite Hw. apply wp_bind.
  destruct (Z.eqb_spec (answer (h ++ take i l.*1) c) 1) as [Ha|Ha].
  - apply wp_ret. apply HQ; [done|]. by apply (succeed_S h l i c msg).
  - unfold wp, err_msg, LOG_FATAL, mbind, proc_bind. apply HE; [rewrite Htext; by eexists|done..].
Qed.

(** C33: With TLS, [Config] gives the server a context only after the
    certificate was loaded, then the key, and then found to belong together;
    otherwise the process ends with the text of the first check that failed. *)
Theorem Config_checks config server w :
  use_ssl config = true ->
  let c := answer (kernel w) SSL_CTX_new in
  let h := kernel w ++ SSL_CTX_new :: setup_calls config c in
  let checks := check_calls config c in
  wp (Config answer err_text true config server)
    (fun server' w' => server' = mkSslServer config (Some (mkSslContext c)) /\ kernel w' = h ++ checks.*1 /\ succeed h checks 3)
    (fun r w' => exists i call msg err, checks !! i = Some (call, msg) /\ r = msg ++ err
       /\ kernel w' = h ++ take (S i) checks.*1 /\ succeed h checks i /\ answer (h ++ take i checks.*1) call <> 1) w.
Proof.
  intros Hssl c h checks. unfold Config. rewrite Hssl. cbn [server_config ssl_ctx]. do 2 apply wp_bind.
  unfold wp at 1, openssl at 1. apply wp_ret. fold c.
  assert (Hsetup : forall w1 (k : unit -> proc (list ssl_call) SslServer) Q E, kernel w1 = kernel w ++ [SSL_CTX_new] ->
    (forall w2, kernel w2 = h -> wp (k tt) Q E w2) ->
    wp (_ ← (if disable_old_ssl_version config then DisableOldVersion answer true (mkSslContext c) else mret tt);
        _ ← (if enable_validation config then EnableValidation answer true (mkSslContext c) else mret tt); k tt) Q E w1).
  { intros w1 k Q E Hw1 Hk. unfold h, setup_calls in Hk.
    destruct (disable_old_ssl_version config), (enable_validation config); cbn; apply Hk; cbn; rewrite Hw1, <-?app_assoc; done. }
  apply (Hsetup _ (fun _ => _ ← SetCertPath answer err_text true (cert_file config) (private_key_file config) (mkSslContext c);
                            mret (mkSslServer config (Some (mkSslContext c))))); [done|].
  intros w2 Hw2. apply wp_bind. unfold SetCertPath. cbn [ctx].
  apply (wp_check _ h checks 0 _ _ _ w2 _ _ ltac:(by rewrite app_nil_r) eq_refl); [intros; by rewrite <-!app_assoc|intros ? ? ? ?; lia| |].
  2: { intros r w' [err ->] Hw' Ha Hs. by eexists 0%nat, _, _, err. }
  intros w3 Hw3 Hs1. apply (wp_check _ h checks 1 _ _ _ w3 _ _ Hw3 eq_refl); [intros; by rewrite <-!app_assoc|done| |].
  2: { intros r w' [err ->] Hw' Ha Hs. by eexists 1%nat, _, _, err. }
  intros w4 Hw4 Hs2. apply wp_then_ret. apply (wp_check mret h checks 2 _ _ _ w4 _ _ Hw4 eq_refl); [done|done| |].
  - intros w5 Hw5 Hs3. by apply wp_ret, wp_ret.
  - intros r w' [err ->] Hw' Ha Hs. by eexists 2%nat, _, _, err.
Qed.

(** Without TLS, or in a build without OpenSSL, no call is made and nothing is checked. *)
Lemma Config_no_calls openssl config server w :
  use_ssl config = false \/ openssl = false ->
  exists server', Config answer err_text openssl config server w = Done server' w
    /\ (use_ssl config = true -> exists s, ssl_ctx server' = Some s /\ SslContext_Get openssl s = 0).
Proof.
  intros [Hssl| ->]; unfold Config.
  - rewrite Hssl. by eexists.
  - destruct (use_ssl config); [|by eexists].
    destruct (disable_old_ssl_version config), (enable_validation config); cbn; (eexists; split; [done|]; eauto).
Qed.
End specs.

(** ** Runs *)

(** A library where every call succeeds, and one that cannot read the key. *)
Definition willing (h : list ssl_call) (c : ssl_call) : Z := 1.
Definition keyless (h : list ssl_call) (c : ssl_call) : Z :=
  match c with SSL_CTX_use_PrivateKey_file _ _ _ => 0 | _ => 1 end.
Definition tls_config : SslConfig := mkSslConfig true true true (bytes "cert.pem") (bytes "key.pem").
Definition no_calls : Process (list ssl_call) := mkProcess [] [] [] 1.

(** The text about an unreadable key names the certificate. *)
Example key_failure_names_certificate :
  match Config keyless (fun _ => bytes "no such file") true tls_config SslServer_init no_calls with
  | Done _ _ => False
  | Aborted r _ => r = bytes "SSL load private key file failed: cert.pem, no such file"
  end.
Proof. vm_compute. done. Qed.

(** A second [Config] forgets the first context: the destructor frees the last one alone. *)
Definition counting (h : list ssl_call) (c : ssl_call) : Z := match c with SSL_CTX_new => 100 + Z.of_nat (length h) | _ => 1 end.
Definition is_context_call (c : ssl_call) : bool := match c with SSL_CTX_new | SSL_CTX_free _ => true | _ => false end.
Example second_config_leaks :
  let config := mkSslConfig true false false (bytes "cert.pem") (bytes "key.pem") in
  match (server ← Config counting (fun _ => []) true config SslServer_init; server ← Config counting (fun _ => []) true config server;
         TcpServer_dtor counting true server) no_calls with
  | Done _ w => List.filter is_context_call (kernel w) = [SSL_CTX_new; SSL_CTX_new; SSL_CTX_free 104]
  | Aborted _ _ => False
  end.
Proof. vm_compute. done. Qed.

Lemma Config_checks_witness :
  let h := [SSL_CTX_new; SSL_CTX_set_min_proto_version 1 TLS1_2_VERSION; SSL_CTX_set_default_verify_paths 1] in
  wp (Config willing (fun _ => []) true tls_config SslServer_init)
    (fun server w' => server = mkSslServer tls_config (Some (mkSslContext 1)) /\ kernel w' = h ++ (check_calls tls_config 1).*1
       /\ succeed willing h (check_calls tls_config 1) 3)
    (fun r w' => exists i call msg err, check_calls tls_config 1 !! i = Some (call, msg) /\ r = msg ++ err
       /\ kernel w' = h ++ take (S i) (check_calls tls_config 1).*1 /\ succeed willing h (check_calls tls_config 1) i
       /\ willing (h ++ take i (check_calls tls_config 1).*1) call <> 1) no_calls.
Proof. apply (Config_checks willing (fun _ => []) tls_config SslServer_init no_calls). reflexivity. Defined.
