(* ===== verification/HttpResp.v ===== *)
(** * proto/http/HttpResp: an HTTP response and its text

    [headers] is a [std::multimap<std::string, std::string>], an association
    list sorted by the bytes of the names.  [resp_view] is the reader of the
    text that the theorems compare [ToString] with. *)

From S2P Require Import Prelude CxxStd CxxMap DateTime HttpReq HttpReqDecoder.

Record HttpResp := mkResp {
  resp_headers : list (list byte * list byte);
  status_code : Z;
  resp_body : list byte;
}.

Definition HttpResp_init : HttpResp := mkResp [] 200 [].

Definition status_map : list (Z * list byte) := map_of_list Z.ltb
  [(100%Z, bytes "Continue"); (101%Z, bytes "Switching Protocols"); (200%Z, bytes "OK");
   (201%Z, bytes "Created"); (202%Z, bytes "Accepted");
   (203%Z, bytes "Non-Authoritative Information"); (204%Z, bytes "No Content");
   (205%Z, bytes "Reset Content"); (206%Z, bytes "Partial Content");
   (300%Z, bytes "Multiple Choices"); (301%Z, bytes "Moved Permanently"); (302%Z, bytes "Found");
   (303%Z, bytes "See Other"); (304%Z, bytes "Not Modified"); (305%Z, bytes "Use Proxy");
   (307%Z, bytes "Temporary Redirect"); (400%Z, bytes "Bad Request"); (401%Z, bytes "Unauthorized");
   (402%Z, bytes "Payment Required"); (403%Z, bytes "Forbidden"); (404%Z, bytes "Not Found");
   (405%Z, bytes "Method Not Allowed"); (406%Z, bytes "Not Acceptable");
   (407%Z, bytes "Proxy Authentication Required"); (408%Z, bytes "Request Time-out");
   (409%Z, bytes "Conflict"); (410%Z, bytes "Gone"); (411%Z, bytes "Length Required");
   (412%Z, bytes "Precondition Failed"); (413%Z, bytes "Request Entity Too Large");
   (414%Z, bytes "Request-URI Too Large"); (415%Z, bytes "Unsupported Media Type");
   (416%Z, bytes "Requested range not satisfiable"); (417%Z, bytes "Expectation Failed");
   (500%Z, bytes "Internal Server Error"); (501%Z, bytes "Not Implemented");
   (502%Z, bytes "Bad Gateway"); (503%Z, bytes "Service Unavailable");
   (504%Z, bytes "Gateway Time-out"); (505%Z, bytes "HTTP Version not supported")].

Definition set_resp_headers (hs : list (list byte * list byte)) (r : HttpResp) : HttpResp :=
  mkResp hs (status_code r) (resp_body r).

(** [headers.find(name.data())] reads the name as a C string; [emplace] does not. *)
Definition AddHeader (name value : list byte) (multiple : bool) (r : HttpResp) : HttpResp :=
  if multiple then set_resp_headers (multimap_emplace lex_lt name value (resp_headers r)) r
  else
    match map_find lex_lt (c_str name) (resp_headers r) with
    | None => set_resp_headers (multimap_emplace lex_lt name value (resp_headers r)) r
    | Some _ => set_resp_headers (map_assign lex_lt (c_str name) value (resp_headers r)) r
    end.

(** [Status] is [uint16_t]. *)
Definition SetStatus (code : Z) (r : HttpResp) : HttpResp :=
  mkResp (resp_headers r) (u16 code) (resp_body r).
Definition SetContentType (content_type : list byte) (r : HttpResp) : HttpResp :=
  AddHeader (bytes "Content-Type") content_type false r.
Definition SetServer (server_name : list byte) (r : HttpResp) : HttpResp :=
  AddHeader (bytes "Server") server_name false r.
Definition SetRedirect (location : list byte) (code : Z) (r : HttpResp) : HttpResp :=
  AddHeader (bytes "Location") location false (SetStatus code r).
Definition AddEtag (etag : list byte) (r : HttpResp) : HttpResp :=
  AddHeader (bytes "Etag") etag true r.
Definition SetKeepAlive (r : HttpResp) : HttpResp :=
  AddHeader (bytes "Connection") (bytes "keep-Alive") false r.
Definition SetBody (b : list byte) (r : HttpResp) : HttpResp :=
  mkResp (resp_headers r) (status_code r) b.
Definition AppendBody (b : list byte) (r : HttpResp) : HttpResp :=
  mkResp (resp_headers r) (status_code r) (resp_body r ++ b).

Definition GetHeader (name : list byte) (r : HttpResp) : option (list byte) :=
  map_find lex_lt (c_str name) (resp_headers r).
Definition GetStatus (r : HttpResp) : Z := status_code r.
Definition GetContentLength (r : HttpResp) : nat := length (resp_body r).

(** [now] is [utils::DateTime::Now()]. *)
Definition ToString (now : DateTime) (r : HttpResp) : outcome (list byte) :=
  reason ← map_at Z.ltb (status_code r) status_map;
  date ← DateTime.ToGmtString now;
  Ret (bytes "HTTP/1.1 " ++ to_string (status_code r) ++ bytes " " ++ reason ++ CRLF
       ++ mjoin ((fun h => h.1 ++ bytes ": " ++ h.2 ++ CRLF) <$> resp_headers r)
       ++ bytes "Content-Length: " ++ to_string (Z.of_nat (GetContentLength r)) ++ CRLF
       ++ bytes "Date: " ++ date ++ CRLF
       ++ CRLF ++ resp_body r).

(** ** Reading a response *)

Fixpoint header_lines (fuel : nat) (v : list byte) : option (list (list byte * list byte) * list byte) :=
  match fuel with
  | 0 => None
  | S fuel' =>
      if prefix_b CRLF v then Some ([], drop 2 v)
      else
        match header_line v with
        | None => None
        | Some (name, value, n) =>
            match header_lines fuel' (drop n v) with
            | None => None
            | Some (hs, rest) => Some ((name, value) :: hs, rest)
            end
        end
  end.

(** Version, code, reason, headers in order, and what follows the blank line. *)
Definition resp_view (v : list byte)
    : option (list byte * list byte * list byte * list (list byte * list byte) * list byte) :=
  let k := search_idx CRLF v in
  let line := take k v in
  match header_lines (S (length v)) (drop (k + 2) v) with
  | None => None
  | Some (hs, rest) => Some (take 8 line, slice line 9 12, drop 13 line, hs, rest)
  end.

(** ** Lines without a carriage return *)

Lemma no_CR_first_at_end (s : list byte) : CR ∉ s -> first_at_end CRLF s.
Proof.
  unfold first_at_end. induction s as [|x s IH]; [done|]. intros Hn.
  rewrite not_elem_of_cons in Hn. destruct Hn as [Hx Hs].
  cbn [app search_idx]. replace (prefix_b CRLF (x :: s ++ CRLF)) with false.
  - cbn [length]. by rewrite IH.
  - symmetry. cbn [prefix_b CRLF]. by rewrite bool_decide_eq_false_2.
Qed.

Lemma digits_no_CR z : CR ∉ to_string z.
Proof. intros H%to_string_digits. by vm_compute in H. Qed.

Lemma replicate_no_CR n : CR ∉ replicate n Byte.x30.
Proof. intros [H _]%elem_of_replicate. done. Qed.

Lemma const_no_CR (s : list byte) : bool_decide (CR ∉ s) = true -> CR ∉ s.
Proof. apply bool_decide_eq_true_1. Qed.

Lemma nth_no_CR n (l : list (list byte)) : Forall (fun s => CR ∉ s) l -> CR ∉ nth n l [].
Proof.
  intros H. rewrite nth_lookup. destruct (l !! n) as [s|] eqn:E; simpl; [|apply not_elem_of_nil].
  by eapply Forall_lookup_1 in H.
Qed.

Lemma fmt_no_CR w z : CR ∉ fmt_0u w z.
Proof. unfold fmt_0u. rewrite not_elem_of_app. split; [apply replicate_no_CR | apply digits_no_CR]. Qed.

(** The date of [ToGmtString] is one line. *)
Lemma gmt_text_no_CR t : CR ∉ gmt_text t.
Proof.
  unfold gmt_text, fmt_year. rewrite !not_elem_of_app.
  split_and!; try apply fmt_no_CR; try (apply const_no_CR; vm_compute; reflexivity).
  - apply nth_no_CR, (bool_decide_unpack _). vm_compute. exact I.
  - apply nth_no_CR, (bool_decide_unpack _). vm_compute. exact I.
  - case_match; rewrite ?not_elem_of_app; [split|]; try apply digits_no_CR.
    apply const_no_CR. vm_compute. reflexivity.
Qed.

Lemma ToGmtString_no_CR now s : DateTime.ToGmtString now = Ret s -> CR ∉ s.
Proof. unfold DateTime.ToGmtString. case_match; [|done]. intros [= <-]. apply gmt_text_no_CR. Qed.

Lemma wf_header_line (name value : list byte) :
  bool_decide (COLON ∉ name) = true -> prefix_b CRLF name = false -> CR ∉ value -> wf_header (name, value).
Proof. intros ?%bool_decide_eq_true_1 ? ?. split_and!; [done | done | by apply no_CR_first_at_end]. Qed.

(** [header_lines] reads back what was written. *)
Lemma header_lines_wire fuel hs rest :
  Forall wf_header hs -> length hs < fuel ->
  header_lines fuel (mjoin (header_wire <$> hs) ++ CRLF ++ rest) = Some (hs, rest).
Proof.
  intros Hhs. revert fuel. induction Hhs as [|h hs Hh Hhs IH]; intros [|fuel] Hf;
    cbn [length] in Hf; try lia; [done|].
  cbn [header_lines fmap list_fmap mjoin list_join]. rewrite <-app_assoc, header_wire_no_end by done.
  rewrite header_line_wire by done. rewrite drop_app_length.
  rewrite IH by lia. by destruct h.
Qed.

(** ** The status line *)

Definition status_ok (p : Z * list byte) : bool :=
  (length (to_string p.1) =? 3) && bool_decide (CR ∉ p.2).

Lemma status_line_facts code reason :
  map_find Z.ltb code status_map = Some reason -> length (to_string code) = 3 /\ (CR ∉ reason).
Proof.
  intros H. assert (Hin : (code, reason) ∈ status_map).
  { revert H. generalize status_map as m. induction m as [|[k v] m IH]; simpl; [done|].
    destruct (Z.ltb_spec k code); [intros; right; auto|]. destruct (Z.ltb_spec code k); [done|].
    intros [= ->]. replace k with code by lia. left. }
  assert (Hall : forallb status_ok status_map = true) by (vm_compute; reflexivity).
  rewrite forallb_forall in Hall. apply list_elem_of_In in Hin. apply Hall in Hin.
  unfold status_ok in Hin. cbn [fst snd] in Hin. apply andb_true_iff in Hin as [H1 H2].
  by apply Nat.eqb_eq in H1; apply bool_decide_eq_true_1 in H2.
Qed.

(** C26: the text of a response can be read back: the version, the status code and
    its reason, every header in the order of the map with its exact value, then
    Content-Length and Date, and after the blank line the body, whose length is
    the Content-Length.  The names must have no colon, names and values no line
    end: [ToString] does not check this, so a header value with a CRLF forges
    headers. *)
Theorem ToString_readable (now : DateTime) (r : HttpResp) (s : list byte) :
  Forall wf_header (resp_headers r) -> ToString now r = Ret s ->
  exists reason date, map_find Z.ltb (status_code r) status_map = Some reason
    /\ DateTime.ToGmtString now = Ret date
    /\ resp_view s = Some (bytes "HTTP/1.1", to_string (status_code r), reason,
         resp_headers r ++ [(bytes "Content-Length", to_string (Z.of_nat (length (resp_body r))));
                            (bytes "Date", date)], resp_body r).
Proof.
  intros Hwf. unfold ToString, map_at.
  destruct (map_find Z.ltb (status_code r) status_map) as [reason|] eqn:Er; [|done].
  destruct (DateTime.ToGmtString now) as [date|] eqn:Ed; [|done]. mrun. intros [= <-].
  exists reason, date. split_and!; [done..|].
  destruct (status_line_facts _ _ Er) as [Hcode Hreason].
  set (cl := to_string (Z.of_nat (GetContentLength r))).
  set (hs := resp_headers r ++ [(bytes "Content-Length", cl); (bytes "Date", date)]).
  assert (Hhs : Forall wf_header hs).
  { apply Forall_app. split; [done|]. repeat constructor; apply wf_header_line;
      (reflexivity || apply digits_no_CR || by eapply ToGmtString_no_CR). }
  set (line := bytes "HTTP/1.1 " ++ to_string (status_code r) ++ bytes " " ++ reason).
  assert (Hline : first_at_end CRLF line).
  { apply no_CR_first_at_end. unfold line. rewrite !not_elem_of_app.
    split_and!; [by apply const_no_CR; vm_compute | apply digits_no_CR | by apply const_no_CR; vm_compute | done]. }
  match goal with |- resp_view ?s = _ => replace s with (line ++ CRLF ++ mjoin (header_wire <$> hs) ++ CRLF ++ resp_body r) end.
  2:{ unfold line, hs, cl. rewrite fmap_app, join_app. unfold header_wire.
      cbn [fmap list_fmap mjoin list_join fst snd]. rewrite <-!app_assoc. by rewrite app_nil_l. }
  unfold resp_view. rewrite search_idx_app by exact Hline.
  rewrite take_app_length. rewrite <-drop_drop, drop_app_length.
  replace (drop 2 (CRLF ++ mjoin (header_wire <$> hs) ++ CRLF ++ resp_body r))
    with (mjoin (header_wire <$> hs) ++ CRLF ++ resp_body r) by done.
  rewrite header_lines_wire; [|done|].
  2:{ rewrite !length_app. pose proof (length_mjoin_headers hs). lia. }
  f_equal. unfold line. repeat f_equal; [|].
  - rewrite (slice_mid (bytes "HTTP/1.1 ")); [done | done | by rewrite Hcode].
  - rewrite !app_assoc. apply drop_app_length'. rewrite !length_app, Hcode. done.
Qed.

Lemma ToString_readable_witness :
  let r := AddHeader (bytes "Upgrade") (bytes "WebSocket") false
             (AppendBody (bytes "hi") (SetStatus 404 HttpResp_init)) in
  exists reason date, map_find Z.ltb 404%Z status_map = Some reason
    /\ DateTime.ToGmtString 784111777000000%Z = Ret date
    /\ resp_view (match ToString 784111777000000%Z r with Ret s => s | Throw _ => [] end)
       = Some (bytes "HTTP/1.1", bytes "404", reason,
           [(bytes "Upgrade", bytes "WebSocket"); (bytes "Content-Length", bytes "2");
            (bytes "Date", date)], bytes "hi").
Proof.
  apply (ToString_readable 784111777000000%Z
    (AddHeader (bytes "Upgrade") (bytes "WebSocket") false
             (AppendBody (bytes "hi") (SetStatus 404 HttpResp_init)))).
  - repeat constructor; vm_compute; try reflexivity. apply (bool_decide_unpack (COLON ∉ bytes "Upgrade")).
    vm_compute. exact I.
  - vm_compute. reflexivity.
Defined.

(** Headers behave as a dictionary with repetition: setting a header that
    exists replaces its value, setting a new one adds it, [multiple] adds a
    further value without changing the one [GetHeader] finds, and no other
    header is affected. *)
Theorem AddHeader_GetHeader (name name2 value : list byte) (multiple : bool) (r : HttpResp) :
  Byte.x00 ∉ name -> Byte.x00 ∉ name2 ->
  GetHeader name2 (AddHeader name value multiple r)
  = (if decide (name2 = name)
     then Some (if multiple then default value (GetHeader name r) else value)
     else GetHeader name2 r)
  /\ length (resp_headers (AddHeader name value multiple r))
     = match multiple, GetHeader name r with
       | false, Some _ => length (resp_headers r)
       | _, _ => S (length (resp_headers r))
       end.
Proof.
  intros Hn Hn2. unfold AddHeader, GetHeader. rewrite !c_str_no_nul by done.
  assert (Hk : equiv_key lex_lt name name2 = bool_decide (name2 = name)).
  { rewrite equiv_key_lex. apply bool_decide_ext. naive_solver. }
  assert (Hlen : forall m, length (multimap_emplace lex_lt name value m) = S (length m)).
  { induction m as [|[k v] m IH]; simpl; [done|]. case_match; simpl; [done|]. by rewrite IH. }
  destruct multiple; [|destruct (map_find lex_lt name (resp_headers r)) eqn:E]; cbn [resp_headers set_resp_headers].
  - rewrite map_find_multimap_emplace, Hk by apply _. split; [|apply Hlen].
    case_decide; [by rewrite bool_decide_eq_true_2 | by rewrite bool_decide_eq_false_2].
  - rewrite map_find_assign, Hk by apply _. split.
    + case_decide; [rewrite bool_decide_eq_true_2, E by done; done | by rewrite bool_decide_eq_false_2].
    + rewrite <-(length_map fst), fst_map_assign. apply length_map.
  - rewrite map_find_multimap_emplace, Hk by apply _. split; [|apply Hlen].
    case_decide; [rewrite bool_decide_eq_true_2, E by done; done | by rewrite bool_decide_eq_false_2].
Qed.

Lemma AddHeader_GetHeader_witness :
  let r := SetServer (bytes "jerry") HttpResp_init in
  GetHeader (bytes "Server") (AddHeader (bytes "Server") (bytes "tom") false r) = Some (bytes "tom").
Proof.
  apply (AddHeader_GetHeader (bytes "Server") (bytes "Server") (bytes "tom") false
           (SetServer (bytes "jerry") HttpResp_init));
    apply (bool_decide_unpack (Byte.x00 ∉ bytes "Server")); vm_compute; exact I.
Defined.
