(* ===== verification/HttpServer.v ===== *)
(** * proto/http/HttpServer: requests in, responses out

    The server gives every connection a decoder over its receive buffer, and
    answers every decoded request with the text of the response the user's
    [OnRequest] fills. *)

From S2P Require Import Prelude CxxStd CxxMap DateTime BaseBuffer Channel TcpConn TcpConnInv TcpStream.
From S2P Require Import HttpReq HttpReqDecoder HttpResp.
Local Open Scope Z_scope.

Section server.
Context {Any : Type} `{AnyCast HttpReqDecoder Any}.
Abbreviation HttpWorker := (Worker Any).

(** The [std::any] codec holds a [shared_ptr<HttpReqDecoder>].  The decoder's
    buffer is a reference to the connection's [recv_buffer]: its [dbuf] is
    loaded before it runs and stored back afterwards. *)
Definition load_decoder (c : TcpConn Any) (d : HttpReqDecoder) : HttpReqDecoder :=
  set_buffer (recv_buffer c) d.
Definition store_decoder (d : HttpReqDecoder) (c : TcpConn Any) : TcpConn Any :=
  set_codec (Some (any_of d)) (set_recv_buffer (dbuf d) c).

Context (sys : Kernel Any).
Context (OnConnected OnDisConnected : ptr -> DateTime -> HttpWorker -> outcome HttpWorker).
Context (OnRequest : HttpReq -> HttpResp -> ptr -> DateTime -> HttpWorker -> outcome (HttpResp * HttpWorker)).

Definition OnTcpConnected (p : ptr) (time : DateTime) (w : HttpWorker) : outcome HttpWorker :=
  c ← conn_at p w;
  let decoder := SetBodyMaxBytes (4 * 1024 * 1024) (HttpReqDecoder_init (recv_buffer c)) in
  w ← SetStreamCodec p (any_of decoder) w;
  OnConnected p time w.

Definition OnTcpDisconnected (p : ptr) (time : DateTime) (w : HttpWorker) : outcome HttpWorker :=
  OnDisConnected p time w.

Definition OnTcpReceivedData (p : ptr) (time : DateTime) (w : HttpWorker) : outcome HttpWorker :=
  d ← GetDecoder p w;
  c ← conn_at p w;
  r ← Decode true (load_decoder c d);
  let '(o, d') := (r : option HttpReq * HttpReqDecoder) in
  let w := put_conn p (store_decoder d' c) w in
  match o with
  | None => Ret w
  | Some q =>
      r ← OnRequest q HttpResp_init p time w;
      let '(resp, w) := (r : HttpResp * HttpWorker) in
      s ← HttpResp.ToString (now sys w) resp;
      Send p s w
  end.

(** The virtual functions do nothing by default. *)
Definition default_OnRequest (q : HttpReq) (r : HttpResp) (p : ptr) (time : DateTime) (w : HttpWorker)
    : outcome (HttpResp * HttpWorker) := Ret (r, w).
Definition default_OnConnected (p : ptr) (time : DateTime) (w : HttpWorker) : outcome HttpWorker := Ret w.
Definition default_OnDisConnected (p : ptr) (time : DateTime) (w : HttpWorker) : outcome HttpWorker := Ret w.
End server.

(** ** Answering a request *)

Section answer.
Context {Any : Type} `{AnyCast HttpReqDecoder Any} (sys : Kernel Any).
Context (OnRequest : HttpReq -> HttpResp -> ptr -> DateTime -> Worker Any -> outcome (HttpResp * Worker Any)).
Implicit Types (w : Worker Any) (c : TcpConn Any).

(** The decoder of the connection waits for a request. *)
Definition expects_request (c : TcpConn Any) (d : HttpReqDecoder) : Prop :=
  codec c = Some (any_of d) /\ state d = kExpectRequestLine /\ headers (req d) = [].

(** What a decoder carries from one request to the next. *)
Definition same_limits (d d' : HttpReqDecoder) : Prop :=
  body_max_bytes d' = body_max_bytes d /\ is_body_truncated (req d') = is_body_truncated (req d).

Lemma parsed_limits d d' uri hs m ver bd : same_limits d d' -> parsed d' uri hs m ver bd = parsed d uri hs m ver bd.
Proof. intros [E1 E2]. unfold parsed. by rewrite E1, E2. Qed.

(** What a user's [OnRequest] does with [q] at [time], as far as the server relies
    on it: it fills a response, and leaves the connection open with its buffers
    and its codec.  [R] tells of the response and of the context it leaves. *)
Definition handles (q : HttpReq) (time : DateTime) (p : ptr) (ctx : TcpContext) (R : HttpResp -> TcpContext -> Prop)
    : Prop :=
  forall w c, wf_worker w -> heap w !! p = Some c -> conn_state c = kConnected -> context c = ctx ->
  exists resp w' c', OnRequest q HttpResp_init p time w = Ret (resp, w') /\ R resp (context c') /\ step_ok p w w'
    /\ heap w' !! p = Some c' /\ conn_state c' = kConnected /\ send_buffer c' = send_buffer c
    /\ recv_buffer c' = recv_buffer c /\ codec c' = codec c /\ fd_of c' = fd_of c
    /\ exists s, HttpResp.ToString (now sys w') resp = Ret s.

Lemma request_answered p time w c d (tok uri vtok bd : list byte) (hs : Headers) m ver R :
  let q := parsed d uri hs m ver bd in
  wf_worker w -> heap w !! p = Some c -> conn_state c = kConnected -> expects_request c d ->
  wf_request tok uri vtok hs m ver -> view (recv_buffer c) = request_head tok uri vtok hs ++ bd ->
  handles q time p (context c) R ->
  exists w' c' d' resp s t, OnTcpReceivedData sys OnRequest p time w = Ret w'
    /\ step_ok p w w' /\ heap w' !! p = Some c' /\ conn_state c' = kConnected /\ fd_of c' = fd_of c
    /\ R resp (context c') /\ HttpResp.ToString t resp = Ret s /\ view (send_buffer c') = view (send_buffer c) ++ s
    /\ view (recv_buffer c') = [] /\ expects_request c' d' /\ same_limits d d'.
Proof.
  intros q Hw Hp Hst (Hcodec & Hs & Hh) Hreq Hv Hu.
  pose proof (wf_conns w Hw p c Hp) as [Hsb Hrb Hg].
  unfold OnTcpReceivedData, GetDecoder. rewrite (conn_at_alive p c) by done. mrun.
  unfold cast_to. rewrite Hcodec. cbn [mbind option_bind]. rewrite any_cast_of.
  destruct (decode_whole true (load_decoder c d) tok uri vtok bd hs m ver) as (b' & Hb' & Hvb & E); [done..|by left|done|done|].
  mrun. rewrite E. change (parsed (load_decoder c d) uri hs m ver bd) with q.
  set (d' := mkDecoder _ _ _ b'). set (w1 := put_conn p (store_decoder d' c) w).
  assert (Hs1 : step_ok p w w1) by by apply (step_put p c).
  destruct (Hu w1 (store_decoder d' c)) as (resp & w2 & c2 & E2 & HR & Hs2 & Hp2 & Hst2 & Hsb2 & Hrb2 & Hc2 & Hfd2 & s & Es);
    [apply Hs1 | apply lookup_insert_eq | done | done |]. rewrite E2. mrun. rewrite Es. mrun.
  destruct (Send_open p c2 w2 s) as (c' & t' & -> & Hs3 & Hfd' & Hst' & Hv' & Hr' & Hc' & Hx'); [apply Hs2|done..|].
  exists (set_epoll t' (put_conn p c' w2)), c', d', resp, s, (now sys w2). split_and!; try done.
  - by eapply step_trans; [|eapply step_trans].
  - apply lookup_insert_eq.
  - by rewrite Hfd', Hfd2.
  - by rewrite Hx'.
  - by rewrite Hv', Hsb2.
  - by rewrite Hr', Hrb2.
  - split; [by rewrite Hc', Hc2|done].
Qed.
End answer.

(** A handler that only computes the response from the request. *)
Definition pure_handler {Any} (h : HttpReq -> HttpResp) (q : HttpReq) (r : HttpResp) (p : ptr) (time : DateTime)
    (w : Worker Any) : outcome (HttpResp * Worker Any) := Ret (h q, w).

Lemma pure_handles {Any} `{AnyCast HttpReqDecoder Any} (sys : Kernel Any) h q time p ctx :
  (forall w : Worker Any, exists s, HttpResp.ToString (now sys w) (h q) = Ret s) ->
  handles sys (pure_handler h) q time p ctx (fun resp ctx' => resp = h q /\ ctx' = ctx).
Proof.
  intros Ht w c Hw Hp Hst Hc. exists (h q), w, c. do 2 (split; [done|]). split; [by apply step_refl|].
  do 6 (split; [done|]). apply Ht.
Qed.

(** A request in, a response out.  When a complete well-formed request is in
    the receive buffer of an open connection whose decoder waits for a request,
    the user's handler gets exactly that request, the text of its response is
    queued for sending behind what was queued, the receive buffer is empty and
    the decoder waits for the next request. *)
Theorem http_request_answered {Any} `{AnyCast HttpReqDecoder Any} (sys : Kernel Any)
    (OnRequest : HttpReq -> HttpResp -> ptr -> DateTime -> Worker Any -> outcome (HttpResp * Worker Any)) (p : ptr)
    (time : DateTime) (w : Worker Any) (c : TcpConn Any) (d : HttpReqDecoder)
    (tok uri vtok bd : list byte) (hs : Headers) (m : Method) (ver : HttpVersion) (R : HttpResp -> TcpContext -> Prop) :
  let q := parsed d uri hs m ver bd in
  wf_worker w -> heap w !! p = Some c -> conn_state c = kConnected -> expects_request c d ->
  wf_request tok uri vtok hs m ver -> view (recv_buffer c) = request_head tok uri vtok hs ++ bd ->
  handles sys OnRequest q time p (context c) R ->
  exists w' c' d' resp s t, OnTcpReceivedData sys OnRequest p time w = Ret w'
    /\ wf_worker w' /\ heap w' !! p = Some c' /\ conn_state c' = kConnected /\ R resp (context c')
    /\ HttpResp.ToString t resp = Ret s /\ view (send_buffer c') = view (send_buffer c) ++ s
    /\ view (recv_buffer c') = [] /\ expects_request c' d'.
Proof.
  intros q Hw Hp Hst Hd Hreq Hv Hu.
  destruct (request_answered sys OnRequest p time w c d tok uri vtok bd hs m ver R Hw Hp Hst Hd Hreq Hv Hu)
    as (w' & c' & d' & resp & s & t & ? & [Hw' _ _] & ? & ? & _ & ? & ? & ? & ? & ? & _). by exists w', c', d', resp, s, t.
Qed.

(** ** A request over the wire *)

Section wire.
Context {Any : Type} `{AnyCast HttpReqDecoder Any} (sys : Kernel Any).
Context (OnRequest : HttpReq -> HttpResp -> ptr -> DateTime -> Worker Any -> outcome (HttpResp * Worker Any)).

(** The callback of a connection of the server, as [Serve] builds it without a
    limiter. *)
Definition http_callback : TcpCallback Any :=
  mkTcpCallback None None (Some (OnTcpReceivedData sys OnRequest)).

(** C15: a request over the wire is answered over the wire.  When the kernel
    delivers a complete well-formed request, in one piece, on an open
    connection whose decoder waits for a request: the user's handler gets
    exactly that request, and the bytes written to the client by the following
    writable events, one more than the response has bytes at most, are the
    text of the response, whole and nothing else; the decoder then waits for
    the next request. *)
Theorem http_end_to_end (p : ptr) (time : DateTime) (w : Worker Any) (c : TcpConn Any) (d : HttpReqDecoder)
    (tok uri vtok bd : list byte) (hs : Headers) (m : Method) (ver : HttpVersion) (R : HttpResp -> TcpContext -> Prop) :
  let q := parsed d uri hs m ver bd in
  kernel_ok sys -> peer_stays sys -> (forall w fd v, v <> [] -> 0 < sys_write sys w fd v) ->
  open_at p w c -> expects_request c d -> view (recv_buffer c) = [] -> view (send_buffer c) = [] ->
  wf_request tok uri vtok hs m ver ->
  sys_readv sys w (fd_of c) (iov_of (recv_buffer c)) = ReadData (request_head tok uri vtok hs ++ bd) ->
  handles sys OnRequest q time p (context c) R ->
  exists w1 resp s t ctx', OnChannelReadable sys http_callback p time w = Ret w1
    /\ R resp ctx' /\ HttpResp.ToString t resp = Ret s
    /\ forall n, (length s < n)%nat ->
         exists w2 c2 es d', run_stream sys http_callback p (replicate n StreamWritable) w1 = Ret w2
           /\ trace w2 = trace w1 ++ es /\ written (fd_of c) es = s
           /\ open_at p w2 c2 /\ view (send_buffer c2) = [] /\ view (recv_buffer c2) = [] /\ expects_request c2 d'.
Proof.
  intros q Hk Hpeer Hprog Ho Hd Hr Hq Hreq Hread Hu. pose proof Ho as (Hw & Hp & Hst & Henc).
  destruct (OnChannelReadable_open sys http_callback p time w c _ Hk Ho Hread) as (b & Hb & Hv & ->).
  { unfold request_head. by destruct tok. }
  rewrite Hr in Hv. cbn [app] in Hv. set (w0 := put_conn p (set_recv_buffer b c) w).
  set (w0' := emit (CallDataReceived p) (emit (SysRead (fd_of c) (request_head tok uri vtok hs ++ bd)) w0)).
  assert (Hw0 : wf_worker w0') by exact (wf_emit _ _ (wf_emit _ _ (so_wf _ _ _ (step_put_recv p c b w Hw Hp Hb)))).
  destruct (request_answered sys OnRequest p time w0' (set_recv_buffer b c) d tok uri vtok bd hs m ver R Hw0)
    as (w1 & c1 & d1 & resp & s & t & E1 & Hs1 & Hp1 & Hst1 & Hfd1 & HR & Hs & Hq1 & Hr1 & Hd1 & _);
    [apply lookup_insert_eq|done|done|done|done|done|].
  exists w1, resp, s, t, (context c1). split; [exact E1|]. split; [done|]. split; [done|]. intros n Hn.
  assert (Hq1' : view (send_buffer c1) = s) by (rewrite Hq1; cbn [send_buffer set_recv_buffer]; by rewrite Hq).
  assert (Ho1 : open_at p w1 c1).
  { split; [apply Hs1|]. split; [done|]. split; [done|]. by rewrite (so_encrypted _ _ _ Hs1). }
  destruct (flush_spec sys http_callback p n w1 c1 Hk Hpeer Hprog Ho1) as (w2 & c2 & E2 & Ho2 & Hv2 & _); [by rewrite Hq1'|].
  destruct (run_stream_spec sys http_callback p (replicate n StreamWritable) w1 c1 Hk Hpeer Ho1)
    as (w2' & c2' & es & E2' & Ho2' & _ & Ht2 & Hb2).
  rewrite E2 in E2'. injection E2' as <-. destruct Ho2' as (_ & Hp2' & _). pose proof Ho2 as (_ & Hp2 & _).
  rewrite Hp2 in Hp2'. injection Hp2' as <-.
  destruct (run_writable_keeps sys http_callback p n w1 c1 w2 c2 Hk Hpeer Ho1 E2 Hp2) as [Hr2 Hc2].
  exists w2, c2, es, d1. split; [done|]. split; [done|]. split.
  - rewrite Hfd1, Hv2, Hq1', app_nil_r, stream_data_writable, app_nil_r in Hb2. exact Hb2.
  - split; [done|]. split; [done|]. split; [by rewrite Hr2|]. destruct Hd1 as (Hd1 & ? & ?). split; [by rewrite Hc2|done].
Qed.
End wire.

(** A connection on which a GET request arrived. *)
Definition get_request : list byte :=
  request_head (bytes "GET") (bytes "/index") (bytes "HTTP/1.1") [(bytes "Host", bytes "jerry")].
Definition http_conn : TcpConn HttpReqDecoder :=
  lone_conn (Append get_request (BaseBuffer_init 1024))
    (Some (SetBodyMaxBytes (4 * 1024 * 1024) (HttpReqDecoder_init (BaseBuffer_init 1024)))).
Definition http_worker : Worker HttpReqDecoder := lone_worker http_conn.
Definition http_kernel : Kernel HttpReqDecoder :=
  mkKernel (fun _ _ _ => ReadFail 0) (fun _ _ _ => 0) (fun _ _ => false) (fun _ _ => 0)
    (fun _ _ _ => ReadFail 0) (fun _ _ _ _ => 0) (fun _ _ _ => false) (fun _ => 784111777000000) true.
Definition hello (q : HttpReq) : HttpResp := AppendBody (GetRequestUri q) HttpResp_init.

Lemma http_worker_wf : wf_worker http_worker.
Proof. apply lone_worker_wf, wf_Append, wf_init. Qed.


(** The request as the handler gets it. *)
Definition http_decoder : HttpReqDecoder := SetBodyMaxBytes (4 * 1024 * 1024) (HttpReqDecoder_init (BaseBuffer_init 1024)).
Definition get_parsed : HttpReq := parsed http_decoder (bytes "/index") [(bytes "Host", bytes "jerry")] GET Http11 [].

Lemma http_request_answered_witness :
  exists w' c' d' resp s t, OnTcpReceivedData http_kernel (pure_handler hello) 7 0 http_worker = Ret w'
    /\ wf_worker w' /\ heap w' !! (7 : ptr) = Some c' /\ conn_state c' = kConnected
    /\ (resp = hello get_parsed /\ context c' = context http_conn)
    /\ HttpResp.ToString t resp = Ret s /\ view (send_buffer c') = view (send_buffer http_conn) ++ s
    /\ view (recv_buffer c') = [] /\ expects_request c' d'.
Proof.
  apply (http_request_answered http_kernel (pure_handler hello) 7 0 http_worker http_conn http_decoder
           (bytes "GET") (bytes "/index") (bytes "HTTP/1.1") [] [(bytes "Host", bytes "jerry")] GET Http11
           (fun resp ctx => resp = hello get_parsed /\ ctx = context http_conn)).
  - apply http_worker_wf.
  - apply lone_worker_heap.
  - reflexivity.
  - by split_and!.
  - apply wf_request_dec. vm_compute. reflexivity.
  - vm_compute. reflexivity.
  - apply pure_handles. intros w. eexists. vm_compute. reflexivity.
Defined.

(** A fresh connection of the server, on which the request is about to arrive. *)
Definition new_http_conn : TcpConn HttpReqDecoder := lone_conn (BaseBuffer_init 1024) (Some http_decoder).
Definition new_http_worker : Worker HttpReqDecoder := lone_worker new_http_conn.

Lemma new_http_worker_wf : wf_worker new_http_worker.
Proof. apply lone_worker_wf, wf_init. Qed.

Lemma http_end_to_end_witness :
  let sys := test_kernel get_request 0 in
  exists w1 resp s t ctx', OnChannelReadable sys (http_callback sys (pure_handler hello)) 7 0 new_http_worker = Ret w1
    /\ (resp = hello get_parsed /\ ctx' = context new_http_conn) /\ HttpResp.ToString t resp = Ret s
    /\ forall n, (length s < n)%nat ->
         exists w2 c2 es d', run_stream sys (http_callback sys (pure_handler hello)) 7 (replicate n StreamWritable) w1 = Ret w2
           /\ trace w2 = trace w1 ++ es /\ written (fd_of new_http_conn) es = s
           /\ open_at 7 w2 c2 /\ view (send_buffer c2) = [] /\ view (recv_buffer c2) = [] /\ expects_request c2 d'.
Proof.
  intros sys. apply (http_end_to_end sys (pure_handler hello) 7 0 new_http_worker new_http_conn http_decoder
           (bytes "GET") (bytes "/index") (bytes "HTTP/1.1") [] [(bytes "Host", bytes "jerry")] GET Http11
           (fun resp ctx => resp = hello get_parsed /\ ctx = context new_http_conn)).
  - apply test_kernel_ok.
  - apply test_kernel_stays.
  - intros w fd v Hv. destruct v; [done|]. cbn. unfold write_max. lia.
  - split_and!; [apply new_http_worker_wf | apply lone_worker_heap | done | done].
  - by split_and!.
  - reflexivity.
  - reflexivity.
  - apply wf_request_dec. vm_compute. reflexivity.
  - rewrite app_nil_r. change (sys_readv sys new_http_worker (fd_of new_http_conn)) with (readv_of get_request).
    unfold readv_of. rewrite take_ge; [done|].
    assert (Hl : (length get_request <= 1024)%nat) by (apply Nat.leb_le; vm_compute; reflexivity).
    pose proof (iov_of_writable (recv_buffer new_http_conn)) as Hi.
    assert (Hw : WritableBytes (recv_buffer new_http_conn) = 1024%nat) by (vm_compute; reflexivity). lia.
  - apply pure_handles. intros w. change (now sys w) with 0. clear sys. eexists. vm_compute. reflexivity.
Defined.
