(* ===== verification/HttpTyped.v ===== *)
(** * proto/http/HttpServer: the codec of a connection is a decoder

    [conn->GetDecoder<...>()] casts the [std::any] codec of the connection, and
    the user's functions cast its context.  Whatever bytes a client sends, in
    whatever pieces, the casts of the server hold. *)

From S2P Require Import Prelude CxxStd CxxMap DateTime BaseBuffer Channel TcpConn TcpConnInv TcpStream.
From S2P Require Import HttpReq HttpReqDecoder HttpResp HttpServer.
Local Open Scope Z_scope.

(** ** Results without a type error *)

(** A result in [P], or a fault that is no failed cast, no failed assertion and not the end of
    the fuel. *)
Definition cast_safe {A} (P : A -> Prop) (o : outcome A) : Prop :=
  match o with
  | Ret x => P x
  | Throw (UndefinedBehaviour | OutOfRange) => True
  | Throw (BadAnyCast | AssertFailed | OutOfFuel) => False
  end.

Lemma cast_safe_bind {A B} (P : A -> Prop) (Q : B -> Prop) (o : outcome A) (f : A -> outcome B) :
  cast_safe P o -> (forall x, P x -> cast_safe Q (f x)) -> cast_safe Q (x ← o; f x).
Proof. intros Ho Hf. by destruct o as [x|[]]; mrun; try done; apply Hf. Qed.

Lemma cast_safe_mono {A} (P Q : A -> Prop) (o : outcome A) : (forall x, P x -> Q x) -> cast_safe P o -> cast_safe Q o.
Proof. intros H. by destruct o as [x|[]]; cbn; auto. Qed.

Lemma map_at_cast_safe {K V} (lt : K -> K -> bool) k (m : list (K * V)) : cast_safe (fun _ => True) (map_at lt k m).
Proof. unfold map_at. by destruct (map_find lt k m). Qed.

Lemma resp_text_cast_safe t r : cast_safe (fun _ => True) (HttpResp.ToString t r).
Proof.
  unfold HttpResp.ToString. eapply cast_safe_bind; [apply map_at_cast_safe|]. intros reason _.
  unfold DateTime.ToGmtString. by destruct (_ <? 30)%nat.
Qed.

Inductive http_event := HttpReadable (time : DateTime) | HttpWritable.

Section typed.
Context {Any : Type} `{AnyCast HttpReqDecoder Any} (sys : Kernel Any).
Context (OnConnected : ptr -> DateTime -> Worker Any -> outcome (Worker Any)).
Context (OnRequest : HttpReq -> HttpResp -> ptr -> DateTime -> Worker Any -> outcome (HttpResp * Worker Any)).
Implicit Types (w : Worker Any) (c : TcpConn Any).

(** The connection at [p] is open, its codec is a decoder, and its context
    holds what the user's functions expect there. *)
Definition http_typed (context_ok : TcpContext -> Prop) (p : ptr) w : Prop :=
  exists c d, open_at p w c /\ codec c = Some (any_of d) /\ context_ok (context c).

(** The user's functions keep the connection open and its codec, and leave a
    good context when they find one. *)
Definition user_typed (context_ok : TcpContext -> Prop) : Prop :=
  (forall p time w, http_typed context_ok p w -> cast_safe (http_typed context_ok p) (OnConnected p time w))
  /\ (forall q p time w, http_typed context_ok p w ->
        cast_safe (fun r => http_typed context_ok p r.2) (OnRequest q HttpResp_init p time w)).

Definition run_http_event (p : ptr) (e : http_event) w : outcome (Worker Any) :=
  match e with
  | HttpReadable time => OnChannelReadable sys (http_callback sys OnRequest) p time w
  | HttpWritable => OnChannelWritable sys (http_callback sys OnRequest) p w
  end.

Fixpoint run_http (p : ptr) (es : list http_event) w : outcome (Worker Any) :=
  match es with
  | [] => Ret w
  | e :: es => w ← run_http_event p e w; run_http p es w
  end.

Context (context_ok : TcpContext -> Prop) (Huser : user_typed context_ok).

(** Decoding touches the buffer and the codec. *)
Lemma OnTcpReceivedData_typed p time w :
  http_typed context_ok p w -> cast_safe (http_typed context_ok p) (OnTcpReceivedData sys OnRequest p time w).
Proof.
  intros (c & d & (Hw & Hp & Hst & Henc) & Hcodec & Hctx).
  unfold OnTcpReceivedData, GetDecoder. rewrite (conn_at_alive p c) by done. mrun.
  unfold cast_to. rewrite Hcodec. cbn [mbind option_bind]. rewrite any_cast_of. mrun.
  pose proof (wf_conns w Hw p c Hp) as [Hs Hr Hg].
  pose proof (Decode_total true (load_decoder c d) Hr) as Hd.
  destruct (Decode true (load_decoder c d)) as [[o d']|[]]; mrun; try done; [|by destruct Hd as [_ []]; left].
  set (w1 := put_conn p (store_decoder d' c) w).
  assert (H1 : http_typed context_ok p w1).
  { exists (store_decoder d' c), d'. split; [|done]. split_and!; [|apply lookup_insert_eq|done|done].
    apply (so_wf p w). by apply (step_put p c). }
  destruct o as [q|]; [|exact H1].
  eapply cast_safe_bind; [by apply Huser|]. intros [resp w2] (c2 & d2 & (Hw2 & Hp2 & Hst2 & Henc2) & Hcodec2 & Hctx2).
  eapply cast_safe_bind; [apply resp_text_cast_safe|]. intros s _. cbn [snd] in *.
  destruct (Send_open p c2 w2 s) as (c' & t' & -> & Hs3 & _ & Hst' & _ & _ & Hc' & Hx'); [done..|].
  exists c', d2. split; [|by rewrite Hc', Hx']. split_and!; [apply Hs3|apply lookup_insert_eq|done|done].
Qed.

Lemma run_http_typed p es w :
  kernel_ok sys -> peer_stays sys -> peer_sends sys ->
  http_typed context_ok p w -> cast_safe (http_typed context_ok p) (run_http p es w).
Proof.
  intros Hk Hpeer Hsend. revert w. induction es as [|e es IH]; intros w Hw; [done|]. cbn [run_http].
  eapply cast_safe_bind; [|exact IH]. destruct Hw as (c & d & Ho & Hcodec & Hctx). pose proof Ho as (Hw & Hp & Hst & Henc).
  destruct e as [time|]; cbn [run_http_event].
  - destruct (Hsend w (fd_of c) (iov_of (recv_buffer c)) (iov_of_room _)) as (x & Hx & Hne).
    destruct (OnChannelReadable_open sys (http_callback sys OnRequest) p time w c x Hk Ho Hx Hne) as (b & Hb & _ & ->).
    apply OnTcpReceivedData_typed. exists (set_recv_buffer b c), d. split; [|done].
    split_and!; [|apply lookup_insert_eq|done|done].
    exact (wf_emit _ _ (wf_emit _ _ (so_wf _ _ _ (step_put_recv p c b w Hw Hp Hb)))).
  - destruct (OnChannelWritable_open sys (http_callback sys OnRequest) Hk p c w Hw Hp Hst Henc (Hpeer _ _ _))
      as (w' & c' & -> & Hw' & Honly & _ & Hp' & _ & Hst' & _ & (_ & Hc' & Hx') & _).
    exists c', d. split; [|by rewrite Hc', Hx'].
    split_and!; [apply Hw'|done|done|by rewrite (oc_encrypted _ _ _ Honly)].
Qed.

(** The new connection gets its decoder. *)
Lemma OnTcpConnected_typed p time w c :
  open_at p w c -> context_ok (context c) -> cast_safe (http_typed context_ok p) (OnTcpConnected OnConnected p time w).
Proof.
  intros (Hw & Hp & Hst & Henc) Hctx. unfold OnTcpConnected, SetStreamCodec. rewrite (conn_at_alive p c) by done. mrun.
  apply Huser.
  eexists _, _. split; [split_and!; [|apply lookup_insert_eq|done|done]|split; [reflexivity|done]].
  apply (so_wf p w). apply (step_put p c); [done..|].
  by destruct (wf_conns w Hw p c Hp).
Qed.

(** C18: type safety of the server.  A connection that is handed to the server
    gets a decoder; whatever the client then sends, in whatever pieces and
    however often it reads, no [std::any_cast] of the server or of user functions that
    keep to their context fails, the decoder stays in its place and the
    connection stays open; what can end the run are only the known faults of
    the decoder and of the user's functions. *)
Theorem server_typed p (time : DateTime) (es : list http_event) w c :
  kernel_ok sys -> peer_stays sys -> peer_sends sys -> open_at p w c -> context_ok (context c) ->
  cast_safe (http_typed context_ok p) (w ← OnTcpConnected OnConnected p time w; run_http p es w).
Proof.
  intros Hk Hpeer Hsend Ho Hctx. eapply cast_safe_bind; [by eapply OnTcpConnected_typed|].
  intros w'. by apply run_http_typed.
Qed.
End typed.

(** Functions that touch nothing. *)
Lemma pure_user_typed {Any} `{AnyCast HttpReqDecoder Any} (sys : Kernel Any) (h : HttpReq -> HttpResp) context_ok :
  user_typed default_OnConnected (pure_handler h) context_ok.
Proof. split; intros; done. Qed.

(** A new connection, and a client that sends the same cut request line for ever. *)
Definition accepted_conn : TcpConn HttpReqDecoder := lone_conn (BaseBuffer_init 1024) None.
Definition accepted_worker : Worker HttpReqDecoder := lone_worker accepted_conn.

Lemma server_typed_witness :
  let sys := test_kernel (bytes "GET /index HT") 0 in
  cast_safe (http_typed (fun _ => True) 7)
    (w ← OnTcpConnected default_OnConnected 7 0 accepted_worker;
     run_http sys (pure_handler hello) 7 [HttpReadable 1; HttpWritable; HttpReadable 2] w).
Proof.
  intros sys. apply (server_typed sys default_OnConnected (pure_handler hello) (fun _ => True)
                       (pure_user_typed sys hello (fun _ => True)) 7 0 [HttpReadable 1; HttpWritable; HttpReadable 2]
                       accepted_worker accepted_conn).
  - apply test_kernel_ok.
  - apply test_kernel_stays.
  - intros w fd iov Hiov. eexists. split; [done|]. by destruct (sum_list iov); [lia|].
  - split_and!; [apply lone_worker_wf, wf_init | apply lone_worker_heap | done | done].
  - exact I.
Defined.
