(* ===== verification/DemoHttpServer.v ===== *)
(** * examples/DemoHttpServer: a page for every request

    The handler of the example fills a page with the time of the request, the time
    of the last visit, which it keeps in the context of the connection, and the
    text of the request. *)

From S2P Require Import Prelude CxxStd CxxMap DateTime BaseBuffer Channel TcpConn TcpConnInv TcpStream.
From S2P Require Import HttpReq HttpReqDecoder HttpResp HttpServer HttpTyped.
Local Open Scope Z_scope.

(** The four pieces of the format between its three [%s]. *)
Definition page_0 : list byte := bytes "
                    <html>
                        <head>
                            <title>Demo</title>
                        </head>
                        <body>
                            <h1>Hello, This is Jerry!</h1>
                            <p>Server received request: ".
Definition page_1 : list byte := bytes "</p>
                            <p>Last visit time: ".
Definition page_2 : list byte := bytes "</p>
                            <hr>
                            <div>
                                <h4>Your Request</h4>
                                <pre>".
Definition page_3 : list byte := bytes "</pre>
                            </div>
                        </body>
                    </html>
                ".

Definition page (time last_time : DateTime) (request : list byte) : list byte :=
  page_0 ++ c_str (DateTime.ToString time) ++ page_1 ++ c_str (DateTime.ToString last_time)
  ++ page_2 ++ c_str request ++ page_3.

Definition kPageSize : nat := Z.to_nat 8192.

Section handler.
Context {Any : Type} `{AnyCast HttpReqDecoder Any} `{AnyCast DateTime Any} (sys : Kernel Any).

(** The log lines print the method and the version of the request. *)
Definition DemoHttpServer_OnRequest (q : HttpReq) (resp : HttpResp) (p : ptr) (time : DateTime) (w : Worker Any)
    : outcome (HttpResp * Worker Any) :=
  _ ← GetMethodString q;
  _ ← GetVersionString q;
  let resp := SetServer (bytes "Jerry/0.5") resp in
  let resp := SetContentType (bytes "text/html; charset=utf-8") resp in
  let buf := replicate kPageSize Byte.x00 in
  context ← GetContext (T := DateTime) p (bytes "last_time") w;
  let last_time := default (now sys w) context in
  request ← HttpReq.ToString q;
  buf ← snprintf buf kPageSize (page time last_time request);
  n ← strlen buf;
  let resp := SetBody (take n buf) resp in
  w ← SetContext p (bytes "last_time") (any_of time) w;
  Ret (resp, w).

(** [OnConnected] and [OnDisConnected] only log. *)
Definition DemoHttpServer_OnConnected (p : ptr) (time : DateTime) (w : Worker Any) : outcome (Worker Any) := Ret w.
Definition DemoHttpServer_OnDisConnected (p : ptr) (time : DateTime) (w : Worker Any) : outcome (Worker Any) := Ret w.
End handler.

(** ** The page *)

Lemma const_no_nul (s : list byte) : bool_decide (Byte.x00 ∉ s) = true -> Byte.x00 ∉ s.
Proof. apply bool_decide_eq_true_1. Qed.

Lemma page_no_nul time last_time request : Byte.x00 ∉ page time last_time request.
Proof.
  unfold page. rewrite !not_elem_of_app. split_and!; try apply c_str_never_nul;
    apply const_no_nul; vm_compute; reflexivity.
Qed.

(** The array holds the page, or its first 8191 characters. *)
Lemma page_written time last_time request :
  exists buf n, snprintf (replicate kPageSize Byte.x00) kPageSize (page time last_time request) = Ret buf
    /\ strlen buf = Ret n /\ take n buf = take (kPageSize - 1) (page time last_time request).
Proof.
  pose proof (page_no_nul time last_time request) as Hn. generalize dependent (page time last_time request). intros s Hn.
  assert (Hl : (length (take (kPageSize - 1) s) < kPageSize)%nat) by (rewrite length_take; unfold kPageSize; lia).
  rewrite snprintf_spec by (by rewrite length_replicate). eexists _, _. split; [done|].
  rewrite strlen_spec by (by apply take_no_nul). split; [done|]. by rewrite take_app_length.
Qed.

Definition demo_resp (time last_time : DateTime) (request : list byte) : HttpResp :=
  SetBody (take (kPageSize - 1) (page time last_time request))
    (SetContentType (bytes "text/html; charset=utf-8") (SetServer (bytes "Jerry/0.5") HttpResp_init)).

(** ** The handler *)

Section demo.
Context {Any : Type} `{AnyCast HttpReqDecoder Any} `{AnyCast DateTime Any} (sys : Kernel Any).
Implicit Types (w : Worker Any) (c : TcpConn Any) (ctx : TcpContext (Any := Any)).

(** The date under the key, and that nothing else is there. *)
Definition last_seen ctx : option DateTime := TcpContext_Get (bytes "last_time") ctx ≫= any_cast.
Definition context_typed ctx : Prop :=
  match TcpContext_Get (bytes "last_time") ctx with
  | Some x => is_Some (any_cast (T := DateTime) x)
  | None => True
  end.

Lemma GetContext_typed p w c :
  heap w !! p = Some c -> context_typed (context c) ->
  GetContext (T := DateTime) p (bytes "last_time") w = Ret (last_seen (context c)).
Proof.
  intros Hp Ht. unfold GetContext, last_seen, context_typed in *. rewrite (conn_at_alive p c) by done. mrun.
  destruct (TcpContext_Get _ _) as [x|]; [|done]. destruct Ht as [t Ht].
  unfold cast_to. cbn [mbind option_bind]. by rewrite Ht.
Qed.

(** Setting the date keeps the one that is there. *)
Lemma last_seen_Set ctx time :
  context_typed ctx ->
  let ctx' := TcpContext_Set (bytes "last_time") (any_of time) ctx in
  last_seen ctx' = Some (default time (last_seen ctx)) /\ context_typed ctx'.
Proof.
  intros Ht ctx'. unfold last_seen, context_typed in *. unfold ctx', TcpContext_Get, TcpContext_Set in *.
  rewrite c_str_no_nul in * by (apply const_no_nul; vm_compute; reflexivity).
  rewrite map_find_emplace by apply _. rewrite equiv_key_lex, bool_decide_eq_true_2 by done.
  destruct (map_find lex_lt (bytes "last_time") ctx) as [x|]; cbn [mbind option_bind default].
  - destruct Ht as [t Ht]. rewrite Ht. by eauto.
  - rewrite any_cast_of. by eauto.
Qed.

Lemma demo_handler q p time w c request :
  heap w !! p = Some c -> context_typed (context c) -> HttpReq.ToString q = Ret request ->
  DemoHttpServer_OnRequest sys q HttpResp_init p time w
  = Ret (demo_resp time (default (now sys w) (last_seen (context c))) request,
         put_conn p (set_context (TcpContext_Set (bytes "last_time") (any_of time) (context c)) c) w).
Proof.
  intros Hp Ht Hq. unfold DemoHttpServer_OnRequest. rewrite Hq, (GetContext_typed p w c) by done.
  unfold HttpReq.ToString in Hq.
  destruct (GetMethodString q) as [m|]; [|done]. mrun. destruct (GetVersionString q) as [v|]; [|done]. mrun.
  destruct (page_written time (default (now sys w) (last_seen (context c))) request) as (buf & n & -> & E2 & E3).
  mrun. rewrite E2. mrun. rewrite E3. unfold SetContext. rewrite (conn_at_alive p c) by done. by mrun.
Qed.

(** ** Type safety *)

Lemma demo_user_typed : user_typed (DemoHttpServer_OnConnected (Any := Any)) (DemoHttpServer_OnRequest sys) context_typed.
Proof.
  split; [done|]. intros q p time w (c & d & (Hw & Hp & Hst & Henc) & Hcodec & Ht).
  destruct (HttpReq.ToString q) as [request|f] eqn:Eq.
  - rewrite (demo_handler q p time w c request) by done.
    eexists _, d. split; [split_and!; [|apply lookup_insert_eq|done|done]|split; [done|by apply last_seen_Set]].
    apply (so_wf p w). apply (step_put p c); [done..|]. by destruct (wf_conns w Hw p c Hp).
  - unfold DemoHttpServer_OnRequest. rewrite Eq, (GetContext_typed p w c) by done.
    assert (Hf : f = OutOfRange).
    { revert Eq. unfold HttpReq.ToString, GetMethodString, GetVersionString, map_at.
      destruct (map_find _ (Method_value _) _); mrun; [|congruence]. destruct (map_find _ _ _); mrun; congruence. }
    subst f. unfold GetMethodString, GetVersionString, map_at.
    destruct (map_find _ (Method_value _) _); mrun; [|done]. by destruct (map_find _ _ _); mrun.
Qed.

(** ** Visits *)

(** A request with the time it arrives. *)
Record visit := mkVisit {
  v_time : DateTime; v_tok : list byte; v_uri : list byte; v_vtok : list byte; v_body : list byte;
  v_headers : Headers; v_method : Method; v_version : HttpVersion;
}.
Definition visit_ok (v : visit) : Prop := wf_request (v_tok v) (v_uri v) (v_vtok v) (v_headers v) (v_method v) (v_version v).
Definition visit_data (v : visit) : list byte := request_head (v_tok v) (v_uri v) (v_vtok v) (v_headers v) ++ v_body v.
Definition visit_req (d : HttpReqDecoder) (v : visit) : HttpReq :=
  parsed d (v_uri v) (v_headers v) (v_method v) (v_version v) (v_body v).

Fixpoint serve_visits p (vs : list visit) w : outcome (Worker Any) :=
  match vs with
  | [] => Ret w
  | v :: vs =>
      w ← deliver p (visit_data v) w;
      w ← OnTcpReceivedData sys (DemoHttpServer_OnRequest sys) p (v_time v) w;
      serve_visits p vs w
  end.

(** The date a page shows: the one that was seen, or the time on the clock. *)
Definition shown_date (seen : option DateTime) (last_time : DateTime) : Prop :=
  match seen with Some t => last_time = t | None => exists w, last_time = now sys w end.

(** The responses [texts] to the visits [vs]: each shows the time of its request,
    the date, and the request.  A date that is seen stays. *)
Fixpoint pages_shown (d : HttpReqDecoder) (seen : option DateTime) (vs : list visit) (texts : list (list byte)) : Prop :=
  match vs, texts with
  | [], [] => True
  | v :: vs, s :: texts =>
      (exists request last_time t, HttpReq.ToString (visit_req d v) = Ret request /\ shown_date seen last_time
         /\ HttpResp.ToString t (demo_resp (v_time v) last_time request) = Ret s)
      /\ pages_shown d (Some (default (v_time v) seen)) vs texts
  | _, _ => False
  end.

(** The clock shows dates that fit the array of [ToGmtString]. *)
Definition clock_printable : Prop := forall w, exists s, DateTime.ToGmtString (now sys w) = Ret s.

(** A decoded request has a text. *)
Lemma visit_text d v : visit_ok v -> exists request, HttpReq.ToString (visit_req d v) = Ret request.
Proof.
  intros [Hm _ _ _]. apply map_find_in in Hm. unfold HttpReq.ToString, GetMethodString, GetVersionString.
  assert (Hm' : v_method v <> PUT /\ v_method v <> CONNECT).
  { split; intros E; rewrite E in Hm; vm_compute in Hm; destruct Hm as [k Hm]; repeat (destruct Hm as [[=]|Hm]); done. }
  unfold visit_req, parsed. cbn [method version]. destruct Hm' as [H1 H2].
  destruct (v_method v), (v_version v); try done; eexists; reflexivity.
Qed.

Lemma demo_resp_text t time last_time request s :
  DateTime.ToGmtString t = Ret s -> exists s, HttpResp.ToString t (demo_resp time last_time request) = Ret s.
Proof. intros E. unfold HttpResp.ToString. rewrite E. eexists. reflexivity. Qed.

Lemma demo_handles q time p ctx request :
  clock_printable -> context_typed ctx -> HttpReq.ToString q = Ret request ->
  handles sys (DemoHttpServer_OnRequest sys) q time p ctx (fun resp ctx' =>
    (exists last_time, shown_date (last_seen ctx) last_time /\ resp = demo_resp time last_time request)
    /\ last_seen ctx' = Some (default time (last_seen ctx)) /\ context_typed ctx').
Proof.
  intros Hclock Ht Hq w c Hw Hp Hst <-. rewrite (demo_handler q p time w c request) by done.
  set (c' := set_context _ c). exists (demo_resp time (default (now sys w) (last_seen (context c))) request), (put_conn p c' w), c'.
  split; [done|]. split.
  { split; [|by apply last_seen_Set]. eexists. split; [|done]. unfold shown_date. destruct (last_seen (context c)); cbn; eauto. }
  split; [apply (step_put p c); [done..|]; by destruct (wf_conns w Hw p c Hp)|]. split; [apply lookup_insert_eq|].
  do 5 (split; [done|]). destruct (Hclock (put_conn p c' w)) as [s Hs].
  by eapply demo_resp_text.
Qed.

Lemma serve_visits_spec p vs w c d d0 :
  clock_printable -> open_at p w c -> expects_request c d -> same_limits d0 d -> view (recv_buffer c) = [] ->
  context_typed (context c) -> Forall visit_ok vs ->
  exists w' c' texts, serve_visits p vs w = Ret w' /\ open_at p w' c'
    /\ view (send_buffer c') = view (send_buffer c) ++ mjoin texts
    /\ pages_shown d0 (last_seen (context c)) vs texts.
Proof.
  intros Hclock. revert w c d. induction vs as [|v vs IH]; intros w c d Ho Hd Hl Hr Ht Hvs.
  { exists w, c, []. rewrite app_nil_r. by split_and!. }
  apply Forall_cons in Hvs as [Hv Hvs]. destruct Ho as (Hw & Hp & Hst & Henc).
  cbn [serve_visits]. destruct (deliver_spec p (visit_data v) w c Hw Hp) as (b & -> & Hs1 & Hvb). mrun.
  set (c1 := set_recv_buffer b c) in *. set (w1 := put_conn p c1 w) in *. rewrite Hr in Hvb.
  destruct (visit_text d0 v Hv) as [request Hq].
  assert (Hq' : HttpReq.ToString (visit_req d v) = Ret request).
  { unfold visit_req in *. by rewrite (parsed_limits d0 d). }
  pose proof (demo_handles (visit_req d v) (v_time v) p (context c) request Hclock Ht Hq') as Hu.
  destruct (request_answered sys (DemoHttpServer_OnRequest sys) p (v_time v) w1 c1 d (v_tok v) (v_uri v) (v_vtok v) (v_body v)
    (v_headers v) (v_method v) (v_version v) _ (so_wf _ _ _ Hs1) (lookup_insert_eq _ _ _) Hst Hd Hv Hvb Hu)
    as (w2 & c2 & d2 & resp & s & t & -> & Hs2 & Hp2 & Hst2 & _ & ((last_time & Hlast & ->) & Hseen & Ht2) & Es & Hq2 & Hr2 & Hd2 & Hl2).
  mrun. destruct (IH w2 c2 d2) as (w' & c' & texts & E & Ho' & Hq3 & Hpages); [|done|..|done|done|done|].
  { split_and!; [apply Hs2|done|done|]. by rewrite (so_encrypted _ _ _ Hs2), (so_encrypted _ _ _ Hs1). }
  { destruct Hl, Hl2. split; congruence. }
  exists w', c', (s :: texts). split; [done|]. split; [done|]. split; [by rewrite Hq3, Hq2, <-app_assoc|].
  split; [by exists request, last_time, t|]. by rewrite Hseen in Hpages.
Qed.

(** C19: the demo server.  Whatever well-formed requests arrive one after the other on a
    connection, each is answered with a page that shows the time of its request and
    the request itself, cut to 8191 characters, in order; the first page shows the
    time on the clock as the last visit, and every later page shows the time of the
    first visit, because [SetContext] does not replace what is there. *)
Theorem demo_visits p vs w c d :
  clock_printable -> open_at p w c -> expects_request c d -> view (recv_buffer c) = [] ->
  context_typed (context c) -> Forall visit_ok vs ->
  exists w' c' texts, serve_visits p vs w = Ret w' /\ open_at p w' c'
    /\ view (send_buffer c') = view (send_buffer c) ++ mjoin texts
    /\ pages_shown d (last_seen (context c)) vs texts.
Proof. intros Hclock Ho Hd. by apply (serve_visits_spec p vs w c d). Qed.
End demo.

(** ** Three visits *)

(** What the [std::any] values of the demo server hold. *)
Inductive DemoAny := AnyDecoder (d : HttpReqDecoder) | AnyDate (t : DateTime).
#[export] Program Instance demo_any_decoder : AnyCast HttpReqDecoder DemoAny :=
  {| any_of := AnyDecoder; any_cast x := match x with AnyDecoder d => Some d | AnyDate _ => None end |}.
Next Obligation. done. Qed.
#[export] Program Instance demo_any_date : AnyCast DateTime DemoAny :=
  {| any_of := AnyDate; any_cast x := match x with AnyDate t => Some t | AnyDecoder _ => None end |}.
Next Obligation. done. Qed.

Definition demo_visit (t : DateTime) : visit :=
  mkVisit t (bytes "GET") (bytes "/") (bytes "HTTP/1.1") [] [(bytes "Host", bytes "jerry")] GET Http11.
Definition demo_conn : TcpConn DemoAny := lone_conn (BaseBuffer_init 1024) (Some (AnyDecoder http_decoder)).
Definition demo_worker : Worker DemoAny := lone_worker demo_conn.

Lemma demo_visits_witness :
  let sys := test_kernel (Any := DemoAny) [] 0 in
  exists w' c' texts, serve_visits sys 7 [demo_visit 1; demo_visit 2; demo_visit 3] demo_worker = Ret w' /\ open_at 7 w' c'
    /\ view (send_buffer c') = view (send_buffer demo_conn) ++ mjoin texts
    /\ pages_shown sys http_decoder None [demo_visit 1; demo_visit 2; demo_visit 3] texts.
Proof.
  intros sys. apply (demo_visits sys 7 [demo_visit 1; demo_visit 2; demo_visit 3] demo_worker demo_conn http_decoder).
  - intros w. change (now sys w) with 0. clear sys w. eexists. vm_compute. reflexivity.
  - split_and!; [apply lone_worker_wf, wf_init | apply lone_worker_heap | done | done].
  - split_and!; reflexivity.
  - reflexivity.
  - exact I.
  - do 3 (apply Forall_cons; split; [apply wf_request_dec; vm_compute; reflexivity|]). constructor.
Defined.
