(* ===== verification/Base64.v ===== *)
(** * crypto/base64: the encoder and the decoder

    [char_array_3] and [char_array_4] are the lists of their first [i] entries;
    an [unsigned char] is an integer below 256.  [rfc4648] is the encoding of the
    standard, which the code is compared with. *)

From S2P Require Import Prelude CxxStd.
Local Open Scope Z_scope.

Definition base64_chars : list byte :=
  bytes "ABCDEFGHIJKLMNOPQRSTUVWXYZabcdefghijklmnopqrstuvwxyz0123456789+/".

Definition PAD : byte := Byte.x3d.

(** [isalnum] in the C locale. *)
Definition isalnum (c : byte) : bool :=
  let z := byte.unsigned c in
  ((48 <=? z) && (z <=? 57)) || ((65 <=? z) && (z <=? 90)) || ((97 <=? z) && (z <=? 122)).
Definition is_base64 (c : byte) : bool :=
  isalnum c || bool_decide (c = Byte.x2b) || bool_decide (c = Byte.x2f).

(** The four indices of three bytes. *)
Definition to_four (a b c : Z) : list Z :=
  [Z.shiftr (Z.land a 252) 2;
   Z.shiftl (Z.land a 3) 4 + Z.shiftr (Z.land b 240) 4;
   Z.shiftl (Z.land b 15) 2 + Z.shiftr (Z.land c 192) 6;
   Z.land c 63].

(** [base64_chars[i]]. *)
Definition char_at (i : Z) : byte := nth (Z.to_nat i) base64_chars Byte.x00.

Definition entry (l : list Z) (i : nat) : Z := nth i l 0.

(** [while (in_len--)] over an array that may be shorter. *)
Fixpoint encode_loop (in_len : nat) (bytes_to_encode : list byte) (a3 : list Z) (ret : list byte)
    : outcome (list Z * list byte) :=
  match in_len with
  | O => Ret (a3, ret)
  | S in_len =>
      match bytes_to_encode with
      | [] => Throw UndefinedBehaviour
      | x :: rest =>
          let a3 := a3 ++ [byte.unsigned x] in
          if (length a3 =? 3)%nat then
            encode_loop in_len rest [] (ret ++ (char_at <$> to_four (entry a3 0) (entry a3 1) (entry a3 2)))
          else encode_loop in_len rest a3 ret
      end
  end.

(** What follows the loop. *)
Definition encode_tail (a3 : list Z) (ret : list byte) : list byte :=
  let i := length a3 in
  if (i =? 0)%nat then ret
  else
    let a3 := a3 ++ replicate (3 - i) 0 in
    ret ++ take (i + 1) (char_at <$> to_four (entry a3 0) (entry a3 1) (entry a3 2))
        ++ replicate (3 - i) PAD.

(** [in_len] is an [unsigned int]. *)
Definition base64_encode (bytes_to_encode : list byte) (in_len : Z) : outcome (list byte) :=
  r ← encode_loop (Z.to_nat (u32 in_len)) bytes_to_encode [] [];
  let '(a3, ret) := (r : list Z * list byte) in
  Ret (encode_tail a3 ret).

(** [base64_chars.find(c)] stored in an [unsigned char]; [npos] becomes 255. *)
Definition index_of (c : Z) : Z :=
  let i := find_idx (byte.of_Z c) base64_chars in
  if (i <? length base64_chars)%nat then Z.of_nat i else 255.

(** The three bytes of four indices. *)
Definition to_three (a b c d : Z) : list Z :=
  [(Z.shiftl a 2 + Z.shiftr (Z.land b 48) 4) mod 256;
   (Z.shiftl (Z.land b 15) 4 + Z.shiftr (Z.land c 60) 2) mod 256;
   (Z.shiftl (Z.land c 3) 6 + d) mod 256].

Fixpoint decode_loop64 (encoded_string : list byte) (a4 : list Z) (ret : list byte) : list Z * list byte :=
  match encoded_string with
  | [] => (a4, ret)
  | c :: rest =>
      if bool_decide (c <> PAD) && is_base64 c then
        let a4 := a4 ++ [byte.unsigned c] in
        if (length a4 =? 4)%nat then
          let x := index_of <$> a4 in
          decode_loop64 rest []
            (ret ++ (byte.of_Z <$> to_three (entry x 0) (entry x 1) (entry x 2) (entry x 3)))
        else decode_loop64 rest a4 ret
      else (a4, ret)
  end.

Definition base64_decode (encoded_string : list byte) : list byte :=
  let '(a4, ret) := decode_loop64 encoded_string [] [] in
  let i := length a4 in
  if (i =? 0)%nat then ret
  else
    let a4 := a4 ++ replicate (4 - i) 0 in
    let x := index_of <$> a4 in
    ret ++ take (i - 1) (byte.of_Z <$> to_three (entry x 0) (entry x 1) (entry x 2) (entry x 3)).

Example encode_example : base64_encode (bytes "Tom and Jerry!") 14 = Ret (bytes "VG9tIGFuZCBKZXJyeSE=").
Proof. vm_compute. reflexivity. Qed.

(** ** RFC 4648, section 4 *)

(** Table 1: the character of a value below 64. *)
Definition rfc_char (v : Z) : byte :=
  byte.of_Z (if v <? 26 then 65 + v else if v <? 52 then 97 + (v - 26)
             else if v <? 62 then 48 + (v - 52) else if v =? 62 then 43 else 47).

(** The four 6-bit groups of a 24-bit group, from the left. *)
Definition rfc_group (a b c : byte) : list byte :=
  let n := byte.unsigned a * 2 ^ 16 + byte.unsigned b * 2 ^ 8 + byte.unsigned c in
  rfc_char <$> [n / 2 ^ 18; n / 2 ^ 12 mod 2 ^ 6; n / 2 ^ 6 mod 2 ^ 6; n mod 2 ^ 6].

(** The last group is filled with zero bits; '=' stands for the missing groups. *)
Fixpoint rfc4648 (l : list byte) : list byte :=
  match l with
  | [] => []
  | [a] => take 2 (rfc_group a Byte.x00 Byte.x00) ++ bytes "=="
  | [a; b] => take 3 (rfc_group a b Byte.x00) ++ bytes "="
  | a :: b :: c :: l => rfc_group a b c ++ rfc4648 l
  end.

(** Section 10. *)
Example rfc4648_vectors :
  rfc4648 <$> [bytes ""; bytes "f"; bytes "fo"; bytes "foo"; bytes "foob"; bytes "fooba"; bytes "foobar"]
  = [bytes ""; bytes "Zg=="; bytes "Zm8="; bytes "Zm9v"; bytes "Zm9vYg=="; bytes "Zm9vYmE="; bytes "Zm9vYmFy"].
Proof. vm_compute. reflexivity. Qed.

(** ** Masks and shifts are divisions *)

Lemma masks_byte z :
  0 <= z < 256 ->
  Z.shiftr (Z.land z 252) 2 = z / 4 /\ Z.land z 3 = z mod 4 /\ Z.shiftr (Z.land z 240) 4 = z / 16
  /\ Z.land z 15 = z mod 16 /\ Z.shiftr (Z.land z 192) 6 = z / 64 /\ Z.land z 63 = z mod 64.
Proof.
  intros Hz.
  assert (E : (Z.shiftr (Z.land z 252) 2 =? z / 4) && (Z.land z 3 =? z mod 4)
    && (Z.shiftr (Z.land z 240) 4 =? z / 16) && (Z.land z 15 =? z mod 16)
    && (Z.shiftr (Z.land z 192) 6 =? z / 64) && (Z.land z 63 =? z mod 64) = true).
  { apply (check_below_spec (fun z => (Z.shiftr (Z.land z 252) 2 =? z / 4) && (Z.land z 3 =? z mod 4)
    && (Z.shiftr (Z.land z 240) 4 =? z / 16) && (Z.land z 15 =? z mod 16)
    && (Z.shiftr (Z.land z 192) 6 =? z / 64) && (Z.land z 63 =? z mod 64)) 256 0); [|lia].
    vm_compute. reflexivity. }
  rewrite !andb_true_iff, !Z.eqb_eq in E. naive_solver.
Qed.

Lemma masks_index z :
  0 <= z < 64 ->
  Z.shiftr (Z.land z 48) 4 = z / 16 /\ Z.shiftr (Z.land z 60) 2 = z / 4 mod 16
  /\ index_of (byte.unsigned (char_at z)) = z /\ is_base64 (char_at z) = true /\ char_at z <> PAD.
Proof.
  intros Hz.
  set (P := fun z => (Z.shiftr (Z.land z 48) 4 =? z / 16) && (Z.shiftr (Z.land z 60) 2 =? z / 4 mod 16)
    && (index_of (byte.unsigned (char_at z)) =? z) && is_base64 (char_at z)
    && negb (bool_decide (char_at z = PAD))).
  assert (E : P z = true).
  { apply (check_below_spec P 64 0); [|lia]. vm_compute. reflexivity. }
  unfold P in E.
  rewrite !andb_true_iff, !Z.eqb_eq, negb_true_iff, bool_decide_eq_false in E. naive_solver.
Qed.

(** ** Whole groups *)

Lemma to_four_range a b c x :
  0 <= a < 256 -> 0 <= b < 256 -> 0 <= c < 256 -> x ∈ to_four a b c -> 0 <= x < 64.
Proof.
  intros Ha Hb Hc. pose proof (masks_byte a Ha) as (Ea1 & Ea2 & _).
  pose proof (masks_byte b Hb) as (_ & _ & Eb1 & Eb2 & _).
  pose proof (masks_byte c Hc) as (_ & _ & _ & _ & Ec1 & Ec2).
  unfold to_four. rewrite Ea1, Ea2, Eb1, Eb2, Ec1, Ec2, !Z.shiftl_mul_pow2 by lia.
  rewrite !elem_of_cons, elem_of_nil.
  intros [->|[->|[->|[->|[]]]]]; Z.div_mod_to_equations; lia.
Qed.

(** The three bytes come back from the four indices; of an incomplete group, the
    bytes in front of the padding. *)
Lemma to_three_four a b c :
  0 <= a < 256 -> 0 <= b < 256 -> 0 <= c < 256 ->
  match to_four a b c with
  | [x; y; z; v] =>
      to_three x y z v = [a; b; c]
      /\ (forall z' v', entry (to_three x y z' v') 0 = a)
      /\ (forall v', entry (to_three x y z v') 1 = b)
  | _ => False
  end.
Proof.
  intros Ha Hb Hc. pose proof (masks_byte a Ha) as (Ea1 & Ea2 & _).
  pose proof (masks_byte b Hb) as (_ & _ & Eb1 & Eb2 & _).
  pose proof (masks_byte c Hc) as (_ & _ & _ & _ & Ec1 & Ec2).
  assert (Hr : forall x, x ∈ to_four a b c -> 0 <= x < 64) by (intros; by eapply (to_four_range a b c)).
  unfold to_four in *. rewrite Ea1, Ea2, Eb1, Eb2, Ec1, Ec2 in *.
  set (x := a / 4) in *. set (y := Z.shiftl (a mod 4) 4 + b / 16) in *.
  set (z := Z.shiftl (b mod 16) 2 + c / 64) in *. set (v := c mod 64) in *.
  assert (Hx : 0 <= x < 64) by (apply Hr; set_solver).
  assert (Hy : 0 <= y < 64) by (apply Hr; set_solver).
  assert (Hz : 0 <= z < 64) by (apply Hr; set_solver).
  pose proof (masks_index y Hy) as (Ey & _). pose proof (masks_index z Hz) as (_ & Ez & _).
  pose proof (masks_byte y ltac:(lia)) as (_ & _ & _ & Ey' & _).
  pose proof (masks_byte z ltac:(lia)) as (_ & Ez' & _).
  assert (E0 : (Z.shiftl x 2 + Z.shiftr (Z.land y 48) 4) mod 256 = a).
  { rewrite Ey. unfold x, y. rewrite !Z.shiftl_mul_pow2 by lia. Z.div_mod_to_equations; lia. }
  assert (E1 : (Z.shiftl (Z.land y 15) 4 + Z.shiftr (Z.land z 60) 2) mod 256 = b).
  { rewrite Ey', Ez. unfold y, z. rewrite !Z.shiftl_mul_pow2 by lia. Z.div_mod_to_equations; lia. }
  assert (E2 : (Z.shiftl (Z.land z 3) 6 + v) mod 256 = c).
  { rewrite Ez'. unfold z, v. rewrite !Z.shiftl_mul_pow2 by lia. Z.div_mod_to_equations; lia. }
  unfold to_three. rewrite E0, E1, E2. done.
Qed.

Lemma decode_loop_acc s a4 ret :
  decode_loop64 s a4 ret = ((decode_loop64 s a4 []).1, ret ++ (decode_loop64 s a4 []).2).
Proof.
  revert a4 ret. induction s as [|c s IH]; intros a4 ret; cbn [decode_loop64]; [by rewrite app_nil_r|].
  case_match; [|cbn; by rewrite app_nil_r]. case_match; [|apply IH]. rewrite IH.
  rewrite (IH [] ([] ++ _)). cbn [fst snd]. by rewrite app_assoc.
Qed.

(** The code's table and its masks and shifts are those of the standard. *)
Lemma char_at_rfc i : 0 <= i < 64 -> char_at i = rfc_char i.
Proof.
  intros Hi. pose proof (check_below_spec (fun i => bool_decide (char_at i = rfc_char i)) 64 0 i) as H.
  assert (E : bool_decide (char_at i = rfc_char i) = true) by (apply H; [vm_compute; reflexivity | lia]).
  by apply bool_decide_eq_true in E.
Qed.

Lemma to_four_rfc a b c :
  char_at <$> to_four (byte.unsigned a) (byte.unsigned b) (byte.unsigned c) = rfc_group a b c.
Proof.
  pose proof (byte.unsigned_range a) as Ha. pose proof (byte.unsigned_range b) as Hb. pose proof (byte.unsigned_range c) as Hc.
  pose proof (fun x => to_four_range _ _ _ x Ha Hb Hc) as Hr.
  pose proof (masks_byte _ Ha) as (Ea1 & Ea2 & _). pose proof (masks_byte _ Hb) as (_ & _ & Eb1 & Eb2 & _).
  pose proof (masks_byte _ Hc) as (_ & _ & _ & _ & Ec1 & Ec2).
  unfold rfc_group. unfold to_four in *. rewrite Ea1, Ea2, Eb1, Eb2, Ec1, Ec2, !Z.shiftl_mul_pow2 in * by lia.
  set (x := byte.unsigned a) in *. set (y := byte.unsigned b) in *. set (z := byte.unsigned c) in *.
  cbn [fmap list_fmap]. rewrite !char_at_rfc by (apply Hr; set_solver).
  set (n := x * 2 ^ 16 + y * 2 ^ 8 + z).
  assert (E0 : x / 4 = n / 2 ^ 18) by (unfold n; Z.div_mod_to_equations; lia).
  assert (E1 : x mod 4 * 2 ^ 4 + y / 16 = n / 2 ^ 12 mod 2 ^ 6) by (unfold n; Z.div_mod_to_equations; lia).
  assert (E2 : y mod 16 * 2 ^ 2 + z / 64 = n / 2 ^ 6 mod 2 ^ 6) by (unfold n; Z.div_mod_to_equations; lia).
  assert (E3 : z mod 64 = n mod 2 ^ 6) by (unfold n; Z.div_mod_to_equations; lia).
  by rewrite E0, E1, E2, E3.
Qed.

Lemma encode_loop_three n x y z l ret :
  encode_loop (S (S (S n))) (x :: y :: z :: l) [] ret = encode_loop n l [] (ret ++ rfc_group x y z).
Proof.
  rewrite <-to_four_rfc. cbn [encode_loop app length entry nth].
  change (1 =? 3)%nat with false. change (2 =? 3)%nat with false. by change (3 =? 3)%nat with true.
Qed.

Lemma encode_loop_rfc l tl ret :
  exists a3 ret', encode_loop (length l) (l ++ tl) [] ret = Ret (a3, ret') /\ encode_tail a3 ret' = ret ++ rfc4648 l.
Proof.
  revert ret. induction l as [l IH] using (induction_ltof1 _ (@length byte)). unfold ltof in IH. intros ret.
  destruct l as [|x [|y [|z l]]].
  - exists [], ret. split; [done|]. cbn. by rewrite app_nil_r.
  - eexists _, _. split; [reflexivity|]. unfold encode_tail. cbn [app length]. change (1 =? 0)%nat with false. cbn iota.
    cbn [rfc4648]. by rewrite <-to_four_rfc.
  - eexists _, _. split; [reflexivity|]. unfold encode_tail. cbn [app length]. change (2 =? 0)%nat with false. cbn iota.
    cbn [rfc4648]. by rewrite <-to_four_rfc.
  - cbn [length app]. rewrite encode_loop_three. destruct (IH l) with (ret := ret ++ rfc_group x y z) as (a3 & ret' & E & Et);
      [cbn; lia|]. exists a3, ret'. split; [exact E|]. rewrite Et. cbn [rfc4648]. by rewrite app_assoc.
Qed.

(** The code's encoding of the [in_len] bytes of an array is that of the standard. *)
Lemma base64_encode_rfc bs in_len :
  (Z.to_nat (u32 in_len) <= length bs)%nat -> base64_encode bs in_len = Ret (rfc4648 (take (Z.to_nat (u32 in_len)) bs)).
Proof.
  intros Hl. unfold base64_encode. set (n := Z.to_nat (u32 in_len)) in *.
  destruct (encode_loop_rfc (take n bs) (drop n bs) []) as (a3 & ret & E & Et).
  rewrite take_drop, length_take, Nat.min_l in E by done. rewrite E. mrun. by rewrite Et.
Qed.

(** A character of an index is collected; the fourth completes a group. *)
Lemma decode_char_more i s a4 ret :
  0 <= i < 64 -> (length a4 < 3)%nat ->
  decode_loop64 (char_at i :: s) a4 ret = decode_loop64 s (a4 ++ [byte.unsigned (char_at i)]) ret.
Proof.
  intros Hi Hl. destruct (masks_index i Hi) as (_ & _ & _ & Hb & Hp). cbn [decode_loop64].
  rewrite Hb, bool_decide_eq_true_2 by done. cbn [andb].
  rewrite (proj2 (Nat.eqb_neq _ _)); [done|]. rewrite length_app. simpl. lia.
Qed.

Lemma decode_char_last x y z v s ret :
  0 <= x < 64 -> 0 <= y < 64 -> 0 <= z < 64 -> 0 <= v < 64 ->
  decode_loop64 (char_at v :: s) (byte.unsigned <$> (char_at <$> [x; y; z])) ret
  = decode_loop64 s [] (ret ++ (byte.of_Z <$> to_three x y z v)).
Proof.
  intros Hx Hy Hz Hv. destruct (masks_index v Hv) as (_ & _ & Ev & Hb & Hp).
  destruct (masks_index x Hx) as (_ & _ & Ex & _), (masks_index y Hy) as (_ & _ & Ey & _).
  destruct (masks_index z Hz) as (_ & _ & Ez & _).
  cbn [decode_loop64]. rewrite Hb, bool_decide_eq_true_2 by done.
  cbn [andb fmap list_fmap app length entry nth]. change (4 =? 4)%nat with true. cbv zeta. cbn iota.
  by rewrite Ex, Ey, Ez, Ev.
Qed.

Lemma decode_four x y z v s :
  0 <= x < 64 -> 0 <= y < 64 -> 0 <= z < 64 -> 0 <= v < 64 ->
  base64_decode ((char_at <$> [x; y; z; v]) ++ s)
  = (byte.of_Z <$> to_three x y z v) ++ base64_decode s.
Proof.
  intros Hx Hy Hz Hv. unfold base64_decode. cbn [fmap list_fmap app].
  rewrite !decode_char_more by (done || (cbn; lia)).
  change ((([] ++ [byte.unsigned (char_at x)]) ++ [byte.unsigned (char_at y)]) ++ [byte.unsigned (char_at z)])
    with (byte.unsigned <$> (char_at <$> [x; y; z])).
  rewrite decode_char_last by done. rewrite decode_loop_acc.
  destruct (decode_loop64 s [] []) as [a4 ret]. cbn [fst snd].
  rewrite app_nil_l. case_match; [done|]. by rewrite <-app_assoc.
Qed.

(** A padded group stops the loop with the characters before the padding. *)
Lemma decode_pad s a4 ret : decode_loop64 (PAD :: s) a4 ret = (a4, ret).
Proof. cbn [decode_loop64]. by rewrite bool_decide_eq_false_2 by auto. Qed.

Lemma round_trip_tail1 x : base64_decode (rfc4648 [x]) = [x].
Proof.
  pose proof (byte.unsigned_range x) as Hx. set (a := byte.unsigned x) in *.
  pose proof (to_three_four a 0 0 ltac:(lia) ltac:(lia) ltac:(lia)) as H.
  pose proof (to_four_range a 0 0) as Hr.
  assert (E : rfc4648 [x] = take 2 (char_at <$> to_four a 0 0) ++ [PAD; PAD]) by (cbn [rfc4648]; by rewrite <-to_four_rfc).
  rewrite E. destruct (to_four a 0 0) as [|i [|j [|k [|l [|]]]]] eqn:E4; try done.
  destruct H as (_ & H0 & _). cbn [fmap list_fmap take app].
  assert (0 <= i < 64) by (apply Hr; [lia.. | set_solver]).
  assert (0 <= j < 64) by (apply Hr; [lia.. | set_solver]).
  unfold base64_decode. rewrite !decode_char_more by (done || (cbn; lia)). rewrite decode_pad.
  cbn [app length fmap list_fmap replicate Nat.sub entry nth].
  destruct (masks_index i) as (_ & _ & Ei & _); [done|]. destruct (masks_index j) as (_ & _ & Ej & _); [done|].
  rewrite Ei, Ej. change (2 =? 0)%nat with false. cbn iota.
  change (take 1 (byte.of_Z <$> to_three i j (index_of 0) (index_of 0)))
    with [byte.of_Z (entry (to_three i j (index_of 0) (index_of 0)) 0)].
  rewrite H0. unfold a. by rewrite byte.of_Z_unsigned.
Qed.

Lemma round_trip_tail2 x y : base64_decode (rfc4648 [x; y]) = [x; y].
Proof.
  pose proof (byte.unsigned_range x) as Hx. pose proof (byte.unsigned_range y) as Hy.
  set (a := byte.unsigned x) in *. set (b := byte.unsigned y) in *.
  pose proof (to_three_four a b 0 ltac:(lia) ltac:(lia) ltac:(lia)) as H.
  pose proof (to_four_range a b 0) as Hr.
  assert (E : rfc4648 [x; y] = take 3 (char_at <$> to_four a b 0) ++ [PAD]) by (cbn [rfc4648]; by rewrite <-to_four_rfc).
  rewrite E. destruct (to_four a b 0) as [|i [|j [|k [|l [|]]]]] eqn:E4; try done.
  destruct H as (_ & H0 & H1). cbn [fmap list_fmap take app].
  assert (0 <= i < 64) by (apply Hr; [lia.. | set_solver]).
  assert (0 <= j < 64) by (apply Hr; [lia.. | set_solver]).
  assert (0 <= k < 64) by (apply Hr; [lia.. | set_solver]).
  unfold base64_decode. rewrite !decode_char_more by (done || (cbn; lia)). rewrite decode_pad.
  cbn [app length fmap list_fmap replicate Nat.sub entry nth].
  destruct (masks_index i) as (_ & _ & Ei & _); [done|]. destruct (masks_index j) as (_ & _ & Ej & _); [done|].
  destruct (masks_index k) as (_ & _ & Ek & _); [done|].
  rewrite Ei, Ej, Ek. change (3 =? 0)%nat with false. cbn iota.
  change (take 2 (byte.of_Z <$> to_three i j k (index_of 0)))
    with [byte.of_Z (entry (to_three i j k (index_of 0)) 0); byte.of_Z (entry (to_three i j k (index_of 0)) 1)].
  rewrite H0, H1. unfold a, b. by rewrite !byte.of_Z_unsigned.
Qed.

Lemma rfc4648_round_trip bs : base64_decode (rfc4648 bs) = bs.
Proof.
  induction bs as [bs IH] using (induction_ltof1 _ (@length byte)). unfold ltof in IH.
  destruct bs as [|x [|y [|z bs]]]; [done | apply round_trip_tail1 | apply round_trip_tail2|].
  cbn [rfc4648]. rewrite <-to_four_rfc.
  pose proof (byte.unsigned_range x) as Hx. pose proof (byte.unsigned_range y) as Hy.
  pose proof (byte.unsigned_range z) as Hz.
  pose proof (to_three_four _ _ _ Hx Hy Hz) as H.
  pose proof (to_four_range (byte.unsigned x) (byte.unsigned y) (byte.unsigned z)) as Hr.
  destruct (to_four _ _ _) as [|i [|j [|k [|l [|]]]]] eqn:E4; try done. destruct H as (H & _ & _).
  rewrite decode_four by (apply Hr; [done.. | set_solver]). rewrite H, IH by (simpl; lia).
  cbn [fmap list_fmap app]. by rewrite !byte.of_Z_unsigned.
Qed.

(** C29: encoding the bytes that the [unsigned int] length counts, in an array that
    has as many, gives their encoding by RFC 4648, and decoding it gives them
    back: all of them when there are fewer than 2^32. *)
Theorem base64_round_trip (bs : list byte) (in_len : Z) :
  (Z.to_nat (u32 in_len) <= length bs)%nat ->
  let bs' := take (Z.to_nat (u32 in_len)) bs in
  base64_encode bs in_len = Ret (rfc4648 bs') /\ base64_decode (rfc4648 bs') = bs'
  /\ (in_len = Z.of_nat (length bs) -> in_len < 2 ^ 32 -> bs' = bs).
Proof.
  intros Hl. split_and!; [by apply base64_encode_rfc | apply rfc4648_round_trip |].
  intros -> Hlt. apply take_ge. unfold u32. rewrite Z.mod_small by lia. lia.
Qed.

Lemma base64_round_trip_witness :
  base64_encode (bytes "Jerry") 5 = Ret (bytes "SmVycnk=") /\ base64_decode (bytes "SmVycnk=") = bytes "Jerry".
Proof.
  destruct (base64_round_trip (bytes "Jerry") 5) as (He & Hd & _); [vm_compute; lia|]. by split.
Defined.
