(* ===== verification/Sha1.v ===== *)
(** * crypto/sha1: the incremental SHA-1

    An [unsigned] is an integer below 2^32.  [Input] and [Result] follow the
    class; [fips_sha1] is the digest as FIPS 180-4 defines it, with functions and
    constants of its own, and the theorem says that the class computes it. *)

From S2P Require Import Prelude CxxStd.
Local Open Scope Z_scope.

Record SHA1 := mkSHA1 {
  H : list Z;                     (* H[5] *)
  Length_Low : Z;
  Length_High : Z;
  Message_Block : list Z;         (* Message_Block[64] *)
  Message_Block_Index : nat;
  Computed : bool;
  Corrupted : bool;
}.

Definition H_init : list Z := [0x67452301; 0xEFCDAB89; 0x98BADCFE; 0x10325476; 0xC3D2E1F0].

(** The constructor calls [Reset], which leaves the block as it is. *)
Definition Reset (s : SHA1) : SHA1 := mkSHA1 H_init 0 0 (Message_Block s) 0 false false.
Definition SHA1_init : SHA1 := Reset (mkSHA1 [] 0 0 (replicate 64 0) 0 false false).

Definition CircularShift (bits word : Z) : Z :=
  Z.lor (Z.land (u32 (Z.shiftl word bits)) 0xFFFFFFFF)
    (Z.shiftr (Z.land word 0xFFFFFFFF) (32 - bits)).

Definition at_ (l : list Z) (i : nat) : Z := nth i l 0.

(** [W[t]] for [t < 16]: big-endian words of the block. *)
Definition block_word (block : list Z) (t : nat) : Z :=
  Z.lor (Z.lor (Z.lor (Z.shiftl (at_ block (t * 4)) 24) (Z.shiftl (at_ block (t * 4 + 1)) 16))
           (Z.shiftl (at_ block (t * 4 + 2)) 8)) (at_ block (t * 4 + 3)).

(** [W[t]] for [t >= 16], from the words before it. *)
Definition next_word (W : list Z) (t : nat) : Z :=
  CircularShift 1 (Z.lxor (Z.lxor (Z.lxor (at_ W (t - 3)) (at_ W (t - 8))) (at_ W (t - 14))) (at_ W (t - 16))).
Definition message_schedule (block : list Z) : list Z :=
  foldl (fun W t => W ++ [next_word W t]) (block_word block <$> seq 0 16) (seq 16 64).

Record Registers := mkReg { rA : Z; rB : Z; rC : Z; rD : Z; rE : Z }.

(** The body of the four loops, with the function and the constant of each. *)
Definition sha_round (f : Z -> Z -> Z -> Z) (K : Z) (W : list Z) (r : Registers) (t : nat) : Registers :=
  let temp := u32 (CircularShift 5 (rA r) + f (rB r) (rC r) (rD r) + rE r + at_ W t + K) in
  mkReg temp (rA r) (CircularShift 30 (rB r)) (rC r) (rD r).

Definition f_choose (B C D : Z) : Z := Z.lor (Z.land B C) (Z.land (u32 (Z.lnot B)) D).
Definition f_parity (B C D : Z) : Z := Z.lxor (Z.lxor B C) D.
Definition f_majority (B C D : Z) : Z := Z.lor (Z.lor (Z.land B C) (Z.land B D)) (Z.land C D).

(** What [ProcessMessageBlock] does to [H]. *)
Definition compress (block H : list Z) : list Z :=
  let W := message_schedule block in
  let r := mkReg (at_ H 0) (at_ H 1) (at_ H 2) (at_ H 3) (at_ H 4) in
  let r := foldl (sha_round f_choose 0x5A827999 W) r (seq 0 20) in
  let r := foldl (sha_round f_parity 0x6ED9EBA1 W) r (seq 20 20) in
  let r := foldl (sha_round f_majority 0x8F1BBCDC W) r (seq 40 20) in
  let r := foldl (sha_round f_parity 0xCA62C1D6 W) r (seq 60 20) in
  [u32 (at_ H 0 + rA r); u32 (at_ H 1 + rB r); u32 (at_ H 2 + rC r); u32 (at_ H 3 + rD r); u32 (at_ H 4 + rE r)].

Definition ProcessMessageBlock (s : SHA1) : SHA1 :=
  mkSHA1 (compress (Message_Block s) (H s)) (Length_Low s) (Length_High s) (Message_Block s) 0
    (Computed s) (Corrupted s).

(** [Message_Block[Message_Block_Index++] = z]. *)
Definition put_byte (z : Z) (s : SHA1) : SHA1 :=
  mkSHA1 (H s) (Length_Low s) (Length_High s)
    (<[Message_Block_Index s := z]> (Message_Block s)) (Message_Block_Index s + 1)
    (Computed s) (Corrupted s).

(** The lengths after one more byte: 64 bits in two words; overflow corrupts. *)
Definition count_byte (s : SHA1) : SHA1 :=
  let low := u32 (Length_Low s + 8) in
  let high := if low =? 0 then u32 (Length_High s + 1) else Length_High s in
  mkSHA1 (H s) low high (Message_Block s) (Message_Block_Index s) (Computed s)
    (Corrupted s || ((low =? 0) && (high =? 0))).

Definition input_byte (x : byte) (s : SHA1) : SHA1 :=
  let s := count_byte (put_byte (byte.unsigned x) s) in
  if (Message_Block_Index s =? 64)%nat then ProcessMessageBlock s else s.

(** [while (length-- && !Corrupted)] over an array that may be shorter. *)
Fixpoint input_loop (length : nat) (message_array : list byte) (s : SHA1) : outcome SHA1 :=
  match length with
  | O => Ret s
  | S length =>
      if Corrupted s then Ret s
      else match message_array with
           | [] => Throw UndefinedBehaviour
           | x :: rest => input_loop length rest (input_byte x s)
           end
  end.

Definition set_corrupted (s : SHA1) : SHA1 :=
  mkSHA1 (H s) (Length_Low s) (Length_High s) (Message_Block s) (Message_Block_Index s) (Computed s) true.

(** [length] is an [unsigned]. *)
Definition Input (message_array : list byte) (length : Z) (s : SHA1) : outcome SHA1 :=
  if u32 length =? 0 then Ret s
  else if Computed s || Corrupted s then Ret (set_corrupted s)
  else input_loop (Z.to_nat (u32 length)) message_array s.

(** The overloads on one element, and the stream operators: one call of [Input] for
    each element up to the terminating NUL. *)
Definition Input_element (message_element : byte) (s : SHA1) : outcome SHA1 := Input [message_element] 1 s.
Fixpoint stream_loop (message_array : list byte) (s : SHA1) : outcome SHA1 :=
  match message_array with
  | [] => Ret s
  | x :: rest => s ← Input_element x s; stream_loop rest s
  end.
Definition stream_string (message_array : list byte) (s : SHA1) : outcome SHA1 := stream_loop (c_str message_array) s.
Definition stream_element (message_element : byte) (s : SHA1) : outcome SHA1 := Input [message_element] 1 s.

(** [while (Message_Block_Index < n) Message_Block[Message_Block_Index++] = 0]. *)
Definition zero_to (n : nat) (s : SHA1) : SHA1 :=
  Nat.iter (n - Message_Block_Index s) (put_byte 0) s.

(** Bytes 56..63 of the block. *)
Definition length_bytes (high low : Z) : list Z :=
  [Z.land (Z.shiftr high 24) 0xFF; Z.land (Z.shiftr high 16) 0xFF; Z.land (Z.shiftr high 8) 0xFF;
   Z.land high 0xFF;
   Z.land (Z.shiftr low 24) 0xFF; Z.land (Z.shiftr low 16) 0xFF; Z.land (Z.shiftr low 8) 0xFF;
   Z.land low 0xFF].

Definition PadMessage (s : SHA1) : SHA1 :=
  let s :=
    if (55 <? Message_Block_Index s)%nat then
      zero_to 56 (ProcessMessageBlock (zero_to 64 (put_byte 0x80 s)))
    else zero_to 56 (put_byte 0x80 s) in
  ProcessMessageBlock
    (mkSHA1 (H s) (Length_Low s) (Length_High s)
       (list_inserts 56 (length_bytes (Length_High s) (Length_Low s)) (Message_Block s))
       (Message_Block_Index s) (Computed s) (Corrupted s)).

(** [None]: the function returns false and leaves the array as it is. *)
Definition Result (s : SHA1) : option (list Z) * SHA1 :=
  if Corrupted s then (None, s)
  else
    let s := if negb (Computed s) then
               let s := PadMessage s in
               mkSHA1 (H s) (Length_Low s) (Length_High s) (Message_Block s) (Message_Block_Index s) true (Corrupted s)
             else s in
    (Some (H s), s).

(** A message given to [Input] in pieces, then [Result]. *)
Fixpoint sha1_inputs (pieces : list (list byte)) (s : SHA1) : outcome SHA1 :=
  match pieces with
  | [] => Ret s
  | m :: pieces => s ← Input m (Z.of_nat (length m)) s; sha1_inputs pieces s
  end.
Definition sha1_digest (pieces : list (list byte)) : outcome (option (list Z)) :=
  s ← sha1_inputs pieces SHA1_init; Ret (Result s).1.

(** FIPS 180-1, appendix A. *)
Example sha1_abc :
  sha1_digest [bytes "abc"] = Ret (Some [0xA9993E36; 0x4706816A; 0xBA3E2571; 0x7850C26C; 0x9CD0D89D]).
Proof. vm_compute. reflexivity. Qed.
Example sha1_two_blocks :
  sha1_digest [bytes "abcdbcdecdefdefgefghfghighij"; bytes "hijkijkljklmklmnlmnomnopnopq"]
  = Ret (Some [0x84983E44; 0x1C3BD26E; 0xBAAE4AA1; 0xF95129E5; 0xE54670F1]).
Proof. vm_compute. reflexivity. Qed.

(** ** The blocks of the padded message *)

Fixpoint sha1_blocks (n : nat) (H l : list Z) : list Z :=
  match n with
  | O => H
  | S n' => sha1_blocks n' (compress (take 64 l) H) (drop 64 l)
  end.

(** The zeros that make the length of the padded message a multiple of 64. *)
Definition pad_zeros (len : nat) : nat := (if len mod 64 <=? 55 then 55 - len mod 64 else 119 - len mod 64)%nat.

Definition sha1_pad (m : list Z) : list Z :=
  let bits := 8 * Z.of_nat (length m) in
  m ++ [0x80] ++ replicate (pad_zeros (length m)) 0 ++ length_bytes (bits / 2 ^ 32) (bits mod 2 ^ 32).

Definition sha1_spec (m : list Z) : list Z :=
  sha1_blocks (length (sha1_pad m) / 64) H_init (sha1_pad m).

Lemma sha1_blocks_app n k H l1 l2 :
  length l1 = (n * 64)%nat -> sha1_blocks (n + k) H (l1 ++ l2) = sha1_blocks k (sha1_blocks n H l1) l2.
Proof.
  revert H l1. induction n as [|n IH]; intros H l1 Hl; cbn [sha1_blocks Nat.add].
  { by destruct l1. }
  rewrite take_app_le by lia. rewrite drop_app_le by lia. apply IH. rewrite length_drop. lia.
Qed.

(** ** The state between two bytes *)

(** The block holds [rest] in front, and the lengths count [bits]. *)
Record filled (rest : list Z) (bits : Z) (h : list Z) (s : SHA1) : Prop := {
  f_H : H s = h;
  f_block : length (Message_Block s) = 64%nat;
  f_index : Message_Block_Index s = length rest;
  f_rest : take (length rest) (Message_Block s) = rest;
  f_room : (length rest <= 64)%nat;
  f_low : Length_Low s = bits mod 2 ^ 32;
  f_high : Length_High s = bits / 2 ^ 32;
  f_open : Computed s = false /\ Corrupted s = false;
}.

Lemma take_insert_end {A} (l : list A) i x :
  (i < length l)%nat -> take (S i) (<[i := x]> l) = take i l ++ [x].
Proof.
  intros Hi. rewrite (take_S_r _ _ x) by (by apply list_lookup_insert_eq).
  by rewrite take_insert_ge by done.
Qed.

Lemma filled_put rest bits h s z :
  filled rest bits h s -> (length rest < 64)%nat -> filled (rest ++ [z]) bits h (put_byte z s).
Proof.
  intros [] Hl. split; cbn; rewrite ?length_app, ?length_insert; cbn [length]; try done; try lia.
  rewrite f_index0. replace (length rest + 1)%nat with (S (length rest)) by lia.
  rewrite take_insert_end by lia. by rewrite f_rest0.
Qed.

Lemma filled_zeros rest bits h s n :
  filled rest bits h s -> (length rest <= n <= 64)%nat ->
  filled (rest ++ replicate (n - length rest) 0) bits h (zero_to n s).
Proof.
  intros Hf Hn. unfold zero_to. rewrite (f_index _ _ _ _ Hf).
  assert (Hk : forall k, (length rest + k <= 64)%nat ->
    filled (rest ++ replicate k 0) bits h (Nat.iter k (put_byte 0) s)).
  { induction k as [|k IH]; intros Hk; [by rewrite app_nil_r|].
    cbn [Nat.iter nat_rect]. rewrite replicate_S_end, app_assoc. apply filled_put; [apply IH; lia|].
    rewrite length_app, length_replicate. lia. }
  apply Hk. lia.
Qed.

Lemma filled_process rest bits h s :
  filled rest bits h s -> length rest = 64%nat -> filled [] bits (compress rest h) (ProcessMessageBlock s).
Proof.
  intros [] Hl. split; cbn; try done; [|lia].
  rewrite f_H0. f_equal. rewrite <-f_rest0. rewrite Hl. symmetry. apply take_ge. lia.
Qed.

Lemma filled_count rest bits h s :
  filled rest bits h s -> 0 <= bits -> bits + 8 < 2 ^ 64 -> bits mod 8 = 0 ->
  filled rest (bits + 8) h (count_byte s).
Proof.
  intros [] H0 Hb H8. unfold count_byte. rewrite f_low0, f_high0.
  assert (Hlow : u32 (bits mod 2 ^ 32 + 8) = (bits + 8) mod 2 ^ 32).
  { unfold u32. by rewrite Z.add_mod_idemp_l by lia. }
  rewrite Hlow.
  assert (Hhigh : (if (bits + 8) mod 2 ^ 32 =? 0 then u32 (bits / 2 ^ 32 + 1) else bits / 2 ^ 32)
    = (bits + 8) / 2 ^ 32 /\ ((bits + 8) mod 2 ^ 32 = 0 -> (bits + 8) / 2 ^ 32 <> 0)).
  { unfold u32. assert (Hr : 0 <= bits / 2 ^ 32 < 2 ^ 32).
    { split; [apply Z.div_pos; lia | apply Z.div_lt_upper_bound; lia]. }
    case_test.
    - assert (E : bits / 2 ^ 32 + 1 = (bits + 8) / 2 ^ 32) by (Z.div_mod_to_equations; lia).
      assert (bits / 2 ^ 32 + 1 < 2 ^ 32).
      { rewrite E. apply Z.div_lt_upper_bound; lia. }
      rewrite Z.mod_small by lia. split; [done|]. lia.
    - split; [|done]. Z.div_mod_to_equations; lia. }
  destruct Hhigh as [-> Hne]. split; cbn; try done.
  destruct f_open0 as [-> ->]. split; [done|]. cbn [orb]. repeat case_test; cbn [andb]; try done. naive_solver.
Qed.

(** Everything read so far: whole blocks are compressed, the rest is in the block. *)
Definition absorbed (m : list Z) (s : SHA1) : Prop :=
  exists k pre rest, m = pre ++ rest /\ length pre = (k * 64)%nat /\ (length rest < 64)%nat
    /\ filled rest (8 * Z.of_nat (length m)) (sha1_blocks k H_init pre) s.

Lemma absorbed_init : absorbed [] SHA1_init.
Proof. exists 0%nat, [], []. by repeat split; try (vm_compute; lia). Qed.

Lemma absorbed_byte m x s :
  absorbed m s -> 8 * (Z.of_nat (length m) + 1) < 2 ^ 64 ->
  absorbed (m ++ [byte.unsigned x]) (input_byte x s).
Proof.
  intros (k & pre & rest & -> & Hpre & Hrest & Hf) Hlen. unfold input_byte.
  set (m := pre ++ rest) in *. set (z := byte.unsigned x).
  assert (Hm : 8 * Z.of_nat (length (m ++ [z])) = 8 * Z.of_nat (length m) + 8)
    by (rewrite length_app; cbn [length]; lia).
  pose proof (filled_count _ _ _ _ (filled_put rest _ _ s z Hf Hrest) ltac:(lia) ltac:(lia)
    ltac:(rewrite Z.mul_comm; apply Z.mod_mul; lia)) as Hc.
  rewrite (f_index _ _ _ _ Hc), length_app. cbn [length].
  destruct (Nat.eqb_spec (length rest + 1) 64) as [E|E].
  - exists (k + 1)%nat, (pre ++ rest ++ [z]), []. rewrite Hm.
    split_and!; [by unfold m; rewrite app_nil_r, app_assoc | rewrite !length_app; cbn [length]; lia | cbn; lia |].
    rewrite sha1_blocks_app by done. cbn [sha1_blocks].
    rewrite take_ge by (rewrite length_app; cbn [length]; lia).
    apply filled_process; [exact Hc | rewrite length_app; cbn [length]; lia].
  - exists k, pre, (rest ++ [z]). rewrite Hm.
    split_and!; [by unfold m; rewrite app_assoc | done | rewrite length_app; cbn [length]; lia | exact Hc].
Qed.

Lemma absorbed_open m s : absorbed m s -> Computed s = false /\ Corrupted s = false.
Proof. by intros (? & ? & ? & _ & _ & _ & []). Qed.

Lemma absorbed_loop m l tl s :
  absorbed m s -> 8 * Z.of_nat (length m + length l) < 2 ^ 64 ->
  exists s', input_loop (length l) (l ++ tl) s = Ret s' /\ absorbed (m ++ (byte.unsigned <$> l)) s'.
Proof.
  revert m s. induction l as [|x l IH]; intros m s Ha Hlen; cbn [input_loop fmap list_fmap length app].
  { exists s. by rewrite app_nil_r. }
  destruct (absorbed_open m s Ha) as [_ ->].
  replace (m ++ byte.unsigned x :: (byte.unsigned <$> l)) with ((m ++ [byte.unsigned x]) ++ (byte.unsigned <$> l))
    by (by rewrite <-app_assoc).
  cbn [length] in Hlen. apply IH; [apply absorbed_byte; [done | lia]|].
  rewrite length_app. cbn [length]. lia.
Qed.

(** [Input] takes the bytes its length counts. *)
Lemma absorbed_Input m l length' s :
  absorbed m s -> (Z.to_nat (u32 length') <= length l)%nat ->
  8 * (Z.of_nat (length m) + u32 length') < 2 ^ 64 ->
  exists s', Input l length' s = Ret s' /\ absorbed (m ++ (byte.unsigned <$> take (Z.to_nat (u32 length')) l)) s'.
Proof.
  intros Ha Hl Hlen. unfold Input. assert (H0 : 0 <= u32 length') by (apply Z.mod_pos_bound; lia).
  destruct (absorbed_open m s Ha) as [-> ->]. cbn [orb].
  destruct (Z.eqb_spec (u32 length') 0) as [->|_].
  - exists s. split; [done|]. cbn. by rewrite app_nil_r.
  - set (n := Z.to_nat (u32 length')) in *.
    destruct (absorbed_loop m (take n l) (drop n l) s Ha) as (s' & E & Hs'); [rewrite length_take; lia|].
    rewrite take_drop, length_take, Nat.min_l in E by done. by exists s'.
Qed.

Lemma absorbed_inputs pieces m s :
  absorbed m s -> Forall (fun l => Z.of_nat (length l) < 2 ^ 32) pieces ->
  8 * Z.of_nat (length m + length (mjoin pieces)) < 2 ^ 64 ->
  exists s', sha1_inputs pieces s = Ret s' /\ absorbed (m ++ (byte.unsigned <$> mjoin pieces)) s'.
Proof.
  revert m s. induction pieces as [|l pieces IH]; intros m s Ha Hp Hlen; cbn [sha1_inputs].
  { exists s. by rewrite app_nil_r. }
  apply Forall_cons in Hp as [Hl Hp]. change (mjoin (l :: pieces)) with (l ++ mjoin pieces) in *.
  rewrite length_app in Hlen. assert (Eu : u32 (Z.of_nat (length l)) = Z.of_nat (length l)) by (apply Z.mod_small; lia).
  destruct (absorbed_Input m l (Z.of_nat (length l)) s Ha) as (s1 & -> & Ha1); rewrite ?Eu, ?Nat2Z.id; [lia..|].
  rewrite Eu, Nat2Z.id, firstn_all in Ha1. mrun.
  destruct (IH _ _ Ha1 Hp) as (s' & -> & Ha'); [rewrite length_app, length_fmap; lia|].
  exists s'. split; [done|]. by rewrite fmap_app, app_assoc.
Qed.

(** The last block: 56 bytes, then the length. *)
Lemma filled_length rest bits h s :
  filled rest bits h s -> length rest = 56%nat ->
  filled (rest ++ length_bytes (bits / 2 ^ 32) (bits mod 2 ^ 32)) bits h
    (mkSHA1 (H s) (Length_Low s) (Length_High s)
       (list_inserts 56 (length_bytes (Length_High s) (Length_Low s)) (Message_Block s))
       64 (Computed s) (Corrupted s)).
Proof.
  intros [] Hl. split; cbn [H Length_Low Length_High Message_Block Message_Block_Index Computed Corrupted];
    rewrite ?length_app, ?length_inserts, ?Hl; cbn [length length_bytes]; try done; try lia.
  rewrite f_low0, f_high0. set (lb := length_bytes _ _).
  assert (Hlb : length lb = 8%nat) by done.
  rewrite <-f_rest0, Hl. rewrite take_ge by (rewrite length_inserts; lia).
  apply list_eq. intros i. destruct (decide (i < 56)%nat).
  - rewrite list_lookup_inserts_lt by lia. rewrite lookup_app_l by (rewrite length_take; lia).
    by rewrite lookup_take_lt.
  - rewrite lookup_app_r by (rewrite length_take; lia). rewrite length_take, Nat.min_l by lia.
    destruct (decide (i < 64)%nat).
    + rewrite list_lookup_inserts by lia. done.
    + rewrite list_lookup_inserts_ge by lia. rewrite !lookup_ge_None_2 by lia. done.
Qed.

Lemma length_of_bytes high low : length (length_bytes high low) = 8%nat.
Proof. done. Qed.

(** The block the length completes is compressed. *)
Lemma filled_last rest bits h s :
  filled rest bits h s -> length rest = 56%nat ->
  H (ProcessMessageBlock (mkSHA1 (H s) (Length_Low s) (Length_High s)
     (list_inserts 56 (length_bytes (Length_High s) (Length_Low s)) (Message_Block s))
     (Message_Block_Index s) (Computed s) (Corrupted s)))
  = compress (rest ++ length_bytes (bits / 2 ^ 32) (bits mod 2 ^ 32)) h.
Proof.
  intros Hr Hl. pose proof (filled_length rest bits h s Hr Hl) as Hr'.
  assert (length (rest ++ length_bytes (bits / 2 ^ 32) (bits mod 2 ^ 32)) = 64%nat)
    by (rewrite length_app, Hl; done).
  pose proof (filled_process _ _ _ _ Hr' ltac:(done)) as [E _ _ _ _ _ _ _]. exact E.
Qed.

(** The padding of the specification, behind [k] whole blocks. *)
Section padding.
Variables (k : nat) (pre rest : list Z).
Hypothesis Hpre : length pre = (k * 64)%nat.
Hypothesis Hrest : (length rest < 64)%nat.
Let bits := 8 * Z.of_nat (length (pre ++ rest)).
Let lb := length_bytes (bits / 2 ^ 32) (bits mod 2 ^ 32).

Lemma pad_mod : (length (pre ++ rest) mod 64)%nat = length rest.
Proof using Hpre Hrest. rewrite length_app, Hpre, Nat.add_comm, Nat.Div0.mod_add. by apply Nat.mod_small. Qed.

Lemma sha1_spec_one_block :
  (length rest <= 55)%nat ->
  sha1_spec (pre ++ rest)
  = compress (((rest ++ [128]) ++ replicate (56 - length (rest ++ [128])) 0) ++ lb) (sha1_blocks k H_init pre).
Proof using Hpre Hrest.
  intros E. unfold sha1_spec, sha1_pad, pad_zeros. rewrite pad_mod, (proj2 (Nat.leb_le _ _)) by lia. fold bits lb.
  set (b := ((rest ++ [128]) ++ _) ++ lb).
  assert (Hb : length b = 64%nat) by (unfold b; rewrite !length_app, length_replicate; cbn [length]; unfold lb; rewrite length_of_bytes; lia).
  assert (Eq : (pre ++ rest) ++ [0x80] ++ replicate (55 - length rest) 0 ++ lb = pre ++ b).
  { unfold b. rewrite <-!app_assoc. do 5 f_equal. rewrite length_app. cbn [length]. lia. }
  rewrite Eq, length_app, Hb, Hpre. replace (k * 64 + 64)%nat with ((k + 1) * 64)%nat by lia.
  rewrite Nat.div_mul, sha1_blocks_app by done. cbn [sha1_blocks]. by rewrite take_ge by lia.
Qed.

Lemma sha1_spec_two_blocks :
  (55 < length rest)%nat ->
  sha1_spec (pre ++ rest)
  = compress (replicate 56 0 ++ lb)
      (compress ((rest ++ [128]) ++ replicate (64 - length (rest ++ [128])) 0) (sha1_blocks k H_init pre)).
Proof using Hpre Hrest.
  intros E. unfold sha1_spec, sha1_pad, pad_zeros. rewrite pad_mod, (proj2 (Nat.leb_gt _ _)) by lia. fold bits lb.
  set (b := (rest ++ [128]) ++ _). set (l := replicate 56 0 ++ lb).
  assert (Hb : length b = 64%nat) by (unfold b; rewrite !length_app, length_replicate; cbn [length]; lia).
  assert (Hl : length l = 64%nat) by (unfold l, lb; rewrite length_app, length_replicate, length_of_bytes; lia).
  assert (Eq : (pre ++ rest) ++ [0x80] ++ replicate (119 - length rest) 0 ++ lb = pre ++ b ++ l).
  { unfold b, l. rewrite <-!app_assoc. do 3 f_equal. rewrite app_assoc, <-replicate_add.
    do 2 f_equal. rewrite length_app. cbn [length]. lia. }
  rewrite Eq, !length_app, Hb, Hl, Hpre. replace (k * 64 + (64 + 64))%nat with ((k + 2) * 64)%nat by lia.
  rewrite Nat.div_mul, sha1_blocks_app by done. change 2%nat with (1 + 1)%nat. rewrite sha1_blocks_app by lia.
  cbn [sha1_blocks]. rewrite (take_ge b) by lia. by rewrite take_ge by lia.
Qed.

End padding.

Lemma PadMessage_spec m s : absorbed m s -> H (PadMessage s) = sha1_spec m.
Proof.
  intros (k & pre & rest & -> & Hpre & Hrest & Hf).
  pose proof (filled_put rest _ _ s 128 Hf ltac:(lia)) as Hf1.
  assert (Hl1 : length (rest ++ [128]) = S (length rest)) by (rewrite length_app; simpl; lia).
  unfold PadMessage. rewrite (f_index _ _ _ _ Hf). destruct (Nat.ltb_spec 55 (length rest)) as [E|E].
  - rewrite (sha1_spec_two_blocks k) by done.
    pose proof (filled_zeros _ _ _ _ 64 Hf1 ltac:(lia)) as Hf2.
    pose proof (filled_process _ _ _ _ Hf2 ltac:(rewrite length_app, length_replicate; lia)) as Hf3.
    exact (filled_last _ _ _ _ (filled_zeros _ _ _ _ 56 Hf3 ltac:(simpl; lia)) eq_refl).
  - rewrite (sha1_spec_one_block k) by done.
    pose proof (filled_zeros _ _ _ _ 56 Hf1 ltac:(lia)) as Hf2.
    apply (filled_last _ _ _ _ Hf2). rewrite length_app, length_replicate. lia.
Qed.

(** ** FIPS 180-4 *)

(** Sections 3.2 and 4.1.1: operations on 32-bit words. *)
Definition ROTL (n x : Z) : Z := Z.lor (Z.shiftl x n mod 2 ^ 32) (Z.shiftr x (32 - n)).
Definition NOT (x : Z) : Z := 2 ^ 32 - 1 - x.
Definition Ch (x y z : Z) : Z := Z.lxor (Z.land x y) (Z.land (NOT x) z).
Definition Parity (x y z : Z) : Z := Z.lxor (Z.lxor x y) z.
Definition Maj (x y z : Z) : Z := Z.lxor (Z.lxor (Z.land x y) (Z.land x z)) (Z.land y z).
Definition fips_f (t : nat) : Z -> Z -> Z -> Z :=
  if (t <? 20)%nat then Ch else if (t <? 40)%nat then Parity else if (t <? 60)%nat then Maj else Parity.

(** Section 4.2.1: floors of 2^30 times the square roots of 2, 3, 5 and 10. *)
Definition fips_K (t : nat) : Z :=
  Z.sqrt (2 ^ 60 * (if (t <? 20)%nat then 2 else if (t <? 40)%nat then 3 else if (t <? 60)%nat then 5 else 10)).

(** Section 5.3.1. *)
Definition fips_H0 : list Z := [0x67452301; 0xefcdab89; 0x98badcfe; 0x10325476; 0xc3d2e1f0].

(** Section 6.1.2.  The schedule is built from the last word backwards. *)
Fixpoint fips_words (block : list Z) : list Z :=
  match block with
  | a :: b :: c :: d :: block => a * 2 ^ 24 + b * 2 ^ 16 + c * 2 ^ 8 + d :: fips_words block
  | _ => []
  end.
Definition fips_next (W : list Z) : list Z :=
  ROTL 1 (Z.lxor (Z.lxor (Z.lxor (nth 2 W 0) (nth 7 W 0)) (nth 13 W 0)) (nth 15 W 0)) :: W.
Definition fips_schedule (block : list Z) : list Z := rev (Nat.iter 64 fips_next (rev (fips_words block))).

Definition fips_step (W : list Z) (v : Z * Z * Z * Z * Z) (t : nat) : Z * Z * Z * Z * Z :=
  let '(a, b, c, d, e) := v in
  ((ROTL 5 a + fips_f t b c d + e + fips_K t + nth t W 0) mod 2 ^ 32, a, ROTL 30 b, c, d).

Definition fips_block (block H : list Z) : list Z :=
  let '(a, b, c, d, e) := foldl (fips_step (fips_schedule block)) (nth 0 H 0, nth 1 H 0, nth 2 H 0, nth 3 H 0, nth 4 H 0) (seq 0 80) in
  [(nth 0 H 0 + a) mod 2 ^ 32; (nth 1 H 0 + b) mod 2 ^ 32; (nth 2 H 0 + c) mod 2 ^ 32; (nth 3 H 0 + d) mod 2 ^ 32;
   (nth 4 H 0 + e) mod 2 ^ 32].

Fixpoint fips_blocks (n : nat) (H l : list Z) : list Z :=
  match n with
  | O => H
  | S n' => fips_blocks n' (fips_block (take 64 l) H) (drop 64 l)
  end.

(** Section 5.1.1 in bytes: the bit 1, zeros, and the bit length in 64 bits, the
    highest byte first, so that 64 divides the length. *)
Definition fips_pad (m : list Z) : list Z :=
  let len := Z.of_nat (length m) in
  m ++ [128] ++ replicate (Z.to_nat ((55 - len) mod 64)) 0
    ++ ((fun i => (8 * len) / 2 ^ i mod 256) <$> [56; 48; 40; 32; 24; 16; 8; 0]).

Definition fips_sha1 (m : list Z) : list Z := fips_blocks (length (fips_pad m) / 64) fips_H0 (fips_pad m).

Example fips_sha1_abc :
  fips_sha1 (byte.unsigned <$> bytes "abc") = [0xA9993E36; 0x4706816A; 0xBA3E2571; 0x7850C26C; 0x9CD0D89D].
Proof. vm_compute. reflexivity. Qed.

(** ** The class computes the standard *)

Definition word (x : Z) : Prop := 0 <= x < 2 ^ 32.
Definition octet (x : Z) : Prop := 0 <= x < 256.

Lemma unsigned_bytes (l : list byte) : Forall octet (byte.unsigned <$> l).
Proof. apply Forall_fmap, Forall_true. intros x. apply byte.unsigned_range. Qed.

Lemma word_u32 x : word (x mod 2 ^ 32).
Proof. apply Z.mod_pos_bound. lia. Qed.

Lemma word_lor x y : word x -> word y -> word (Z.lor x y).
Proof.
  intros [Hx0 Hx] [Hy0 Hy]. assert (H0 : 0 <= Z.lor x y) by (apply Z.lor_nonneg; lia). split; [done|].
  destruct (Z.eq_dec (Z.lor x y) 0) as [->|Hne]; [lia|]. apply Z.log2_lt_pow2; [lia|]. rewrite Z.log2_lor by done.
  apply Z.max_lub_lt; (destruct (Z.eq_dec x 0) as [->|]; [|]; destruct (Z.eq_dec y 0) as [->|]);
    cbn; try lia; apply Z.log2_lt_pow2; lia.
Qed.

Lemma word_lxor x y : word x -> word y -> word (Z.lxor x y).
Proof.
  intros [Hx0 Hx] [Hy0 Hy]. assert (H0 : 0 <= Z.lxor x y) by (apply Z.lxor_nonneg; lia). split; [done|].
  replace (Z.lxor x y) with (Z.lxor x y mod 2 ^ 32); [by apply word_u32|].
  apply Z.bits_inj'. intros n Hn. destruct (Z.lt_ge_cases n 32).
  - by rewrite Z.mod_pow2_bits_low.
  - rewrite Z.mod_pow2_bits_high, Z.lxor_spec by lia.
    rewrite <-(Z.mod_small x (2 ^ 32)), <-(Z.mod_small y (2 ^ 32)) by lia. by rewrite !Z.mod_pow2_bits_high by lia.
Qed.

Lemma word_ROTL n x : 0 <= n <= 32 -> word x -> word (ROTL n x).
Proof.
  intros Hn [Hx0 Hx]. apply word_lor; [apply word_u32|]. rewrite Z.shiftr_div_pow2 by lia.
  split; [apply Z.div_pos; lia|]. apply Z.div_lt_upper_bound; [lia|].
  assert (1 <= 2 ^ (32 - n)) by (apply Z.lt_pred_le, Z.pow_pos_nonneg; lia). nia.
Qed.

Lemma CircularShift_ROTL n x : word x -> CircularShift n x = ROTL n x.
Proof.
  intros Hx. unfold CircularShift, ROTL, u32. change 0xFFFFFFFF with (Z.ones 32). rewrite !Z.land_ones by lia.
  by rewrite Z.mod_mod, (Z.mod_small x) by (done || lia).
Qed.

Lemma NOT_lnot x : word x -> u32 (Z.lnot x) = NOT x.
Proof. intros [? ?]. unfold u32, NOT, Z.lnot. symmetry. apply (Z.mod_unique _ _ (-1)); lia. Qed.

Lemma f_choose_Ch x y z : word x -> f_choose x y z = Ch x y z.
Proof.
  intros Hx. unfold f_choose, Ch. rewrite <-NOT_lnot by done. apply Z.bits_inj'. intros n Hn.
  rewrite Z.lor_spec, Z.lxor_spec, !Z.land_spec. unfold u32. destruct (Z.lt_ge_cases n 32).
  - rewrite Z.mod_pow2_bits_low, Z.lnot_spec by lia. by destruct (Z.testbit x n), (Z.testbit y n), (Z.testbit z n).
  - rewrite Z.mod_pow2_bits_high by lia. by destruct (Z.testbit x n), (Z.testbit y n).
Qed.

Lemma f_majority_Maj x y z : f_majority x y z = Maj x y z.
Proof.
  unfold f_majority, Maj. apply Z.bits_inj'. intros n Hn. rewrite !Z.lor_spec, !Z.lxor_spec, !Z.land_spec.
  by destruct (Z.testbit x n), (Z.testbit y n), (Z.testbit z n).
Qed.

(** The registers as the standard's variables. *)
Definition tuple (r : Registers) : Z * Z * Z * Z * Z := (rA r, rB r, rC r, rD r, rE r).
Definition reg_words (r : Registers) : Prop := word (rA r) /\ word (rB r) /\ word (rC r) /\ word (rD r) /\ word (rE r).

Lemma sha_rounds f K W lo n r :
  reg_words r ->
  (forall t x y z, (lo <= t < lo + n)%nat -> word x -> f x y z = fips_f t x y z /\ K = fips_K t) ->
  tuple (foldl (sha_round f K W) r (seq lo n)) = foldl (fips_step W) (tuple r) (seq lo n)
  /\ reg_words (foldl (sha_round f K W) r (seq lo n)).
Proof.
  revert lo r. induction n as [|n IH]; intros lo r Hr Hf; cbn [seq foldl]; [done|].
  destruct Hr as (Ha & Hb & Hc & Hd & He). destruct (Hf lo (rB r) (rC r) (rD r) ltac:(lia) Hb) as [Ef Ek].
  assert (Es : tuple (sha_round f K W r lo) = fips_step W (tuple r) lo).
  { unfold sha_round, fips_step, tuple. cbn [rA rB rC rD rE]. rewrite !CircularShift_ROTL by done. rewrite Ef, <-Ek.
    unfold u32, at_. do 5 f_equal. lia. }
  rewrite <-Es. apply IH.
  - unfold sha_round, reg_words. cbn [rA rB rC rD rE]. split_and!; try done; [apply word_u32|].
    rewrite CircularShift_ROTL by done. by apply word_ROTL.
  - intros t x y z Ht. apply Hf. lia.
Qed.

(** ** The schedule *)

Lemma octets_word a b c d :
  octet a -> octet b -> octet c -> octet d ->
  Z.lor (Z.lor (Z.lor (Z.shiftl a 24) (Z.shiftl b 16)) (Z.shiftl c 8)) d = a * 2 ^ 24 + b * 2 ^ 16 + c * 2 ^ 8 + d.
Proof.
  intros Ha Hb Hc Hd. unfold octet in *.
  assert (Hlor : forall hi lo k, 0 <= k -> 0 <= lo < 2 ^ k -> Z.lor (Z.shiftl hi k) lo = hi * 2 ^ k + lo).
  { intros hi lo k Hk Hlo. rewrite Z.shiftl_mul_pow2 by done.
    assert (E : Z.land (hi * 2 ^ k) lo = 0).
    { apply Z.bits_inj'. intros n Hn. rewrite Z.land_spec, Z.bits_0. destruct (Z.lt_ge_cases n k).
      - by rewrite Z.mul_pow2_bits_low.
      - rewrite <-(Z.mod_small lo (2 ^ k)) by done. by rewrite Z.mod_pow2_bits_high, andb_false_r by lia. }
    pose proof (Z.add_lor_land (hi * 2 ^ k) lo). lia. }
  replace (Z.lor (Z.shiftl a 24) (Z.shiftl b 16)) with (Z.shiftl (Z.lor (Z.shiftl a 8) b) 16)
    by (rewrite Z.shiftl_lor, Z.shiftl_shiftl by lia; done).
  rewrite (Hlor a b 8) by lia.
  replace (Z.lor (Z.shiftl (a * 2 ^ 8 + b) 16) (Z.shiftl c 8)) with (Z.shiftl (Z.lor (Z.shiftl (a * 2 ^ 8 + b) 8) c) 8)
    by (rewrite Z.shiftl_lor, Z.shiftl_shiftl by lia; done).
  rewrite (Hlor _ c 8), (Hlor _ d 8) by lia. lia.
Qed.

Lemma block_words n block :
  length block = (4 * n)%nat -> Forall octet block ->
  block_word block <$> seq 0 n = fips_words block /\ Forall word (fips_words block) /\ length (fips_words block) = n.
Proof.
  revert block. induction n as [|n IH]; intros block Hl Ho; [by destruct block|].
  destruct block as [|a [|b [|c [|d block]]]]; cbn [length] in Hl; try lia.
  apply Forall_cons in Ho as [Ha Ho]. apply Forall_cons in Ho as [Hb Ho]. apply Forall_cons in Ho as [Hc Ho].
  apply Forall_cons in Ho as [Hd Ho]. destruct (IH block ltac:(lia) Ho) as (E & Hw & Hn).
  cbn [fips_words seq fmap list_fmap length]. split_and!.
  - f_equal; [by apply octets_word|]. rewrite <-E, <-seq_shift. change (map S (seq 0 n)) with (S <$> seq 0 n).
    by rewrite <-list_fmap_compose.
  - constructor; [|done]. unfold octet, word in *. lia.
  - by rewrite Hn.
Qed.

Lemma next_word_fips W :
  Forall word W -> (16 <= length W)%nat -> next_word W (length W) :: rev W = fips_next (rev W) /\ word (next_word W (length W)).
Proof.
  intros Hw Hl. assert (Hnth : forall i, word (nth i W 0)).
  { intros i. destruct (nth_in_or_default i W 0) as [Hin|Hin]; [|rewrite Hin; by unfold word].
    rewrite Forall_forall in Hw. apply Hw. by apply list_elem_of_In. }
  set (x := Z.lxor (Z.lxor (Z.lxor (at_ W (length W - 3)) (at_ W (length W - 8))) (at_ W (length W - 14))) (at_ W (length W - 16))).
  assert (Hx : word x) by (repeat apply word_lxor; apply Hnth).
  assert (E : next_word W (length W) = ROTL 1 x) by (by apply CircularShift_ROTL).
  split; [|rewrite E; by apply word_ROTL]. rewrite E. unfold fips_next. by rewrite !rev_nth by lia.
Qed.

Lemma schedule_loop n W :
  Forall word W -> (16 <= length W)%nat ->
  foldl (fun W t => W ++ [next_word W t]) W (seq (length W) n) = rev (Nat.iter n fips_next (rev W)).
Proof.
  revert W. induction n as [|n IH]; intros W Hw Hl; [cbn; by rewrite rev_involutive|].
  cbn [seq foldl]. destruct (next_word_fips W Hw Hl) as [E Hx].
  assert (El : length (W ++ [next_word W (length W)]) = S (length W)) by (rewrite length_app; cbn; lia).
  rewrite <-El, IH; [|by apply Forall_app; split; [|constructor] |lia].
  rewrite rev_app_distr. cbn [rev app]. by rewrite Nat.iter_succ_r, E.
Qed.

Lemma message_schedule_fips block :
  length block = 64%nat -> Forall octet block -> message_schedule block = fips_schedule block.
Proof.
  intros Hl Ho. unfold message_schedule, fips_schedule.
  destruct (block_words 16 block Hl Ho) as (E & Hw & Hn). rewrite E, <-schedule_loop by (done || lia). by rewrite Hn.
Qed.

(** ** Blocks and messages *)

Definition words5 (H : list Z) : Prop := forall i, word (nth i H 0).

Lemma compress_fips block H :
  length block = 64%nat -> Forall octet block -> words5 H -> compress block H = fips_block block H /\ words5 (compress block H).
Proof.
  intros Hl Ho Hw. split.
  2:{ intros [|[|[|[|[|[|i]]]]]]; try apply word_u32; by unfold word. }
  unfold compress, fips_block. rewrite message_schedule_fips by done. set (W := fips_schedule block).
  cbv zeta. set (r0 := mkReg _ _ _ _ _).
  assert (H0 : reg_words r0) by (split_and!; apply Hw).
  destruct (sha_rounds f_choose 0x5A827999 W 0 20 r0 H0) as [E1 H1].
  { intros t x y z Ht Hx. unfold fips_f, fips_K. rewrite (proj2 (Nat.ltb_lt t 20)) by lia. split; [by apply f_choose_Ch | by vm_compute]. }
  set (r1 := foldl _ r0 _) in *.
  destruct (sha_rounds f_parity 0x6ED9EBA1 W 20 20 r1 H1) as [E2 H2].
  { intros t x y z Ht Hx. unfold fips_f, fips_K. rewrite (proj2 (Nat.ltb_ge t 20)), (proj2 (Nat.ltb_lt t 40)) by lia.
    split; [reflexivity | by vm_compute]. }
  set (r2 := foldl _ r1 _) in *.
  destruct (sha_rounds f_majority 0x8F1BBCDC W 40 20 r2 H2) as [E3 H3].
  { intros t x y z Ht Hx. unfold fips_f, fips_K.
    rewrite (proj2 (Nat.ltb_ge t 20)), (proj2 (Nat.ltb_ge t 40)), (proj2 (Nat.ltb_lt t 60)) by lia.
    split; [by apply f_majority_Maj | by vm_compute]. }
  set (r3 := foldl _ r2 _) in *.
  destruct (sha_rounds f_parity 0xCA62C1D6 W 60 20 r3 H3) as [E4 _].
  { intros t x y z Ht Hx. unfold fips_f, fips_K.
    rewrite (proj2 (Nat.ltb_ge t 20)), (proj2 (Nat.ltb_ge t 40)), (proj2 (Nat.ltb_ge t 60)) by lia.
    split; [reflexivity | by vm_compute]. }
  set (r4 := foldl _ r3 _) in *.
  change (seq 0 80) with (seq 0 20 ++ seq 20 20 ++ seq 40 20 ++ seq 60 20). rewrite !foldl_app.
  change (nth 0 H 0, nth 1 H 0, nth 2 H 0, nth 3 H 0, nth 4 H 0) with (tuple r0).
  rewrite <-E1, <-E2, <-E3, <-E4. reflexivity.
Qed.

Lemma blocks_fips n H l :
  length l = (n * 64)%nat -> Forall octet l -> words5 H -> sha1_blocks n H l = fips_blocks n H l.
Proof.
  revert H l. induction n as [|n IH]; intros H l Hl Ho Hw; [done|]. cbn [sha1_blocks fips_blocks].
  destruct (compress_fips (take 64 l) H) as [E Hc]; [rewrite length_take; lia|by apply Forall_take|done|].
  rewrite <-E. apply IH; [rewrite length_drop; lia | by apply Forall_drop | done].
Qed.

Lemma length_bytes_fips bits :
  0 <= bits < 2 ^ 64 ->
  length_bytes (bits / 2 ^ 32) (bits mod 2 ^ 32) = (fun i => bits / 2 ^ i mod 256) <$> [56; 48; 40; 32; 24; 16; 8; 0].
Proof.
  intros Hb. unfold length_bytes. change 0xFF with (Z.ones 8). rewrite !Z.land_ones, !Z.shiftr_div_pow2 by lia.
  change (2 ^ 8) with 256. cbn [fmap list_fmap]. rewrite !Z.div_div by lia.
  assert (Hlow : forall k, 0 <= k <= 24 -> bits mod 2 ^ 32 / 2 ^ k mod 2 ^ 8 = bits / 2 ^ k mod 2 ^ 8).
  { intros k Hk. apply Z.bits_inj'. intros i Hi. destruct (Z.lt_ge_cases i 8).
    - rewrite !Z.mod_pow2_bits_low, !Z.div_pow2_bits, Z.mod_pow2_bits_low by lia. done.
    - by rewrite !Z.mod_pow2_bits_high by lia. }
  change 256 with (2 ^ 8). rewrite !Hlow by lia.
  assert (E0 : bits mod 2 ^ 32 mod 2 ^ 8 = bits / 2 ^ 0 mod 2 ^ 8) by (rewrite <-(Hlow 0) by lia; by rewrite Z.div_1_r).
  by rewrite E0.
Qed.

Lemma sha1_spec_fips m : Forall octet m -> 8 * Z.of_nat (length m) < 2 ^ 64 -> sha1_spec m = fips_sha1 m.
Proof.
  intros Ho Hl. assert (Ep : sha1_pad m = fips_pad m).
  { unfold sha1_pad, fips_pad. cbv zeta. do 3 f_equal; [|apply length_bytes_fips; lia]. f_equal.
    unfold pad_zeros. pose proof (Nat.div_mod (length m) 64 ltac:(lia)) as Hd. pose proof (Nat.mod_upper_bound (length m) 64 ltac:(lia)) as Hu.
    set (q := (length m / 64)%nat) in *. set (k := (length m mod 64)%nat) in *. case_test.
    - replace ((55 - Z.of_nat (length m)) mod 64) with (55 - Z.of_nat k); [lia|]. apply (Z.mod_unique _ _ (- Z.of_nat q)); lia.
    - replace ((55 - Z.of_nat (length m)) mod 64) with (119 - Z.of_nat k); [lia|]. apply (Z.mod_unique _ _ (- Z.of_nat q - 1)); lia. }
  unfold sha1_spec, fips_sha1. rewrite Ep. change fips_H0 with H_init. apply blocks_fips.
  - assert (Hmod : (length (fips_pad m) mod 64 = 0)%nat).
    { rewrite <-Ep. unfold sha1_pad, pad_zeros. rewrite !length_app, length_replicate, length_of_bytes. cbn [length].
      pose proof (Nat.div_mod (length m) 64 ltac:(lia)) as Hd. pose proof (Nat.mod_upper_bound (length m) 64 ltac:(lia)) as Hu.
      set (q := (length m / 64)%nat) in *. set (k := (length m mod 64)%nat) in *. case_test.
      - replace (_ + _)%nat with ((q + 1) * 64)%nat by lia. apply Nat.Div0.mod_mul.
      - replace (_ + _)%nat with ((q + 2) * 64)%nat by lia. apply Nat.Div0.mod_mul. }
    pose proof (Nat.div_mod (length (fips_pad m)) 64 ltac:(lia)). lia.
  - unfold fips_pad. cbv zeta. repeat (apply Forall_app; split); [done | by repeat constructor | |].
    + apply Forall_replicate. by unfold octet.
    + apply Forall_fmap, Forall_true. intros i. apply Z.mod_pos_bound. lia.
  - intros [|[|[|[|[|[|i]]]]]]; by unfold word.
Qed.

(** The digest has 160 bits. *)
Lemma length_fips_sha1 m : length (fips_sha1 m) = 5%nat.
Proof.
  assert (Hb : forall n H l, length H = 5%nat -> length (fips_blocks n H l) = 5%nat).
  { induction n as [|n IH]; intros H l Hl; [done|]. apply IH. unfold fips_block. by destruct (foldl _ _ _) as [[[[a b] c] d] e]. }
  by apply Hb.
Qed.

Lemma sha1_digest_value (pieces : list (list byte)) :
  Forall (fun l => Z.of_nat (length l) < 2 ^ 32) pieces -> 8 * Z.of_nat (length (mjoin pieces)) < 2 ^ 64 ->
  sha1_digest pieces = Ret (Some (fips_sha1 (byte.unsigned <$> mjoin pieces))).
Proof.
  intros Hp Hl. unfold sha1_digest. destruct (absorbed_inputs pieces [] SHA1_init absorbed_init Hp) as (s & -> & Ha); [done|].
  cbn [app] in Ha. rewrite <-sha1_spec_fips; [|by apply unsigned_bytes | by rewrite length_fmap].
  rewrite <-(PadMessage_spec _ _ Ha). mrun. unfold Result. by destruct (absorbed_open _ s Ha) as [-> ->].
Qed.

(** C28: feeding a message in any pieces, each of fewer than 2^32 bytes, and
    reading the result gives the SHA-1 of FIPS 180-4, computed with the
    functions, constants, schedule and padding of the standard, for every
    message of fewer than 2^61 bytes. *)
Theorem sha1_digest_spec (pieces : list (list byte)) :
  Forall (fun l => Z.of_nat (length l) < 2 ^ 32) pieces -> 8 * Z.of_nat (length (mjoin pieces)) < 2 ^ 64 ->
  sha1_digest pieces = Ret (Some (fips_sha1 (byte.unsigned <$> mjoin pieces))).
Proof. apply sha1_digest_value. Qed.

Lemma sha1_digest_spec_witness :
  sha1_digest [bytes "a"; bytes ""; bytes "bc"]
  = Ret (Some [0xA9993E36; 0x4706816A; 0xBA3E2571; 0x7850C26C; 0x9CD0D89D]).
Proof.
  rewrite (sha1_digest_spec [bytes "a"; bytes ""; bytes "bc"]).
  - vm_compute. reflexivity.
  - repeat constructor.
  - vm_compute. reflexivity.
Defined.

(** ** The overloads *)

Lemma input_byte_Computed x s : Computed (input_byte x s) = Computed s.
Proof.
  unfold input_byte. cbv zeta. repeat case_match; reflexivity.
Qed.

(** Streaming a C string is one call of [Input] on its characters. *)
Theorem stream_string_Input (message_array : list byte) (s : SHA1) :
  Z.of_nat (length (c_str message_array)) < 2 ^ 32 ->
  stream_string message_array s = Input (c_str message_array) (Z.of_nat (length (c_str message_array))) s.
Proof.
  unfold stream_string. generalize (c_str message_array). intros l Hl. revert s.
  induction l as [|x l IH]; intros s; [reflexivity|]. cbn [length] in Hl.
  cbn [stream_loop]. unfold Input_element, Input. change (u32 1) with 1. change (1 =? 0) with false. cbn iota.
  unfold u32 in *. rewrite !Z.mod_small by (cbn [length]; lia). rewrite !Nat2Z.id.
  rewrite (proj2 (Z.eqb_neq _ 0)) by (cbn [length]; lia). cbn [length]. change (Z.to_nat 1) with 1%nat.
  assert (Hrest : forall s1, stream_loop l s1 = if Z.of_nat (length l) =? 0 then Ret s1
      else if Computed s1 || Corrupted s1 then Ret (set_corrupted s1) else input_loop (length l) l s1).
  { intros s1. rewrite IH by lia. unfold Input, u32. rewrite Z.mod_small, Nat2Z.id by lia. done. }
  destruct (Computed s) eqn:Ec, (Corrupted s) eqn:Eo; cbn [orb input_loop]; mrun; rewrite ?Eo; mrun; rewrite Hrest.
  1-3: cbn [set_corrupted Corrupted]; rewrite orb_true_r; by case_test.
  rewrite input_byte_Computed, Ec. cbn [orb]. case_test.
  - by destruct l.
  - destruct (Corrupted (input_byte x s)) eqn:E; [|done].
    assert (Es : set_corrupted (input_byte x s) = input_byte x s) by (unfold set_corrupted; rewrite <-E; by destruct (input_byte x s)).
    rewrite Es. destruct l; [done|]. cbn [length input_loop]. by rewrite E.
Qed.
