(* ===== verification/ConnApi.v ===== *)
(** * What a stream codec uses of its connection

    A codec reads and consumes the connection's receive buffer, sends bytes and
    shuts the connection down.  [StreamConn] is that part of net/TcpConn's
    interface, [StreamConnLaws] what its users rely on; a codec's theorems are
    proved against the laws.  [tcp_conn] and [tcp_conn_laws] show that a
    [TcpConn] of the event loop keeps the promise. *)

From S2P Require Import Prelude CxxStd CxxMap DateTime BaseBuffer Channel TcpConn TcpConnInv.
Local Open Scope Z_scope.

(** [W] is the state the connection lives in.  [GetRecvBuffer] returns a
    reference; [PutRecvBuffer] is a write through it. *)
Class StreamConn (W : Type) := {
  GetRecvBuffer : W -> outcome BaseBuffer;
  PutRecvBuffer : BaseBuffer -> W -> outcome W;
  ConnSend : list byte -> W -> outcome W;
  ConnShutdown : W -> outcome W;
  ClockNow : W -> DateTime;
}.

Class StreamConnLaws (W : Type) `{StreamConn W} := {
  usable : W -> Prop;
  queued : W -> list byte;
  law_recv : forall w, usable w -> exists b, GetRecvBuffer w = Ret b /\ wf b;
  law_put : forall w b, usable w -> wf b ->
    exists w', PutRecvBuffer b w = Ret w' /\ usable w' /\ GetRecvBuffer w' = Ret b /\ queued w' = queued w;
  law_send : forall w d, usable w ->
    exists w', ConnSend d w = Ret w' /\ usable w' /\ queued w' = queued w ++ d
      /\ GetRecvBuffer w' = GetRecvBuffer w;
  law_shutdown : forall w, usable w -> exists w', ConnShutdown w = Ret w';
}.

(** More bytes arrive from the peer. *)
Definition receive_on {W} `{StreamConn W} (data : list byte) (w : W) : outcome W :=
  b ← GetRecvBuffer w;
  PutRecvBuffer (Append data b) w.

Section laws.
Context {W : Type} `{StreamConnLaws W}.

(** The bytes [v] wait in the receive buffer of a usable connection. *)
Definition has_received (v : list byte) (w : W) : Prop :=
  usable w /\ exists b, GetRecvBuffer w = Ret b /\ wf b /\ view b = v.

Lemma receive_on_spec v d w :
  has_received v w ->
  exists w', receive_on d w = Ret w' /\ has_received (v ++ d) w' /\ queued w' = queued w.
Proof.
  intros [Hu (b & Hb & Hwf & Hv)]. unfold receive_on. rewrite Hb. mrun.
  destruct (law_put w (Append d b) Hu) as (w' & -> & Hu' & Hb' & Hq); [by apply wf_Append|].
  exists w'. split; [done|]. split; [|done]. split; [done|].
  exists (Append d b). split; [done|]. split; [by apply wf_Append|]. rewrite view_Append by done. by rewrite Hv.
Qed.

Lemma send_spec v d w :
  has_received v w ->
  exists w', ConnSend d w = Ret w' /\ has_received v w' /\ queued w' = queued w ++ d.
Proof.
  intros [Hu Hb]. destruct (law_send w d Hu) as (w' & E & Hu' & Hq & Hr).
  exists w'. split; [done|]. split; [|done]. split; [done|]. by rewrite Hr.
Qed.

Lemma put_spec w b :
  usable w -> wf b ->
  exists w', PutRecvBuffer b w = Ret w' /\ has_received (view b) w' /\ queued w' = queued w.
Proof.
  intros Hu Hwf. destruct (law_put w b Hu Hwf) as (w' & E & Hu' & Hb & Hq).
  exists w'. split; [done|]. split; [|done]. split; [done|]. by exists b.
Qed.
End laws.

(** ** The connection at [p] *)

Section tcp.
Context {Any : Type} (sys : Kernel Any) (callback : TcpCallback Any) (p : ptr).

#[local] Instance tcp_conn : StreamConn (Worker Any) := {|
  GetRecvBuffer w := c ← conn_at p w; Ret (recv_buffer c);
  PutRecvBuffer b w := c ← conn_at p w; Ret (put_conn p (set_recv_buffer b c) w);
  ConnSend d w := Send p d w;
  ConnShutdown w := Shutdown sys callback p w;
  ClockNow w := now sys w;
|}.

Definition tcp_usable (w : Worker Any) : Prop :=
  wf_worker w /\ exists c, heap w !! p = Some c /\ conn_state c = kConnected.
Definition tcp_queued (w : Worker Any) : list byte :=
  match heap w !! p with Some c => view (send_buffer c) | None => [] end.

Context (Hdis : user_ok true (OnDisconnected callback)).

#[local] Instance tcp_conn_laws : StreamConnLaws (Worker Any).
Proof.
  refine {| usable := tcp_usable; queued := tcp_queued |}.
  - intros w [Hw (c & Hp & Hs)]. exists (recv_buffer c). cbn [GetRecvBuffer tcp_conn].
    rewrite (conn_at_alive p c) by done. split; [done|]. by destruct (wf_conns w Hw p c Hp).
  - intros w b [Hw (c & Hp & Hs)] Hb. cbn [PutRecvBuffer GetRecvBuffer tcp_conn].
    rewrite (conn_at_alive p c) by done. mrun. exists (put_conn p (set_recv_buffer b c) w).
    split; [done|]. split; [split|].
    + by apply (step_put_recv p c b w Hw Hp).
    + exists (set_recv_buffer b c). split; [apply lookup_insert_eq | done].
    + rewrite (conn_at_alive p (set_recv_buffer b c)) by apply lookup_insert_eq. split; [done|].
      unfold tcp_queued. cbn [heap put_conn set_heap]. by rewrite lookup_insert_eq, Hp.
  - intros w d [Hw (c & Hp & Hs)]. cbn [ConnSend GetRecvBuffer tcp_conn].
    destruct (Send_open p c w d Hw Hp Hs) as (c' & t' & -> & Hstep & _ & Hs' & Hv & Hr & _).
    assert (Hp' : heap (set_epoll t' (put_conn p c' w)) !! p = Some c') by apply lookup_insert_eq.
    eexists. split; [done|]. split; [split; [apply Hstep | by exists c']|].
    split; [unfold tcp_queued; by rewrite Hp', Hp|].
    rewrite (conn_at_alive p c') by done. rewrite (conn_at_alive p c) by done. mrun. by rewrite Hr.
  - intros w [Hw (c & Hp & Hs)]. cbn [ConnShutdown tcp_conn].
    destruct (Shutdown_ok sys callback p w Hdis Hw) as (w' & E & _); [by exists c|]. by exists w'.
Defined.
End tcp.

(** ** A connection on its own

    The smallest model of the interface: a receive buffer, what was sent, and
    whether the write side is open. *)
Record Pipe := mkPipe {
  pipe_recv : BaseBuffer;
  pipe_sent : list byte;
  pipe_open : bool;
}.

#[export] Instance pipe_conn : StreamConn Pipe := {|
  GetRecvBuffer w := Ret (pipe_recv w);
  PutRecvBuffer b w := Ret (mkPipe b (pipe_sent w) (pipe_open w));
  ConnSend d w := Ret (if pipe_open w then mkPipe (pipe_recv w) (pipe_sent w ++ d) true else w);
  ConnShutdown w := Ret (mkPipe (pipe_recv w) (pipe_sent w) false);
  ClockNow w := 784111777000000;
|}.

#[export] Instance pipe_conn_laws : StreamConnLaws Pipe.
Proof.
  refine {| usable w := wf (pipe_recv w) /\ pipe_open w = true; queued := pipe_sent |}.
  - intros w [Hw Ho]. by exists (pipe_recv w).
  - intros w b [Hw Ho] Hb. by eexists.
  - intros w d [Hw Ho]. cbn [ConnSend pipe_conn]. rewrite Ho. by eexists.
  - intros w _. by eexists.
Defined.

Definition fresh_pipe (v : list byte) : Pipe := mkPipe (Append v (BaseBuffer_init 1024)) [] true.

Lemma fresh_pipe_received v : has_received v (fresh_pipe v).
Proof.
  assert (Hwf : wf (Append v (BaseBuffer_init 1024))) by apply wf_Append, wf_init.
  split; [done|]. exists (Append v (BaseBuffer_init 1024)). split; [done|]. split; [done|].
  rewrite view_Append by apply wf_init. by rewrite view_init.
Qed.
