(* ===== verification/WsCodec.v ===== *)
(** * proto/ws: the WebSocket codec

    [Decode] takes a connection from its HTTP upgrade request to a stream of
    frames, [EncodeFrameHead] writes the head of a frame.  A codec works on a
    connection through [StreamConn].  [client_frame] and [server_head] are RFC
    6455's formats, written independently of the code. *)

From S2P Require Import Prelude CxxStd CxxMap DateTime BaseBuffer ConnApi HttpReq HttpReqDecoder HttpResp.
From S2P Require Import Base64 Sha1.
From coqutil Require Import Word.LittleEndianList.
Local Open Scope Z_scope.

(** [enum class WsFrameType : uint8_t]; the other values may be cast to it too. *)
Abbreviation WsFrameType := Z (only parsing).
Definition kContinue : WsFrameType := 0.
Definition kText : WsFrameType := 1.
Definition kBinary : WsFrameType := 2.
Definition kClose : WsFrameType := 8.
Definition kPing : WsFrameType := 9.
Definition kPong : WsFrameType := 10.

(** The bit fields of [ws_base_head]: the first two bytes of a frame. *)
Record ws_base_head := mkHead {
  opcode : Z;
  rsv3 : Z;
  rsv2 : Z;
  rsv1 : Z;
  fin : Z;
  payload_length : Z;
  mask : Z;
}.
Definition base_head_of (x y : Z) : ws_base_head :=
  mkHead (Z.land x 15) (Z.land (Z.shiftr x 4) 1) (Z.land (Z.shiftr x 5) 1) (Z.land (Z.shiftr x 6) 1)
    (Z.land (Z.shiftr x 7) 1) (Z.land y 127) (Z.land (Z.shiftr y 7) 1).
Definition base_head_bytes (h : ws_base_head) : list byte :=
  [byte.of_Z (opcode h + 16 * rsv3 h + 32 * rsv2 h + 64 * rsv1 h + 128 * fin h);
   byte.of_Z (payload_length h + 128 * mask h)].

(** Integers in memory; the machine is little-endian. *)
Definition be16toh (l : list byte) : Z := le_combine (rev l).
Definition be64toh (l : list byte) : Z := le_combine (rev l).
Definition htobe16 (n : Z) : list byte := rev (le_split 2 (u16 n)).
Definition htole64 (n : Z) : list byte := le_split 8 (u64 n).

Record WsReq := mkWsReq {
  type : WsFrameType;
  payload : list byte;
  host : list byte;
  request_uri : list byte;
}.
Definition WsReq_init : WsReq := mkWsReq 0 [] [] [].
(** What [std::move(req)] leaves: the strings are emptied. *)
Definition moved_ws_req (r : WsReq) : WsReq := mkWsReq (type r) [] [] [].
Definition GetPayload (r : WsReq) : list byte := payload r.
Definition GetPayloadLength (r : WsReq) : nat := length (payload r).
Definition GetFrameType (r : WsReq) : WsFrameType := type r.
Definition GetHost (r : WsReq) : list byte := host r.

Record WsResp := mkWsResp { resp_type : WsFrameType; resp_payload : list byte }.
Definition WsResp_init : WsResp := mkWsResp kText [].
Definition SetFrameType (t : WsFrameType) (r : WsResp) : WsResp := mkWsResp t (resp_payload r).
Definition AppendData (d : list byte) (r : WsResp) : WsResp := mkWsResp (resp_type r) (resp_payload r ++ d).

Inductive State := kExceptHandshake | kExceptFrameHead | kExceptPayload | kParseFinished.

Record WebsocketCodec := mkCodec {
  req : WsReq;
  backup_uri : list byte;
  backup_host : list byte;
  mask_key : Z;
  payload_remains : Z;
  last_read_idx : Z;
  state : State;
}.
Definition WebsocketCodec_init : WebsocketCodec := mkCodec WsReq_init [] [] 0 0 0 kExceptHandshake.

Definition set_state (s : State) (d : WebsocketCodec) : WebsocketCodec :=
  mkCodec (req d) (backup_uri d) (backup_host d) (mask_key d) (payload_remains d) (last_read_idx d) s.
Definition set_req (r : WsReq) (d : WebsocketCodec) : WebsocketCodec :=
  mkCodec r (backup_uri d) (backup_host d) (mask_key d) (payload_remains d) (last_read_idx d) (state d).
Definition set_backup (u h : list byte) (d : WebsocketCodec) : WebsocketCodec :=
  mkCodec (req d) u h (mask_key d) (payload_remains d) (last_read_idx d) (state d).
Definition set_frame (key remains : Z) (d : WebsocketCodec) : WebsocketCodec :=
  mkCodec (req d) (backup_uri d) (backup_host d) key remains (last_read_idx d) (state d).
Definition set_progress (remains idx : Z) (d : WebsocketCodec) : WebsocketCodec :=
  mkCodec (req d) (backup_uri d) (backup_host d) (mask_key d) remains idx (state d).

(** [n] bytes of memory at [stream + off]: the storage of the buffer, also past
    its readable bytes. *)
Definition load (b : BaseBuffer) (off n : nat) : outcome (list byte) :=
  let start := (BeginOfReadable b + off)%nat in
  if (start + n <=? length (buffer b))%nat then Ret (slice (buffer b) start (start + n))
  else Throw UndefinedBehaviour.

(** The head is returned as a C string: it ends at its first null byte. *)
Definition EncodeFrameHead (data : list byte) (type : WsFrameType) : list byte :=
  let n := Z.of_nat (length data) in
  let '(len7, len_bytes) :=
    if n <? 126 then (n, [])
    else if n <? 65535 then (126, htobe16 n)
    else (127, htole64 n) in
  let base_head := mkHead (Z.land type 15) 0 0 0 1 len7 0 in
  let encode_head := std_copy len_bytes (replicate 11 Byte.x00) 2 in
  let encode_head := std_copy (base_head_bytes base_head) encode_head 0 in
  c_str encode_head.

Definition RFC6544_MAGIC_KEY : list byte := bytes "258EAFA5-E914-47DA-95CA-C5AB0DC85B11".

(** [(uint32_t* )digest] then the swap of the bytes of each word. *)
Definition digest_bytes (words : list Z) : list byte := w ← words; rev (le_split 4 w).

(** The result of [sha.Result] is not tested; a corrupted digest stays zero. *)
Definition GetSecWebSocketAccept (sec_key : list byte) : outcome (list byte) :=
  let accept_key := sec_key ++ RFC6544_MAGIC_KEY in
  sha ← Sha1.Input accept_key (Z.of_nat (length accept_key)) SHA1_init;
  let digest := match (Result sha).1 with Some words => digest_bytes words | None => replicate 20 Byte.x00 end in
  base64_encode digest 20.

(** The byte [i] of [mask_key] in memory. *)
Definition mask_byte (key : Z) (i : Z) : byte := nth (Z.to_nat (i mod 4)) (le_split 4 key) Byte.x00.
Definition xor_byte (a b : byte) : byte := byte.of_Z (Z.lxor (byte.unsigned a) (byte.unsigned b)).

(** The loop over [data[i]]; [idx] is [i + last_read_idx]. *)
Fixpoint unmask (key idx : Z) (data : list byte) : list byte :=
  match data with
  | [] => []
  | x :: data => xor_byte x (mask_byte key idx) :: unmask key (u64 (idx + 1)) data
  end.

Definition is_none {A} (o : option A) : bool := match o with None => true | Some _ => false end.

Section codec.
Context {W : Type} `{StreamConn W}.

Definition HandShake (d : WebsocketCodec) (w : W) : outcome (WebsocketCodec * W) :=
  b ← GetRecvBuffer w;
  (* a decoder of its own, over the connection's buffer *)
  r ← Decode true (HttpReqDecoder_init b);
  let '(http_req, http_decoder) := (r : option HttpReq * HttpReqDecoder) in
  w ← PutRecvBuffer (dbuf http_decoder) w;
  match http_req with
  | None => Ret (d, w)
  | Some q =>
      let resp := HttpResp_init in
      if negb (bool_decide (GetMethod q = GET))
         || (HttpVersion_value (GetVersion q) <? HttpVersion_value Http11)
         || is_none (HttpReq.GetHeader (bytes "Host") q) || is_none (HttpReq.GetHeader (bytes "Upgrade") q)
         || is_none (HttpReq.GetHeader (bytes "Connection") q)
         || is_none (HttpReq.GetHeader (bytes "Sec-WebSocket-Version") q)
         || is_none (HttpReq.GetHeader (bytes "Sec-WebSocket-Key") q)
      then
        s ← HttpResp.ToString (ClockNow w) (SetStatus 400 resp);
        w ← ConnSend s w;
        w ← ConnShutdown w;
        Ret (d, w)
      else
        let sec_key := default [] (HttpReq.GetHeader (bytes "Sec-WebSocket-Key") q) in
        accept_key ← GetSecWebSocketAccept sec_key;
        let resp := SetStatus 101 resp in
        let resp := AddHeader (bytes "Upgrade") (bytes "WebSocket") false resp in
        let resp := AddHeader (bytes "Connection") (bytes "Upgrade") false resp in
        let resp := AddHeader (bytes "Sec-WebSocket-Accept") accept_key false resp in
        s ← HttpResp.ToString (ClockNow w) resp;
        w ← ConnSend s w;
        let host := default [] (HttpReq.GetHeader (bytes "Host") q) in
        Ret (set_state kExceptFrameHead (set_backup (HttpReq.GetRequestUri q) host d), w)
  end.

(** The length and the key that follow the base head, and the size of the head. *)
Definition length_and_key (head : ws_base_head) (b : BaseBuffer) : outcome (Z * Z * nat) :=
  if payload_length head <? 126 then
    key ← load b 2 4;
    Ret (payload_length head, le_combine key, 6%nat)
  else if payload_length head =? 126 then
    len ← load b 2 2;
    key ← load b 4 4;
    Ret (be16toh len, le_combine key, 8%nat)
  else
    len ← load b 2 8;
    key ← load b 10 4;
    Ret (be64toh len, le_combine key, 14%nat).

Definition DecodeFrameHead (d : WebsocketCodec) (w : W) : outcome (bool * WebsocketCodec * W) :=
  b ← GetRecvBuffer w;
  x ← load b 0 1;
  y ← load b 1 1;
  let head := base_head_of (le_combine x) (le_combine y) in
  if (mask head =? 0) || (opcode head =? kClose) then
    w ← PutRecvBuffer (DropAllBytes b) w;
    w ← ConnSend (EncodeFrameHead [] kClose) w;
    w ← ConnShutdown w;
    Ret (false, d, w)
  else
    r ← length_and_key head b;
    let '(remains, key, size) := (r : Z * Z * nat) in
    let d := set_frame key remains d in
    w ← PutRecvBuffer (DropBytes size b) w;
    let r := mkWsReq (opcode head) (payload (req d)) (backup_host d) (backup_uri d) in
    Ret (true, set_state kExceptPayload (set_req r d), w).

Definition DecodePayload (d : WebsocketCodec) (w : W) : outcome (bool * WebsocketCodec * W) :=
  b ← GetRecvBuffer w;
  let size := Z.min (Z.of_nat (ReadableBytes b)) (payload_remains d) in
  let n := Z.to_nat size in
  (* in place *)
  let data := slice (buffer b) (BeginOfReadable b) (BeginOfReadable b + n) in
  let b := mkBuffer (std_copy (unmask (mask_key d) (last_read_idx d) data) (buffer b) (BeginOfReadable b))
             (read_idx b) (write_idx b) in
  let d := set_progress (payload_remains d - size) (u64 (last_read_idx d + size)) d in
  let got := slice (buffer b) (BeginOfReadable b) (BeginOfReadable b + n) in
  let r := req d in
  let d := set_req (mkWsReq (type r) (payload r ++ got) (host r) (request_uri r)) d in
  w ← PutRecvBuffer (DropBytes n b) w;
  if payload_remains d =? 0 then
    Ret (true, set_state kParseFinished (set_progress (payload_remains d) 0 d), w)
  else Ret (false, d, w).

Fixpoint ws_decode_loop (fuel : nat) (d : WebsocketCodec) (w : W)
    : outcome (option WsReq * WebsocketCodec * W) :=
  match fuel with
  | O => Throw OutOfFuel
  | S fuel' =>
      match state d with
      | kExceptHandshake =>
          r ← HandShake d w;
          let '(d, w) := (r : WebsocketCodec * W) in
          Ret (None, d, w)
      | kExceptFrameHead =>
          r ← DecodeFrameHead d w;
          let '(ok, d, w) := (r : bool * WebsocketCodec * W) in
          if ok then ws_decode_loop fuel' d w else Ret (None, d, w)
      | kExceptPayload =>
          r ← DecodePayload d w;
          let '(ok, d, w) := (r : bool * WebsocketCodec * W) in
          if ok then ws_decode_loop fuel' d w else Ret (None, d, w)
      | kParseFinished =>
          Ret (Some (req d), set_req (moved_ws_req (req d)) (set_state kExceptFrameHead d), w)
      end
  end.

(** Three turns are enough: each turn but the last moves to a later state. *)
Definition WsDecode (d : WebsocketCodec) (w : W) : outcome (option WsReq * WebsocketCodec * W) :=
  ws_decode_loop 3 d w.
End codec.

(** ** RFC 6455's formats *)

(** Section 5.2: big-endian integers and the payload length. *)
Definition be_bytes (n : nat) (z : Z) : list byte := rev (le_split n z).
Definition rfc_length (masked : Z) (n : Z) : list byte :=
  if n <=? 125 then [byte.of_Z (128 * masked + n)]
  else if n <=? 65535 then byte.of_Z (128 * masked + 126) :: be_bytes 2 n
  else byte.of_Z (128 * masked + 127) :: be_bytes 8 n.

(** Section 5.3: octet [i] of the payload is masked with octet [i mod 4] of the
    key; [k] is the position of the first octet in the payload. *)
Definition rfc_mask (key : list byte) (k : nat) (p : list byte) : list byte :=
  imap (fun i x => xor_byte x (nth ((k + i) mod 4) key Byte.x00)) p.

(** A frame of a client; [x] holds the FIN and RSV bits and the opcode. *)
Definition client_head (x : byte) (key : list byte) (n : Z) : list byte := x :: rfc_length 1 n ++ key.
Definition client_frame (x : byte) (key : list byte) (p : list byte) : list byte :=
  client_head x key (Z.of_nat (length p)) ++ rfc_mask key 0 p.

(** The head of a server's unmasked single-frame message. *)
Definition server_head (opc : Z) (n : Z) : list byte := byte.of_Z (128 + opc) :: rfc_length 0 n.

Definition opcode_of (x : byte) : Z := Z.land (byte.unsigned x) 15.

(** ** Bytes *)

Lemma unsigned_range x : 0 <= byte.unsigned x < 256.
Proof. pose proof (byte.unsigned_range x). lia. Qed.

Lemma unsigned_small z : 0 <= z < 256 -> byte.unsigned (byte.of_Z z) = z.
Proof. intros. rewrite byte.unsigned_of_Z. apply Z.mod_small. lia. Qed.

Lemma xor_byte_twice a b : xor_byte (xor_byte a b) b = a.
Proof.
  unfold xor_byte. rewrite byte.unsigned_of_Z. apply byte.unsigned_inj.
  rewrite byte.unsigned_of_Z. unfold byte.wrap. pose proof (unsigned_range a).
  rewrite <-(Z.mod_small (byte.unsigned a) (2 ^ 8)) at 2 by lia.
  apply Z.bits_inj'. intros i Hi. rewrite !Z.testbit_mod_pow2 by lia.
  destruct (i <? 8) eqn:E; [|done]. cbn [andb].
  rewrite Z.lxor_spec, Z.testbit_mod_pow2, E by lia. cbn [andb]. rewrite Z.lxor_spec.
  by destruct (Z.testbit _ i), (Z.testbit _ i).
Qed.

Lemma be_bytes_combine n z : 0 <= z < 2 ^ (8 * Z.of_nat n) -> le_combine (rev (be_bytes n z)) = z.
Proof.
  intros Hz. unfold be_bytes. rewrite rev_involutive, le_combine_split, Z.mul_comm. by apply Z.mod_small.
Qed.

Lemma length_be_bytes n z : length (be_bytes n z) = n.
Proof. unfold be_bytes. by rewrite length_rev, length_le_split. Qed.

Lemma length_rfc_mask key k p : length (rfc_mask key k p) = length p.
Proof. apply length_imap. Qed.

Lemma rfc_mask_app key k p1 p2 : rfc_mask key k (p1 ++ p2) = rfc_mask key k p1 ++ rfc_mask key (k + length p1) p2.
Proof.
  unfold rfc_mask. rewrite imap_app. f_equal. apply imap_ext. intros i x _. unfold compose.
  by rewrite Nat.add_assoc.
Qed.

(** The codec's loop undoes the client's masking from any position. *)
Lemma unmask_rfc_mask key k p :
  length key = 4%nat -> unmask (le_combine key) (u64 (Z.of_nat k)) (rfc_mask key k p) = p.
Proof.
  intros Hk. revert k. induction p as [|x p IH]; intros k; [done|].
  change (rfc_mask key k (x :: p)) with (rfc_mask key k ([x] ++ p)). rewrite rfc_mask_app. cbn [length].
  unfold rfc_mask at 1. cbn [imap app unmask]. f_equal.
  - unfold mask_byte. rewrite <-Hk, split_le_combine, Hk. rewrite Nat.add_0_r.
    replace (Z.to_nat (u64 (Z.of_nat k) mod 4)) with (k mod 4)%nat; [apply xor_byte_twice|].
    unfold u64. rewrite Z.mod_mod_divide by (by exists (2 ^ 62)).
    by rewrite (Z2Nat.inj_mod (Z.of_nat k) 4), Nat2Z.id by lia.
  - rewrite <-(IH (k + 1)%nat) at 2. f_equal. unfold u64. rewrite Zplus_mod_idemp_l. f_equal. lia.
Qed.

(** ** Reading the buffer *)

Lemma load_view b l1 l2 l3 :
  wf b -> view b = l1 ++ l2 ++ l3 -> load b (length l1) (length l2) = Ret l2.
Proof.
  intros Hwf Hv. pose proof (length_view b Hwf) as Hl. rewrite Hv in Hl. rewrite !length_app in Hl.
  unfold ReadableBytes, EndOfReadable, BeginOfReadable in Hl. destruct Hwf as [H1 H2].
  unfold load, BeginOfReadable. destruct (Nat.leb_spec (read_idx b + length l1 + length l2) (length (buffer b))); [|lia].
  f_equal. replace (read_idx b + length l1 + length l2)%nat with (read_idx b + (length l1 + length l2))%nat by lia.
  rewrite slice_cursors by (done || lia). rewrite Hv, drop_app_length.
  replace (length l1 + length l2 - length l1)%nat with (length l2) by lia. apply take_app_length.
Qed.

Lemma load_at b l1 l2 l3 off n :
  wf b -> view b = l1 ++ l2 ++ l3 -> length l1 = off -> length l2 = n -> load b off n = Ret l2.
Proof. intros ? ? <- <-. by apply (load_view b l1 l2 l3). Qed.

(** The bit fields of the second byte of a masked frame. *)
Lemma second_byte x y :
  0 <= y < 128 -> let h := base_head_of (le_combine [x]) (le_combine [byte.of_Z (128 * 1 + y)]) in
  mask h = 1 /\ payload_length h = y /\ opcode h = opcode_of x.
Proof.
  intros Hy. rewrite !le_combine_1, unsigned_small by lia. cbn [base_head_of mask payload_length opcode].
  split_and!; [| |done].
  - change (Z.land (Z.shiftr (128 * 1 + y) 7) (Z.ones 1) = 1). rewrite Z.land_ones, Z.shiftr_div_pow2 by lia. change (2 ^ 7) with 128.
    replace (128 * 1 + y) with (y + 1 * 128) by lia. rewrite Z.div_add, Z.div_small by lia. done.
  - change (Z.land (128 * 1 + y) (Z.ones 7) = y). rewrite Z.land_ones by lia. change (2 ^ 7) with 128.
    replace (128 * 1 + y) with (y + 1 * 128) by lia. rewrite Z.mod_add by lia. by apply Z.mod_small.
Qed.

(** The three forms of the length: what the codec reads is what was written. *)
Lemma length_and_key_spec b x key n rest head :
  wf b -> length key = 4%nat -> 0 <= n < 2 ^ 64 ->
  view b = client_head x key n ++ rest ->
  payload_length head = (if n <=? 125 then n else if n <=? 65535 then 126 else 127) ->
  length_and_key head b = Ret (n, le_combine key, length (client_head x key n)).
Proof.
  intros Hwf Hk Hn Hv Hl. unfold length_and_key. rewrite Hl. unfold client_head, rfc_length in *. clear Hl.
  destruct (Z.leb_spec n 125); [|destruct (Z.leb_spec n 65535)].
  - destruct (Z.ltb_spec n 126); [|lia]. set (y := byte.of_Z _) in *.
    rewrite (load_at b [x; y] key rest) by done. mrun. cbn [length app]. by rewrite Hk.
  - change (126 <? 126) with false. change (126 =? 126) with true. cbv iota. set (y := byte.of_Z _) in *.
    rewrite (load_at b [x; y] (be_bytes 2 n) (key ++ rest) 2 2)
      by (done || apply length_be_bytes || (rewrite Hv; cbn [app]; by rewrite <-!app_assoc)). mrun.
    rewrite (load_at b ([x; y] ++ be_bytes 2 n) key rest 4 4)
      by (done || (rewrite length_app, length_be_bytes; done)). mrun.
    unfold be16toh. rewrite be_bytes_combine by lia. cbn [length app]. by rewrite length_app, length_be_bytes, Hk.
  - change (127 <? 126) with false. change (127 =? 126) with false. cbv iota. set (y := byte.of_Z _) in *.
    rewrite (load_at b [x; y] (be_bytes 8 n) (key ++ rest) 2 8)
      by (done || apply length_be_bytes || (rewrite Hv; cbn [app]; by rewrite <-!app_assoc)). mrun.
    rewrite (load_at b ([x; y] ++ be_bytes 8 n) key rest 10 4)
      by (done || (rewrite length_app, length_be_bytes; done)). mrun.
    unfold be64toh. rewrite be_bytes_combine by lia. cbn [length app]. by rewrite length_app, length_be_bytes, Hk.
Qed.

Lemma rfc_length_second m n :
  exists ext, rfc_length m n
    = byte.of_Z (128 * m + (if n <=? 125 then n else if n <=? 65535 then 126 else 127)) :: ext.
Proof. unfold rfc_length. repeat case_match; eauto. Qed.

Section frames.
Context {W : Type} `{StreamConnLaws W}.

Definition frame_begun (x : byte) (key : list byte) (n : Z) (d : WebsocketCodec) : WebsocketCodec :=
  mkCodec (mkWsReq (opcode_of x) (payload (req d)) (backup_host d) (backup_uri d)) (backup_uri d)
    (backup_host d) (le_combine key) n (last_read_idx d) kExceptPayload.

Lemma DecodeFrameHead_spec d w x key n rest :
  length key = 4%nat -> 0 <= n < 2 ^ 64 -> opcode_of x <> kClose ->
  has_received (client_head x key n ++ rest) w ->
  exists w', DecodeFrameHead d w = Ret (true, frame_begun x key n d, w')
    /\ has_received rest w' /\ queued w' = queued w.
Proof.
  intros Hk Hn Hop [Hu (b & Hb & Hwf & Hv)]. unfold DecodeFrameHead. rewrite Hb. mrun.
  destruct (rfc_length_second 1 n) as [ext Hext]. set (y := byte.of_Z _) in Hext.
  assert (Hy : view b = [x] ++ [y] ++ (ext ++ key ++ rest)).
  { rewrite Hv. unfold client_head. rewrite Hext. cbn [app]. by rewrite <-!app_assoc. }
  rewrite (load_at b [] [x] _ 0 1 Hwf Hy) by done. mrun.
  rewrite (load_at b [x] [y] (ext ++ key ++ rest)) by done. mrun.
  destruct (second_byte x (if n <=? 125 then n else if n <=? 65535 then 126 else 127)) as (Hm & Hl & Ho).
  { repeat case_test; lia. }
  fold y in Hm, Hl, Ho. set (h := base_head_of _ _) in *. cbv zeta. rewrite Hm, Ho.
  change (1 =? 0) with false. cbn [orb]. destruct (Z.eqb_spec (opcode_of x) kClose); [done|].
  rewrite (length_and_key_spec b x key n rest) by done. mrun.
  assert (Hd : view (DropBytes (length (client_head x key n)) b) = rest).
  { rewrite view_DropBytes, Hv by done. apply drop_app_length. }
  destruct (put_spec w (DropBytes (length (client_head x key n)) b) Hu) as (w' & -> & Hr & Hq);
    [by apply wf_DropBytes|].
  rewrite Hd in Hr. exists w'. split; [done|]. by split.
Qed.

(** [k] bytes of the payload [p] of a frame were decoded. *)
Definition mid_frame (opc : Z) (key p : list byte) (k : nat) (u h : list byte) (d : WebsocketCodec) : Prop :=
  d = mkCodec (mkWsReq opc (take k p) h u) u h (le_combine key) (Z.of_nat (length p) - Z.of_nat k)
        (u64 (Z.of_nat k)) kExceptPayload.

(** The codec waits for a frame. *)
Record ready (u h : list byte) (d : WebsocketCodec) : Prop := {
  ready_state : state d = kExceptFrameHead;
  ready_payload : payload (req d) = [];
  ready_idx : last_read_idx d = 0;
  ready_uri : backup_uri d = u;
  ready_host : backup_host d = h;
}.

(** The in-place unmasking replaces the first readable bytes. *)
Lemma view_unmasked b l1 l2 l1' :
  wf b -> view b = l1 ++ l2 -> length l1' = length l1 ->
  let b' := mkBuffer (std_copy l1' (buffer b) (read_idx b)) (read_idx b) (write_idx b) in
  wf b' /\ view b' = l1' ++ l2.
Proof.
  intros Hwf Hv Hl b'. pose proof (length_view b Hwf) as Hlen. rewrite Hv, length_app in Hlen.
  unfold ReadableBytes, EndOfReadable, BeginOfReadable in Hlen. destruct Hwf as [Hb1 Hb2].
  assert (Hlb : length (buffer b') = length (buffer b)) by (apply length_std_copy; lia).
  assert (Hwf' : wf b') by (split; [done | rewrite Hlb; done]).
  split; [done|]. unfold ToStringView, BeginOfReadable, EndOfReadable. cbn [read_idx write_idx b'].
  rewrite (slice_split _ _ (read_idx b + length l1')) by lia. f_equal.
  { cbn [buffer b']. apply slice_std_copy_at. lia. }
  transitivity (drop (length l1) (view b)); [|by rewrite Hv, drop_app_length].
  unfold ToStringView, BeginOfReadable, EndOfReadable. rewrite drop_slice.
  unfold slice. f_equal; [lia|]. cbn [buffer b']. unfold std_copy.
  rewrite drop_app_ge by (rewrite length_take; lia). rewrite length_take, drop_app_ge by lia. rewrite drop_drop.
  f_equal. lia.
Qed.

Lemma DecodePayload_spec opc key p k u h d w p1 rest :
  length key = 4%nat -> Z.of_nat (length p) < 2 ^ 64 -> mid_frame opc key p k u h d ->
  p = take k p ++ p1 ++ drop (k + length p1) p -> (k + length p1 <= length p)%nat ->
  (k + length p1 = length p \/ rest = [])%nat ->
  has_received (rfc_mask key k p1 ++ rest) w ->
  exists w' d', DecodePayload d w = Ret ((k + length p1 =? length p)%nat, d', w')
    /\ has_received rest w' /\ queued w' = queued w
    /\ if (k + length p1 =? length p)%nat
       then d' = mkCodec (mkWsReq opc p h u) u h (le_combine key) 0 0 kParseFinished
       else mid_frame opc key p (k + length p1) u h d'.
Proof.
  intros Hk Hlen -> Hp Hle Hrest [Hu (b & Hb & Hwf & Hv)]. unfold DecodePayload. rewrite Hb. mrun.
  cbn [mask_key payload_remains last_read_idx]. pose proof (length_view b Hwf) as Hl.
  rewrite Hv, length_app, length_rfc_mask in Hl.
  assert (Hsz : Z.to_nat (Z.min (Z.of_nat (ReadableBytes b)) (Z.of_nat (length p) - Z.of_nat k)) = length p1).
  { destruct Hrest as [E| ->]; [lia|]. cbn [length] in Hl. lia. }
  assert (Hsz' : Z.min (Z.of_nat (ReadableBytes b)) (Z.of_nat (length p) - Z.of_nat k) = Z.of_nat (length p1)) by lia.
  assert (Hpre : take (k + length p1) p = take k p ++ p1).
  { rewrite Hp at 1. rewrite app_assoc, take_app_le; [apply take_ge|]; rewrite length_app, length_take; lia. }
  rewrite Hsz, Hsz'. pose proof Hwf as [Hb1 Hb2].
  unfold ReadableBytes, EndOfReadable, BeginOfReadable in Hl.
  assert (Hslice : slice (buffer b) (BeginOfReadable b) (BeginOfReadable b + length p1) = rfc_mask key k p1).
  { unfold BeginOfReadable. rewrite <-(Nat.add_0_r (read_idx b)) at 1. rewrite slice_cursors by (done || lia).
    rewrite drop_0, Hv, Nat.sub_0_r, <-(length_rfc_mask key k p1). apply take_app_length. }
  rewrite Hslice, unmask_rfc_mask by done. unfold BeginOfReadable. cbn [read_idx].
  destruct (view_unmasked b (rfc_mask key k p1) rest p1 Hwf Hv) as [Hwf' Hv']; [by rewrite length_rfc_mask|].
  set (b' := mkBuffer (std_copy p1 (buffer b) (read_idx b)) (read_idx b) (write_idx b)) in *.
  assert (Hgot : slice (buffer b') (read_idx b) (read_idx b + length p1) = p1).
  { cbn [buffer b']. apply slice_std_copy_at. lia. }
  rewrite Hgot.
  destruct (put_spec w (DropBytes (length p1) b') Hu) as (w' & -> & Hr & Hq); [by apply wf_DropBytes|].
  rewrite view_DropBytes, Hv', drop_app_length in Hr by done. cbn [set_progress set_req payload_remains state req backup_uri backup_host mask_key last_read_idx type payload host request_uri].
  exists w'. destruct (Nat.eqb_spec (k + length p1) (length p)) as [E|E].
  - destruct (Z.eqb_spec (Z.of_nat (length p) - Z.of_nat k - Z.of_nat (length p1)) 0) as [E'|]; [|lia].
    eexists. split; [done|]. split; [done|]. split; [done|].
    unfold set_state, set_req, set_progress. cbn [type payload host request_uri req backup_uri backup_host mask_key payload_remains last_read_idx].
    rewrite <-Hpre, E, firstn_all. f_equal. lia.
  - destruct (Z.eqb_spec (Z.of_nat (length p) - Z.of_nat k - Z.of_nat (length p1)) 0) as [E'|]; [lia|].
    eexists. split; [done|]. split; [done|]. split; [done|].
    unfold mid_frame, set_req, set_progress.
    cbn [type payload host request_uri req backup_uri backup_host mask_key payload_remains last_read_idx state].
    f_equal.
    + by rewrite Hpre.
    + lia.
    + unfold u64. rewrite Zplus_mod_idemp_l. f_equal. lia.
Qed.

Lemma mid_state opc key p k u h d : mid_frame opc key p k u h d -> state d = kExceptPayload.
Proof. by intros ->. Qed.

(** One turn of the decoder on a part of the payload, and on the last part. *)
Lemma decode_more n opc key p k u h d w p1 p2 :
  length key = 4%nat -> Z.of_nat (length p) < 2 ^ 64 -> mid_frame opc key p k u h d ->
  drop k p = p1 ++ p2 -> p2 <> [] -> has_received (rfc_mask key k p1) w ->
  exists w' d', ws_decode_loop (S n) d w = Ret (None, d', w') /\ has_received [] w'
    /\ queued w' = queued w /\ mid_frame opc key p (k + length p1) u h d'.
Proof.
  intros Hk Hlen Hmid Hp Hne Hr. pose proof (f_equal length Hp) as Hl. rewrite length_drop, length_app in Hl.
  destruct p2 as [|y p2]; [done|]. cbn [length] in Hl.
  destruct (DecodePayload_spec opc key p k u h d w p1 [] Hk Hlen Hmid) as (w' & d' & E & Hr' & Hq & Hd').
  - rewrite <-drop_drop, Hp, drop_app_length, <-Hp. by rewrite take_drop.
  - lia.
  - by right.
  - by rewrite app_nil_r.
  - destruct (Nat.eqb_spec (k + length p1) (length p)); [lia|].
    exists w', d'. cbn [ws_decode_loop]. rewrite (mid_state _ _ _ _ _ _ _ Hmid), E. mrun. done.
Qed.

Lemma decode_last n opc key p k u h d w rest :
  length key = 4%nat -> Z.of_nat (length p) < 2 ^ 64 -> mid_frame opc key p k u h d -> (k <= length p)%nat ->
  has_received (rfc_mask key k (drop k p) ++ rest) w ->
  exists w' d', ws_decode_loop (S (S n)) d w = Ret (Some (mkWsReq opc p h u), d', w')
    /\ has_received rest w' /\ queued w' = queued w /\ ready u h d'.
Proof.
  intros Hk Hlen Hmid Hle Hr. pose proof (length_drop p k) as Hl.
  destruct (DecodePayload_spec opc key p k u h d w (drop k p) rest Hk Hlen Hmid) as (w' & d' & E & Hr' & Hq & Hd').
  - rewrite (drop_ge p (k + _)), app_nil_r by lia. by rewrite take_drop.
  - lia.
  - left. lia.
  - done.
  - destruct (Nat.eqb_spec (k + length (drop k p)) (length p)); [|lia]. subst d'.
    cbn [ws_decode_loop]. rewrite (mid_state _ _ _ _ _ _ _ Hmid), E. mrun. cbn [state req set_state set_req].
    exists w'. eexists. split; [reflexivity|]. by split_and!.
Qed.

(** The connection delivers the pieces one after the other, and the codec runs
    after each. *)
Fixpoint feed (pieces : list (list byte)) (d : WebsocketCodec) (w : W)
    : outcome (list (option WsReq) * WebsocketCodec * W) :=
  match pieces with
  | [] => Ret ([], d, w)
  | x :: xs =>
      w ← receive_on x w;
      r ← WsDecode d w;
      let '(o, d, w) := (r : option WsReq * WebsocketCodec * W) in
      r ← feed xs d w;
      let '(os, d, w) := (r : list (option WsReq) * WebsocketCodec * W) in
      Ret (o :: os, d, w)
  end.

Definition fed (n : nat) (q : WsReq) (u h rest sent : list byte)
    (out : outcome (list (option WsReq) * WebsocketCodec * W)) : Prop :=
  exists d' w', out = Ret (replicate n None ++ [Some q], d', w')
    /\ ready u h d' /\ has_received rest w' /\ queued w' = sent.

Lemma feed_mid ps l opc key p k u h d w rest :
  length key = 4%nat -> Z.of_nat (length p) < 2 ^ 64 -> mid_frame opc key p k u h d -> (k <= length p)%nat ->
  has_received [] w -> mjoin ps ++ l = rfc_mask key k (drop k p) ++ rest ->
  (ps = [] \/ k + length (mjoin ps) < length p)%nat ->
  fed (length ps) (mkWsReq opc p h u) u h rest (queued w) (feed (ps ++ [l]) d w).
Proof.
  intros Hk Hlen. revert k d w. induction ps as [|q ps IH]; intros k d w Hmid Hle Hr Hcat Hlt; cbn [app feed].
  - destruct (receive_on_spec [] l w Hr) as (w1 & -> & Hr1 & Hq1). mrun. cbn in Hcat. cbn [app] in Hr1.
    rewrite Hcat in Hr1.
    destruct (decode_last 1 opc key p k u h d w1 rest Hk Hlen Hmid Hle Hr1) as (w2 & d2 & E & Hr2 & Hq2 & Hd2).
    unfold WsDecode. rewrite E. mrun. exists d2, w2. split; [done|]. split; [done|]. split; [done|]. congruence.
  - destruct Hlt as [|Hlt]; [done|]. change (mjoin (q :: ps)) with (q ++ mjoin ps) in *.
    rewrite length_app in Hlt. pose proof (take_drop (length q) (drop k p)) as Hsplit.
    set (p1 := take (length q) (drop k p)) in *. set (p2 := drop (length q) (drop k p)) in *.
    assert (Hp1 : length p1 = length q) by (unfold p1; rewrite length_take, length_drop; lia).
    rewrite <-Hsplit, rfc_mask_app, <-!app_assoc in Hcat.
    apply app_inj_1 in Hcat as [Hqm Hcat]; [|by rewrite length_rfc_mask].
    destruct (receive_on_spec [] q w Hr) as (w1 & -> & Hr1 & Hq1). mrun. cbn [app] in Hr1. rewrite Hqm in Hr1.
    destruct (decode_more 2 opc key p k u h d w1 p1 p2 Hk Hlen Hmid) as (w2 & d2 & E & Hr2 & Hq2 & Hd2);
      [done | | done |].
    { intros E. apply (f_equal length) in E. unfold p2 in E. rewrite !length_drop in E. cbn [length] in E. lia. }
    unfold WsDecode. rewrite E. mrun. fold (WsDecode (W:=W)).
    destruct (IH (k + length p1)%nat d2 w2 Hd2) as (d3 & w3 & -> & Hd3 & Hr3 & Hq3); [lia | done | | right; lia |].
    { rewrite Hcat. f_equal. f_equal. unfold p2. rewrite drop_drop. f_equal. lia. }
    mrun. exists d3, w3. split; [done|]. split; [done|]. split; [done|]. congruence.
Qed.

Lemma ready_begin x key p u h d :
  ready u h d -> mid_frame (opcode_of x) key p 0 u h (frame_begun x key (Z.of_nat (length p)) d).
Proof.
  intros [Hs Hp Hi Hu Hh]. unfold mid_frame, frame_begun. rewrite Hp, Hi, Hu, Hh. f_equal. lia.
Qed.

(** One turn of the decoder on a head reads it and goes on with the payload. *)
Lemma decode_head n x key p u h d w rest :
  length key = 4%nat -> Z.of_nat (length p) < 2 ^ 64 -> opcode_of x <> kClose -> ready u h d ->
  has_received (client_head x key (Z.of_nat (length p)) ++ rest) w ->
  exists w' d', ws_decode_loop (S n) d w = ws_decode_loop n d' w' /\ has_received rest w'
    /\ queued w' = queued w /\ mid_frame (opcode_of x) key p 0 u h d'.
Proof.
  intros Hk Hlen Hop Hd Hr. cbn [ws_decode_loop]. rewrite (ready_state u h d Hd).
  destruct (DecodeFrameHead_spec d w x key (Z.of_nat (length p)) rest Hk) as (w' & -> & Hr' & Hq); [lia | done..|].
  exists w', (frame_begun x key (Z.of_nat (length p)) d). mrun.
  split; [done|]. split; [done|]. split; [done|]. by apply ready_begin.
Qed.

(** A whole frame in the buffer is decoded by one call. *)
Lemma decode_frame x key p u h d w rest :
  length key = 4%nat -> Z.of_nat (length p) < 2 ^ 64 -> opcode_of x <> kClose -> ready u h d ->
  has_received (client_frame x key p ++ rest) w ->
  exists w' d', WsDecode d w = Ret (Some (mkWsReq (opcode_of x) p h u), d', w')
    /\ has_received rest w' /\ queued w' = queued w /\ ready u h d'.
Proof.
  intros Hk Hlen Hop Hd Hr. unfold client_frame in Hr. rewrite <-app_assoc in Hr.
  destruct (decode_head 2 x key p u h d w _ Hk Hlen Hop Hd Hr) as (w2 & d2 & E & Hr2 & Hq2 & Hd2).
  destruct (decode_last 0 (opcode_of x) key p 0 u h d2 w2 rest Hk Hlen Hd2) as (w3 & d3 & E3 & Hr3 & Hq3 & Hd3);
    [lia | by rewrite drop_0 |].
  unfold WsDecode. rewrite E, E3. exists w3, d3. split_and!; try done. congruence.
Qed.

(** C7: the frames of a client are decoded whatever the way the network cuts
    them.  A masked frame (7-bit, 16-bit or 64-bit length) that arrives in any
    number of pieces, the first of which holds at least the frame's head, gives
    nothing until its last byte is there and then the request with the client's
    opcode and unmasked payload; what follows the frame stays in the buffer for
    the next frame, and nothing is sent. *)
Theorem ws_frame_decoded (ps : list (list byte)) (l : list byte) (x : byte) (key p u h rest : list byte)
    (d : WebsocketCodec) (w : W) :
  length key = 4%nat -> Z.of_nat (length p) < 2 ^ 64 -> opcode_of x <> kClose -> ready u h d ->
  has_received [] w -> mjoin ps ++ l = client_frame x key p ++ rest ->
  (length (mjoin ps) < length (client_frame x key p))%nat ->
  (forall q qs, ps = q :: qs -> length (client_head x key (Z.of_nat (length p))) <= length q)%nat ->
  fed (length ps) (mkWsReq (opcode_of x) p h u) u h rest (queued w) (feed (ps ++ [l]) d w).
Proof.
  intros Hk Hlen Hop Hd Hr Hcat Hlt Hfst. destruct ps as [|q qs]; cbn [app feed].
  - destruct (receive_on_spec [] l w Hr) as (w1 & -> & Hr1 & Hq1). mrun. cbn in Hcat. cbn [app] in Hr1.
    rewrite Hcat in Hr1.
    destruct (decode_frame x key p u h d w1 rest Hk Hlen Hop Hd Hr1) as (w3 & d3 & -> & Hr3 & Hq3 & Hd3).
    mrun. exists d3, w3. split_and!; try done. congruence.
  - unfold client_frame in *. rewrite <-app_assoc in Hcat.
    rewrite length_app, length_rfc_mask in Hlt. specialize (Hfst q qs eq_refl). change (mjoin (q :: qs)) with (q ++ mjoin qs) in *.
    rewrite length_app in Hlt. set (hd := client_head x key _) in *.
    assert (Hq : exists m, q = hd ++ m).
    { exists (drop (length hd) q). rewrite <-app_assoc in Hcat. apply (f_equal (take (length hd))) in Hcat.
      rewrite take_app_le, take_app_length in Hcat by done. rewrite <-Hcat at 1. symmetry. apply take_drop. }
    destruct Hq as [m ->]. rewrite length_app in *. rewrite <-!app_assoc in Hcat. apply app_inv_head in Hcat.
    pose proof (take_drop (length m) p) as Hsplit.
    assert (Hm : length (take (length m) p) = length m) by (rewrite length_take; lia).
    rewrite <-Hsplit in Hcat. rewrite rfc_mask_app, <-app_assoc in Hcat.
    apply app_inj_1 in Hcat as [Hqm Hcat]; [|by rewrite length_rfc_mask, Hm].
    destruct (receive_on_spec [] (hd ++ m) w Hr) as (w1 & -> & Hr1 & Hq1). mrun. cbn [app] in Hr1.
    destruct (decode_head 2 x key p u h d w1 _ Hk Hlen Hop Hd Hr1) as (w2 & d2 & E2 & Hr2 & Hq2 & Hd2).
    rewrite Hqm in Hr2.
    destruct (decode_more 1 (opcode_of x) key p 0 u h d2 w2 (take (length m) p) (drop (length m) p) Hk Hlen Hd2)
      as (w3 & d3 & E3 & Hr3 & Hq3 & Hd3); [by rewrite drop_0 | | done |].
    { intros E. apply (f_equal length) in E. rewrite length_drop in E. cbn [length] in E. lia. }
    unfold WsDecode. rewrite E2, E3. mrun. fold (WsDecode (W:=W)). rewrite Hm in *.
    destruct (feed_mid qs l (opcode_of x) key p (0 + length m) u h d3 w3 rest Hk Hlen Hd3)
      as (d4 & w4 & E4 & Hd4 & Hr4 & Hq4); [lia | done | done | right; lia |].
    rewrite E4. mrun. exists d4, w4. split_and!; try done. congruence.
Qed.
End frames.

(** A ping of a client in three pieces, and the first byte of the next frame. *)
Lemma ws_frame_decoded_witness :
  let key := [Byte.x37; Byte.xfa; Byte.x21; Byte.x3d] in
  let wire := client_frame Byte.x89 key (bytes "Hello") in
  let d := set_state kExceptFrameHead WebsocketCodec_init in
  fed 2 (mkWsReq kPing (bytes "Hello") [] []) [] [] [Byte.x81] []
    (feed ([take 7 wire; take 2 (drop 7 wire)] ++ [drop 9 wire ++ [Byte.x81]]) d (fresh_pipe [])).
Proof.
  intros key wire d.
  refine (ws_frame_decoded [take 7 wire; take 2 (drop 7 wire)] (drop 9 wire ++ [Byte.x81]) Byte.x89 key
           (bytes "Hello") [] [] [Byte.x81] d (fresh_pipe []) _ _ _ _ _ _ _ _).
  - reflexivity.
  - vm_compute. reflexivity.
  - vm_compute. congruence.
  - by split.
  - apply fresh_pipe_received.
  - vm_compute. reflexivity.
  - apply Nat.ltb_lt. vm_compute. reflexivity.
  - intros q qs [= <- <-]. apply Nat.leb_le. vm_compute. reflexivity.
Defined.

(** ** The head of a server's frame *)

(** The two bytes of a base head without reserved bits, and a short head. *)
Lemma EncodeFrameHead_cases data opc :
  0 <= opc < 16 ->
  let n := Z.of_nat (length data) in
  EncodeFrameHead data opc =
    c_str (if n <? 126 then byte.of_Z (128 + opc) :: byte.of_Z n :: replicate 9 Byte.x00
           else if n <? 65535 then
             byte.of_Z (128 + opc) :: byte.of_Z 126 :: be_bytes 2 n ++ replicate 7 Byte.x00
           else byte.of_Z (128 + opc) :: byte.of_Z 127 :: le_split 8 (u64 n) ++ [Byte.x00]).
Proof.
  intros Ho n. unfold EncodeFrameHead. fold n. assert (Hland : Z.land opc 15 = opc).
  { change 15 with (Z.ones 4). rewrite Z.land_ones by lia. by apply Z.mod_small. }
  rewrite Hland. unfold base_head_bytes. cbn [opcode rsv1 rsv2 rsv3 fin payload_length mask].
  replace (opc + 16 * 0 + 32 * 0 + 64 * 0 + 128 * 1) with (128 + opc) by lia.
  destruct (Z.ltb_spec n 126); [|destruct (Z.ltb_spec n 65535)].
  - replace (n + 128 * 0) with n by lia. reflexivity.
  - unfold htobe16, be_bytes, u16. rewrite Z.mod_small by lia. reflexivity.
  - unfold htole64. reflexivity.
Qed.

Lemma of_Z_not_nul z : 0 < z < 256 -> byte.of_Z z <> Byte.x00.
Proof. intros Hz E. apply (f_equal byte.unsigned) in E. rewrite unsigned_small in E by lia. cbn in E. lia. Qed.

Lemma le_split_2 z : le_split 2 z = [byte.of_Z z; byte.of_Z (Z.shiftr z 8)].
Proof. reflexivity. Qed.

(** The highest byte of a 64-bit length below 2^56 is null. *)
Lemma be_bytes_8_nul n : 0 <= n < 2 ^ 56 -> Byte.x00 ∈ be_bytes 8 n.
Proof.
  intros Hn. unfold be_bytes. apply list_elem_of_In. rewrite <-in_rev. apply list_elem_of_In.
  apply list_elem_of_lookup_2 with (i := 7%nat).
  change (le_split 8 n !! 7%nat) with
    (Some (byte.of_Z (Z.shiftr (Z.shiftr (Z.shiftr (Z.shiftr (Z.shiftr (Z.shiftr (Z.shiftr n 8) 8) 8) 8) 8) 8) 8))).
  rewrite !Z.shiftr_shiftr by lia. rewrite Z.shiftr_div_pow2 by lia. rewrite Z.div_small by lia. done.
Qed.

(** C30: the head the server writes is RFC 6455's only for some lengths.  For a
    payload shorter than 2^56 bytes, [EncodeFrameHead] yields the head of an
    unmasked frame of that length exactly when the length is 1 to 125, or is 256
    to 65534 with a low byte that is not 0: any other head holds a null byte
    and is cut there, or (65535 and more) has its length bytes reversed. *)
Theorem EncodeFrameHead_rfc (data : list byte) (opc : Z) :
  0 <= opc < 16 -> Z.of_nat (length data) < 2 ^ 56 ->
  let n := Z.of_nat (length data) in
  EncodeFrameHead data opc = server_head opc n <-> 1 <= n <= 125 \/ (256 <= n < 65535 /\ n mod 256 <> 0).
Proof.
  intros Ho Hlen n. rewrite EncodeFrameHead_cases by done. cbv zeta. fold n. unfold server_head, rfc_length.
  assert (H0 : byte.of_Z (128 + opc) <> Byte.x00) by (apply of_Z_not_nul; lia).
  assert (Hnul : forall s s', c_str s = s' -> Byte.x00 ∉ s').
  { intros s s' <-. apply c_str_never_nul. }
  replace (128 * 0 + n) with n by lia.
  destruct (Z.ltb_spec n 126); [|destruct (Z.ltb_spec n 65535)].
  - destruct (Z.leb_spec n 125); [|lia]. destruct (decide (n = 0)) as [->|].
    + split; [|lia]. intros E%Hnul. exfalso. apply E. by right; left.
    + split; [lia|]. intros _. assert (byte.of_Z n <> Byte.x00) by (apply of_Z_not_nul; lia).
      apply (c_str_ends [byte.of_Z (128 + opc); byte.of_Z n]). set_solver.
  - destruct (Z.leb_spec n 125); [lia|]. destruct (Z.leb_spec n 65535); [|lia].
    change (128 * 0 + 126) with 126. unfold be_bytes. rewrite le_split_2. cbn [rev app].
    set (hi := byte.of_Z (Z.shiftr n 8)). set (lo := byte.of_Z n).
    assert (Hhi : hi <> Byte.x00 <-> 256 <= n).
    { unfold hi. rewrite Z.shiftr_div_pow2 by lia. change (2 ^ 8) with 256. split.
      - intros Hne. destruct (Z.lt_ge_cases n 256); [|done]. exfalso. apply Hne. by rewrite Z.div_small by lia.
      - intros. apply of_Z_not_nul. pose proof (Z.div_lt_upper_bound n 256 256).
        pose proof (Z.div_le_lower_bound n 256 1). lia. }
    assert (Hlo : lo <> Byte.x00 <-> n mod 256 <> 0).
    { unfold lo. split; intros Hne E; apply Hne.
      - apply byte.unsigned_inj. rewrite byte.unsigned_of_Z. unfold byte.wrap. by change (2 ^ 8) with 256.
      - apply (f_equal byte.unsigned) in E. by rewrite byte.unsigned_of_Z in E. }
    split.
    + intros E%Hnul. right. split; [split; [|done]; apply Hhi | apply Hlo]; intros Eb; rewrite Eb in E; apply E; set_solver.
    + intros [|[Hr1 Hr2]]; [lia|]. destruct Hr1 as [Hr1 _].
      apply (c_str_ends [byte.of_Z (128 + opc); byte.of_Z 126; hi; lo]).
      apply Hhi in Hr1. apply Hlo in Hr2. assert (byte.of_Z 126 <> Byte.x00) by (apply of_Z_not_nul; lia). set_solver.
  - split; [|lia]. intros E. exfalso. destruct (Z.leb_spec n 125); [lia|]. destruct (Z.leb_spec n 65535).
    + assert (Hn : n = 65535) by lia. rewrite Hn in E. change (128 * 0 + 126) with 126 in E.
      assert (Hne : Byte.x00 ∉ [byte.of_Z (128 + opc); byte.of_Z 127; Byte.xff; Byte.xff]).
      { assert (byte.of_Z 127 <> Byte.x00) by (apply of_Z_not_nul; lia). set_solver. }
      assert (E2 : c_str (byte.of_Z (128 + opc) :: byte.of_Z 127 :: le_split 8 (u64 65535) ++ [Byte.x00]) !! 1%nat
                   = Some (byte.of_Z 127)).
      { exact (f_equal (fun s => s !! 1%nat)
          (c_str_ends _ (replicate 6 Byte.x00) Hne)). }
      rewrite E in E2. discriminate E2.
    + apply Hnul in E. apply E. do 2 right. apply be_bytes_8_nul. lia.
Qed.

Lemma EncodeFrameHead_rfc_witness :
  let data := replicate 300 Byte.x61 in
  EncodeFrameHead data kText = server_head kText 300 <-> 1 <= 300 <= 125 \/ (256 <= 300 < 65535 /\ 300 mod 256 <> 0).
Proof.
  intros data. apply (EncodeFrameHead_rfc data kText); [unfold kText; lia | vm_compute; reflexivity].
Defined.
