(* ===== verification/WsServer.v ===== *)
(** * proto/ws: the upgrade handshake and WebsocketServer

    The server gives every connection a codec and answers every decoded frame
    with the payload the user's [OnRequest] fills. *)

From S2P Require Import Prelude CxxStd CxxMap DateTime BaseBuffer Channel TcpConn TcpConnInv TcpStream ConnApi.
From S2P Require Import HttpReq HttpReqDecoder HttpResp Base64 Sha1 WsCodec.
From coqutil Require Import Word.LittleEndianList.
Local Open Scope Z_scope.

(** ** The server *)

Section server.
Context {Any : Type} `{AnyCast WebsocketCodec Any}.
Abbreviation WsWorker := (Worker Any).

(** The [std::any] codec holds a [shared_ptr<WebsocketCodec>]; the codec outlives
    the connection when [Decode] closes it. *)
Definition store_codec (p : ptr) (d : WebsocketCodec) (w : WsWorker) : WsWorker :=
  match heap w !! p with Some c => put_conn p (set_codec (Some (any_of d)) c) w | None => w end.

Context (sys : Kernel Any) (callback : TcpCallback Any).
Context (OnConnected OnDisConnected : ptr -> DateTime -> WsWorker -> outcome WsWorker).
Context (OnRequest : WsReq -> WsResp -> ptr -> DateTime -> WsWorker -> outcome (WsResp * WsWorker)).

Definition OnTcpConnected (p : ptr) (time : DateTime) (w : WsWorker) : outcome WsWorker :=
  w ← SetStreamCodec p (any_of WebsocketCodec_init) w;
  OnConnected p time w.

Definition OnTcpDisconnected (p : ptr) (time : DateTime) (w : WsWorker) : outcome WsWorker :=
  OnDisConnected p time w.

Definition OnTcpReceivedData (p : ptr) (time : DateTime) (w : WsWorker) : outcome WsWorker :=
  d ← GetDecoder p w;
  r ← @WsDecode _ (tcp_conn sys callback p) d w;
  let '(o, d, w) := (r : option WsReq * WebsocketCodec * WsWorker) in
  let w := store_codec p d w in
  match o with
  | None => Ret w
  | Some q =>
      r ← OnRequest q WsResp_init p time w;
      let '(resp, w) := (r : WsResp * WsWorker) in
      w ← Send p (EncodeFrameHead (resp_payload resp) kText) w;
      Send p (resp_payload resp) w
  end.
End server.

(** ** The handshake *)

(** The response to a valid upgrade request. *)
Definition upgrade_response (accept : list byte) : HttpResp :=
  mkResp [(bytes "Connection", bytes "Upgrade"); (bytes "Sec-WebSocket-Accept", accept);
          (bytes "Upgrade", bytes "WebSocket")] 101 [].

(** RFC 6455, section 4.2.2: the Base64 of RFC 4648 of the SHA-1 of FIPS 180-4 of
    the key with the GUID behind it; the digest is its words, each from the highest
    octet down. *)
Definition octets (w : Z) : list byte :=
  byte.of_Z <$> [w / 2 ^ 24 mod 256; w / 2 ^ 16 mod 256; w / 2 ^ 8 mod 256; w mod 256].
Definition rfc_accept (key : list byte) : list byte :=
  rfc4648 (w ← fips_sha1 (byte.unsigned <$> (key ++ bytes "258EAFA5-E914-47DA-95CA-C5AB0DC85B11")); octets w).

(** Section 1.3 of the standard. *)
Example rfc_accept_sample :
  rfc_accept (bytes "dGhlIHNhbXBsZSBub25jZQ==") = bytes "s3pPLMBiTxaQ9kYGzzhZRbK+xOo=".
Proof. vm_compute. reflexivity. Qed.

Lemma of_Z_mod z : byte.of_Z (z mod 256) = byte.of_Z z.
Proof. apply byte.unsigned_inj. rewrite !byte.unsigned_of_Z. unfold byte.wrap. by rewrite Z.mod_mod. Qed.

Lemma digest_octets words : digest_bytes words = (w ← words; octets w).
Proof.
  unfold digest_bytes. apply list_bind_ext; [|done]. intros w. unfold octets. cbn [fmap list_fmap].
  change (rev _) with [byte.of_Z (Z.shiftr (Z.shiftr (Z.shiftr w 8) 8) 8); byte.of_Z (Z.shiftr (Z.shiftr w 8) 8);
    byte.of_Z (Z.shiftr w 8); byte.of_Z w].
  rewrite !of_Z_mod, !Z.shiftr_div_pow2, !Z.div_div by lia. reflexivity.
Qed.

Lemma GetSecWebSocketAccept_spec key :
  Z.of_nat (length key + 36) < 2 ^ 32 -> GetSecWebSocketAccept key = Ret (rfc_accept key).
Proof.
  intros Hl. unfold GetSecWebSocketAccept, rfc_accept. fold RFC6544_MAGIC_KEY.
  assert (Hlen : length (key ++ RFC6544_MAGIC_KEY) = (length key + 36)%nat) by (by rewrite length_app).
  pose proof (sha1_digest_value [key ++ RFC6544_MAGIC_KEY]) as Hd. cbn [mjoin list_join] in Hd. rewrite app_nil_r in Hd.
  specialize (Hd ltac:(constructor; [|done]; lia) ltac:(lia)). revert Hd. unfold sha1_digest. cbn [sha1_inputs].
  destruct (Sha1.Input _ _ _) as [s|]; mrun; [|done]. intros [= ->]. rewrite digest_octets.
  match goal with |- base64_encode ?l 20 = _ => set (digest := l); assert (E : length digest = 20%nat) end.
  { unfold digest. match goal with |- context [fips_sha1 ?m] =>
      pose proof (length_fips_sha1 m) as H5; revert H5; generalize (fips_sha1 m) end.
    intros words H5. do 6 (destruct words as [|? words]; try done). }
  rewrite base64_encode_rfc by (rewrite E; vm_compute; lia). rewrite take_ge by (rewrite E; vm_compute; lia). reflexivity.
Qed.

Section handshake.
Context {W : Type} `{StreamConnLaws W}.


(** A first byte on its own ends the connection.  When only the first byte of
    a frame has arrived, the codec reads the second one from the old contents
    of the storage; if that byte is below 128, as the 'E' of the GET of the
    handshake is, it drops the data, sends a close frame (of one byte) and
    shuts the connection down. *)
Theorem ws_first_byte_closes (x y : byte) (b : BaseBuffer) (d : WebsocketCodec) (w : W) :
  usable w -> state d = kExceptFrameHead -> GetRecvBuffer w = Ret b -> wf b -> view b = [x] ->
  buffer b !! (read_idx b + 1)%nat = Some y -> byte.unsigned y < 128 ->
  exists w1 w2, WsDecode d w = Ret (None, d, w2) /\ ConnShutdown w1 = Ret w2
    /\ has_received [] w1 /\ queued w1 = queued w ++ [Byte.x88].
Proof.
  intros Hu Hs Hb Hwf Hv Hy Hsmall. unfold WsDecode. cbn [ws_decode_loop]. rewrite Hs.
  unfold DecodeFrameHead. rewrite Hb. mrun. rewrite (load_at b [] [x] [] 0 1 Hwf Hv) by done. mrun.
  assert (Hload : load b 1 1 = Ret [y]).
  { unfold load, BeginOfReadable. pose proof (lookup_lt_Some _ _ _ Hy).
    destruct (Nat.leb_spec (read_idx b + 1 + 1) (length (buffer b))); [|lia]. f_equal.
    unfold slice. rewrite (drop_S _ y) by done. by replace (read_idx b + 1 + 1 - (read_idx b + 1))%nat with 1%nat by lia. }
  rewrite Hload. mrun. cbv zeta. rewrite !le_combine_1.
  assert (Hm : mask (base_head_of (byte.unsigned x) (byte.unsigned y)) = 0).
  { cbn [mask base_head_of]. rewrite Z.shiftr_div_pow2 by lia. rewrite Z.div_small by (pose proof (unsigned_range y); lia).
    done. }
  rewrite Hm. change (0 =? 0) with true. cbn [orb].
  destruct (put_spec w (DropAllBytes b) Hu (wf_DropAllBytes b)) as (w1 & -> & Hr1 & Hq1). mrun.
  rewrite view_DropAllBytes in Hr1. change (EncodeFrameHead [] kClose) with [Byte.x88].
  destruct (send_spec [] [Byte.x88] w1 Hr1) as (w2 & -> & Hr2 & Hq2). mrun.
  destruct (law_shutdown w2 (proj1 Hr2)) as [w3 E]. rewrite E. mrun.
  exists w2, w3. split; [done|]. split; [done|]. split; [done|]. by rewrite Hq2, Hq1.
Qed.
End handshake.

(** ** Frames on a connection of the event loop *)

(** A handler that only computes the response from the request. *)
Definition pure_ws_handler {Any} (f : WsReq -> WsResp) (q : WsReq) (r : WsResp) (p : ptr) (time : DateTime)
    (w : Worker Any) : outcome (WsResp * Worker Any) := Ret (f q, w).

(** A frame in the receive buffer is answered, and what follows it stays. *)
Lemma frame_answered {Any} `{AnyCast WebsocketCodec Any} (sys : Kernel Any) (callback : TcpCallback Any)
    (f : WsReq -> WsResp) (p : ptr) (time : DateTime) (w : Worker Any) (c : TcpConn Any)
    (d : WebsocketCodec) (x : byte) (key pl u h rest : list byte) :
  let out := resp_payload (f (mkWsReq (opcode_of x) pl h u)) in
  user_ok true (TcpConn.OnDisconnected callback) ->
  wf_worker w -> heap w !! p = Some c -> conn_state c = kConnected -> codec c = Some (any_of d) -> ready u h d ->
  length key = 4%nat -> Z.of_nat (length pl) < 2 ^ 64 -> opcode_of x <> kClose ->
  view (recv_buffer c) = client_frame x key pl ++ rest ->
  exists w' c' d', OnTcpReceivedData sys callback (pure_ws_handler f) p time w = Ret w'
    /\ wf_worker w' /\ heap w' !! p = Some c' /\ conn_state c' = kConnected
    /\ view (send_buffer c') = view (send_buffer c) ++ EncodeFrameHead out kText ++ out
    /\ view (recv_buffer c') = rest /\ codec c' = Some (any_of d') /\ ready u h d'.
Proof.
  intros out Hcb Hw Hp Hst Hcodec Hd Hk Hlen Hop Hv.
  unfold OnTcpReceivedData, GetDecoder. rewrite (conn_at_alive p c) by done. mrun.
  unfold cast_to. rewrite Hcodec. cbn [mbind option_bind]. rewrite any_cast_of.
  destruct (@decode_frame _ _ (tcp_conn_laws sys callback p Hcb) x key pl u h d w rest Hk Hlen Hop Hd)
    as (w1 & d1 & -> & [[Hw1 (c1 & Hp1 & Hst1)] (b1 & Hb1 & Hwf1 & Hv1)] & Hq1 & Hd1).
  { split; [by split; [|exists c]|]. exists (recv_buffer c). cbn [GetRecvBuffer tcp_conn].
    rewrite (conn_at_alive p c) by done. by destruct (wf_conns w Hw p c Hp). }
  mrun. cbn [GetRecvBuffer tcp_conn] in Hb1. rewrite (conn_at_alive p c1) in Hb1 by done. injection Hb1 as Hb1.
  cbn [queued tcp_conn_laws] in Hq1. unfold tcp_queued in Hq1. rewrite Hp, Hp1 in Hq1.
  unfold pure_ws_handler. mrun. fold out. unfold store_codec. rewrite Hp1.
  set (c2 := set_codec (Some (any_of d1)) c1). set (w2 := put_conn p c2 w1).
  assert (Hs2 : step_ok p w1 w2).
  { apply (step_put p c1); try done. by destruct (wf_conns w1 Hw1 p c1 Hp1). }
  destruct (Send_open p c2 w2 (EncodeFrameHead out kText)) as (c3 & t3 & -> & Hs3 & _ & Hst3 & Hv3 & Hr3 & Hc3 & _);
    [apply Hs2 | apply lookup_insert_eq | done |]. mrun.
  destruct (Send_open p c3 (set_epoll t3 (put_conn p c3 w2)) out) as (c4 & t4 & -> & Hs4 & _ & Hst4 & Hv4 & Hr4 & Hc4 & _);
    [apply Hs3 | apply lookup_insert_eq | done |].
  eexists _, c4, d1. split; [done|]. split; [apply Hs4|]. split; [apply lookup_insert_eq|]. split; [done|].
  split; [rewrite Hv4, Hv3, <-app_assoc; by f_equal|]. split; [|split; [by rewrite Hc4, Hc3 | done]].
  rewrite Hr4, Hr3. cbn [recv_buffer c2 set_codec]. by rewrite Hb1.
Qed.

(** A frame of a client: its first byte, its mask key and its payload. *)
Record ws_frame := mkWsFrame { fr_first : byte; fr_key : list byte; fr_payload : list byte }.
Definition frame_wire (g : ws_frame) : list byte := client_frame (fr_first g) (fr_key g) (fr_payload g).
Definition frame_ok (g : ws_frame) : Prop :=
  length (fr_key g) = 4%nat /\ Z.of_nat (length (fr_payload g)) < 2 ^ 64 /\ opcode_of (fr_first g) <> kClose.

(** The answer of a handler to a frame, for the URI and the host of the handshake. *)
Definition frame_reply (f : WsReq -> WsResp) (u h : list byte) (g : ws_frame) : list byte :=
  let out := resp_payload (f (mkWsReq (opcode_of (fr_first g)) (fr_payload g) h u)) in EncodeFrameHead out kText ++ out.

Section session.
Context {Any : Type} `{AnyCast WebsocketCodec Any} (sys : Kernel Any) (callback : TcpCallback Any).
Context (f : WsReq -> WsResp) (p : ptr) (time : DateTime).
Context (Hcallback : user_ok true (TcpConn.OnDisconnected callback)).
Implicit Types (w : Worker Any) (c : TcpConn Any).

(** The frames arrive one after the other, each with its own event. *)
Fixpoint serve_frames (gs : list ws_frame) w : outcome (Worker Any) :=
  match gs with
  | [] => Ret w
  | g :: gs =>
      w ← deliver p (frame_wire g) w;
      w ← OnTcpReceivedData sys callback (pure_ws_handler f) p time w;
      serve_frames gs w
  end.

Lemma serve_frames_spec (bs gs : list ws_frame) w c d (u h : list byte) :
  wf_worker w -> heap w !! p = Some c -> conn_state c = kConnected -> codec c = Some (any_of d) -> ready u h d ->
  Forall frame_ok (bs ++ gs) -> view (recv_buffer c) = mjoin (frame_wire <$> bs) ->
  exists w' c' d', serve_frames gs w = Ret w' /\ wf_worker w' /\ heap w' !! p = Some c' /\ conn_state c' = kConnected
    /\ view (send_buffer c') = view (send_buffer c) ++ mjoin (frame_reply f u h <$> take (length gs) (bs ++ gs))
    /\ view (recv_buffer c') = mjoin (frame_wire <$> drop (length gs) (bs ++ gs))
    /\ codec c' = Some (any_of d') /\ ready u h d'.
Proof.
  revert bs w c d. induction gs as [|g gs IH]; intros bs w c d Hw Hp Hst Hcodec Hd Hok Hv.
  { exists w, c, d. cbn. rewrite !app_nil_r. by split_and!. }
  assert (exists g' bs', bs ++ [g] = g' :: bs') as (g' & bs' & Ebs) by (destruct bs; eauto).
  assert (Eall : bs ++ g :: gs = g' :: bs' ++ gs) by (by rewrite cons_middle, app_assoc, Ebs).
  rewrite Eall in Hok |- *. apply Forall_cons in Hok as [(Hk & Hl & Ho) Hok]. cbn [serve_frames length take drop].
  destruct (deliver_spec p (frame_wire g) w c Hw Hp) as (b & -> & Hs1 & Hvb). mrun.
  set (c1 := set_recv_buffer b c) in *. set (w1 := put_conn p c1 w) in *.
  assert (Hv1 : view (recv_buffer c1) = client_frame (fr_first g') (fr_key g') (fr_payload g') ++ mjoin (frame_wire <$> bs')).
  { change (view b = mjoin (frame_wire <$> (g' :: bs'))). rewrite <-Ebs, fmap_app, join_app, Hvb, Hv. cbn. by rewrite app_nil_r. }
  destruct (frame_answered sys callback f p time w1 c1 d (fr_first g') (fr_key g') (fr_payload g') u h _ Hcallback
    (so_wf _ _ _ Hs1) (lookup_insert_eq _ _ _) Hst Hcodec Hd Hk Hl Ho Hv1)
    as (w2 & c2 & d2 & -> & Hw2 & Hp2 & Hst2 & Hq2 & Hr2 & Hcodec2 & Hd2). mrun.
  destruct (IH bs' w2 c2 d2) as (w3 & c3 & d3 & -> & Hw3 & Hp3 & Hst3 & Hq3 & Hr3 & Hcodec3 & Hd3); [done..|].
  exists w3, c3, d3. do 4 (split; [done|]). split; [|done]. rewrite Hq3, Hq2. cbn [fmap list_fmap].
  change (mjoin (?x :: ?l)) with (x ++ mjoin l). unfold frame_reply at 2. by rewrite <-!app_assoc.
Qed.

(** C25: a session, for a handler that only computes its response and for frames
    that are not close frames.  A connection past the handshake has the whole frames
    [bs] in its receive buffer, because they arrived together with earlier ones;
    then the frames [gs] arrive, one with each event.  Each event takes exactly one
    frame, the oldest, and queues behind what is queued already the bytes
    [EncodeFrameHead] makes for the payload of the handler and then that payload
    (C30 is what those head bytes are worth); as many frames as at the start still
    wait at the end, so the answers lag behind by all of [bs].  With [bs] empty every
    frame is answered by its own event. *)
Theorem ws_session (bs gs : list ws_frame) w c d (u h : list byte) :
  wf_worker w -> heap w !! p = Some c -> conn_state c = kConnected -> codec c = Some (any_of d) -> ready u h d ->
  Forall frame_ok (bs ++ gs) -> view (recv_buffer c) = mjoin (frame_wire <$> bs) ->
  exists w' c' d', serve_frames gs w = Ret w' /\ wf_worker w' /\ heap w' !! p = Some c' /\ conn_state c' = kConnected
    /\ view (send_buffer c') = view (send_buffer c) ++ mjoin (frame_reply f u h <$> take (length gs) (bs ++ gs))
    /\ view (recv_buffer c') = mjoin (frame_wire <$> drop (length gs) (bs ++ gs))
    /\ codec c' = Some (any_of d') /\ ready u h d'.
Proof. by apply serve_frames_spec. Qed.
End session.

(** A connection past the handshake, with a text frame. *)
Definition ws_key : list byte := [Byte.x37; Byte.xfa; Byte.x21; Byte.x3d].
Definition ws_wire : list byte := client_frame Byte.x81 ws_key (bytes "Hello").
Definition ws_codec : WebsocketCodec := set_state kExceptFrameHead WebsocketCodec_init.
Definition ws_conn : TcpConn WebsocketCodec := lone_conn (Append ws_wire (BaseBuffer_init 1024)) (Some ws_codec).
Definition ws_worker : Worker WebsocketCodec := lone_worker ws_conn.
Definition ws_kernel : Kernel WebsocketCodec :=
  mkKernel (fun _ _ _ => ReadFail 0) (fun _ _ _ => 0) (fun _ _ => false) (fun _ _ => 0)
    (fun _ _ _ => ReadFail 0) (fun _ _ _ _ => 0) (fun _ _ _ => false) (fun _ => 784111777000000) true.
Definition ws_echo (q : WsReq) : WsResp := AppendData (GetPayload q) (SetFrameType kBinary WsResp_init).

(** One frame waits; a ping and a text frame arrive. *)
Lemma ws_session_witness :
  let bs := [mkWsFrame Byte.x81 ws_key (bytes "Hello")] in
  let gs := [mkWsFrame Byte.x89 ws_key (bytes "Tom"); mkWsFrame Byte.x81 ws_key (bytes "Jerry")] in
  exists w' c' d', serve_frames ws_kernel (mkTcpCallback None None None) ws_echo 7 0 gs ws_worker = Ret w'
    /\ wf_worker w' /\ heap w' !! (7 : ptr) = Some c' /\ conn_state c' = kConnected
    /\ view (send_buffer c') = view (BaseBuffer_init 1024) ++ mjoin (frame_reply ws_echo [] [] <$> take 2 (bs ++ gs))
    /\ view (recv_buffer c') = mjoin (frame_wire <$> drop 2 (bs ++ gs)) /\ codec c' = Some d' /\ ready [] [] d'.
Proof.
  refine (ws_session ws_kernel (mkTcpCallback None None None) ws_echo 7 0 _
            [mkWsFrame Byte.x81 ws_key (bytes "Hello")]
            [mkWsFrame Byte.x89 ws_key (bytes "Tom"); mkWsFrame Byte.x81 ws_key (bytes "Jerry")]
            ws_worker ws_conn ws_codec [] [] _ _ _ _ _ _ _).
  - intros g p time w [=].
  - apply lone_worker_wf, wf_Append, wf_init.
  - apply lone_worker_heap.
  - reflexivity.
  - reflexivity.
  - by split.
  - repeat constructor; vm_compute; congruence.
  - vm_compute. reflexivity.
Defined.

(** The example handshake of RFC 6455. *)
Definition upgrade_headers : Headers :=
  [(bytes "Host", bytes "example.com"); (bytes "Upgrade", bytes "websocket");
   (bytes "Connection", bytes "Upgrade"); (bytes "Sec-WebSocket-Key", bytes "dGhlIHNhbXBsZSBub25jZQ==");
   (bytes "Sec-WebSocket-Version", bytes "13")].
Definition upgrade_request : list byte :=
  request_head (bytes "GET") (bytes "/chat") (bytes "HTTP/1.1") upgrade_headers.


Lemma ws_first_byte_closes_witness :
  let b := mkBuffer (std_copy [Byte.x81] upgrade_request 0) 0 1 in
  let d := set_state kExceptFrameHead WebsocketCodec_init in
  let w := mkPipe b [] true in
  exists w1 w2, WsDecode d w = Ret (None, d, w2) /\ ConnShutdown w1 = Ret w2
    /\ has_received [] w1 /\ queued w1 = queued w ++ [Byte.x88].
Proof.
  intros b d w. refine (ws_first_byte_closes Byte.x81 Byte.x45 b d w _ _ _ _ _ _ _).
  - split; [|done]. apply (bool_decide_unpack _). vm_compute. exact I.
  - reflexivity.
  - reflexivity.
  - apply (bool_decide_unpack _). vm_compute. exact I.
  - vm_compute. reflexivity.
  - vm_compute. reflexivity.
  - vm_compute. reflexivity.
Defined.

(** A handshake that arrives in two pieces is lost.  Every call of the
    handshake starts a new HTTP decoder, so the request line the first call
    consumed is forgotten, the headers of the second piece are taken for a bad
    request line, and the client is never answered. *)
Theorem ws_split_handshake_lost :
  let line := request_line (bytes "GET") (bytes "/chat") (bytes "HTTP/1.1") in
  let piece1 := line ++ bytes "Host: " in
  let piece2 := drop (length piece1) upgrade_request in
  exists w', feed [piece1; piece2] WebsocketCodec_init (fresh_pipe []) = Ret ([None; None], WebsocketCodec_init, w')
    /\ has_received [] w' /\ queued w' = [].
Proof.
  intros line piece1 piece2.
  eexists. split; [vm_compute; reflexivity|]. split; [|reflexivity].
  split; [split; [|reflexivity]|]; [|eexists; split; [reflexivity|split; [|reflexivity]]];
    (apply (bool_decide_unpack _); vm_compute; exact I).
Qed.
