(* ===== verification/DemoWebsocketServer.v ===== *)
(** * examples/DemoWebsocketServer: text frames and pings

    The handler of the example repeats the text it gets and means to answer a
    ping with a pong. *)

From S2P Require Import Prelude CxxStd DateTime BaseBuffer Channel TcpConn TcpConnInv TcpStream ConnApi WsCodec WsServer.
Local Open Scope Z_scope.

Definition DemoWebsocketServer_OnRequest {Any} (q : WsReq) (resp : WsResp) (p : ptr) (time : DateTime) (w : Worker Any)
    : outcome (WsResp * Worker Any) :=
  if decide (GetFrameType q = kPing) then Ret (SetFrameType kPong resp, w)
  else
    let resp := AppendData (bytes "Received: ") resp in
    let resp := AppendData (GetPayload q) resp in
    Ret (resp, w).

(** The response as a function of the request. *)
Definition demo_ws (q : WsReq) : WsResp :=
  if decide (GetFrameType q = kPing) then SetFrameType kPong WsResp_init
  else AppendData (GetPayload q) (AppendData (bytes "Received: ") WsResp_init).

Lemma demo_ws_handler {Any} q p time (w : Worker Any) :
  DemoWebsocketServer_OnRequest q WsResp_init p time w = pure_ws_handler demo_ws q WsResp_init p time w.
Proof. unfold DemoWebsocketServer_OnRequest, pure_ws_handler, demo_ws. by case_decide. Qed.

(** The head of a short text frame is two bytes, unless the frame is empty. *)
Lemma short_text_head data :
  0 < Z.of_nat (length data) <= 125 ->
  EncodeFrameHead data kText = [Byte.x81; byte.of_Z (Z.of_nat (length data))].
Proof.
  intros Hn. rewrite EncodeFrameHead_cases by (unfold kText; lia). cbv zeta.
  destruct (Z.ltb_spec (Z.of_nat (length data)) 126); [|lia].
  assert (byte.of_Z (Z.of_nat (length data)) <> Byte.x00) by (apply of_Z_not_nul; lia).
  apply (c_str_ends [byte.of_Z (128 + kText); byte.of_Z (Z.of_nat (length data))]).
  rewrite !not_elem_of_cons. split_and!; [done|done|apply not_elem_of_nil].
Qed.

(** What the client gets for a frame: the text with its head, or one byte. *)
Definition demo_reply (g : ws_frame) : list byte :=
  if decide (opcode_of (fr_first g) = kPing) then [Byte.x81]
  else Byte.x81 :: byte.of_Z (10 + Z.of_nat (length (fr_payload g))) :: bytes "Received: " ++ fr_payload g.

Lemma demo_frame_reply u h g :
  Z.of_nat (length (fr_payload g)) <= 115 -> frame_reply demo_ws u h g = demo_reply g.
Proof.
  intros Hl. unfold frame_reply, demo_reply, demo_ws. cbn [GetFrameType type GetPayload payload].
  case_decide; [reflexivity|]. cbn [resp_payload AppendData WsResp_init app].
  assert (Hlen : Z.of_nat (length (bytes "Received: " ++ fr_payload g)) = 10 + Z.of_nat (length (fr_payload g))).
  { rewrite length_app. change (length (bytes "Received: ")) with 10%nat. lia. }
  rewrite short_text_head by lia. by rewrite Hlen.
Qed.

Section session.
Context {Any : Type} `{AnyCast WebsocketCodec Any} (sys : Kernel Any) (callback : TcpCallback Any) (p : ptr) (time : DateTime).
Implicit Types (w : Worker Any) (c : TcpConn Any).

Fixpoint serve_demo (gs : list ws_frame) w : outcome (Worker Any) :=
  match gs with
  | [] => Ret w
  | g :: gs =>
      w ← deliver p (frame_wire g) w;
      w ← OnTcpReceivedData sys callback DemoWebsocketServer_OnRequest p time w;
      serve_demo gs w
  end.

Lemma serve_demo_frames gs w : serve_demo gs w = serve_frames sys callback demo_ws p time gs w.
Proof.
  revert w. induction gs as [|g gs IH]; intros w; [done|]. cbn [serve_demo serve_frames].
  destruct (deliver p (frame_wire g) w) as [w1|]; mrun; [|done].
  assert (E : OnTcpReceivedData sys callback DemoWebsocketServer_OnRequest p time w1
              = OnTcpReceivedData sys callback (pure_ws_handler demo_ws) p time w1).
  { unfold OnTcpReceivedData. destruct (GetDecoder p w1) as [d|]; mrun; [|done].
    destruct (WsDecode d w1) as [[[[q|] d'] w2]|]; mrun; [|done..]. by rewrite demo_ws_handler. }
  rewrite E. destruct (OnTcpReceivedData sys callback (pure_ws_handler demo_ws) p time w1) as [w2|]; mrun; [apply IH|done].
Qed.

(** A session of the demo server.  Frames of at most 115 bytes that arrive one
    with each event on a connection past the handshake are answered one by one, in
    order: a text or binary frame with the text frame of RFC 6455 that repeats its payload,
    but a ping with the single byte 0x81, which is neither a pong nor a frame, so
    that the client takes the start of the next answer for the rest of its head. *)
Theorem demo_ws_session (gs : list ws_frame) w c d (u h : list byte) :
  user_ok true (TcpConn.OnDisconnected callback) ->
  wf_worker w -> heap w !! p = Some c -> conn_state c = kConnected -> codec c = Some (any_of d) -> ready u h d ->
  Forall frame_ok gs -> Forall (fun g => Z.of_nat (length (fr_payload g)) <= 115) gs -> view (recv_buffer c) = [] ->
  exists w' c' d', serve_demo gs w = Ret w' /\ wf_worker w' /\ heap w' !! p = Some c' /\ conn_state c' = kConnected
    /\ view (send_buffer c') = view (send_buffer c) ++ mjoin (demo_reply <$> gs)
    /\ view (recv_buffer c') = [] /\ codec c' = Some (any_of d') /\ ready u h d'.
Proof.
  intros Hcb Hw Hp Hst Hcodec Hd Hok Hshort Hv. rewrite serve_demo_frames.
  destruct (serve_frames_spec sys callback demo_ws p time Hcb [] gs w c d u h)
    as (w' & c' & d' & -> & Hw' & Hp' & Hst' & Hq & Hr & ?); [done..|].
  cbn [app] in Hq, Hr. rewrite firstn_all in Hq. rewrite drop_all in Hr.
  exists w', c', d'. do 4 (split; [done|]). split; [|done]. rewrite Hq. do 2 f_equal.
  apply list_fmap_ext. intros i g Hg. apply demo_frame_reply. by eapply (Forall_lookup_1 _ _ _ _ Hshort).
Qed.
End session.

(** A connection past the handshake that has received nothing; a ping and then a text. *)
Definition ws_idle_conn : TcpConn WebsocketCodec := lone_conn (BaseBuffer_init 1024) (Some ws_codec).

Lemma demo_ws_session_witness :
  let gs := [mkWsFrame Byte.x89 ws_key (bytes "Tom"); mkWsFrame Byte.x81 ws_key (bytes "Jerry")] in
  exists w' c' d', serve_demo ws_kernel (mkTcpCallback None None None) 7 0 gs (lone_worker ws_idle_conn) = Ret w'
    /\ wf_worker w' /\ heap w' !! (7 : ptr) = Some c' /\ conn_state c' = kConnected
    /\ view (send_buffer c') = [] ++ [Byte.x81] ++ [Byte.x81; Byte.x0f] ++ bytes "Received: Jerry"
    /\ view (recv_buffer c') = [] /\ codec c' = Some d' /\ ready [] [] d'.
Proof.
  refine (demo_ws_session ws_kernel (mkTcpCallback None None None) 7 0
            [mkWsFrame Byte.x89 ws_key (bytes "Tom"); mkWsFrame Byte.x81 ws_key (bytes "Jerry")]
            (lone_worker ws_idle_conn) ws_idle_conn ws_codec [] [] _ _ _ _ _ _ _ _ _).
  - intros g p time w [=].
  - apply lone_worker_wf, wf_init.
  - apply lone_worker_heap.
  - reflexivity.
  - reflexivity.
  - by split.
  - repeat constructor; vm_compute; congruence.
  - repeat constructor; vm_compute; congruence.
  - reflexivity.
Defined.
