(* ===== verification/PQueue.v ===== *)
(** * std::priority_queue

    The C++ standard fixes what [top], [push] and [pop] do up to the choice
    between elements the comparator does not tell apart.  [MaxQueue] is the
    interface, [MaxQueueLaws] the standard's promise: [top] is an element
    no other is greater than.  net/TimerQueue and net/ThreadPool are proved
    against the laws; [list_queue] shows they can be kept. *)

From S2P Require Import Prelude.
From Stdlib Require Import Sorting.Sorted.
Local Open Scope Z_scope.

(** The comparator compares the integers [key] yields. *)
Class MaxQueue (A Q : Type) := {
  q_empty : Q;
  q_push : A -> Q -> Q;
  q_top : Q -> option A;
  q_pop : Q -> Q;
  q_elems : Q -> list A;
}.
Class MaxQueueLaws (A Q : Type) (key : A -> Z) `{MaxQueue A Q} := {
  q_elems_empty : q_elems q_empty = [];
  q_elems_push : forall a q, q_elems (q_push a q) ≡ₚ a :: q_elems q;
  q_top_none : forall q, q_top q = None -> q_elems q = [];
  q_top_some : forall q a, q_top q = Some a -> q_elems q ≡ₚ a :: q_elems (q_pop q);
  q_top_max : forall q a b, q_top q = Some a -> b ∈ q_elems q -> key b <= key a;
}.

Section laws.
Context {A Q : Type} {key : A -> Z} `{MaxQueueLaws A Q key}.

Definition q_size (q : Q) : nat := length (q_elems q).

Lemma q_top_elem q a : q_top q = Some a -> a ∈ q_elems q.
Proof. intros E%q_top_some. rewrite E. left. Qed.

Lemma q_size_pop q a : q_top q = Some a -> q_size q = S (q_size (q_pop q)).
Proof. intros E%q_top_some. unfold q_size. by rewrite E. Qed.

Lemma q_size_push a q : q_size (q_push a q) = S (q_size q).
Proof. unfold q_size. by rewrite q_elems_push. Qed.

Lemma q_top_size q : q_size q <> 0%nat -> exists a, q_top q = Some a.
Proof. intros Hs. destruct (q_top q) eqn:E; [by eexists|]. apply q_top_none in E. unfold q_size in Hs. by rewrite E in Hs. Qed.

Lemma q_elem_pop q a b : q_top q = Some a -> b ∈ q_elems (q_pop q) -> b ∈ q_elems q.
Proof. intros E%q_top_some Hb. rewrite E. by right. Qed.
End laws.

(** ** An implementation: a list in falling order *)

Section list_queue.
Context {A : Type} (key : A -> Z).

Fixpoint list_push (a : A) (l : list A) : list A :=
  match l with
  | [] => [a]
  | b :: l' => if key b <? key a then a :: l else b :: list_push a l'
  end.

Definition falling (l : list A) : Prop := StronglySorted (fun a b => key b <= key a) l.

Lemma list_push_perm a l : list_push a l ≡ₚ a :: l.
Proof.
  induction l as [|b l IH]; [done|]. cbn [list_push]. case_match; [done|].
  rewrite IH. apply Permutation_swap.
Qed.

Lemma list_push_falling a l : falling l -> falling (list_push a l).
Proof.
  intros Hl. induction Hl as [|b l Hl IH Hb]; cbn [list_push].
  { constructor; constructor. }
  destruct (Z.ltb_spec (key b) (key a)).
  - constructor; [by constructor|]. constructor; [lia|]. eapply Forall_impl; [exact Hb|]. cbn. lia.
  - constructor; [done|]. rewrite list_push_perm. constructor; [lia | done].
Qed.

(** The queue carries the proof that it is in order. *)
Record list_queue := mkListQueue { lq_list : list A; lq_ok : falling lq_list }.

#[export, program] Instance list_queue_ops : MaxQueue A list_queue := {|
  q_empty := mkListQueue [] _;
  q_push a q := mkListQueue (list_push a (lq_list q)) _;
  q_top q := head (lq_list q);
  q_pop q := mkListQueue (tail (lq_list q)) _;
  q_elems q := lq_list q;
|}.
Next Obligation. constructor. Qed.
Next Obligation. intros a [l Hl]. by apply list_push_falling. Qed.
Next Obligation. intros [l Hl]. destruct Hl; [constructor | done]. Qed.

#[export] Instance list_queue_laws : MaxQueueLaws A list_queue key.
Proof.
  split.
  - done.
  - intros a [l Hl]. apply list_push_perm.
  - intros [[|b l] Hl]; done.
  - intros [[|b l] Hl] a; [done|]. by intros [= ->].
  - intros [[|b l] Hl] a c; [done|]. intros [= ->]. cbn. rewrite elem_of_cons. intros [->|Hc]; [lia|].
    inversion Hl as [|? ? _ Hall]; subst. rewrite Forall_forall in Hall. by apply Hall.
Qed.
End list_queue.
