(* ===== verification/TimerQueue.v ===== *)
(** * net/TimerQueue: the timers of an event loop

    The state is the heap of [TimerStruct] objects, the map from ids to waiting
    timers and the priority queue of waiting timers.  An operation that touches
    a deleted timer is undefined.  Signed arithmetic that overflows is too. *)

From S2P Require Import Prelude DateTime PQueue.
Local Open Scope Z_scope.

(** Addresses of [TimerStruct] objects, and the names of the user's functions. *)
Abbreviation tptr := nat (only parsing).
Abbreviation fn := nat (only parsing).
Abbreviation TimerId := Z (only parsing).

Record TimerStruct := mkTimer {
  task : option fn;
  stop_condition : option fn;
  canceled : bool;
  tid : TimerId;
  expire : DateTime;
  repeat_times : nat;
  repeat_interval : Z;
}.

(** An element of [waiting_timers].  The comparator reads [expire] of the timer
    it points to, which does not change while the timer waits. *)
Record waiting := mkWaiting { w_ptr : tptr; w_expire : DateTime }.

(** [TimerCmp] orders timers by [lhs->expire < rhs->expire]. *)
Definition TimerCmp (e : waiting) : Z := w_expire e.

Section timers.
Context {Q Env : Type} `{MaxQueue waiting Q}.

(** [timer_fd] is what the timer descriptor was last armed with, [ticks] counts
    the readings of the clock, [ran] the user's tasks executed so far, and [env]
    is what the user's functions work on besides the queue. *)
Record TimerQueue := mkTQ {
  timers : gmap tptr TimerStruct;
  timers_map : gmap TimerId tptr;
  waiting_timers : Q;
  next_timer_id : TimerId;
  timer_fd : option timespec;
  ticks : nat;
  ran : list fn;
  env : Env;
}.

Definition TimerQueue_init (e : Env) : TimerQueue := mkTQ ∅ ∅ q_empty 0 None 0 [] e.

Definition set_timers (m : gmap tptr TimerStruct) (s : TimerQueue) : TimerQueue :=
  mkTQ m (timers_map s) (waiting_timers s) (next_timer_id s) (timer_fd s) (ticks s) (ran s) (env s).
Definition set_map (m : gmap TimerId tptr) (s : TimerQueue) : TimerQueue :=
  mkTQ (timers s) m (waiting_timers s) (next_timer_id s) (timer_fd s) (ticks s) (ran s) (env s).
Definition set_waiting (q : Q) (s : TimerQueue) : TimerQueue :=
  mkTQ (timers s) (timers_map s) q (next_timer_id s) (timer_fd s) (ticks s) (ran s) (env s).
Definition set_next (n : TimerId) (s : TimerQueue) : TimerQueue :=
  mkTQ (timers s) (timers_map s) (waiting_timers s) n (timer_fd s) (ticks s) (ran s) (env s).
Definition arm (us : Z) (s : TimerQueue) : TimerQueue :=
  mkTQ (timers s) (timers_map s) (waiting_timers s) (next_timer_id s) (Some (SetTimerFd us)) (ticks s) (ran s) (env s).
Definition tick (s : TimerQueue) : TimerQueue :=
  mkTQ (timers s) (timers_map s) (waiting_timers s) (next_timer_id s) (timer_fd s) (S (ticks s)) (ran s) (env s).
Definition log_run (f : fn) (s : TimerQueue) : TimerQueue :=
  mkTQ (timers s) (timers_map s) (waiting_timers s) (next_timer_id s) (timer_fd s) (ticks s) (ran s ++ [f]) (env s).

Definition set_env (e : Env) (s : TimerQueue) : TimerQueue :=
  mkTQ (timers s) (timers_map s) (waiting_timers s) (next_timer_id s) (timer_fd s) (ticks s) (ran s) e.

Definition timer_at (p : tptr) (s : TimerQueue) : outcome TimerStruct :=
  match timers s !! p with Some t => Ret t | None => Throw UndefinedBehaviour end.
Definition put_timer (p : tptr) (t : TimerStruct) (s : TimerQueue) : TimerQueue :=
  set_timers (<[p := t]> (timers s)) s.
(** [new TimerStruct()] takes any free address. *)
Definition new_timer (t : TimerStruct) (s : TimerQueue) : tptr * TimerQueue :=
  let p := fresh (dom (timers s)) in (p, put_timer p t s).
Definition delete_timer (p : tptr) (s : TimerQueue) : outcome TimerQueue :=
  _ ← timer_at p s;
  Ret (set_timers (delete p (timers s)) s).
Definition erase_id (id : TimerId) (s : TimerQueue) : TimerQueue := set_map (delete id (timers_map s)) s.

Definition GetTimerNums (s : TimerQueue) : nat := length (q_elems (waiting_timers s)).

Definition CancelTimer (id : TimerId) (s : TimerQueue) : outcome (bool * TimerQueue) :=
  match timers_map s !! id with
  | None => Ret (false, s)
  | Some p =>
      t ← timer_at p s;
      let t := mkTimer (task t) (stop_condition t) true (tid t) (expire t) (repeat_times t) (repeat_interval t) in
      Ret (true, put_timer p t s)
  end.

Section operations.
(** The clock, and what the user's functions do to the queue. *)
Context (clock : nat -> DateTime).
Context (run_task : fn -> TimerQueue -> outcome TimerQueue).
Context (run_stop : fn -> TimerQueue -> outcome (bool * TimerQueue)).

(** [DateTime::Now()] *)
Definition Now (s : TimerQueue) : DateTime * TimerQueue := (clock (ticks s), tick s).

(** The descriptor is armed again when the timer is due before the top of the queue. *)
Definition wake_for (t : TimerStruct) (s : TimerQueue) : outcome TimerQueue :=
  let earlier :=
    match q_top (waiting_timers s) with None => true | Some top => DateTime_lt (expire t) (w_expire top) end in
  if earlier then
    let '(now, s) := Now s in
    next_timeout ← DateTime_minus (expire t) now;
    Ret (arm next_timeout s)
  else Ret s.

Definition give_id (p : tptr) (t : TimerStruct) (s : TimerQueue) : TimerStruct * TimerQueue :=
  if tid t =? -1 then
    let t := mkTimer (task t) (stop_condition t) (canceled t) (next_timer_id s) (expire t)
               (repeat_times t) (repeat_interval t) in
    (t, put_timer p t (set_next (next_timer_id s + 1) s))
  else (t, s).

(** The overload on a [TimerStruct*]. *)
Definition AddTimerStruct (p : tptr) (s : TimerQueue) : outcome (TimerId * TimerQueue) :=
  t ← timer_at p s;
  let '(now, s) := Now s in
  if DateTime_le (expire t) now then Ret (-1, s)
  else
    s ← wake_for t s;
    let '(t, s) := give_id p t s in
    let s := set_waiting (q_push (mkWaiting p (expire t)) (waiting_timers s)) s in
    (* [emplace] does not replace an element *)
    let s := match timers_map s !! tid t with
             | Some _ => s
             | None => set_map (<[tid t := p]> (timers_map s)) s
             end in
    Ret (tid t, s).

Definition AddTimer (when : DateTime) (f : option fn) (s : TimerQueue) : outcome (TimerId * TimerQueue) :=
  let '(p, s) := new_timer (mkTimer f None false (-1) when 0 0) s in
  AddTimerStruct p s.

(** [us] is the interval in microseconds. *)
Definition AddTimerRepeat (us : Z) (n : nat) (f : option fn) (s : TimerQueue) : outcome (TimerId * TimerQueue) :=
  let '(now, s) := Now s in
  when ← AfterMicroSeconds us now;
  let '(p, s) := new_timer (mkTimer f None false (-1) when n us) s in
  AddTimerStruct p s.

Definition AddTimerUntil (us : Z) (until : option fn) (f : option fn) (s : TimerQueue)
    : outcome (TimerId * TimerQueue) :=
  let '(now, s) := Now s in
  when ← AfterMicroSeconds us now;
  let '(p, s) := new_timer (mkTimer f until false (-1) when 0 us) s in
  AddTimerStruct p s.

Definition GetNextTimeout (s : TimerQueue) : outcome (Z * TimerQueue) :=
  match q_top (waiting_timers s) with
  | None => Ret (-1, s)
  | Some top =>
      let '(now, s) := Now s in
      timeout ← DateTime_minus (w_expire top) now;
      Ret (if 0 <? timeout then timeout else 0, s)
  end.

(** [for (i = 0; i < waiting_timers.size(); i++)]: the size shrinks while [i] grows. *)
Fixpoint pop_loop (fuel i : nat) (now : DateTime) (expired : list tptr) (s : TimerQueue)
    : outcome (list tptr * TimerQueue) :=
  if (GetTimerNums s <=? i)%nat then Ret (expired, s)
  else
    match fuel with
    | O => Throw OutOfFuel
    | S fuel' =>
        match q_top (waiting_timers s) with
        | None => Throw UndefinedBehaviour
        | Some e =>
            t ← timer_at (w_ptr e) s;
            if DateTime_gt (expire t) now then Ret (expired, s)
            else
              let s := set_waiting (q_pop (waiting_timers s)) s in
              let s := erase_id (tid t) s in
              pop_loop fuel' (i + 1) now (expired ++ [w_ptr e]) s
        end
    end.

(** The test at the start is made without the lock, all the rest with it; each turn
    of the loop takes one timer off the queue. *)
Definition waiting_empty (s : TimerQueue) : bool :=
  match q_top (waiting_timers s) with None => true | Some _ => false end.
Definition pop_expired (s : TimerQueue) : outcome (list tptr * TimerQueue) :=
  let '(now, s) := Now s in
  pop_loop (GetTimerNums s) 0 now [] s.
Definition PopExpiredTimers (s : TimerQueue) : outcome (list tptr * TimerQueue) :=
  if waiting_empty s then Ret ([], s) else pop_expired s.

(** [HandleTimer] in its three parts; the first one says whether to go on. *)
Definition check_timer (p : tptr) (s : TimerQueue) : outcome (bool * TimerQueue) :=
  t ← timer_at p s;
  if canceled t then
    s ← delete_timer p (erase_id (tid t) s);
    Ret (false, s)
  else
    r ← match stop_condition t with Some f => run_stop f s | None => Ret (false, s) end;
    let '(stop, s) := (r : bool * TimerQueue) in
    if stop then
      t ← timer_at p s;
      s ← delete_timer p (erase_id (tid t) s);
      Ret (false, s)
    else Ret (true, s).

Definition execute_task (p : tptr) (s : TimerQueue) : outcome TimerQueue :=
  t ← timer_at p s;
  match task t with Some f => run_task f (log_run f s) | None => Ret s end.

Definition repeat_timer (p : tptr) (s : TimerQueue) : outcome TimerQueue :=
  t ← timer_at p s;
  if (0 <? repeat_times t)%nat then
    let '(now, s) := Now s in
    when ← AfterMicroSeconds (repeat_interval t) now;
    let t := mkTimer (task t) (stop_condition t) (canceled t) (tid t) when (repeat_times t - 1)
               (repeat_interval t) in
    r ← AddTimerStruct p (put_timer p t s);
    let '(_, s) := (r : TimerId * TimerQueue) in
    Ret s
  else delete_timer p s.

Definition HandleTimer (p : tptr) (s : TimerQueue) : outcome TimerQueue :=
  r ← check_timer p s;
  let '(go_on, s) := (r : bool * TimerQueue) in
  if go_on then
    s ← execute_task p s;
    repeat_timer p s
  else Ret s.

Fixpoint handle_timers (expired : list tptr) (s : TimerQueue) : outcome TimerQueue :=
  match expired with
  | [] => Ret s
  | p :: expired => s ← HandleTimer p s; handle_timers expired s
  end.

(** [rd] is what [read] returned; it empties the counter of the descriptor. *)
Definition OnTimeout (ndebug : bool) (rd : Z) (s : TimerQueue) : outcome TimerQueue :=
  _ ← cassert ndebug (rd =? 8);
  r ← PopExpiredTimers s;
  let '(expired, s) := (r : list tptr * TimerQueue) in
  r ← GetNextTimeout s;
  let '(next_timeout, s) := (r : Z * TimerQueue) in
  let s := if next_timeout =? -1 then s else arm next_timeout s in
  handle_timers expired s.

(** ** [OnTimeout] between the actions of other threads

    Where the thread is after the assertion: before the test for emptiness, before
    the lock of [PopExpiredTimers], before [GetNextTimeout], before [SetTimerFd],
    before [HandleTimer] of the next timer, and in it before the task and after it.
    Other threads may use the queue between two of these steps; within a step
    the lock is held, or only what is this thread's is touched: a timer that was
    taken off the queue is in no map that others look into. *)
Inductive TimeoutPc :=
| TTest
| TPop
| TNext (expired : list tptr)
| TArm (expired : list tptr) (next_timeout : Z)
| THandle (expired : list tptr)
| TTask (p : tptr) (expired : list tptr)
| TRepeat (p : tptr) (expired : list tptr).

(** The place afterwards; [None] when [OnTimeout] has returned. *)
Definition timeout_step (pc : TimeoutPc) (s : TimerQueue) : outcome (option TimeoutPc * TimerQueue) :=
  match pc with
  | TTest => Ret (Some (if waiting_empty s then TNext [] else TPop), s)
  | TPop =>
      r ← pop_expired s;
      let '(expired, s) := (r : list tptr * TimerQueue) in
      Ret (Some (TNext expired), s)
  | TNext expired =>
      r ← GetNextTimeout s;
      let '(next_timeout, s) := (r : Z * TimerQueue) in
      Ret (Some (if next_timeout =? -1 then THandle expired else TArm expired next_timeout), s)
  | TArm expired next_timeout => Ret (Some (THandle expired), arm next_timeout s)
  | THandle [] => Ret (None, s)
  | THandle (p :: expired) =>
      r ← check_timer p s;
      let '(go_on, s) := (r : bool * TimerQueue) in
      Ret (Some (if go_on then TTask p expired else THandle expired), s)
  | TTask p expired => s ← execute_task p s; Ret (Some (TRepeat p expired), s)
  | TRepeat p expired => s ← repeat_timer p s; Ret (Some (THandle expired), s)
  end.

(** The steps without any action of others between them. *)
Fixpoint run_timeout (fuel : nat) (pc : TimeoutPc) (s : TimerQueue) : outcome TimerQueue :=
  match fuel with
  | O => Throw OutOfFuel
  | S fuel =>
      r ← timeout_step pc s;
      let '(pc, s) := (r : option TimeoutPc * TimerQueue) in
      match pc with
      | None => Ret s
      | Some pc => run_timeout fuel pc s
      end
  end.
End operations.
End timers.
Arguments TimerQueue : clear implicits.

(** ** The steps are [OnTimeout] when nobody comes between them *)

Section steps.
Context {Q Env : Type} `{MaxQueue waiting Q} (clock : nat -> DateTime).
Context (run_task : fn -> TimerQueue Q Env -> outcome (TimerQueue Q Env)).
Context (run_stop : fn -> TimerQueue Q Env -> outcome (bool * TimerQueue Q Env)).
Implicit Types s : TimerQueue Q Env.
Abbreviation run := (run_timeout clock run_task run_stop).

Ltac step_with E := cbn [run_timeout timeout_step]; rewrite E; mrun.

Lemma run_handle_timers expired s :
  exists n, run n (THandle expired) s = handle_timers clock run_task run_stop expired s.
Proof.
  revert s. induction expired as [|p expired IH]; intros s; [by exists 1%nat|].
  cbn [handle_timers]. unfold HandleTimer.
  destruct (check_timer run_stop p s) as [[go_on s1]|f] eqn:E1.
  2:{ exists 1%nat. by step_with E1. }
  destruct go_on.
  - destruct (execute_task run_task p s1) as [s2|f] eqn:E2.
    2:{ exists 2%nat. step_with E1. by step_with E2. }
    destruct (repeat_timer clock p s2) as [s3|f] eqn:E3.
    2:{ exists 3%nat. step_with E1. step_with E2. by step_with E3. }
    destruct (IH s3) as [n En]. exists (S (S (S n))). step_with E1. step_with E2. step_with E3. exact En.
  - destruct (IH s1) as [n En]. exists (S n). step_with E1. exact En.
Qed.

Theorem run_timeout_OnTimeout s :
  exists n, run n TTest s = OnTimeout clock run_task run_stop false 8 s.
Proof.
  unfold OnTimeout, PopExpiredTimers. change (cassert false (8 =? 8)) with (Ret tt). mrun.
  assert (Hnext : forall expired s1, exists n, run n (TNext expired) s1
    = (r ← GetNextTimeout clock s1; let '(z, s1) := (r : Z * TimerQueue Q Env) in
       let s1 := if z =? -1 then s1 else arm z s1 in handle_timers clock run_task run_stop expired s1)).
  { intros expired s1. destruct (GetNextTimeout clock s1) as [[z s2]|f] eqn:E.
    2:{ exists 1%nat. by step_with E. }
    destruct (z =? -1) eqn:Ez.
    - destruct (run_handle_timers expired s2) as [n En]. exists (S n). step_with E. rewrite Ez. exact En.
    - destruct (run_handle_timers expired (arm z s2)) as [n En]. exists (S (S n)). step_with E. rewrite Ez. exact En. }
  destruct (waiting_empty s) eqn:Ew.
  - destruct (Hnext [] s) as [n En]. exists (S n). step_with Ew. exact En.
  - destruct (pop_expired clock s) as [[expired s1]|f] eqn:E.
    2:{ exists 2%nat. step_with Ew. by step_with E. }
    destruct (Hnext expired s1) as [n En]. exists (S (S n)). step_with Ew. step_with E. exact En.
Qed.
End steps.
