(* ===== verification/TimerSafe.v ===== *)
(** * The timers of net/TimerQueue: invariant, safety and timing

    Every operation, whatever the user's tasks do with the queue, keeps the
    invariant that ties the map and the priority queue to live timers. *)

From S2P Require Import Prelude DateTime PQueue TimerQueue.
Local Open Scope Z_scope.

(** Expiry dates and intervals for which the time arithmetic does not overflow. *)
Definition times_ok (t : TimerStruct) : Prop :=
  - 2 ^ 62 <= expire t < 2 ^ 63 /\ - 2 ^ 62 <= repeat_interval t < 2 ^ 62.

Section invariant.
Context {Q Env : Type} `{HQ : MaxQueueLaws waiting Q TimerCmp}.
(** What the user's functions rely on besides the queue. *)
Context (env_ok : Env -> Prop).
Implicit Types (s : TimerQueue Q Env) (F : list nat) (p : nat) (t : TimerStruct).

Definition waiting_ptrs s : list nat := w_ptr <$> q_elems (waiting_timers s).

(** [F] are the timers taken off the queue and not handled yet. *)
Record wf_timers F s : Prop := {
  wt_nodup : NoDup (F ++ waiting_ptrs s);
  wt_flight : forall p, p ∈ F -> is_Some (timers s !! p);
  wt_waiting : forall e, e ∈ q_elems (waiting_timers s) ->
    exists t, timers s !! w_ptr e = Some t /\ expire t = w_expire e /\ timers_map s !! tid t = Some (w_ptr e);
  wt_map : forall id p, timers_map s !! id = Some p ->
    0 <= id /\ p ∈ waiting_ptrs s /\ exists t, timers s !! p = Some t /\ tid t = id;
  wt_next : 0 <= next_timer_id s;
  wt_ids : forall p t, timers s !! p = Some t -> -1 <= tid t < next_timer_id s;
  wt_unique : forall p q t u, timers s !! p = Some t -> timers s !! q = Some u -> tid t = tid u ->
    p = q \/ tid t = -1;
  wt_times : forall p t, timers s !! p = Some t -> times_ok t;
  wt_env : env_ok (env s);
}.

(** Steps that leave the timers alone. *)
Lemma wf_tick F s : wf_timers F s -> wf_timers F (tick s).
Proof. intros []. by split. Qed.
Lemma wf_arm F us s : wf_timers F s -> wf_timers F (arm us s).
Proof. intros []. by split. Qed.
Lemma wf_log F f s : wf_timers F s -> wf_timers F (log_run f s).
Proof. intros []. by split. Qed.

(** Rewriting a timer that keeps its id and, while it waits, its date. *)
Lemma wf_put_timer F p t u s :
  wf_timers F s -> timers s !! p = Some t -> tid u = tid t -> times_ok u ->
  (p ∈ waiting_ptrs s -> expire u = expire t) -> wf_timers F (put_timer p u s).
Proof.
  intros [Hnd Hfl Hw Hm Hnx Hid Hun Hti Henv] Hp Hu Hok Hex. split; cbn.
  - done.
  - intros q Hq1. rewrite lookup_insert_is_Some. destruct (decide (p = q)); [by left | right; auto].
  - intros e He. destruct (Hw e He) as (t' & Ht' & E1 & E2). destruct (decide (p = w_ptr e)) as [->|Hne].
    + rewrite Hp in Ht'. injection Ht' as <-. exists u. rewrite lookup_insert_eq, Hu.
      split; [done|]. split; [|done]. rewrite <-E1. apply Hex. unfold waiting_ptrs. by apply list_elem_of_fmap_2.
    + exists t'. by rewrite lookup_insert_ne.
  - intros id q Hid'. destruct (Hm id q Hid') as (Hge & Hin & t' & Ht' & E). split; [done|]. split; [done|].
    destruct (decide (p = q)) as [->|Hne].
    + rewrite Hp in Ht'. injection Ht' as <-. exists u. rewrite lookup_insert_eq. by rewrite Hu.
    + exists t'. by rewrite lookup_insert_ne.
  - done.
  - intros q t'. rewrite lookup_insert_Some. intros [[<- <-]|[_ Ht']]; [rewrite Hu; eauto | eauto].
  - intros q1 q2 t1 t2. rewrite !lookup_insert_Some. intros [[<- <-]|[? ?]] [[<- <-]|[? ?]] E; eauto.
    + rewrite Hu in *. eauto.
    + rewrite Hu in E. destruct (Hun _ _ _ _ H1 Hp E); auto.
  - intros q t'. rewrite lookup_insert_Some. intros [[<- <-]|[_ Ht']]; eauto.
  - done.
Qed.

(** A new timer is in flight until it is put on the queue. *)
Lemma wf_new_timer F t s p s' :
  wf_timers F s -> times_ok t -> tid t = -1 -> new_timer t s = (p, s') ->
  wf_timers (p :: F) s' /\ timers s' !! p = Some t /\ ticks s' = ticks s /\ next_timer_id s' = next_timer_id s.
Proof.
  intros [Hnd Hfl Hw Hm Hnx Hid Hun Hti Henv] Hok Ht [= <- <-]. set (p := fresh (dom (timers s))).
  assert (Hp : timers s !! p = None) by apply not_elem_of_dom, is_fresh.
  assert (Hne : forall q, is_Some (timers s !! q) -> p <> q) by (intros q [u Hu]; congruence).
  assert (Hnin : (p ∉ F ++ waiting_ptrs s)).
  { rewrite elem_of_app. intros [Hin|Hin].
    - by apply (Hne p); [apply Hfl|].
    - apply list_elem_of_fmap in Hin as (e & -> & He). destruct (Hw e He) as (u & Hu & _). by apply (Hne (w_ptr e)). }
  split; [|split; [apply lookup_insert_eq | done]]. split; cbn.
  - by constructor.
  - intros q. rewrite elem_of_cons. intros [->|Hin]; [rewrite lookup_insert_eq; by eexists|].
    rewrite lookup_insert_ne; [by apply Hfl|]. by apply Hne, Hfl.
  - intros e He. destruct (Hw e He) as (u & Hu & E). exists u. rewrite lookup_insert_ne; [done|]. by apply Hne.
  - intros id q Hq1. destruct (Hm id q Hq1) as (Hge & Hin & u & Hu & E). split; [done|]. split; [done|]. exists u.
    rewrite lookup_insert_ne; [done|]. by apply Hne.
  - done.
  - intros q u. rewrite lookup_insert_Some. intros [[<- <-]|[_ Hu]]; [lia | eauto].
  - intros q1 q2 t1 t2. rewrite !lookup_insert_Some. intros [[<- <-]|[? ?]] [[<- <-]|[? ?]] E; eauto.
    right. congruence.
  - intros q u. rewrite lookup_insert_Some. intros [[<- <-]|[_ Hu]]; eauto.
  - done.
Qed.

Lemma wf_perm F F' s : F ≡ₚ F' -> wf_timers F s -> wf_timers F' s.
Proof. intros HF [? ? ? ? ? ? ? ? ?]. split; try done; intros *; rewrite <-HF; auto. Qed.

(** A timer that is dropped without being deleted leaks; nothing else changes. *)
Lemma wf_leak F p s : wf_timers (p :: F) s -> wf_timers F s.
Proof.
  intros [Hnd Hfl ? ? ? ? ? ? ?]. split; try done.
  - by apply NoDup_cons in Hnd as [_ ?].
  - intros q Hin. apply Hfl. by right.
Qed.

Lemma flight_not_waiting F p s : wf_timers F s -> p ∈ F -> (p ∉ waiting_ptrs s).
Proof. intros Hwf Hp Hin. apply wt_nodup, NoDup_app in Hwf as (_ & Hd & _). by apply (Hd p). Qed.

(** The id of a timer in flight is not in the map. *)
Lemma flight_not_mapped F p t s : wf_timers F s -> p ∈ F -> timers s !! p = Some t -> timers_map s !! tid t = None.
Proof.
  intros Hwf Hin Hp. destruct (timers_map s !! tid t) as [q|] eqn:E; [|done]. exfalso.
  destruct (wt_map F s Hwf _ _ E) as (Hge & Hq & u & Hu & Et).
  destruct (wt_unique F s Hwf p q t u Hp Hu) as [->|]; [done | | lia].
  by apply (flight_not_waiting F q s Hwf).
Qed.

Lemma waiting_ptrs_push e s q : waiting_ptrs (set_waiting (q_push e q) s) ≡ₚ w_ptr e :: (w_ptr <$> q_elems q).
Proof. unfold waiting_ptrs. cbn. by rewrite q_elems_push. Qed.

Lemma wf_enqueue F p t s :
  wf_timers (p :: F) s -> timers s !! p = Some t -> tid t <> -1 ->
  wf_timers F (set_map (<[tid t := p]> (timers_map s))
                 (set_waiting (q_push (mkWaiting p (expire t)) (waiting_timers s)) s)).
Proof.
  intros Hwf Hp Hne. pose proof (flight_not_mapped (p :: F) p t s Hwf (list_elem_of_here _ _) Hp) as Hnone.
  pose proof Hwf as [Hnd Hfl Hw Hm Hnx Hid Hun Hti Henv].
  assert (Hel : forall e, e ∈ q_elems (q_push (mkWaiting p (expire t)) (waiting_timers s))
                 <-> e = mkWaiting p (expire t) \/ e ∈ q_elems (waiting_timers s)).
  { intros e. by rewrite q_elems_push, elem_of_cons. }
  assert (Hptrs : forall x, x ∈ waiting_ptrs (set_waiting (q_push (mkWaiting p (expire t)) (waiting_timers s)) s)
                   <-> x = p \/ x ∈ waiting_ptrs s).
  { intros x. by rewrite waiting_ptrs_push, elem_of_cons. }
  split; cbn.
  - change (waiting_ptrs (set_map _ ?x)) with (waiting_ptrs x). rewrite waiting_ptrs_push.
    by rewrite <-Permutation_middle.
  - intros q Hin. apply Hfl. by right.
  - intros e He. apply Hel in He as [->|He]; [exists t; by rewrite lookup_insert_eq|].
    destruct (Hw e He) as (u & Hu & E1 & E2). exists u. split; [done|]. split; [done|].
    rewrite lookup_insert_ne; [done|]. congruence.
  - intros id q. rewrite lookup_insert_Some. intros [[<- <-]|[_ Hid']].
    + specialize (Hid p t Hp). split; [lia|]. split; [|by exists t].
      change (waiting_ptrs (set_map _ ?x)) with (waiting_ptrs x). apply Hptrs. by left.
    + destruct (Hm id q Hid') as (? & ? & ?). split; [done|]. split; [|done].
      change (waiting_ptrs (set_map _ ?x)) with (waiting_ptrs x). apply Hptrs. by right.
  - done.
  - done.
  - done.
  - done.
  - done.
Qed.

Lemma wf_dequeue F e t s :
  wf_timers F s -> q_top (waiting_timers s) = Some e -> timers s !! w_ptr e = Some t ->
  wf_timers (w_ptr e :: F) (erase_id (tid t) (set_waiting (q_pop (waiting_timers s)) s)).
Proof.
  intros [Hnd Hfl Hw Hm Hnx Hid Hun Hti Henv] Htop Hp.
  assert (Hptrs : waiting_ptrs s ≡ₚ w_ptr e :: (w_ptr <$> q_elems (q_pop (waiting_timers s)))).
  { unfold waiting_ptrs. by rewrite (q_top_some _ _ Htop). }
  assert (Hnd' : NoDup (w_ptr e :: F ++ (w_ptr <$> q_elems (q_pop (waiting_timers s))))).
  { by rewrite Hptrs, <-Permutation_middle in Hnd. }
  pose proof Hnd' as Hnin. apply NoDup_cons in Hnin as [Hnin _]. rewrite elem_of_app in Hnin.
  split; cbn.
  - done.
  - intros q. rewrite elem_of_cons. intros [->|Hin]; [by eexists | auto].
  - intros e' He'. pose proof (q_elem_pop _ _ _ Htop He') as He2. destruct (Hw e' He2) as (u & Hu & E1 & E2).
    exists u. split; [done|]. split; [done|]. rewrite lookup_delete_ne; [done|]. intros Et.
    destruct (Hun _ _ _ _ Hp Hu Et) as [E|E].
    + apply Hnin. right. rewrite E. by apply list_elem_of_fmap_2.
    + rewrite Et in E. destruct (Hm _ _ E2). lia.
  - intros id q [Hne Hid']%lookup_delete_Some. destruct (Hm id q Hid') as (? & Hin & u & Hu & E).
    split; [done|]. split; [|by exists u]. rewrite Hptrs, elem_of_cons in Hin.
    destruct Hin as [->|Hin]; [|done]. congruence.
  - done.
  - done.
  - done.
  - done.
  - done.
Qed.

(** So erasing its id again does nothing. *)
Lemma flight_erase F p t s : wf_timers F s -> p ∈ F -> timers s !! p = Some t -> erase_id (tid t) s = s.
Proof.
  intros Hwf Hin Hp. pose proof (flight_not_mapped _ p t s Hwf Hin Hp) as Hnone.
  destruct s. unfold erase_id, set_map. cbn in *. f_equal. by apply delete_id.
Qed.

Lemma wf_delete F p t s :
  wf_timers (p :: F) s -> timers s !! p = Some t ->
  exists s', delete_timer p s = Ret s' /\ wf_timers F s' /\ timers s' = delete p (timers s).
Proof.
  intros Hwf Hp.
  unfold delete_timer, timer_at. rewrite Hp. mrun. eexists. split; [done|]. split; [|done].
  pose proof (flight_not_waiting _ p s Hwf (list_elem_of_here _ _)) as Hnw.
  destruct Hwf as [Hnd Hfl Hw Hm Hnx Hid Hun Hti Henv].
  apply NoDup_cons in Hnd as [Hnin Hnd]. rewrite elem_of_app in Hnin. split; cbn.
  - done.
  - intros q Hin. rewrite lookup_delete_ne by (intros ->; tauto). apply Hfl. by right.
  - intros e He. destruct (Hw e He) as (u & Hu & ?). exists u. rewrite lookup_delete_ne; [done|].
    intros ->. apply Hnw. by apply list_elem_of_fmap_2.
  - intros id q Hid'. destruct (Hm id q Hid') as (? & Hin & u & Hu & ?). split; [done|]. split; [done|].
    exists u. rewrite lookup_delete_ne; [done|]. by intros ->.
  - done.
  - intros q u [_ Hu]%lookup_delete_Some. eauto.
  - intros q1 q2 t1 t2 [_ H1']%lookup_delete_Some [_ H2']%lookup_delete_Some. eauto.
  - intros q u [_ Hu]%lookup_delete_Some. eauto.
  - done.
Qed.

(** A timer without an id gets the next one. *)
Lemma give_id_ok F p t s :
  wf_timers F s -> timers s !! p = Some t -> p ∈ F ->
  exists u s', give_id p t s = (u, s') /\ wf_timers F s' /\ timers s' !! p = Some u /\ tid u <> -1
    /\ expire u = expire t.
Proof.
  intros Hwf Hp Hin. pose proof (flight_not_waiting F p s Hwf Hin) as Hnw. unfold give_id.
  destruct (Z.eqb_spec (tid t) (-1)) as [Ht|]; [|by exists t, s].
  eexists _, _. split; [done|]. pose proof (wt_next _ _ Hwf).
  split; [|split; [apply lookup_insert_eq | split; [cbn; lia | done]]].
  destruct Hwf as [Hnd Hfl Hw Hm Hnx Hid Hun Hti Henv]. split; cbn.
  - done.
  - intros q Hq. rewrite lookup_insert_is_Some. destruct (decide (p = q)); [by left | right; auto].
  - intros e He. destruct (Hw e He) as (u & Hu & ?). exists u. rewrite lookup_insert_ne; [done|].
    intros ->. apply Hnw. by apply list_elem_of_fmap_2.
  - intros id q Hid'. destruct (Hm id q Hid') as (? & Hq & u & Hu & ?). split; [done|]. split; [done|].
    exists u. rewrite lookup_insert_ne; [done|]. by intros ->.
  - lia.
  - intros q u. rewrite lookup_insert_Some. intros [[<- <-]|[_ Hu]]; cbn; [lia|]. specialize (Hid q u Hu). lia.
  - intros q1 q2 t1 t2. rewrite !lookup_insert_Some. intros [[<- <-]|[? E1]] [[<- <-]|[? E2]] E; eauto; cbn in E.
    + specialize (Hid _ _ E2). lia.
    + specialize (Hid _ _ E1). lia.
  - intros q u. rewrite lookup_insert_Some. intros [[<- <-]|[_ Hu]]; [exact (Hti p t Hp) | eauto].
  - done.
Qed.

(** ** Operations *)

Context (clock : nat -> DateTime) (Hclock : forall n, 0 <= clock n < 2 ^ 62).

Lemma checked_small z : - 2 ^ 63 <= z < 2 ^ 63 -> checked_i64 z = Ret z.
Proof.
  intros Hz. unfold checked_i64, i64_min, i64_max.
  destruct (Z.leb_spec (- 2 ^ 63) z); [|lia]. destruct (Z.leb_spec z (2 ^ 63 - 1)); [done | lia].
Qed.

Lemma minus_ok t n : times_ok t -> DateTime_minus (expire t) (clock n) = Ret (expire t - clock n).
Proof. intros [He _]. pose proof (Hclock n). apply checked_small. lia. Qed.

Lemma after_ok us n :
  - 2 ^ 62 <= us < 2 ^ 62 ->
  AfterMicroSeconds us (clock n) = Ret (clock n + us) /\ - 2 ^ 62 <= clock n + us < 2 ^ 63.
Proof. intros Hu. pose proof (Hclock n). split; [apply checked_small|]; lia. Qed.

Lemma wake_for_ok F t s :
  wf_timers F s -> times_ok t ->
  exists s', wake_for clock t s = Ret s' /\ wf_timers F s' /\ timers s' = timers s
    /\ waiting_timers s' = waiting_timers s /\ ran s' = ran s.
Proof.
  intros Hwf Hok. unfold wake_for. cbn [Now]. rewrite minus_ok by done. mrun.
  destruct (match q_top _ with None => true | Some _ => _ end); eexists; (split; [done|]); [|done].
  split; [by apply wf_arm, wf_tick | done].
Qed.

(** Putting a timer in flight on the queue: it waits afterwards, or it is past
    its date and leaks. *)
Lemma AddTimerStruct_ok F p s :
  wf_timers (p :: F) s ->
  exists id s', AddTimerStruct clock p s = Ret (id, s') /\ wf_timers F s' /\ ran s' = ran s.
Proof.
  intros Hwf. destruct (wt_flight _ _ Hwf p) as [t Hp]; [left|].
  pose proof (wt_times _ _ Hwf p t Hp) as Hok.
  unfold AddTimerStruct, timer_at. rewrite Hp. mrun. cbn [Now].
  destruct (DateTime_le (expire t) _).
  { eexists _, _. split; [done|]. split; [|done]. apply wf_tick. by eapply wf_leak. }
  destruct (wake_for_ok (p :: F) t (tick s) (wf_tick _ _ Hwf) Hok) as (s1 & -> & Hwf1 & Et & _ & Hr1). mrun.
  destruct (give_id_ok (p :: F) p t s1 Hwf1) as (u & s2 & E & Hwf2 & Hp2 & Hne & _); [by rewrite Et | left |].
  assert (Hr2 : ran s2 = ran s1) by (unfold give_id in E; by destruct (tid t =? -1); injection E as <- <-).
  rewrite E. pose proof (flight_not_mapped _ p u s2 Hwf2 (list_elem_of_here _ _) Hp2) as Hnone.
  cbv zeta. cbn [timers_map set_waiting]. rewrite Hnone. eexists _, _. split; [done|].
  split; [by apply wf_enqueue | cbn [ran set_map set_waiting]; by rewrite Hr2, Hr1].
Qed.

(** The user's calls keep the invariant, whichever timers are in flight. *)
Lemma CancelTimer_ok F id s :
  wf_timers F s -> exists r s', CancelTimer id s = Ret (r, s') /\ wf_timers F s'.
Proof.
  intros Hwf. unfold CancelTimer. destruct (timers_map s !! id) as [p|] eqn:E; [|by eexists _, _].
  destruct (wt_map _ _ Hwf _ _ E) as (_ & _ & t & Hp & _). unfold timer_at. rewrite Hp. mrun.
  eexists _, _. split; [done|]. apply (wf_put_timer F p t); try done. exact (wt_times _ _ Hwf p t Hp).
Qed.

Lemma AddTimer_ok F when f s :
  wf_timers F s -> - 2 ^ 62 <= when < 2 ^ 63 ->
  exists id s', AddTimer clock when f s = Ret (id, s') /\ wf_timers F s'.
Proof.
  intros Hwf Hw. unfold AddTimer. destruct (new_timer _ s) as [p s1] eqn:E.
  apply (wf_new_timer F) in E as (Hwf1 & _); [|done|by split; cbn; lia|done].
  destruct (AddTimerStruct_ok F p s1 Hwf1) as (id & s2 & ? & ? & _). by eexists _, _.
Qed.

Lemma AddTimerRepeat_ok F us n f s :
  wf_timers F s -> - 2 ^ 62 <= us < 2 ^ 62 ->
  exists id s', AddTimerRepeat clock us n f s = Ret (id, s') /\ wf_timers F s'.
Proof.
  intros Hwf Hu. unfold AddTimerRepeat. cbn [Now].
  destruct (after_ok us (ticks s) Hu) as [-> Hr]. mrun. destruct (new_timer _ (tick s)) as [p s1] eqn:E.
  apply (wf_new_timer F) in E as (Hwf1 & _); [|by apply wf_tick|by split; cbn|done].
  destruct (AddTimerStruct_ok F p s1 Hwf1) as (id & s2 & ? & ? & _). by eexists _, _.
Qed.

Lemma AddTimerUntil_ok F us until f s :
  wf_timers F s -> - 2 ^ 62 <= us < 2 ^ 62 ->
  exists id s', AddTimerUntil clock us until f s = Ret (id, s') /\ wf_timers F s'.
Proof.
  intros Hwf Hu. unfold AddTimerUntil. cbn [Now].
  destruct (after_ok us (ticks s) Hu) as [-> Hr]. mrun. destruct (new_timer _ (tick s)) as [p s1] eqn:E.
  apply (wf_new_timer F) in E as (Hwf1 & _); [|by apply wf_tick|by split; cbn|done].
  destruct (AddTimerStruct_ok F p s1 Hwf1) as (id & s2 & ? & ? & _). by eexists _, _.
Qed.

(** ** The event handler *)

Section handler.
Context (run_task : nat -> TimerQueue Q Env -> outcome (TimerQueue Q Env)).
Context (run_stop : nat -> TimerQueue Q Env -> outcome (bool * TimerQueue Q Env)).

(** The user's functions work on any well-formed queue. *)
Record user_timers_ok : Prop := {
  ut_task : forall f F s, wf_timers F s -> exists s', run_task f s = Ret s' /\ wf_timers F s';
  ut_stop : forall f F s, wf_timers F s -> exists b s', run_stop f s = Ret (b, s') /\ wf_timers F s';
}.
Context (Huser : user_timers_ok).

Lemma in_flight_alive F p s : wf_timers (p :: F) s -> exists t, timers s !! p = Some t.
Proof. intros Hwf. destruct (wt_flight _ _ Hwf p) as [t Ht]; [left | by exists t]. Qed.

Lemma check_timer_ok F p s :
  wf_timers (p :: F) s ->
  exists go_on s', check_timer run_stop p s = Ret (go_on, s') /\ wf_timers (if go_on then p :: F else F) s'.
Proof.
  intros Hwf. unfold check_timer, timer_at. destruct (in_flight_alive F p s Hwf) as [t Hp]. rewrite Hp. mrun.
  destruct (canceled t).
  { rewrite (flight_erase (p :: F) p t) by (done || left).
    destruct (wf_delete F p t s Hwf Hp) as (s' & -> & ? & _). mrun. by exists false, s'. }
  assert (Hstop : exists b s1, match stop_condition t with Some f => run_stop f s | None => Ret (false, s) end = Ret (b, s1)
     /\ wf_timers (p :: F) s1).
  { destruct (stop_condition t) as [f|]; [by apply (ut_stop Huser) | by eexists _, _]. }
  destruct Hstop as (b & s1 & -> & Hwf1). mrun. destruct b; [|by exists true, s1].
  destruct (in_flight_alive F p s1 Hwf1) as [t1 Hp1]. rewrite Hp1. mrun.
  rewrite (flight_erase (p :: F) p t1) by (done || left).
  destruct (wf_delete F p t1 s1 Hwf1 Hp1) as (s' & -> & ? & _). mrun. by exists false, s'.
Qed.

Lemma execute_task_ok F p s :
  wf_timers (p :: F) s -> exists s', execute_task run_task p s = Ret s' /\ wf_timers (p :: F) s'.
Proof.
  intros Hwf. unfold execute_task, timer_at. destruct (in_flight_alive F p s Hwf) as [t Hp]. rewrite Hp. mrun.
  destruct (task t) as [f|]; [by apply (ut_task Huser), wf_log | by eexists].
Qed.

Lemma repeat_timer_ok F p s :
  wf_timers (p :: F) s -> exists s', repeat_timer clock p s = Ret s' /\ wf_timers F s'.
Proof.
  intros Hwf. unfold repeat_timer, timer_at. destruct (in_flight_alive F p s Hwf) as [t Hp]. rewrite Hp. mrun.
  destruct (Nat.ltb_spec 0 (repeat_times t)).
  - cbn [Now]. pose proof (wt_times _ _ Hwf p t Hp) as Hok.
    destruct (after_ok (repeat_interval t) (ticks s) (proj2 Hok)) as [-> Hr]. mrun.
    set (t3 := mkTimer _ _ _ _ _ _ _).
    destruct (AddTimerStruct_ok F p (put_timer p t3 (tick s))) as (id & s3 & -> & ? & _); [|by eexists].
    apply (wf_put_timer _ p t); try done.
    + by apply wf_tick.
    + split; [done | apply Hok].
    + intros Hin. exfalso. eapply (flight_not_waiting (p :: F) p s Hwf); [left | exact Hin].
  - destruct (wf_delete F p t s Hwf Hp) as (s' & -> & ? & _). by eexists.
Qed.

Lemma HandleTimer_ok F p s :
  wf_timers (p :: F) s -> exists s', HandleTimer clock run_task run_stop p s = Ret s' /\ wf_timers F s'.
Proof.
  intros Hwf. unfold HandleTimer. destruct (check_timer_ok F p s Hwf) as (go_on & s1 & -> & Hwf1); mrun; destruct go_on; [|by exists s1].
  destruct (execute_task_ok F p s1 Hwf1) as (s2 & -> & Hwf2). mrun. by apply repeat_timer_ok.
Qed.

Lemma handle_timers_ok F s :
  wf_timers F s -> exists s', handle_timers clock run_task run_stop F s = Ret s' /\ wf_timers [] s'.
Proof.
  revert s. induction F as [|p F IH]; intros s Hwf; cbn [handle_timers]; [by eexists|].
  destruct (HandleTimer_ok F p s Hwf) as (s1 & -> & Hwf1). mrun. by apply IH.
Qed.

Lemma pop_loop_ok fuel i now F s :
  wf_timers F s -> (GetTimerNums s <= fuel)%nat ->
  exists F' s', pop_loop fuel i now F s = Ret (F', s') /\ wf_timers F' s'.
Proof.
  revert i F s. induction fuel as [|fuel IH]; intros i F s Hwf Hf; cbn [pop_loop];
    destruct (Nat.leb_spec (GetTimerNums s) i); try (by eexists _, _); [lia|].
  destruct (q_top_size (waiting_timers s)) as [e He]; [unfold q_size, GetTimerNums in *; lia|].
  rewrite He. destruct (wt_waiting _ _ Hwf e (q_top_elem _ _ He)) as (t & Ht & _).
  unfold timer_at. rewrite Ht. mrun. destruct (DateTime_gt (expire t) now); [by eexists _, _|].
  apply (IH (i + 1)%nat (F ++ [w_ptr e])).
  - apply (wf_perm (w_ptr e :: F)); [by rewrite (comm app)|]. by apply wf_dequeue.
  - apply q_size_pop in He. unfold q_size, GetTimerNums in *. cbn. lia.
Qed.

Lemma GetNextTimeout_ok F s :
  wf_timers F s -> exists z s', GetNextTimeout clock s = Ret (z, s') /\ wf_timers F s' /\ ran s' = ran s
    /\ waiting_timers s' = waiting_timers s.
Proof.
  intros Hwf. unfold GetNextTimeout. destruct (q_top (waiting_timers s)) as [e|] eqn:E; [|by eexists _, _].
  destruct (wt_waiting _ _ Hwf e (q_top_elem _ _ E)) as (t & Ht & Hx & _). cbn [Now].
  rewrite <-Hx, minus_ok by exact (wt_times _ _ Hwf _ t Ht). mrun. eexists _, _. split; [done|].
  split; [by apply wf_tick | done].
Qed.

Lemma pop_expired_ok s :
  wf_timers [] s -> exists F s', pop_expired clock s = Ret (F, s') /\ wf_timers F s'.
Proof. intros Hwf. unfold pop_expired. cbn [Now]. apply pop_loop_ok; [by apply wf_tick | done]. Qed.

Lemma PopExpiredTimers_ok s :
  wf_timers [] s -> exists F s', PopExpiredTimers clock s = Ret (F, s') /\ wf_timers F s'.
Proof. intros Hwf. unfold PopExpiredTimers. destruct (waiting_empty s); [by eexists _, _ | by apply pop_expired_ok]. Qed.

Lemma OnTimeout_ok ndebug rd s :
  ndebug = true \/ rd = 8 -> wf_timers [] s ->
  exists s', OnTimeout clock run_task run_stop ndebug rd s = Ret s' /\ wf_timers [] s'.
Proof.
  intros Hrd Hwf. unfold OnTimeout. rewrite cassert_ok by (destruct Hrd as [?| ->]; [by left|by right]). mrun.
  destruct (PopExpiredTimers_ok s Hwf) as (F & s1 & -> & Hwf1). mrun.
  destruct (GetNextTimeout_ok F s1 Hwf1) as (z & s2 & -> & Hwf2 & _). mrun.
  apply handle_timers_ok. destruct (z =? -1); [done | by apply wf_arm].
Qed.

(** The timers that a place in [OnTimeout] holds off the queue. *)
Definition in_flight (pc : TimeoutPc) : list nat :=
  match pc with
  | TTest | TPop => []
  | TNext F | TArm F _ | THandle F => F
  | TTask p F | TRepeat p F => p :: F
  end.

(** Each step of [OnTimeout] keeps the invariant, whatever other threads did since
    the last one. *)
Lemma timeout_step_ok pc s :
  wf_timers (in_flight pc) s ->
  exists pc' s', timeout_step clock run_task run_stop pc s = Ret (pc', s') /\ wf_timers (from_option in_flight [] pc') s'.
Proof.
  intros Hwf. destruct pc as [| |F|F z|[|p F]|p F|p F]; cbn [timeout_step in_flight] in *.
  - exists (Some (if waiting_empty s then TNext [] else TPop)), s. split; [done|]. by destruct (waiting_empty s).
  - destruct (pop_expired_ok s Hwf) as (F & s' & -> & ?). mrun. by eexists _, _.
  - destruct (GetNextTimeout_ok F s Hwf) as (z & s' & -> & ? & _). mrun. eexists _, _. split; [done|]. by destruct (z =? -1).
  - eexists _, _. split; [done|]. by apply wf_arm.
  - by exists None, s.
  - destruct (check_timer_ok F p s Hwf) as (go_on & s' & -> & ?). mrun. eexists _, _. split; [done|]. by destruct go_on.
  - destruct (execute_task_ok F p s Hwf) as (s' & -> & ?). mrun. by eexists _, _.
  - destruct (repeat_timer_ok F p s Hwf) as (s' & -> & ?). mrun. by eexists _, _.
Qed.

(** C10: the timer queue is memory safe.  Whatever waits in the queue and whatever
    the user's tasks and stop conditions do with it (add, repeat and cancel
    timers, their own too), handling a timeout ends, never touches a deleted
    timer, deletes none twice, overflows no date, and keeps the invariant:
    the map and the priority queue hold the same live timers with distinct ids,
    and what the functions work on satisfies what they keep of it.  The build with
    assertions also needs [read] to have returned the 8 bytes of the counter. *)
Theorem OnTimeout_safe ndebug rd s :
  ndebug = true \/ rd = 8 -> wf_timers [] s ->
  exists s', OnTimeout clock run_task run_stop ndebug rd s = Ret s' /\ wf_timers [] s'.
Proof. apply OnTimeout_ok. Qed.

(** Between the report of the descriptor and the [read], another thread that adds
    an earlier timer arms it again, so that [read] finds nothing and returns -1 (the
    largest [size_t]): the assertion fails. *)
Lemma rearmed_timer_asserts rd s : rd <> 8 -> OnTimeout clock run_task run_stop false rd s = Throw AssertFailed.
Proof. intros Hrd. unfold OnTimeout, cassert. by rewrite (proj2 (Z.eqb_neq rd 8)). Qed.

(** ** When timers fire *)

(** A due timer waits for the latest one.  The comparator puts the timer with
    the latest date on top of the queue, so as long as any timer is not due yet,
    handling a timeout takes no timer off the queue and runs no task, however
    long the others have been due. *)
Theorem due_timers_wait_for_latest s e :
  wf_timers [] s -> e ∈ q_elems (waiting_timers s) -> clock (ticks s) < w_expire e ->
  exists s', OnTimeout clock run_task run_stop false 8 s = Ret s' /\ ran s' = ran s
    /\ waiting_timers s' = waiting_timers s.
Proof.
  intros Hwf He Hlate. unfold OnTimeout, PopExpiredTimers, waiting_empty. change (cassert false (8 =? 8)) with (Ret tt). mrun.
  destruct (q_top (waiting_timers s)) as [top|] eqn:Htop; [|apply q_top_none in Htop; rewrite Htop in He; by apply not_elem_of_nil in He].
  unfold pop_expired. cbn [Now]. pose proof (q_top_max _ _ _ Htop He) as Hmax. unfold TimerCmp in Hmax.
  destruct (wt_waiting _ _ Hwf top (q_top_elem _ _ Htop)) as (t & Ht & Hx & _).
  pose proof (q_size_pop _ _ Htop) as Hsz. change (q_size (waiting_timers s)) with (GetTimerNums (tick s)) in Hsz.
  change (GetTimerNums (tick s)) with (GetTimerNums s) in *.
  destruct (GetTimerNums s) as [|n] eqn:En; [done|]. cbn [pop_loop].
  change (GetTimerNums (tick s)) with (GetTimerNums s). rewrite En.
  destruct (Nat.leb_spec (S n) 0); [lia|]. change (waiting_timers (tick s)) with (waiting_timers s).
  rewrite Htop. unfold timer_at. cbn [timers tick]. rewrite Ht. mrun.
  unfold DateTime_gt. destruct (Z.ltb_spec (clock (ticks s)) (expire t)); [|lia].
  destruct (GetNextTimeout_ok [] (tick s)) as (z & s2 & -> & Hwf2 & Hr2 & Hw2); [by apply wf_tick|]. mrun.
  cbn [handle_timers]. destruct (z =? -1); eexists; by split_and!.
Qed.

Lemma half_step (m i : nat) : (i <= m)%nat -> ((S m - i + 1) / 2 = S ((m - (i + 1) + 1) / 2))%nat.
Proof.
  intros. destruct (decide (m = i)) as [->|].
  - replace (S i - i + 1)%nat with 2%nat by lia. by replace (i - (i + 1) + 1)%nat with 1%nat by lia.
  - replace (S m - i + 1)%nat with (m - (i + 1) + 1 + 1 * 2)%nat by lia. rewrite Nat.div_add by lia. lia.
Qed.

(** When every timer is due, the loop still stops half way. *)
Lemma pop_loop_half fuel i now F s :
  (forall e, e ∈ q_elems (waiting_timers s) -> exists t, timers s !! w_ptr e = Some t /\ expire t <= now) ->
  (GetTimerNums s <= fuel)%nat ->
  exists F' s', pop_loop fuel i now F s = Ret (F', s') /\ length F' = (length F + (GetTimerNums s - i + 1) / 2)%nat.
Proof.
  revert i F s. induction fuel as [|fuel IH]; intros i F s Hdue Hf; cbn [pop_loop].
  - destruct (Nat.leb_spec (GetTimerNums s) i); [|lia]. eexists _, _. split; [done|].
    replace (GetTimerNums s - i)%nat with 0%nat by lia. cbn. lia.
  - destruct (Nat.leb_spec (GetTimerNums s) i) as [Hle|Hgt].
    { eexists _, _. split; [done|]. replace (GetTimerNums s - i)%nat with 0%nat by lia. cbn. lia. }
    destruct (q_top_size (waiting_timers s)) as [e He]; [unfold q_size, GetTimerNums in *; lia|].
    rewrite He. destruct (Hdue e (q_top_elem _ _ He)) as (t & Ht & Hx). unfold timer_at. rewrite Ht. mrun.
    unfold DateTime_gt. destruct (Z.ltb_spec now (expire t)); [lia|].
    pose proof (q_size_pop _ _ He) as Hsz. unfold q_size in Hsz.
    destruct (IH (i + 1)%nat (F ++ [w_ptr e]) (erase_id (tid t) (set_waiting (q_pop (waiting_timers s)) s)))
      as (F' & s' & E & Hl).
    + intros e' He'. apply (Hdue e'). by eapply q_elem_pop.
    + unfold GetTimerNums in *. cbn. lia.
    + exists F', s'. split; [done|]. rewrite Hl, length_app. unfold GetTimerNums in *.
      cbn [length waiting_timers erase_id set_map set_waiting]. rewrite Hsz in *.
      set (m := length (q_elems (q_pop (waiting_timers s)))) in *. rewrite half_step by lia. lia.
Qed.

(** Of [n] timers, all due, only half (rounded up) are taken off the queue. *)
Theorem half_of_due_timers s :
  wf_timers [] s -> (forall e, e ∈ q_elems (waiting_timers s) -> w_expire e <= clock (ticks s)) ->
  exists F s', PopExpiredTimers clock s = Ret (F, s') /\ length F = ((GetTimerNums s + 1) / 2)%nat.
Proof.
  intros Hwf Hdue. unfold PopExpiredTimers, waiting_empty. destruct (q_top (waiting_timers s)) eqn:E.
  - unfold pop_expired. cbn [Now]. destruct (pop_loop_half (GetTimerNums s) 0 (clock (ticks s)) [] (tick s)) as (F & s' & E' & Hl);
      [|done|]; [|exists F, s'; split; [done|]; rewrite Hl; cbn [length]; by rewrite Nat.sub_0_r].
    intros e He. destruct (wt_waiting _ _ Hwf e He) as (t & Ht & Hx & _). exists t. split; [done|].
    rewrite Hx. by apply Hdue.
  - apply q_top_none in E. exists [], s. split; [done|]. unfold GetTimerNums. by rewrite E.
Qed.

(** A timer without repetitions left, such as every timer of the overload with a
    stop condition, is deleted by its first timeout even when the condition says
    to go on. *)
Theorem no_repetition_left p t s :
  timers s !! p = Some t -> canceled t = false -> repeat_times t = 0%nat ->
  (forall f, stop_condition t = Some f -> run_stop f s = Ret (false, s)) ->
  (forall f, task t = Some f -> run_task f (log_run f s) = Ret (log_run f s)) ->
  exists s', HandleTimer clock run_task run_stop p s = Ret s' /\ timers s' = delete p (timers s)
    /\ ran s' = ran s ++ option_list (task t).
Proof.
  intros Hp Hc Hr Hstop Htask. unfold HandleTimer, check_timer, execute_task, repeat_timer, timer_at. rewrite Hp. mrun. rewrite Hc.
  assert (E : match stop_condition t with Some f => run_stop f s | None => Ret (false, s) end = Ret (false, s)).
  { destruct (stop_condition t) as [f|]; [by apply Hstop | done]. }
  rewrite E. mrun. rewrite Hp. mrun. destruct (task t) as [f|] eqn:Et.
  - rewrite Htask by done. mrun. cbn [timers log_run]. rewrite Hp, Hr. mrun.
    change (0 <? 0)%nat with false. unfold delete_timer, timer_at. cbn [timers log_run]. rewrite Hp. mrun. by eexists.
  - rewrite Hp, Hr. mrun. change (0 <? 0)%nat with false. unfold delete_timer, timer_at. rewrite Hp. mrun.
    eexists. split; [done|]. split; [done|]. cbn. by rewrite app_nil_r.
Qed.
End handler.
End invariant.

(** The rest of the invariant does not depend on what the functions rely on. *)
Lemma wf_timers_env {Q Env} `{HQ : MaxQueueLaws waiting Q TimerCmp} (ok1 ok2 : Env -> Prop) F (s : TimerQueue Q Env) :
  wf_timers ok1 F s -> ok2 (env s) -> wf_timers ok2 F s.
Proof. intros [] He. by split. Qed.

(** What the functions work on may change by itself. *)
Lemma wf_set_env {Q Env} `{HQ : MaxQueueLaws waiting Q TimerCmp} (ok1 ok2 : Env -> Prop) F e (s : TimerQueue Q Env) :
  wf_timers ok1 F s -> ok2 e -> wf_timers ok2 F (set_env e s).
Proof. intros [] He. by split. Qed.

(** ** The ids

    [next_timer_id] is one counter for the queues of all workers, so what matters of
    an operation to the other queues is that the counter does not go back. *)
Section ids.
Context {Q Env : Type} `{MaxQueue waiting Q} (clock : nat -> DateTime).
Implicit Types s : TimerQueue Q Env.

Lemma delete_timer_ids p s s' : delete_timer p s = Ret s' -> next_timer_id s' = next_timer_id s.
Proof. unfold delete_timer, timer_at. destruct (timers s !! p); mrun; [|done]. by intros [= <-]. Qed.

Lemma wake_for_ids t s s' : wake_for clock t s = Ret s' -> next_timer_id s' = next_timer_id s.
Proof.
  unfold wake_for. cbn [Now]. destruct (match q_top _ with None => true | Some _ => _ end); [|by intros [= <-]].
  destruct (DateTime_minus _ _); mrun; [|done]. by intros [= <-].
Qed.

Lemma AddTimerStruct_ids p s id s' : AddTimerStruct clock p s = Ret (id, s') -> next_timer_id s <= next_timer_id s'.
Proof.
  unfold AddTimerStruct, timer_at. destruct (timers s !! p) as [t|]; mrun; [|done]. cbn [Now].
  destruct (DateTime_le _ _); [by intros [= _ <-]|].
  destruct (wake_for clock t (tick s)) as [s1|] eqn:E1; mrun; [|done]. apply wake_for_ids in E1. cbn in E1.
  unfold give_id. destruct (tid t =? -1); cbv zeta; case_match; intros [= _ <-]; cbn; lia.
Qed.

Lemma AddTimer_ids when f s id s' : AddTimer clock when f s = Ret (id, s') -> next_timer_id s <= next_timer_id s'.
Proof. unfold AddTimer, new_timer. by intros E%AddTimerStruct_ids. Qed.

Lemma AddTimerRepeat_ids us n f s id s' : AddTimerRepeat clock us n f s = Ret (id, s') -> next_timer_id s <= next_timer_id s'.
Proof.
  unfold AddTimerRepeat, new_timer. cbn [Now]. destruct (AfterMicroSeconds _ _); mrun; [|done]. by intros E%AddTimerStruct_ids.
Qed.

Lemma AddTimerUntil_ids us u f s id s' : AddTimerUntil clock us u f s = Ret (id, s') -> next_timer_id s <= next_timer_id s'.
Proof.
  unfold AddTimerUntil, new_timer. cbn [Now]. destruct (AfterMicroSeconds _ _); mrun; [|done]. by intros E%AddTimerStruct_ids.
Qed.

Lemma CancelTimer_ids id s b s' : CancelTimer id s = Ret (b, s') -> next_timer_id s <= next_timer_id s'.
Proof.
  unfold CancelTimer, timer_at. destruct (timers_map s !! id) as [p|]; [|by intros [= _ <-]].
  destruct (timers s !! p); mrun; [|done]. by intros [= _ <-].
Qed.

Lemma pop_loop_ids fuel i now F s F' s' : pop_loop fuel i now F s = Ret (F', s') -> next_timer_id s' = next_timer_id s.
Proof.
  revert i F s. induction fuel as [|fuel IH]; intros i F s; cbn [pop_loop]; destruct (_ <=? i)%nat; try done; try (by intros [= _ <-]).
  destruct (q_top _) as [e|]; [|done]. unfold timer_at. destruct (timers s !! w_ptr e); mrun; [|done].
  destruct (DateTime_gt _ _); [by intros [= _ <-]|]. by intros ->%IH.
Qed.

Context (run_task : nat -> TimerQueue Q Env -> outcome (TimerQueue Q Env)).
Context (run_stop : nat -> TimerQueue Q Env -> outcome (bool * TimerQueue Q Env)).

(** The user's functions take ids only by adding timers. *)
Definition user_ids_grow : Prop :=
  (forall f s s', run_task f s = Ret s' -> next_timer_id s <= next_timer_id s')
  /\ (forall f s b s', run_stop f s = Ret (b, s') -> next_timer_id s <= next_timer_id s').

Lemma timeout_step_ids pc s pc' s' :
  user_ids_grow -> timeout_step clock run_task run_stop pc s = Ret (pc', s') -> next_timer_id s <= next_timer_id s'.
Proof.
  intros [Ht Hs]. destruct pc as [| |F|F z|[|p F]|p F|p F]; cbn [timeout_step].
  - by intros [= _ <-].
  - unfold pop_expired. cbn [Now]. destruct (pop_loop _ _ _ _ _) as [[F s1]|] eqn:E; mrun; [|done].
    apply pop_loop_ids in E. intros [= _ <-]. by rewrite E.
  - unfold GetNextTimeout. destruct (q_top _); cbn [Now]; mrun; [|by intros [= _ <-]].
    destruct (DateTime_minus _ _); mrun; [|done]. by intros [= _ <-].
  - by intros [= _ <-].
  - by intros [= _ <-].
  - unfold check_timer, timer_at. destruct (timers s !! p) as [t|]; mrun; [|done]. destruct (canceled t).
    { destruct (delete_timer p (erase_id (tid t) s)) as [s1|] eqn:E; mrun; [|done]. apply delete_timer_ids in E.
      intros [= _ <-]. by rewrite E. }
    assert (Hst : forall r, match stop_condition t with Some f => run_stop f s | None => Ret (false, s) end = Ret r ->
      next_timer_id s <= next_timer_id r.2).
    { intros [b s1]. destruct (stop_condition t); [by intros E%Hs | by intros [= _ <-]]. }
    destruct (match stop_condition t with Some f => _ | None => _ end) as [[b s1]|]; mrun; [|done]. specialize (Hst _ eq_refl).
    cbn [snd] in Hst. destruct b; [|by intros [= _ <-]]. destruct (timers s1 !! p) as [t1|]; mrun; [|done].
    destruct (delete_timer p (erase_id (tid t1) s1)) as [s2|] eqn:E; mrun; [|done]. apply delete_timer_ids in E.
    intros [= _ <-]. by rewrite E.
  - unfold execute_task, timer_at. destruct (timers s !! p) as [t|]; mrun; [|done].
    destruct (task t) as [f|]; [|by intros [= _ <-]]. destruct (run_task f (log_run f s)) as [s1|] eqn:E; [|done].
    apply Ht in E. by intros [= _ <-].
  - unfold repeat_timer, timer_at. destruct (timers s !! p) as [t|]; mrun; [|done]. destruct (0 <? repeat_times t)%nat.
    + cbn [Now]. destruct (AfterMicroSeconds _ _); mrun; [|done].
      destruct (AddTimerStruct clock p _) as [[id s1]|] eqn:E; mrun; [|done]. apply AddTimerStruct_ids in E. by intros [= _ <-].
    + destruct (delete_timer p s) as [s1|] eqn:E; mrun; [|done]. apply delete_timer_ids in E. intros [= _ <-]. by rewrite E.
Qed.

(** Another queue takes ids. *)
Lemma wf_set_next `{HQ : MaxQueueLaws waiting Q TimerCmp} (env_ok : Env -> Prop) F n s :
  wf_timers env_ok F s -> next_timer_id s <= n -> wf_timers env_ok F (set_next n s).
Proof. intros [] Hn. split; try done; cbn; [lia|]. intros p t Hp. specialize (wt_ids0 p t Hp). lia. Qed.
End ids.

(** ** A queue of two timers *)

(** The clock stands near 0 while the timers are added, and jumps to 5 s. *)
Definition test_clock (n : nat) : DateTime := if (n <? 4)%nat then Z.of_nat n else 5000000.
Abbreviation TestQueue := (TimerQueue (list_queue TimerCmp) unit).
Definition any_env (_ : unit) : Prop := True.

(** A task that starts another timer, one that cancels the first timer. *)
Definition test_task (f : nat) (s : TestQueue) : outcome TestQueue :=
  match f with
  | 0%nat => r ← AddTimerRepeat test_clock 500 2 (Some 1%nat) s; Ret (r : Z * TestQueue).2
  | 1%nat => r ← CancelTimer 0 s; Ret (r : bool * TestQueue).2
  | _ => Ret s
  end.
Definition test_stop (f : nat) (s : TestQueue) : outcome (bool * TestQueue) := Ret (true, s).

Lemma test_clock_range n : 0 <= test_clock n < 2 ^ 62.
Proof. unfold test_clock. case_test; lia. Qed.

Lemma test_functions_ok : user_timers_ok any_env test_task test_stop.
Proof.
  split; [|by intros f F s Hwf; eexists _, _]. intros [|[|f]] F s Hwf; cbn [test_task].
  - destruct (AddTimerRepeat_ok any_env test_clock test_clock_range F 500 2 (Some 1%nat) s Hwf) as (id & s' & -> & ?); [lia|].
    mrun. by eexists.
  - destruct (CancelTimer_ok any_env F 0 s Hwf) as (r & s' & -> & ?). mrun. by eexists.
  - by eexists.
Qed.

(** A new queue. *)
Lemma init_timers_wf {Q Env} `{HQ : MaxQueueLaws waiting Q TimerCmp} (e : Env) :
  wf_timers (fun _ => True) [] (TimerQueue_init e : TimerQueue Q Env).
Proof.
  split; cbn; rewrite ?q_elems_empty; try done; try (intros *; rewrite lookup_empty; done).
  - unfold waiting_ptrs. cbn. rewrite q_elems_empty. constructor.
  - by intros p ?%not_elem_of_nil.
  - by intros e' ?%not_elem_of_nil.
Qed.

Lemma wf_init_timers : wf_timers any_env [] (TimerQueue_init tt : TestQueue).
Proof. apply (wf_timers_env _ _ _ _ (init_timers_wf tt)). exact I. Qed.

(** A timer for 10 s and one for 1 ms. *)
Definition two_timers (s : TestQueue) : Prop :=
  exists id1 id2 s1, AddTimer test_clock 10000000 (Some 0%nat) (TimerQueue_init tt) = Ret (id1, s1)
    /\ AddTimer test_clock 1000 (Some 1%nat) s1 = Ret (id2, s).

Lemma two_timers_wf : exists s, two_timers s /\ wf_timers any_env [] s.
Proof.
  destruct (AddTimer_ok any_env test_clock test_clock_range [] 10000000 (Some 0%nat) _ wf_init_timers) as (id1 & s1 & E1 & H1); [lia|].
  destruct (AddTimer_ok any_env test_clock test_clock_range [] 1000 (Some 1%nat) s1 H1) as (id2 & s2 & E2 & H2); [lia|].
  exists s2. split; [|done]. by exists id1, id2, s1.
Qed.

Lemma two_timers_elems s :
  two_timers s -> ticks s = 4%nat /\ q_elems (waiting_timers s) = [mkWaiting 0 10000000; mkWaiting 1 1000].
Proof.
  intros (id1 & id2 & s1 & E1 & E2).
  assert (H : (r ← AddTimer test_clock 10000000 (Some 0%nat) (TimerQueue_init tt : TestQueue);
               r ← AddTimer test_clock 1000 (Some 1%nat) (r : Z * TestQueue).2;
               let s := (r : Z * TestQueue).2 in
               Ret (ticks s, q_elems (waiting_timers s))) = Ret (4%nat, [mkWaiting 0 10000000; mkWaiting 1 1000])).
  { vm_compute. reflexivity. }
  rewrite E1 in H. revert H. mrun. cbn [snd]. rewrite E2. mrun. cbv zeta. cbn [snd]. intros E. by injection E.
Qed.

Lemma OnTimeout_safe_witness :
  exists s, two_timers s
    /\ exists s', OnTimeout test_clock test_task test_stop false 8 s = Ret s' /\ wf_timers any_env [] s'.
Proof.
  destruct two_timers_wf as (s & H2 & Hwf). exists s. split; [exact H2|].
  exact (OnTimeout_safe any_env test_clock test_clock_range test_task test_stop test_functions_ok false 8 s (or_intror eq_refl) Hwf).
Defined.

Lemma due_timers_wait_for_latest_witness :
  exists s, two_timers s
    /\ exists s', OnTimeout test_clock test_task test_stop false 8 s = Ret s' /\ ran s' = ran s
         /\ waiting_timers s' = waiting_timers s.
Proof.
  destruct two_timers_wf as (s & H2 & Hwf). exists s. split; [exact H2|].
  destruct (two_timers_elems s H2) as [Ht He].
  refine (due_timers_wait_for_latest any_env test_clock test_clock_range test_task test_stop s
            (mkWaiting 0 10000000) Hwf _ _).
  - rewrite He. left.
  - rewrite Ht. vm_compute. reflexivity.
Defined.
