(* ===== verification/TimerRepeat.v ===== *)
(** * net/TimerQueue: how often a repeated timer runs

    A timer that has the queue to itself: it is armed for each of its dates,
    and [AddTimer] with [repeat_times] runs its task once more than that. *)

From S2P Require Import Prelude DateTime PQueue TimerQueue TimerSafe.
Local Open Scope Z_scope.

Section single.
Context {A Q : Type} {key : A -> Z} `{MaxQueueLaws A Q key}.

Lemma q_top_single q a : q_elems q = [a] -> q_top q = Some a /\ q_elems (q_pop q) = [].
Proof.
  intros E. destruct (q_top q) as [b|] eqn:Et; [|by apply q_top_none in Et; congruence].
  pose proof (q_top_some q b Et) as Hp. rewrite E in Hp. symmetry in Hp.
  apply Permutation_singleton_r in Hp. by injection Hp as -> ->.
Qed.

Lemma q_top_nil q : q_elems q = [] -> q_top q = None.
Proof.
  intros E. destruct (q_top q) as [b|] eqn:Et; [|done]. apply q_top_some in Et. rewrite E in Et.
  symmetry in Et. by apply Permutation_nil_r in Et.
Qed.

Lemma q_push_nil q a : q_elems q = [] -> q_elems (q_push a q) = [a].
Proof.
  intros E. pose proof (q_elems_push a q) as Hp. rewrite E in Hp. by apply Permutation_singleton_r.
Qed.
End single.

(** [act] done [n] times. *)
Fixpoint iter_act {Env} (act : Env -> outcome Env) (n : nat) (e : Env) : outcome Env :=
  match n with
  | O => Ret e
  | S n => e ← act e; iter_act act n e
  end.

Lemma iter_act_plus {Env} (act : Env -> outcome Env) j k e :
  iter_act act (j + k) e = (x ← iter_act act j e; iter_act act k x).
Proof. revert e. induction j as [|j IH]; intros e; [done|]. cbn. destruct (act e) as [e1|]; mrun; [apply IH|done]. Qed.

Section repeated.
Context {Q Env : Type} `{HQ : MaxQueueLaws waiting Q TimerCmp}.
Context (clock : nat -> DateTime) (clock_range : forall n, 0 <= clock n < 2 ^ 62).
Context (run_task : nat -> TimerQueue Q Env -> outcome (TimerQueue Q Env)).
Context (run_stop : nat -> TimerQueue Q Env -> outcome (bool * TimerQueue Q Env)).
Implicit Types s : TimerQueue Q Env.

(** The task [f] works on the environment alone. *)
Context (f : nat) (act : Env -> outcome Env).
Context (Htask : forall s, run_task f s = (e ← act (env s); Ret (set_env e s))).
Context (us : Z) (Hus : 0 < us < 2 ^ 62).

Fixpoint run_timeouts (n : nat) s : outcome (TimerQueue Q Env) :=
  match n with
  | O => Ret s
  | S n => s ← OnTimeout clock run_task run_stop false 8 s; run_timeouts n s
  end.

(** The timer [p] waits alone, with [k] repetitions left, since the reading [i] of
    the clock; three readings were made to add it. *)
Record waits_alone (p : nat) (id : Z) (k i : nat) s : Prop := {
  wa_queue : q_elems (waiting_timers s) = [mkWaiting p (clock i + us)];
  wa_timer : timers s !! p = Some (mkTimer (Some f) None false id (clock i + us) k us);
  wa_map : timers_map s !! id = Some p;
  wa_id : id <> -1;
  wa_ticks : ticks s = (i + 3)%nat;
  wa_armed : timer_fd s = Some (SetTimerFd (clock i + us - clock (i + 2)));
}.

(** Adding a timer to the empty queue, with an id already or without. *)
Lemma AddTimerStruct_alone p id k i s :
  timers s !! p = Some (mkTimer (Some f) None false id (clock i + us) k us) ->
  q_elems (waiting_timers s) = [] -> ticks s = (i + 1)%nat -> clock (i + 1) < clock i + us ->
  let id' := if id =? -1 then next_timer_id s else id in
  timers_map s !! id' = None -> id' <> -1 ->
  exists s', AddTimerStruct clock p s = Ret (id', s') /\ waits_alone p id' k i s'
    /\ ran s' = ran s /\ env s' = env s /\ delete p (timers s') = delete p (timers s)
    /\ timers_map s' = <[id' := p]> (timers_map s).
Proof.
  intros Hp Hq Ht Hprompt id' Hm Hne. unfold AddTimerStruct, timer_at. rewrite Hp. mrun. cbn [Now]. rewrite Ht.
  cbn [expire]. unfold DateTime_le. destruct (Z.leb_spec (clock i + us) (clock (i + 1))); [lia|].
  unfold wake_for. cbn [waiting_timers tick]. rewrite (q_top_nil (waiting_timers s)) by done. cbn [Now expire]. mrun.
  unfold DateTime_minus. cbn [ticks tick]. rewrite Ht.
  rewrite checked_small by (pose proof (clock_range i); pose proof (clock_range (S (i + 1))); lia). mrun.
  replace (S (i + 1)) with (i + 2)%nat by lia.
  assert (Hpush : q_elems (q_push (mkWaiting p (clock i + us)) (waiting_timers s)) = [mkWaiting p (clock i + us)])
    by by apply q_push_nil.
  unfold give_id. cbn [tid]. unfold id' in *. destruct (Z.eqb_spec id (-1)) as [->|Hid].
  - cbn. rewrite Hm. eexists. split; [done|]. split; [split; cbn; try done|].
    + apply lookup_insert_eq.
    + apply lookup_insert_eq.
    + lia.
    + split_and!; try done. cbn. by rewrite delete_insert_eq.
  - cbn. rewrite Hm. eexists. split; [done|]. split; [split; cbn; try done|].
    + apply lookup_insert_eq.
    + lia.
    + by split_and!.
Qed.

(** Both builds do the same when [read] gives the 8 bytes of the counter.
    Taking the timer off when it is due; nothing is left to arm for. *)
Lemma OnTimeout_alone p id k i s :
  waits_alone p id k i s -> clock i + us <= clock (i + 3) ->
  exists s0, OnTimeout clock run_task run_stop false 8 s = HandleTimer clock run_task run_stop p s0
    /\ q_elems (waiting_timers s0) = [] /\ timers s0 = timers s /\ timers_map s0 = delete id (timers_map s)
    /\ ticks s0 = (i + 4)%nat /\ ran s0 = ran s /\ env s0 = env s.
Proof.
  intros [Hq Hp Hm Hid Ht Ha] Hdue. destruct (q_top_single _ _ Hq) as [Htop Hpop].
  unfold OnTimeout, PopExpiredTimers, waiting_empty. change (cassert false (8 =? 8)) with (Ret tt). mrun.
  rewrite Htop. unfold pop_expired. cbn [Now]. rewrite Ht. unfold GetTimerNums.
  cbn [waiting_timers tick]. rewrite Hq. cbn [length pop_loop]. unfold GetTimerNums. cbn [waiting_timers tick]. rewrite Hq.
  cbn [length]. change (1 <=? 0)%nat with false. cbv iota. rewrite Htop. unfold timer_at. cbn [w_ptr timers tick].
  rewrite Hp. mrun. cbn [expire]. unfold DateTime_gt. destruct (Z.ltb_spec (clock (i + 3)) (clock i + us)); [lia|].
  unfold GetTimerNums. cbn [waiting_timers erase_id set_map set_waiting]. rewrite Hpop. cbn [length].
  change (0 <=? 0 + 1)%nat with true. cbv iota. mrun. unfold GetNextTimeout. cbn [waiting_timers erase_id set_map set_waiting].
  rewrite (q_top_nil (q_pop (waiting_timers s))) by done. mrun. change (-1 =? -1) with true. cbn [app handle_timers].
  set (s0 := erase_id _ _). exists s0. split; [by destruct (HandleTimer _ _ _ p s0)|].
  split; [exact Hpop|]. split; [done|]. split; [done|]. split; [cbn; lia|done].
Qed.

(** A timeout with repetitions left runs the task and adds the timer again. *)
Lemma timeout_repeats p id k i s e :
  waits_alone p id (S k) i s -> clock i + us <= clock (i + 3) -> clock (i + 5) < clock (i + 4) + us ->
  act (env s) = Ret e ->
  exists s', OnTimeout clock run_task run_stop false 8 s = Ret s' /\ waits_alone p id k (i + 4) s'
    /\ ran s' = ran s ++ [f] /\ env s' = e /\ delete p (timers s') = delete p (timers s)
    /\ timers_map s' = timers_map s.
Proof.
  intros Hs Hdue Hprompt Hact. destruct (OnTimeout_alone p id (S k) i s Hs Hdue) as (s0 & -> & Hq & Htm & Hmap & Ht & Hran & Henv).
  destruct Hs as [_ Hp Hm Hid _ _]. unfold HandleTimer, check_timer, execute_task, repeat_timer, timer_at. rewrite Htm, Hp. mrun. cbn [canceled stop_condition task].
  rewrite Htm, Hp. mrun. cbn [task]. rewrite Htask. cbn [env log_run]. rewrite Henv, Hact. mrun. cbn [timers set_env log_run].
  rewrite Htm, Hp. mrun. cbn [repeat_times]. change (0 <? S k)%nat with true. cbv iota. cbn [Now ticks set_env log_run].
  rewrite Ht. unfold AfterMicroSeconds. cbn [repeat_interval]. pose proof (clock_range (i + 4)).
  rewrite checked_small by lia. mrun. cbn [task stop_condition canceled tid repeat_times repeat_interval].
  replace (S k - 1)%nat with k by lia. set (s1 := put_timer p _ _).
  destruct (AddTimerStruct_alone p id k (i + 4) s1) as (s' & E & Hs' & Hran' & Henv' & Hdel & Hmap').
  - apply lookup_insert_eq.
  - exact Hq.
  - cbn. lia.
  - by replace (i + 4 + 1)%nat with (i + 5)%nat by lia.
  - destruct (Z.eqb_spec id (-1)); [done|]. cbn. rewrite Hmap. apply lookup_delete_eq.
  - by destruct (Z.eqb_spec id (-1)).
  - revert E Hs' Hmap'. destruct (Z.eqb_spec id (-1)); [done|]. intros E Hs' Hmap'. rewrite E. mrun. exists s'.
    split; [done|]. split; [done|]. split; [rewrite Hran'; cbn; by rewrite Hran|]. split; [done|]. split.
    + rewrite Hdel. cbn. rewrite delete_insert_eq. by rewrite Htm.
    + rewrite Hmap'. cbn. rewrite Hmap, insert_delete_eq. by apply insert_id.
Qed.

(** The last one deletes it. *)
Lemma timeout_last p id i s e :
  waits_alone p id 0 i s -> clock i + us <= clock (i + 3) -> act (env s) = Ret e ->
  exists s', OnTimeout clock run_task run_stop false 8 s = Ret s' /\ q_elems (waiting_timers s') = []
    /\ ran s' = ran s ++ [f] /\ env s' = e /\ timers s' = delete p (timers s) /\ timers_map s' = delete id (timers_map s).
Proof.
  intros Hs Hdue Hact. destruct (OnTimeout_alone p id 0 i s Hs Hdue) as (s0 & -> & Hq & Htm & Hmap & Ht & Hran & Henv).
  destruct Hs as [_ Hp Hm Hid _ _]. unfold HandleTimer, check_timer, execute_task, repeat_timer, timer_at. rewrite Htm, Hp. mrun. cbn [canceled stop_condition task].
  rewrite Htm, Hp. mrun. cbn [task]. rewrite Htask. cbn [env log_run]. rewrite Henv, Hact. mrun. cbn [timers set_env log_run].
  rewrite Htm, Hp. mrun. cbn [repeat_times]. change (0 <? 0)%nat with false. cbv iota.
  unfold delete_timer, timer_at. cbn [timers set_env log_run]. rewrite Htm, Hp. mrun. eexists. split; [done|].
  cbn. rewrite ?Hran, ?Htm, ?Hmap. by split_and!.
Qed.

(** The clock over [n] timeouts: each timeout is handled when the timer is due, and
    adding a timer takes less time than its interval. *)
Definition due_on_time (n i : nat) : Prop :=
  forall j, (j <= n)%nat -> clock (i + 4 * j + 1) < clock (i + 4 * j) + us <= clock (i + 4 * j + 3).

Lemma run_timeouts_alone j p id k i s e :
  waits_alone p id (j + k) i s -> due_on_time (j + k) i -> iter_act act j (env s) = Ret e ->
  exists s', run_timeouts j s = Ret s' /\ waits_alone p id k (i + 4 * j) s' /\ ran s' = ran s ++ replicate j f
    /\ env s' = e /\ delete p (timers s') = delete p (timers s) /\ timers_map s' = timers_map s.
Proof.
  revert i s. induction j as [|j IH]; intros i s Hs Hdue He.
  { injection He as <-. exists s. rewrite app_nil_r. replace (i + 4 * 0)%nat with i by lia. by split_and!. }
  cbn [iter_act] in He. destruct (act (env s)) as [e1|] eqn:Hact; [|done]. revert He. mrun. intros He.
  destruct (Hdue 0%nat) as [_ H0]; [lia|]. destruct (Hdue 1%nat) as [H1 _]; [lia|].
  destruct (timeout_repeats p id (j + k) i s e1 Hs) as (s1 & E1 & Hs1 & Hran1 & Henv1 & Hd1 & Hm1); [|..|done|].
  { by replace (i + 4 * 0 + 3)%nat with (i + 3)%nat in H0 by lia; replace (i + 4 * 0)%nat with i in H0 by lia. }
  { by replace (i + 4 * 1 + 1)%nat with (i + 5)%nat in H1 by lia; replace (i + 4 * 1)%nat with (i + 4)%nat in H1 by lia. }
  destruct (IH (i + 4)%nat s1 Hs1) as (s' & E & Hs' & Hran & Henv & Hd & Hm).
  { intros m Hm. destruct (Hdue (S m)) as [Ha Hb]; [lia|].
    by replace (i + 4 * S m)%nat with (i + 4 + 4 * m)%nat in * by lia. }
  { by rewrite Henv1. }
  exists s'. cbn [run_timeouts]. rewrite E1. mrun. split; [done|].
  replace (i + 4 * S j)%nat with (i + 4 + 4 * j)%nat by lia. split; [done|].
  split; [rewrite Hran, Hran1, <-app_assoc; done|]. split; [done|]. split; congruence.
Qed.

Lemma run_timeouts_plus j k s : run_timeouts (j + k) s = (s ← run_timeouts j s; run_timeouts k s).
Proof.
  revert s. induction j as [|j IH]; intros s; [done|]. cbn. destruct (OnTimeout clock run_task run_stop false 8 s) as [s1|]; mrun; [apply IH|done].
Qed.

(** What [AddTimer] leaves, in a queue where nothing waits. *)
Lemma repeat_added (env_ok : Env -> Prop) n s :
  wf_timers env_ok [] s -> q_elems (waiting_timers s) = [] -> due_on_time n (ticks s) ->
  exists p id s1, AddTimerRepeat clock us n (Some f) s = Ret (id, s1) /\ waits_alone p id n (ticks s) s1
    /\ ran s1 = ran s /\ env s1 = env s /\ delete p (timers s1) = delete p (timers s)
    /\ timers_map s1 = <[id := p]> (timers_map s) /\ timers s !! p = None /\ timers_map s !! id = None.
Proof.
  intros Hwf Hq Hdue. destruct (Hdue 0%nat) as [Hprompt _]; [lia|].
  replace (ticks s + 4 * 0)%nat with (ticks s) in Hprompt by lia.
  unfold AddTimerRepeat. cbn [Now]. unfold AfterMicroSeconds. pose proof (clock_range (ticks s)).
  rewrite checked_small by lia. mrun. unfold new_timer. cbn [timers tick]. set (p := fresh (dom (timers s))).
  assert (Hp : timers s !! p = None) by apply not_elem_of_dom, is_fresh.
  set (id := next_timer_id s).
  assert (Hid : timers_map s !! id = None).
  { destruct (timers_map s !! id) as [q|] eqn:E; [|done]. exfalso.
    destruct (wt_map _ _ _ Hwf id q E) as (_ & _ & t & Ht & Et). pose proof (wt_ids _ _ _ Hwf q t Ht). unfold id in Et. lia. }
  destruct (AddTimerStruct_alone p (-1) n (ticks s) (put_timer p (mkTimer (Some f) None false (-1) (clock (ticks s) + us) n us) (tick s)))
    as (s' & E & Hs' & Hran & Henv & Hd & Hm).
  - apply lookup_insert_eq.
  - exact Hq.
  - cbn. lia.
  - done.
  - exact Hid.
  - change (next_timer_id s <> -1). pose proof (wt_next _ _ _ Hwf). lia.
  - exists p, id, s'. split; [exact E|]. split; [exact Hs'|]. split; [done|]. split; [done|].
    split; [rewrite Hd; cbn; by rewrite delete_insert_eq|]. by split_and!.
Qed.

Lemma repeated_runs (env_ok : Env -> Prop) (n : nat) s (e : Env) :
  wf_timers env_ok [] s -> q_elems (waiting_timers s) = [] -> due_on_time n (ticks s) ->
  iter_act act (S n) (env s) = Ret e ->
  exists id s1, AddTimerRepeat clock us n (Some f) s = Ret (id, s1)
    /\ (forall j, (j <= n)%nat -> exists sj, run_timeouts j s1 = Ret sj /\ GetTimerNums sj = 1%nat
          /\ timer_fd sj = Some (SetTimerFd (clock (ticks s + 4 * j) + us - clock (ticks s + 4 * j + 2)))
          /\ ran sj = ran s ++ replicate j f /\ iter_act act j (env s) = Ret (env sj))
    /\ exists s', run_timeouts (S n) s1 = Ret s' /\ GetTimerNums s' = 0%nat /\ ran s' = ran s ++ replicate (S n) f
         /\ env s' = e /\ timers s' = timers s /\ timers_map s' = timers_map s.
Proof.
  intros Hwf Hq Hdue He. pose proof (repeat_added env_ok n s Hwf Hq Hdue) as (p & id & s1 & E1 & Hs1 & Hran1 & Henv1 & Hp1 & Hm1 & Hp & Hid).
  exists id, s1. split; [done|]. split.
  - intros j Hj. replace (S n) with (j + (S n - j))%nat in He by lia. rewrite iter_act_plus in He.
    destruct (iter_act act j (env s)) as [ej|] eqn:Ej; [|done].
    destruct (run_timeouts_alone j p id (n - j) (ticks s) s1 ej) as (sj & E & Hsj & Hran & Hej & _).
    { by replace (j + (n - j))%nat with n by lia. }
    { by replace (j + (n - j))%nat with n by lia. }
    { by rewrite Henv1. }
    exists sj. split; [done|]. destruct Hsj as [Hqj _ _ _ _ Ha]. unfold GetTimerNums. rewrite Hqj. split; [done|].
    split; [done|]. by rewrite Hran, Hran1, Hej.
  - replace (S n) with (n + 1)%nat in * by lia. rewrite iter_act_plus in He.
    destruct (iter_act act n (env s)) as [en|] eqn:En; [|done]. revert He. mrun. cbn [iter_act]. intros He.
    destruct (act en) as [e'|] eqn:Hlast; [|done]. injection He as ->.
    destruct (run_timeouts_alone n p id 0 (ticks s) s1 en) as (sn & E & Hsn & Hran & Henv & Hd & Hm).
    { by rewrite Nat.add_0_r. }
    { by rewrite Nat.add_0_r. }
    { by rewrite Henv1. }
    destruct (timeout_last p id (ticks s + 4 * n) sn e Hsn) as (s' & E' & Hq' & Hran' & Henv' & Hd' & Hm').
    { by apply (Hdue n). }
    { by rewrite Henv. }
    exists s'. rewrite run_timeouts_plus, E. mrun. cbn [run_timeouts]. rewrite E'. mrun. split; [done|].
    unfold GetTimerNums. rewrite Hq'. split; [done|]. split.
    { rewrite Hran', Hran, Hran1, <-app_assoc. f_equal. change [f] with (replicate 1 f). by rewrite <-replicate_add. }
    split; [done|]. split.
    + rewrite Hd', Hd, Hp1. by rewrite delete_id.
    + rewrite Hm', Hm, Hm1. by rewrite delete_insert_id.
Qed.

(** C20: a repeated timer.  With [repeat_times] n in an empty queue, and timeouts that are
    handled when the timer is due, the task runs n + 1 times: before each of its
    runs the timer is alone in the queue and the descriptor armed for the next date,
    and after the last one the timer is deleted and the queue as it was. *)
Theorem repeated_timer_runs (env_ok : Env -> Prop) (n : nat) s (e : Env) :
  wf_timers env_ok [] s -> q_elems (waiting_timers s) = [] -> due_on_time n (ticks s) ->
  iter_act act (S n) (env s) = Ret e ->
  exists id s1, AddTimerRepeat clock us n (Some f) s = Ret (id, s1)
    /\ (forall j, (j <= n)%nat -> exists sj, run_timeouts j s1 = Ret sj /\ GetTimerNums sj = 1%nat
          /\ timer_fd sj = Some (SetTimerFd (clock (ticks s + 4 * j) + us - clock (ticks s + 4 * j + 2)))
          /\ ran sj = ran s ++ replicate j f)
    /\ exists s', run_timeouts (S n) s1 = Ret s' /\ GetTimerNums s' = 0%nat /\ ran s' = ran s ++ replicate (S n) f
         /\ env s' = e /\ timers s' = timers s /\ timers_map s' = timers_map s.
Proof.
  intros Hwf Hq Hdue He. destruct (repeated_runs env_ok n s e Hwf Hq Hdue He) as (id & s1 & E & Hj & Hend).
  exists id, s1. split; [done|]. split; [|done]. intros j Hle. destruct (Hj j Hle) as (sj & ? & ? & ? & ? & _). by exists sj.
Qed.
End repeated.

(** A clock that stands still while a timer is handled, then moves on by a second. *)
Definition second_clock (n : nat) : DateTime := 1000000 * Z.min (Z.of_nat (n + 1) / 4) 1000.

Lemma second_clock_range n : 0 <= second_clock n < 2 ^ 62.
Proof. unfold second_clock. pose proof (Z.div_pos (Z.of_nat (n + 1)) 4). lia. Qed.

Lemma second_clock_at j k : (k < 4)%nat ->
  second_clock (4 * j + k) = 1000000 * Z.min (Z.of_nat j + (if (k =? 3)%nat then 1 else 0)) 1000.
Proof.
  intros Hk. unfold second_clock. do 2 f_equal.
  destruct (Nat.eqb_spec k 3); Z.div_mod_to_equations; lia.
Qed.

Lemma second_clock_due n i : due_on_time second_clock 1000000 n (4 * i) <-> (n + i < 1000)%nat.
Proof.
  unfold due_on_time. split.
  - intros Hd. destruct (Nat.lt_ge_cases (n + i) 1000); [done|]. destruct (Hd n) as [_ H3]; [done|].
    replace (4 * i + 4 * n)%nat with (4 * (i + n) + 0)%nat in H3 at 1 by lia.
    replace (4 * i + 4 * n + 3)%nat with (4 * (i + n) + 3)%nat in H3 by lia.
    rewrite !second_clock_at in H3 by lia. change (0 =? 3)%nat with false in H3. change (3 =? 3)%nat with true in H3. lia.
  - intros Hn j Hj. replace (4 * i + 4 * j)%nat with (4 * (i + j) + 0)%nat by lia.
    rewrite <-!Nat.add_assoc. rewrite !second_clock_at by lia.
    change (0 + 1 =? 3)%nat with false. change (0 =? 3)%nat with false. change (0 + 3 =? 3)%nat with true. cbv iota. lia.
Qed.

Definition idle_task (f : nat) (s : TestQueue) : outcome TestQueue := Ret (set_env (env s) s).

Lemma repeated_timer_runs_witness :
  let s0 : TestQueue := TimerQueue_init tt in
  exists id s1, AddTimerRepeat second_clock 1000000 2 (Some 9%nat) s0 = Ret (id, s1)
    /\ (forall j, (j <= 2)%nat -> exists sj, run_timeouts second_clock idle_task test_stop j s1 = Ret sj
          /\ GetTimerNums sj = 1%nat
          /\ timer_fd sj = Some (SetTimerFd (second_clock (0 + 4 * j) + 1000000 - second_clock (0 + 4 * j + 2)))
          /\ ran sj = [] ++ replicate j 9%nat)
    /\ exists s', run_timeouts second_clock idle_task test_stop 3 s1 = Ret s' /\ GetTimerNums s' = 0%nat
         /\ ran s' = [] ++ replicate 3 9%nat /\ env s' = tt /\ timers s' = ∅ /\ timers_map s' = ∅.
Proof.
  apply (repeated_timer_runs second_clock second_clock_range idle_task test_stop 9 Ret (fun s => eq_refl) 1000000
           ltac:(lia) any_env 2 (TimerQueue_init tt) tt).
  - apply wf_init_timers.
  - reflexivity.
  - apply (second_clock_due 2 0). lia.
  - reflexivity.
Defined.
