(* ===== verification/IOWorker.v ===== *)
(** * net/IOWorker and Poller::Poll: the event loop of one worker thread

    A worker waits in [Poll] for its connections, its acceptor, its timers and
    its wake-up descriptor, lets each reported channel handle its event, and
    leaves the loop once [Stop] was called.  The timer tasks work on the
    connections, so the connections are the environment of the timer queue.
    Other threads may stop the worker and add or cancel timers at any time
    between two steps of its own: a step handles one channel, or does one of the
    steps of [TimerQueue.OnTimeout].  Built with NDEBUG, as the release is. *)

From S2P Require Import Prelude CxxStd CxxMap DateTime BaseBuffer Channel InetAddress TcpConn TcpConnInv TcpStream Acceptor.
From S2P Require Import PQueue TimerQueue TimerSafe.
From Stdlib Require Import Relations.Relation_Operators Wellfounded.Lexicographic_Product Wellfounded.Inverse_Image.
Local Open Scope Z_scope.

(** At most this many events are reported at once. *)
Definition kEventListMaxSize : nat := 4096.

(** What [epoll_wait] reports: a registration of a connection, or the acceptor,
    the timer queue or the wake-up descriptor with the triggered events. *)
Inductive ready_event :=
| ReadyConn (e : epoll_event)
| ReadyAcceptor (events : Z)
| ReadyTimer (events : Z)
| ReadyWakeup (events : Z).

(** An element of [active_channels]; a connection keeps its triggered events itself. *)
Inductive active_channel :=
| ActiveConn (p : ptr)
| ActiveAcceptor (events : Z)
| ActiveTimer (events : Z)
| ActiveWakeup (events : Z).

(** Where the thread is in [Loop]: before the test of [stop_loop], blocked in
    [Poll], before the next of the channels that are left to handle, in
    [TimerQueue::OnTimeout] with those channels left, before closing the connections,
    waiting for their end; returned. *)
Inductive LoopPc :=
| AtTest
| InPoll
| Handling (time : DateTime) (active : list active_channel)
| InTimeout (pc : TimeoutPc) (time : DateTime) (active : list active_channel)
| AtClose
| AtDrain
| Exited.
#[export] Instance active_channel_eq_dec : EqDecision active_channel.
Proof. solve_decision. Defined.
#[export] Instance TimeoutPc_eq_dec : EqDecision TimeoutPc.
Proof. solve_decision. Defined.
#[export] Instance LoopPc_eq_dec : EqDecision LoopPc.
Proof. solve_decision. Defined.

(** The range-for over [active_channels] goes on, or the loop to its test. *)
Definition goes_on (time : DateTime) (active : list active_channel) : LoopPc :=
  match active with [] => AtTest | _ => Handling time active end.

(** What [accept], its repetition, [open] and [new TcpConn] give. *)
Record incoming := mkIncoming {
  in_accept : accept_result;
  in_again : Z;
  in_reopened : Z;
  in_ptr : ptr;
}.

Section loop.
Context {Any Q : Type} `{MaxQueue waiting Q}.

(** [wakeups] is the counter of the wake-up descriptor. *)
Record IOWorker := mkIOWorker {
  acceptor : Acceptor;
  timer_queue : TimerQueue Q (Worker Any);
  wakeups : Z;
  stop_loop : bool;
  loop_pc : LoopPc;
}.
Implicit Types s : IOWorker.

Definition tcp_conns s : Worker Any := env (timer_queue s).
Definition set_tcp_conns (w : Worker Any) s : IOWorker :=
  mkIOWorker (acceptor s) (set_env w (timer_queue s)) (wakeups s) (stop_loop s) (loop_pc s).
Definition set_timer_queue (q : TimerQueue Q (Worker Any)) s : IOWorker :=
  mkIOWorker (acceptor s) q (wakeups s) (stop_loop s) (loop_pc s).
Definition set_acceptor (a : Acceptor) s : IOWorker :=
  mkIOWorker a (timer_queue s) (wakeups s) (stop_loop s) (loop_pc s).
Definition set_wakeups (n : Z) s : IOWorker :=
  mkIOWorker (acceptor s) (timer_queue s) n (stop_loop s) (loop_pc s).
Definition set_loop_pc (pc : LoopPc) s : IOWorker :=
  mkIOWorker (acceptor s) (timer_queue s) (wakeups s) (stop_loop s) pc.

(** [encrypted] is fixed by the [SslContext] the worker was given. *)
Definition IOWorker_init (reserved : Z) (addr : InetAddress) (use_ssl : bool) : IOWorker :=
  mkIOWorker (mkAcceptor reserved addr) (TimerQueue_init (mkWorker ∅ ∅ ∅ ∅ use_ssl [])) 0 false AtTest.

Definition GetConnNums s : nat := Acceptor.GetConnNums (tcp_conns s).
Definition GetTimerNums s : nat := TimerQueue.GetTimerNums (timer_queue s).

(** [write] adds 1 to the counter of the descriptor, [read] takes it all; an add
    that would overflow the counter fails. *)
Definition Wakeup s : IOWorker :=
  set_wakeups (if wakeups s + 1 <=? 2 ^ 64 - 2 then wakeups s + 1 else wakeups s) s.
Definition Stop s : IOWorker :=
  Wakeup (mkIOWorker (acceptor s) (timer_queue s) (wakeups s) true (loop_pc s)).

(** A channel for which only [OnReadable] is set. *)
Definition readable_only {S} (f : DateTime -> S -> outcome S) : ChannelCallback S :=
  mkChannelCallback None (Some f) None None.

Section operations.
Context (sys : Kernel Any) (callback : TcpCallback Any) (accepting : Worker Any -> incoming).
Context (clock : nat -> DateTime).
Context (run_task : nat -> TimerQueue Q (Worker Any) -> outcome (TimerQueue Q (Worker Any))).
Context (run_stop : nat -> TimerQueue Q (Worker Any) -> outcome (bool * TimerQueue Q (Worker Any))).

(** [Poll]: the channels of the reported events, each told what triggered it; a
    null pointer is dereferenced like any other. *)
Fixpoint Poll (ready : list ready_event) (w : Worker Any) : outcome (list active_channel * Worker Any) :=
  match ready with
  | [] => Ret ([], w)
  | e :: ready =>
      r ← match e with
          | ReadyConn e =>
              match ev_ptr e with
              | None => Throw UndefinedBehaviour
              | Some p =>
                  c ← conn_at p w;
                  Ret (ActiveConn p, put_conn p (set_channel (SetTriggeredEvent (ev_events e) (channel c)) c) w)
              end
          | ReadyAcceptor evs => Ret (ActiveAcceptor evs, w)
          | ReadyTimer evs => Ret (ActiveTimer evs, w)
          | ReadyWakeup evs => Ret (ActiveWakeup evs, w)
          end;
      let '(ch, w) := r : active_channel * Worker Any in
      r ← Poll ready w;
      let '(chs, w) := r : list active_channel * Worker Any in
      Ret (ch :: chs, w)
  end.

(** [channel->HandleEvent(time)] while [active] is left to handle.  The timer queue
    enters [OnTimeout], whose steps follow. *)
Definition handle_channel (ch : active_channel) (time : DateTime) (active : list active_channel) s : outcome IOWorker :=
  match ch with
  | ActiveConn p =>
      w ← handle_event sys callback p time (tcp_conns s);
      Ret (set_tcp_conns w s)
  | ActiveAcceptor evs =>
      HandleEvent (log_debug sys) (readable_only (fun time s =>
        let i := accepting (tcp_conns s) in
        r ← OnPeerConnect callback (in_accept i) (in_again i) (in_reopened i) (in_ptr i) time (acceptor s) (tcp_conns s);
        let '(a, w) := r : Acceptor * Worker Any in
        Ret (set_acceptor a (set_tcp_conns w s)))) evs time s
  | ActiveTimer evs =>
      HandleEvent (log_debug sys) (readable_only (fun time s => Ret (set_loop_pc (InTimeout TTest time active) s))) evs time s
  | ActiveWakeup evs => HandleEvent (log_debug sys) (readable_only (fun _ s => Ret (set_wakeups 0 s))) evs time s
  end.

(** The thread's own actions, but the return from [Poll], and those of others. *)
Inductive loop_action :=
| ActPolled (ready : list ready_event) (time : DateTime)
| ActStep
| ActStop
| ActAddTimer (when : DateTime) (f : option nat)
| ActAddTimerRepeat (us : Z) (n : nat) (f : option nat)
| ActAddTimerUntil (us : Z) (until f : option nat)
| ActCancelTimer (id : Z)
| ActTakeIds (n : Z).     (* other queues take the ids below [n]: the counter is static *)

Definition loop_step_pc s : option (outcome IOWorker) :=
  match loop_pc s with
  | AtTest => Some (Ret (set_loop_pc (if stop_loop s then AtClose else InPoll) s))
  | Handling time [] => Some (Ret (set_loop_pc AtTest s))
  | Handling time (ch :: active) => Some (handle_channel ch time active (set_loop_pc (goes_on time active) s))
  | InTimeout pc time active =>
      Some (r ← timeout_step clock run_task run_stop pc (timer_queue s);
            let '(pc, q) := r : option TimeoutPc * TimerQueue Q (Worker Any) in
            Ret (set_loop_pc (match pc with Some pc => InTimeout pc time active | None => goes_on time active end)
                   (set_timer_queue q s)))
  | AtClose => Some (w ← close_all sys callback (tcp_conns s); Ret (set_loop_pc AtDrain (set_tcp_conns w s)))
  | AtDrain => Some (Ret (set_loop_pc (if ConnSet_Empty (tcp_conns s) then Exited else AtDrain) s))
  | InPoll | Exited => None
  end.

Definition on_timers {R} (r : outcome (R * TimerQueue Q (Worker Any))) s : option (outcome IOWorker) :=
  Some (r ← r; Ret (set_timer_queue (r : R * TimerQueue Q (Worker Any)).2 s)).

Definition loop_exec (a : loop_action) s : option (outcome IOWorker) :=
  match a with
  | ActPolled ready time =>
      if decide (loop_pc s = InPoll) then
        Some (r ← Poll ready (tcp_conns s);
              let '(active, w) := r : list active_channel * Worker Any in
              Ret (set_loop_pc (goes_on time active) (set_tcp_conns w s)))
      else None
  | ActStep => loop_step_pc s
  | ActStop => Some (Ret (Stop s))
  | ActAddTimer when f => on_timers (AddTimer clock when f (timer_queue s)) s
  | ActAddTimerRepeat us n f => on_timers (AddTimerRepeat clock us n f (timer_queue s)) s
  | ActAddTimerUntil us until f => on_timers (AddTimerUntil clock us until f (timer_queue s)) s
  | ActCancelTimer id => on_timers (CancelTimer id (timer_queue s)) s
  | ActTakeIds n =>
      if next_timer_id (timer_queue s) <=? n then Some (Ret (set_timer_queue (set_next n (timer_queue s)) s)) else None
  end.
End operations.
End loop.
Arguments IOWorker : clear implicits.

(** ** The invariant of a worker without TLS *)

(** The connections are well-formed and plain. *)
Definition plain_ok {Any} (w : Worker Any) : Prop := wf_worker w /\ encrypted w = false.

Definition conn_events (ready : list ready_event) : list epoll_event :=
  omap (fun e => match e with ReadyConn e => Some e | _ => None end) ready.
Definition active_conns (active : list active_channel) : list ptr :=
  omap (fun ch => match ch with ActiveConn p => Some p | _ => None end) active.
Definition reported (e : ready_event) : Z :=
  match e with ReadyConn e => ev_events e | ReadyAcceptor evs | ReadyTimer evs | ReadyWakeup evs => evs end.

(** [epoll_wait] reports each registration at most once, with an event that can
    be reported, and no more events than it was given room for. *)
Record ready_ok {Any} (ready : list ready_event) (w : Worker Any) : Prop := {
  ro_room : (length ready <= kEventListMaxSize)%nat;
  ro_once : NoDup (ev_ptr <$> conn_events ready);
  ro_registered : forall e, e ∈ conn_events ready -> exists p c evt, heap w !! p = Some c
    /\ epoll w !! fd_of c = Some evt /\ ev_ptr e = ev_ptr evt;
  ro_reportable : forall e, e ∈ ready -> reportable (reported e);
}.

(** The channels that are left to handle in this turn, and the timers that are off
    the queue and not handled yet. *)
Definition pending (pc : LoopPc) : list active_channel :=
  match pc with Handling _ active | InTimeout _ _ active => active | _ => [] end.
Definition timers_held (pc : LoopPc) : list nat := match pc with InTimeout pc _ _ => in_flight pc | _ => [] end.

(** [accept] gives a descriptor and [new] an address that are not in use. *)
Definition accepting_ok {Any} (accepting : Worker Any -> incoming) : Prop :=
  forall w fd peer, wf_worker w -> in_accept (accepting w) = Accepted fd peer -> fresh_conn (in_ptr (accepting w)) fd w.

Section safety.
Context {Any Q : Type} `{HQ : MaxQueueLaws waiting Q TimerCmp}.
Context (sys : Kernel Any) (callback : TcpCallback Any) (accepting : Worker Any -> incoming).
Context (clock : nat -> DateTime).
Context (run_task : nat -> TimerQueue Q (Worker Any) -> outcome (TimerQueue Q (Worker Any))).
Context (run_stop : nat -> TimerQueue Q (Worker Any) -> outcome (bool * TimerQueue Q (Worker Any))).
Implicit Types (w : Worker Any) (s : IOWorker Any Q) (p : ptr) (P : ptr -> Prop).

(** What the theorems rely on: the kernel's promises, a clock that stays in the
    range of dates, and user functions that return and keep their contract: those
    of a connection change no other one, timer tasks leave the worker well-formed. *)
Record loop_env_ok : Prop := {
  le_kernel : kernel_ok sys;
  le_accepting : accepting_ok accepting;
  le_connected : user_ok true (OnConnected callback);
  le_disconnected : user_ok true (OnDisconnected callback);
  le_received : user_ok false (OnDataReceived callback);
  le_clock : forall n, 0 <= clock n < 2 ^ 62;
  le_tasks : user_timers_ok plain_ok run_task run_stop;
}.
Context (Henv : loop_env_ok).

(** [F] are the timers that are held off the queue. *)
Definition loop_inv F s : Prop := wf_timers plain_ok F (timer_queue s).

Lemma loop_inv_conns F s : loop_inv F s -> plain_ok (tcp_conns s).
Proof. apply wt_env. Qed.

Lemma loop_inv_set F w s : loop_inv F s -> plain_ok w -> loop_inv F (set_tcp_conns w s).
Proof. apply wf_set_env. Qed.

(** The connection of a channel is alive, and the event can be logged. *)
Definition can_handle w (ch : active_channel) : Prop :=
  match ch with
  | ActiveConn p => exists c, heap w !! p = Some c /\ nameable (log_debug sys) (triggered_events (channel c))
  | ActiveAcceptor evs | ActiveTimer evs | ActiveWakeup evs => nameable (log_debug sys) evs
  end.

Lemma can_handle_left w w' ch :
  (forall p, ch = ActiveConn p -> left_open p w w') -> can_handle w ch -> can_handle w' ch.
Proof.
  destruct ch as [p|evs|evs|evs]; [|done..]. intros Hl (c & Hc & Hn).
  destruct (Hl p eq_refl c Hc) as (c' & Hc' & _ & _ & Et & _). exists c'. by rewrite Et.
Qed.

Lemma can_handle_all active w w' :
  (forall p, p ∈ active_conns active -> left_open p w w') -> Forall (can_handle w) active -> Forall (can_handle w') active.
Proof.
  intros Hl Ha. rewrite !Forall_forall in *. intros ch Hin. apply (can_handle_left w); [|by apply Ha].
  intros p ->. apply Hl. unfold active_conns. apply list_elem_of_omap. by exists (ActiveConn p).
Qed.

Lemma registered_ptr p c w evt :
  wf_worker w -> heap w !! p = Some c -> epoll w !! fd_of c = Some evt -> ev_ptr evt = Some p.
Proof.
  intros Hw Hp Ht. pose proof (wf_conns w Hw p c Hp) as [_ _ Hg]. unfold registration_ok in Hg.
  assert (Hs : forall wr, in_sync p (true, wr) (channel c) (epoll w) -> ev_ptr evt = Some p).
  { intros wr (_ & q & Hq & [->|[_ [=]]]). unfold fd_of in Ht. rewrite Hq in Ht. by simplify_eq/=. }
  destruct (conn_state c); [| congruence |].
  - destruct Hg as (wr & Hg & _). by apply (Hs wr).
  - destruct Hg as [Hg|Hg]; [congruence | by apply (Hs false)].
Qed.

(** [SetTriggeredEvent] on one connection. *)
Definition trigger (p : ptr) (c : TcpConn Any) (e : Z) w : Worker Any :=
  put_conn p (set_channel (SetTriggeredEvent e (channel c)) c) w.

Lemma trigger_ok p c e w :
  plain_ok w -> heap w !! p = Some c ->
  plain_ok (trigger p c e w) /\ forall q, q <> p -> left_open q w (trigger p c e w).
Proof.
  intros [Hw Hp] Hc. pose proof (wf_conns w Hw p c Hc) as [Hs Hr Hg].
  assert (Hstep : step_ok p w (trigger p c e w)) by (apply (step_put p c); [done..|by split]).
  split; [split; [apply Hstep | by rewrite (so_encrypted _ _ _ Hstep)] | apply (so_others _ _ _ Hstep)].
Qed.

(** [Poll] on registrations of live connections, each reported once: all it returns
    can be handled. *)
Lemma Poll_ok ready w :
  plain_ok w -> NoDup (ev_ptr <$> conn_events ready) -> (forall e, e ∈ ready -> reportable (reported e)) ->
  (forall e, e ∈ conn_events ready -> exists p, ev_ptr e = Some p /\ alive p w) ->
  exists active w', Poll ready w = Ret (active, w') /\ plain_ok w' /\ Forall (can_handle w') active
    /\ ev_ptr <$> conn_events ready = Some <$> active_conns active
    /\ forall p, Some p ∉ (ev_ptr <$> conn_events ready) -> left_open p w w'.
Proof.
  revert w. induction ready as [|e ready IH]; intros w Hw Hnd Hrep He; cbn [Poll].
  { exists [], w. split_and!; try done. intros p _. apply left_open_refl. }
  assert (Hhere : reportable (reported e)) by (apply Hrep; left).
  assert (Hrest : forall e', e' ∈ ready -> reportable (reported e')) by (intros; apply Hrep; by right).
  assert (Hsimple : forall ch, (forall w', can_handle w' ch) -> active_conns [ch] = [] -> conn_events (e :: ready) = conn_events ready ->
    exists active w', (r ← Poll ready w; let '(chs, w) := r : list active_channel * Worker Any in Ret (ch :: chs, w)) = Ret (active, w')
      /\ plain_ok w' /\ Forall (can_handle w') active /\ ev_ptr <$> conn_events (e :: ready) = Some <$> active_conns active
      /\ forall p, Some p ∉ (ev_ptr <$> conn_events (e :: ready)) -> left_open p w w').
  { intros ch Hch Hno Hsame. rewrite Hsame in *. destruct (IH w Hw Hnd Hrest He) as (active & w' & -> & Hw' & Ha & Ea & Hl).
    mrun. exists (ch :: active), w'. split; [done|]. split; [done|]. split; [by constructor|]. split; [|done].
    change (ch :: active) with ([ch] ++ active). unfold active_conns in *. rewrite omap_app, Hno. exact Ea. }
  destruct e as [e|evs|evs|evs].
  - cbn [conn_events omap list_omap fmap list_fmap] in Hnd. apply NoDup_cons in Hnd as [Hnin Hnd].
    destruct (He e) as (p & Ep & [c Hc]); [left|]. rewrite Ep in *. rewrite (conn_at_alive p c) by done. mrun.
    destruct (trigger_ok p c (ev_events e) w Hw Hc) as [Hw1 Hl1]. fold (trigger p c (ev_events e) w).
    destruct (IH (trigger p c (ev_events e) w) Hw1 Hnd Hrest) as (active & w' & -> & Hw' & Ha & Ea & Hl).
    { intros e' He'. destruct (He e') as (q & Eq & Hq); [by right|]. exists q. split; [done|].
      destruct (decide (q = p)) as [->|Hne]; [apply put_alive|]. by apply (left_open_alive q w); [apply Hl1|]. }
    eexists _, w'. split; [reflexivity|]. split; [done|]. split; [constructor; [|done]|split].
    + apply (can_handle_left (trigger p c (ev_events e) w)); [intros q [= <-]; by apply Hl|].
      eexists. split; [apply lookup_insert_eq|]. intros _. exact Hhere.
    + change (ev_ptr e :: (ev_ptr <$> conn_events ready) = Some p :: (Some <$> active_conns active)). by rewrite Ea, Ep.
    + intros q Hq. assert (Hq' : Some q ∉ ev_ptr e :: (ev_ptr <$> conn_events ready)) by exact Hq.
      rewrite Ep, not_elem_of_cons in Hq'. destruct Hq' as [Hne Hq'].
      eapply left_open_trans; [apply Hl1; congruence | by apply Hl].
  - apply (Hsimple (ActiveAcceptor evs)); try done. intros w' _. exact Hhere.
  - apply (Hsimple (ActiveTimer evs)); try done. intros w' _. exact Hhere.
  - apply (Hsimple (ActiveWakeup evs)); try done. intros w' _. exact Hhere.
Qed.

Lemma OnPeerConnect_ok time a w :
  plain_ok w ->
  let i := accepting w in
  exists a' w', OnPeerConnect callback (in_accept i) (in_again i) (in_reopened i) (in_ptr i) time a w = Ret (a', w')
    /\ plain_ok w' /\ forall q, left_open q w w'.
Proof.
  intros [Hw Hp]. cbv zeta. destruct (in_accept (accepting w)) as [fd peer|emfile] eqn:E.
  - pose proof (le_accepting Henv w fd peer Hw E) as Hf.
    destruct (OnPeerConnect_spec callback a (in_ptr (accepting w)) fd (in_again (accepting w))
      (in_reopened (accepting w)) peer time w Hw Hf (le_connected Henv)) as (w' & -> & Hw' & Henc & _ & Hall & _).
    exists a, w'. split; [done|]. split; [split; [done | congruence] | done].
  - unfold OnPeerConnect. destruct emfile; eexists _, _; (split; [done|]); (split; [split|]; try done);
      try (by apply wf_emit, wf_emit); intros q c Hc; by exists c.
Qed.

(** One channel: a connection may only close itself, the others close nothing; the
    timer queue starts to handle its timeout. *)
Lemma handle_channel_ok ch time active s :
  loop_inv [] s -> can_handle (tcp_conns s) ch -> 0 <= wakeups s ->
  exists s', handle_channel sys callback accepting ch time active s = Ret s' /\ loop_inv [] s'
    /\ (forall q, ch <> ActiveConn q -> left_open q (tcp_conns s) (tcp_conns s'))
    /\ stop_loop s' = stop_loop s /\ 0 <= wakeups s'
    /\ (loop_pc s' = loop_pc s \/ loop_pc s' = InTimeout TTest time active).
Proof.
  intros Hs Hch Hwk. pose proof (loop_inv_conns [] s Hs) as [Hw Hp].
  assert (Hsame : exists s', Ret s = Ret s' /\ loop_inv [] s'
    /\ (forall q, ch <> ActiveConn q -> left_open q (tcp_conns s) (tcp_conns s')) /\ stop_loop s' = stop_loop s /\ 0 <= wakeups s'
    /\ (loop_pc s' = loop_pc s \/ loop_pc s' = InTimeout TTest time active)).
  { exists s. split_and!; auto. intros q _. apply left_open_refl. }
  destruct ch as [p|evs|evs|evs]; cbn [handle_channel can_handle] in *.
  - destruct Hch as (c & Hc & Hn).
    destruct (run_call_ok sys callback (le_kernel Henv) (le_disconnected Henv) (le_received Henv) p
      (EventTriggered time) (tcp_conns s) Hw) as (w' & E & Hstep); [by exists c | done | by intros c' Hc'; simplify_eq |].
    cbn [run_call] in E. rewrite E. mrun. eexists. split; [done|]. split; [|split; [|by auto]].
    + apply loop_inv_set; [done|]. split; [apply Hstep | by rewrite (so_encrypted _ _ _ Hstep)].
    + intros q Hq. apply (so_others _ _ _ Hstep). congruence.
  - rewrite HandleEvent_cases by done. unfold readable_only. cbn [OnPeerClose OnReadable OnWritable OnError].
    repeat case_match; cbn [call_if]; try exact Hsame.
    destruct (OnPeerConnect_ok time (acceptor s) (tcp_conns s) (conj Hw Hp)) as (a' & w' & E & Hw' & Hl).
    cbv zeta in E. rewrite E. mrun. eexists. split; [done|]. split; [exact (loop_inv_set [] w' s Hs Hw')|]. by auto.
  - rewrite HandleEvent_cases by done. unfold readable_only. cbn [OnPeerClose OnReadable OnWritable OnError].
    repeat case_match; cbn [call_if]; try exact Hsame. eexists. split; [done|]. split; [exact Hs|].
    split; [intros q _; apply left_open_refl|]. by auto.
  - rewrite HandleEvent_cases by done. unfold readable_only. cbn [OnPeerClose OnReadable OnWritable OnError].
    repeat case_match; cbn [call_if]; try exact Hsame. eexists. split; [done|]. split; [exact Hs|].
    split; [intros q _; apply left_open_refl|]. cbn. by auto with lia.
Qed.

(** ** Runs of a worker *)

Abbreviation exec := (loop_exec sys callback accepting clock run_task run_stop).

(** A step of the timer queue closes no connection whose event is still to be
    handled in this turn: the condition on timer tasks. *)
Definition spares_pending s : Prop :=
  match loop_pc s with
  | InTimeout pc time active =>
      forall pc' q, timeout_step clock run_task run_stop pc (timer_queue s) = Ret (pc', q) ->
        forall p, p ∈ active_conns active -> left_open p (tcp_conns s) (env q)
  | _ => True
  end.

(** What the environment may do in a state. *)
Definition action_ok (a : loop_action) s : Prop :=
  match a with
  | ActPolled ready _ => ready_ok ready (tcp_conns s)
  | ActStep => spares_pending s
  | ActAddTimer when _ => - 2 ^ 62 <= when < 2 ^ 63
  | ActAddTimerRepeat us _ _ | ActAddTimerUntil us _ _ => - 2 ^ 62 <= us < 2 ^ 62
  | _ => True
  end.

Inductive loop_step : IOWorker Any Q -> IOWorker Any Q -> Prop :=
| loop_action_step a s s' : action_ok a s -> exec a s = Some (Ret s') -> loop_step s s'.

Record wf_loop s : Prop := {
  wl_inv : loop_inv (timers_held (loop_pc s)) s;
  wl_pending : Forall (can_handle (tcp_conns s)) (pending (loop_pc s));
  wl_once : NoDup (active_conns (pending (loop_pc s)));
  wl_wakeups : 0 <= wakeups s;
  (* a stopped worker is not left asleep *)
  wl_woken : stop_loop s = true -> loop_pc s = InPoll -> 0 < wakeups s;
  wl_left : loop_pc s = AtClose \/ loop_pc s = AtDrain \/ loop_pc s = Exited -> stop_loop s = true;
  wl_exited : loop_pc s = Exited -> conn_set (tcp_conns s) = ∅;
}.

Lemma wf_IOWorker_init reserved addr : wf_loop (IOWorker_init reserved addr false).
Proof.
  split; cbn; try done; [|constructor|naive_solver]. unfold loop_inv. cbn.
  split; cbn; try done; try (intros *; rewrite lookup_empty; done).
  - unfold waiting_ptrs. cbn. rewrite q_elems_empty. constructor.
  - by intros p ?%not_elem_of_nil.
  - rewrite q_elems_empty. by intros e ?%not_elem_of_nil.
Qed.

Lemma wf_Stop s : wf_loop s -> wf_loop (Stop s).
Proof. intros []. split; try done; cbn; try (case_match; lia). Qed.

(** Other threads on the timer queue do not touch the connections. *)
Lemma wf_on_timers q s :
  wf_loop s -> wf_timers plain_ok (timers_held (loop_pc s)) q -> env q = tcp_conns s -> wf_loop (set_timer_queue q s).
Proof. intros [] Hq E. split; unfold tcp_conns, loop_inv; cbn; rewrite ?E; done. Qed.

Lemma on_timers_ok {R} (r : outcome (R * TimerQueue Q (Worker Any))) s :
  wf_loop s ->
  (forall ok, wf_timers ok (timers_held (loop_pc s)) (timer_queue s) -> exists x q, r = Ret (x, q) /\ wf_timers ok (timers_held (loop_pc s)) q) ->
  exists s', on_timers r s = Some (Ret s') /\ wf_loop s'.
Proof.
  intros Hs Hr. unfold on_timers. pose proof (wl_inv s Hs) as Hinv.
  destruct (Hr (fun w => plain_ok w /\ w = tcp_conns s)) as (x & q & -> & Hq).
  { eapply wf_timers_env; [exact Hinv|]. split; [by eapply loop_inv_conns | done]. }
  mrun. eexists. split; [done|]. pose proof (wt_env _ _ _ Hq) as [Hc E].
  apply wf_on_timers; [done| |done]. by apply (wf_timers_env _ _ _ _ Hq).
Qed.

Lemma close_all_ok s :
  wf_loop s ->
  close_all sys callback (tcp_conns s) = if ConnSet_Empty (tcp_conns s) then Ret (tcp_conns s) else Throw UndefinedBehaviour.
Proof.
  intros Hs. apply close_all_spec; [apply (le_disconnected Henv)|].
  by destruct (loop_inv_conns _ s (wl_inv s Hs)).
Qed.

Lemma pending_goes_on time active : pending (goes_on time active) = active.
Proof. by destruct active. Qed.
Lemma held_goes_on time active : timers_held (goes_on time active) = [].
Proof. by destruct active. Qed.
Lemma goes_on_turn time active : goes_on time active = AtTest \/ goes_on time active = Handling time active.
Proof. destruct active; auto. Qed.

(** In the middle of a turn, or at its end. *)
Lemma wf_turn time active s :
  loop_pc s = goes_on time active \/ (exists tp, loop_pc s = InTimeout tp time active) ->
  loop_inv (timers_held (loop_pc s)) s -> Forall (can_handle (tcp_conns s)) active -> NoDup (active_conns active) ->
  0 <= wakeups s -> wf_loop s.
Proof.
  intros Hpc Hinv Ha Hnd Hw.
  assert (Hpend : pending (loop_pc s) = active) by (destruct Hpc as [->|[tp ->]]; [apply pending_goes_on | done]).
  assert (Hne : loop_pc s <> InPoll /\ loop_pc s <> AtClose /\ loop_pc s <> AtDrain /\ loop_pc s <> Exited).
  { destruct Hpc as [->|[tp ->]]; [destruct (goes_on_turn time active) as [-> | ->]; done | done]. }
  split; rewrite ?Hpend; try done; tauto.
Qed.

Lemma polled_ok ready time s :
  wf_loop s -> loop_pc s = InPoll -> ready_ok ready (tcp_conns s) ->
  exists active w', Poll ready (tcp_conns s) = Ret (active, w')
    /\ wf_loop (set_loop_pc (goes_on time active) (set_tcp_conns w' s)).
Proof.
  intros Hs Hpc [_ Hnd Hreg Hrep]. pose proof (loop_inv_conns _ s (wl_inv s Hs)) as Hw.
  destruct (Poll_ok ready (tcp_conns s) Hw Hnd Hrep) as (active & w' & E & Hw' & Ha & Ea & _).
  { intros e He. destruct (Hreg e He) as (p & c & evt & Hp & Ht & Ee). exists p. split; [|by exists c].
    rewrite Ee. by apply (registered_ptr p c (tcp_conns s) evt (proj1 Hw)). }
  exists active, w'. split; [done|]. apply (wf_turn time active); try done.
  - by left.
  - cbn. rewrite held_goes_on. apply loop_inv_set; [|done]. pose proof (wl_inv s Hs) as Hinv. by rewrite Hpc in Hinv.
  - rewrite Ea in Hnd. by apply NoDup_fmap_1 in Hnd.
  - apply (wl_wakeups s Hs).
Qed.

Lemma handling_ok ch time active s :
  wf_loop s -> loop_pc s = Handling time (ch :: active) ->
  exists s', handle_channel sys callback accepting ch time active (set_loop_pc (goes_on time active) s) = Ret s'
    /\ wf_loop s' /\ stop_loop s' = stop_loop s
    /\ (loop_pc s' = goes_on time active \/ loop_pc s' = InTimeout TTest time active).
Proof.
  intros Hs Hpc. pose proof (wl_inv s Hs) as Hinv. pose proof (wl_pending s Hs) as Ha. pose proof (wl_once s Hs) as Hnd.
  rewrite Hpc in Hinv, Ha, Hnd. apply Forall_cons in Ha as [Hch Ha].
  destruct (handle_channel_ok ch time active (set_loop_pc (goes_on time active) s) Hinv Hch (wl_wakeups s Hs))
    as (s' & E & Hs' & Hl & Hst & Hwk & Hpc'). cbn in Hst, Hpc', Hl.
  exists s'. split; [done|]. split; [|done]. apply (wf_turn time active).
  - destruct Hpc' as [->|]; [by left | right; by eexists].
  - destruct Hpc' as [->| ->]; [by rewrite held_goes_on | done].
  - apply (can_handle_all active (tcp_conns s)); [|done]. intros q Hq. apply Hl. intros ->.
    change (active_conns (ActiveConn q :: active)) with (q :: active_conns active) in Hnd. by apply NoDup_cons in Hnd as [? _].
  - destruct ch; [by apply NoDup_cons in Hnd as [_ ?] | exact Hnd..].
  - done.
Qed.

Lemma in_timeout_ok pc time active s :
  wf_loop s -> loop_pc s = InTimeout pc time active -> spares_pending s ->
  exists pc' q, timeout_step clock run_task run_stop pc (timer_queue s) = Ret (pc', q)
    /\ wf_loop (set_loop_pc (match pc' with Some pc => InTimeout pc time active | None => goes_on time active end) (set_timer_queue q s)).
Proof.
  intros Hs Hpc Hsp. pose proof (wl_inv s Hs) as Hinv. pose proof (wl_pending s Hs) as Ha. pose proof (wl_once s Hs) as Hnd.
  rewrite Hpc in Hinv, Ha, Hnd. unfold spares_pending in Hsp. rewrite Hpc in Hsp.
  destruct (timeout_step_ok plain_ok clock (le_clock Henv) run_task run_stop (le_tasks Henv) pc (timer_queue s) Hinv) as (pc' & q & E & Hq).
  exists pc', q. split; [done|]. apply (wf_turn time active).
  - cbn. destruct pc'; [right; by eexists | by left].
  - cbn. destruct pc'; [exact Hq | rewrite held_goes_on; exact Hq].
  - apply (can_handle_all active (tcp_conns s)); [|done]. by apply (Hsp pc' q).
  - done.
  - apply (wl_wakeups s Hs).
Qed.

(** Every action that can happen is carried out, but closing connections. *)
Lemma loop_exec_ok a s :
  wf_loop s -> action_ok a s ->
  match exec a s with
  | Some (Ret s') => wf_loop s'
  | Some (Throw _) => a = ActStep /\ loop_pc s = AtClose /\ conn_set (tcp_conns s) <> ∅
  | None => True
  end.
Proof.
  intros Hs Ha. destruct a as [ready time| | |when f|us n f|us until f|id|n]; cbn [loop_exec].
  - destruct (decide (loop_pc s = InPoll)) as [Hpc|]; [|done].
    destruct (polled_ok ready time s Hs Hpc Ha) as (active & w' & -> & Hw'). by mrun.
  - unfold loop_step_pc. destruct (loop_pc s) as [| |time [|ch active]|pc time active| | |] eqn:Hpc; try done.
    + destruct Hs. rewrite Hpc in *. destruct (stop_loop s) eqn:Est; split; cbn; try done; try (intros; congruence); naive_solver.
    + apply (wf_turn time []); [by left|..]; destruct Hs; rewrite Hpc in *; done.
    + by destruct (handling_ok ch time active s Hs Hpc) as (s' & -> & ? & _).
    + destruct (in_timeout_ok pc time active s Hs Hpc Ha) as (pc' & q & -> & ?). by mrun.
    + rewrite close_all_ok by done. unfold ConnSet_Empty. case_bool_decide as Hc; mrun; [|done].
      destruct Hs. rewrite Hpc in *. split; try done; [exact (loop_inv_set _ _ s wl_inv0 (loop_inv_conns _ s wl_inv0))|].
      cbn. intros _. apply wl_left0. by left.
    + destruct Hs. rewrite Hpc in *. unfold ConnSet_Empty. case_bool_decide as Hc; split; cbn; try done; intros _; apply wl_left0; auto.
  - by apply wf_Stop.
  - destruct (on_timers_ok (AddTimer clock when f (timer_queue s)) s Hs) as (s' & -> & ?); [|done].
    intros ok Hq. by apply AddTimer_ok; [apply (le_clock Henv)|..].
  - destruct (on_timers_ok (AddTimerRepeat clock us n f (timer_queue s)) s Hs) as (s' & -> & ?); [|done].
    intros ok Hq. by apply AddTimerRepeat_ok; [apply (le_clock Henv)|..].
  - destruct (on_timers_ok (AddTimerUntil clock us until f (timer_queue s)) s Hs) as (s' & -> & ?); [|done].
    intros ok Hq. by apply AddTimerUntil_ok; [apply (le_clock Henv)|..].
  - destruct (on_timers_ok (CancelTimer id (timer_queue s)) s Hs) as (s' & -> & ?); [|done].
    intros ok Hq. by apply CancelTimer_ok.
  - destruct (Z.leb_spec (next_timer_id (timer_queue s)) n); [|done].
    apply wf_on_timers; [done| |done]. by apply wf_set_next; [apply (wl_inv s Hs)|].
Qed.

(** Only [Stop] sets the flag, nothing resets it, and an exited loop stays so. *)
Lemma handle_channel_control ch time active s s' :
  handle_channel sys callback accepting ch time active s = Ret s' ->
  stop_loop s' = stop_loop s /\ listen_addr (acceptor s') = listen_addr (acceptor s)
  /\ next_timer_id (timer_queue s') = next_timer_id (timer_queue s).
Proof.
  assert (Hev : forall f evs, (forall s1 s2, f time s1 = Ret s2 -> stop_loop s2 = stop_loop s1
      /\ listen_addr (acceptor s2) = listen_addr (acceptor s1) /\ next_timer_id (timer_queue s2) = next_timer_id (timer_queue s1)) ->
    HandleEvent (log_debug sys) (readable_only f) evs time s = Ret s' -> stop_loop s' = stop_loop s
      /\ listen_addr (acceptor s') = listen_addr (acceptor s) /\ next_timer_id (timer_queue s') = next_timer_id (timer_queue s)).
  { intros f evs Hf. unfold HandleEvent, readable_only. cbn [OnPeerClose OnReadable OnWritable OnError call_if].
    destruct (if log_debug sys then _ else _); mrun; [|done]. repeat case_match; try (by intros [= <-]). by apply Hf. }
  destruct ch as [p|evs|evs|evs]; cbn [handle_channel].
  - destruct (handle_event _ _ _ _ _); mrun; [|done]. by intros [= <-].
  - apply Hev. intros s1 s2. unfold OnPeerConnect. cbv zeta.
    destruct (in_accept _) as [fd peer|[]]; mrun; [|by intros [= <-]..].
    destruct (call_user _ _ _ _ _); mrun; [|done]. destruct (InitSsl _ _); mrun; [|done]. by intros [= <-].
  - apply Hev. by intros s1 s2 [= <-].
  - apply Hev. by intros s1 s2 [= <-].
Qed.

Lemma loop_exec_control a s s' :
  exec a s = Some (Ret s') ->
  (a <> ActStop -> stop_loop s' = stop_loop s) /\ (loop_pc s = Exited -> loop_pc s' = Exited)
  /\ listen_addr (acceptor s') = listen_addr (acceptor s).
Proof.
  intros E. destruct a as [ready time| | |when f|us n f|us until f|id|n]; cbn [loop_exec] in E.
  4-7: unfold on_timers in E; match type of E with context [mbind _ ?r] => destruct r as [[x q]|] end;
    mrun_in E; [|done]; by injection E as <-.
  - destruct (decide (loop_pc s = InPoll)) as [Hpc|]; [|done].
    destruct (Poll ready (tcp_conns s)) as [[active w]|]; mrun_in E; [|done]. injection E as <-. split_and!; try done. congruence.
  - unfold loop_step_pc in E. destruct (loop_pc s) as [| |time [|ch active]|pc time active| | |] eqn:Hpc; try done.
    + by injection E as <-.
    + by injection E as <-.
    + injection E as E. apply handle_channel_control in E as (? & ? & _). by split_and!.
    + destruct (timeout_step _ _ _ _ _) as [[pc' q]|]; mrun_in E; [|done]. by injection E as <-.
    + destruct (close_all _ _ _); revert E; mrun; [|done]. by intros [= <-].
    + by injection E as <-.
  - by injection E as <-.
  - destruct (_ <=? n); [|done]. by injection E as <-.
Qed.

(** The counter of the ids does not go back. *)
Lemma loop_exec_ids a s s' :
  user_ids_grow run_task run_stop -> exec a s = Some (Ret s') -> next_timer_id (timer_queue s) <= next_timer_id (timer_queue s').
Proof.
  intros Hids E. destruct a as [ready time| | |when f|us n f|us until f|id|n]; cbn [loop_exec] in E.
  4-7: unfold on_timers in E; match type of E with context [mbind _ ?r] => destruct r as [[x q]|] eqn:Eq end;
    mrun_in E; [|done]; injection E as <-.
  - destruct (decide (loop_pc s = InPoll)) as [Hpc|]; [|done].
    destruct (Poll ready (tcp_conns s)) as [[active w]|]; mrun_in E; [|done]. by injection E as <-.
  - unfold loop_step_pc in E. destruct (loop_pc s) as [| |time [|ch active]|pc time active| | |] eqn:Hpc; try done.
    + by injection E as <-.
    + by injection E as <-.
    + injection E as E. apply handle_channel_control in E as (_ & _ & ->). done.
    + destruct (timeout_step _ _ _ _ _) as [[pc' q]|] eqn:Eq; mrun_in E; [|done]. injection E as <-.
      by apply timeout_step_ids in Eq.
    + destruct (close_all _ _ _); revert E; mrun; [|done]. by intros [= <-].
    + by injection E as <-.
  - by injection E as <-.
  - by apply AddTimer_ids in Eq.
  - by apply AddTimerRepeat_ids in Eq.
  - by apply AddTimerUntil_ids in Eq.
  - by apply CancelTimer_ids in Eq.
  - destruct (Z.leb_spec (next_timer_id (timer_queue s)) n); [|done]. by injection E as <-.
Qed.

Lemma reachable_loop reserved addr s : rtc loop_step (IOWorker_init reserved addr false) s -> wf_loop s.
Proof.
  intros Hsteps. pose proof (wf_IOWorker_init reserved addr) as Hs.
  induction Hsteps as [s|s s1 s2 Hstep _ IH]; [done|]. apply IH. destruct Hstep as [a s s1 Ha E].
  pose proof (loop_exec_ok a s Hs Ha) as Hok. by rewrite E in Hok.
Qed.

(** C11: a worker without TLS is memory safe.  In every state that its event loop
    reaches, one channel or one step of [OnTimeout] at a time, with the actions of
    other threads anywhere between these steps - clients connecting, any events on
    any connections, timers firing, timers added and cancelled, a stop - the
    invariant holds and no action is a fault: every channel that is handled is
    alive when its turn comes.  It relies on user functions that return and keep
    their contracts ([loop_env_ok]), and on timer tasks that close no connection
    whose event of the same turn is still to be handled ([spares_pending];
    [timer_close_use_after_free] is what happens otherwise).  The only fault left is
    closing the connections that are still open when the loop has been left. *)
Theorem worker_safe (reserved : Z) (addr : InetAddress) s :
  rtc loop_step (IOWorker_init reserved addr false) s ->
  wf_loop s
  /\ forall a f, action_ok a s -> exec a s = Some (Throw f) ->
       a = ActStep /\ loop_pc s = AtClose /\ conn_set (tcp_conns s) <> ∅.
Proof.
  intros Hs%reachable_loop. split; [done|]. intros a f Ha E.
  pose proof (loop_exec_ok a s Hs Ha) as Hok. by rewrite E in Hok.
Qed.

(** How far a thread is from its end once it is stopped: the part of [Loop] it is
    in, the channels left to handle, the part of [OnTimeout], and the timers left. *)
Definition loop_part (pc : LoopPc) : nat :=
  match pc with InPoll => 5 | Handling _ _ | InTimeout _ _ _ => 4 | AtTest => 3 | AtClose => 2 | AtDrain => 1 | Exited => 0 end.
Definition timeout_part (pc : LoopPc) : nat :=
  match pc with
  | InTimeout TTest _ _ => 5 | InTimeout TPop _ _ => 4 | InTimeout (TNext _) _ _ => 3 | InTimeout (TArm _ _) _ _ => 2
  | InTimeout _ _ _ => 1 | _ => 0
  end.
Definition timers_left (pc : LoopPc) : nat :=
  match pc with
  | InTimeout (THandle F) _ _ => 3 * length F
  | InTimeout (TTask _ F) _ _ => 3 * length F + 2
  | InTimeout (TRepeat _ F) _ _ => 3 * length F + 1
  | _ => 0
  end.
Definition stop_measure (pc : LoopPc) : nat * nat * nat * nat :=
  (loop_part pc, length (pending pc), timeout_part pc, timers_left pc).

(** The four numbers from left to right. *)
Definition closer : relation LoopPc := fun pc' pc =>
  slexprod _ _ (slexprod _ _ (slexprod _ _ lt lt) lt) lt (stop_measure pc') (stop_measure pc).

Lemma closer_wf : well_founded closer.
Proof. unfold closer. apply wf_inverse_image. repeat apply wf_slexprod; apply lt_wf. Qed.

Lemma closer_part pc' pc : (loop_part pc' < loop_part pc)%nat -> closer pc' pc.
Proof. intros. do 3 apply left_slex. done. Qed.
Lemma closer_pending pc' pc :
  loop_part pc' = loop_part pc -> (length (pending pc') < length (pending pc))%nat -> closer pc' pc.
Proof. intros E Hlt. unfold closer, stop_measure. rewrite E. do 2 apply left_slex. by apply right_slex. Qed.
Lemma closer_timeout pc' pc time active :
  (timeout_part (InTimeout pc' time active) < timeout_part (InTimeout pc time active))%nat ->
  closer (InTimeout pc' time active) (InTimeout pc time active).
Proof. intros. apply left_slex. by apply right_slex. Qed.
Lemma closer_timers pc' pc time active :
  timeout_part (InTimeout pc' time active) = timeout_part (InTimeout pc time active) ->
  (timers_left (InTimeout pc' time active) < timers_left (InTimeout pc time active))%nat ->
  closer (InTimeout pc' time active) (InTimeout pc time active).
Proof. intros E Hlt. unfold closer, stop_measure. rewrite E. by apply right_slex. Qed.

Lemma closer_goes_on time active pc :
  loop_part pc = 4%nat -> (length active < length (pending pc))%nat -> closer (goes_on time active) pc.
Proof.
  intros Hp Hl. destruct (goes_on_turn time active) as [-> | ->].
  - apply closer_part. rewrite Hp. cbn. lia.
  - apply closer_pending; done.
Qed.

(** [OnTimeout] comes to its end, whatever it pops. *)
Lemma timeout_closer pc (s : TimerQueue Q (Worker Any)) pc' (s' : TimerQueue Q (Worker Any)) :
  timeout_step clock run_task run_stop pc s = Ret (Some pc', s') -> forall time active,
  closer (InTimeout pc' time active) (InTimeout pc time active).
Proof.
  intros E time active. destruct pc as [| |F|F z|[|p F]|p F|p F]; cbn [timeout_step] in E.
  - injection E as <- _. destruct (waiting_empty s); apply closer_timeout; cbn; lia.
  - destruct (pop_expired _ _) as [[F s1]|]; mrun_in E; [|done]. injection E as <- _. apply closer_timeout. cbn. lia.
  - destruct (GetNextTimeout _ _) as [[z s1]|]; mrun_in E; [|done]. injection E as <- _.
    destruct (z =? -1); apply closer_timeout; cbn; lia.
  - injection E as <- _. apply closer_timeout. cbn. lia.
  - done.
  - destruct (check_timer _ _ _) as [[go_on s1]|]; mrun_in E; [|done]. injection E as <- _.
    destruct go_on; apply closer_timers; cbn; lia.
  - destruct (execute_task _ _ _) as [s1|]; mrun_in E; [|done]. injection E as <- _. apply closer_timers; cbn; lia.
  - destruct (repeat_timer _ _ _) as [s1|]; mrun_in E; [|done]. injection E as <- _. apply closer_timers; cbn; lia.
Qed.

(** The actions of the thread itself. *)
Definition own_action (a : loop_action) : Prop :=
  match a with ActPolled _ _ | ActStep => True | _ => False end.

Lemma own_action_closer a s s' :
  wf_loop s -> stop_loop s = true -> own_action a -> action_ok a s -> exec a s = Some (Ret s') ->
  stop_loop s' = true
  /\ (closer (loop_pc s') (loop_pc s)
      \/ loop_pc s = AtDrain /\ conn_set (tcp_conns s) <> ∅ /\ loop_pc s' = AtDrain).
Proof.
  intros Hs Hstop Ho Ha E. destruct (loop_exec_control a s s' E) as (Hst & _). split.
  { rewrite Hst, Hstop; [done|]. by destruct a. }
  destruct a; try done; cbn [loop_exec] in E.
  - destruct (decide (loop_pc s = InPoll)) as [Hpc|]; [|done].
    destruct (Poll ready (tcp_conns s)) as [[active w]|]; mrun_in E; [|done]. injection E as <-. left. rewrite Hpc.
    apply closer_part. cbn. destruct (goes_on_turn time active) as [-> | ->]; cbn; lia.
  - unfold loop_step_pc in E. destruct (loop_pc s) as [| |time [|ch active]|pc time active| | |] eqn:Hpc; try done.
    + injection E as <-. left. rewrite Hstop. apply closer_part. cbn. lia.
    + injection E as <-. left. apply closer_part. cbn. lia.
    + destruct (handling_ok ch time active s Hs Hpc) as (s1 & E1 & _ & _ & Hpc'). rewrite E1 in E. injection E as <-. left.
      destruct Hpc' as [-> | ->]; [apply closer_goes_on; cbn; lia | apply closer_pending; cbn; lia].
    + destruct (timeout_step clock run_task run_stop pc (timer_queue s)) as [[pc' q]|] eqn:Et; mrun_in E; [|done].
      injection E as <-. left. cbn [loop_pc set_loop_pc]. destruct pc' as [pc'|]; [by apply (timeout_closer pc (timer_queue s) pc' q)|].
      destruct (goes_on_turn time active) as [-> | ->]; [apply closer_part; cbn; lia|].
      destruct pc as [| |F|F z|[|p F]|p F|p F]; cbn [timeout_step] in Et; try done;
        try (destruct (pop_expired _ _) as [[? ?]|]; mrun_in Et; done); try (destruct (GetNextTimeout _ _) as [[? ?]|]; mrun_in Et; done);
        try (destruct (check_timer _ _ _) as [[? ?]|]; mrun_in Et; done); try (destruct (execute_task _ _ _); mrun_in Et; done);
        try (destruct (repeat_timer _ _ _); mrun_in Et; done).
      apply left_slex. apply right_slex. cbn. lia.
    + rewrite close_all_ok in E by done. destruct (ConnSet_Empty (tcp_conns s)); revert E; mrun; [|done].
      intros [= <-]. left. apply closer_part. cbn. lia.
    + injection E as <-. unfold ConnSet_Empty. case_bool_decide as Hc; [left; apply closer_part; cbn; lia | by right].
Qed.

(** [Stop] ends the loop.  A stopped worker is never left asleep in [Poll], for
    its wake-up descriptor is readable; each action of its thread brings it
    closer to its end, whatever is polled and whatever timers are popped, except
    that the last wait lasts while a connection is left; and the order is
    well-founded. *)
Theorem worker_stops (reserved : Z) (addr : InetAddress) s :
  rtc loop_step (IOWorker_init reserved addr false) s -> stop_loop s = true ->
  well_founded closer
  /\ (loop_pc s = InPoll -> 0 < wakeups s)
  /\ (forall a s', own_action a -> action_ok a s -> exec a s = Some (Ret s') ->
       stop_loop s' = true
       /\ (closer (loop_pc s') (loop_pc s)
           \/ loop_pc s = AtDrain /\ conn_set (tcp_conns s) <> ∅ /\ loop_pc s' = AtDrain))
  /\ (loop_pc s <> Exited -> loop_pc s <> InPoll -> exists r, exec ActStep s = Some r).
Proof.
  intros Hs%reachable_loop Hstop. split_and!;
    [exact closer_wf | by apply wl_woken | intros a s'; by apply own_action_closer |].
  intros Hx Hp. cbn [loop_exec]. unfold loop_step_pc. destruct (loop_pc s) as [| |? []|? ? ?| | |]; try done; by eexists.
Qed.
End safety.

(** ** A worker at work *)

Section examples.
Abbreviation TestWorker := (IOWorker unit (list_queue TimerCmp)).
Abbreviation TestTimers := (TimerQueue (list_queue TimerCmp) (Worker unit)).

(** Unused addresses and descriptors. *)
Definition next_client (w : Worker unit) : incoming :=
  let fds := (fun kv : ptr * TcpConn unit => fd_of kv.2) <$> map_to_list (heap w) in
  mkIncoming (Accepted (fresh (dom (epoll w) ∪ list_to_set fds : gset Z)) InetAddress_zero) 0 0 (fresh (dom (heap w))).

(** The task [f] greets the connection at the address [f]. *)
Definition greet (f : nat) (s : TestTimers) : outcome TestTimers :=
  let p : ptr := Z.of_nat f in
  match heap (env s) !! p with
  | Some _ => w ← Send p (bytes "hello") (env s); Ret (set_env w s)
  | None => Ret s
  end.
Definition never_stop (f : nat) (s : TestTimers) : outcome (bool * TestTimers) := Ret (false, s).

Lemma greet_ok : user_timers_ok plain_ok greet never_stop.
Proof.
  split; [|by intros f F s Hs; exists false, s]. intros f F s Hs. unfold greet.
  destruct (heap (env s) !! (Z.of_nat f : ptr)) as [c|] eqn:Hp; [|by exists s].
  pose proof (wt_env _ _ _ Hs) as [Hw Henc].
  assert (Hsend : exists w', Send (Z.of_nat f) (bytes "hello") (env s) = Ret w' /\ step_ok (Z.of_nat f) (env s) w').
  { destruct (decide (conn_state c = kConnected)) as [E|E].
    - destruct (Send_open (Z.of_nat f) c (env s) (bytes "hello") Hw Hp E) as (c' & t' & -> & Hst & _). by eexists.
    - rewrite (Send_closed _ c) by done. exists (env s). split; [done | by apply step_refl]. }
  destruct Hsend as (w' & -> & Hst). mrun. eexists. split; [done|].
  eapply wf_set_env; [exact Hs|]. split; [apply Hst | by rewrite (so_encrypted _ _ _ Hst)].
Qed.

Lemma greet_ids : user_ids_grow greet never_stop.
Proof.
  split; [|by intros f s b s' [= _ <-]]. intros f s s'. unfold greet. destruct (heap (env s) !! _); [|by intros [= <-]].
  destruct (Send _ _ _); mrun; [|done]. by intros [= <-].
Qed.

Lemma next_client_ok : accepting_ok next_client.
Proof.
  intros w fd peer Hw [= <- <-]. set (fds := _ <$> map_to_list _). unfold fresh_conn. cbn [in_ptr next_client].
  pose proof (is_fresh (dom (epoll w) ∪ list_to_set fds : gset Z)) as Hf. apply not_elem_of_union in Hf as [Hf1 Hf2].
  split_and!.
  - apply not_elem_of_dom, is_fresh.
  - by apply not_elem_of_dom.
  - intros q c Hq E. apply Hf2. rewrite <-E. apply elem_of_list_to_set, list_elem_of_fmap.
    exists (q, c). split; [done|]. by apply elem_of_map_to_list.
Qed.

(** The clock stands near 0 for two readings, and jumps to 5 s. *)
Definition visit_clock (n : nat) : DateTime := if (n <? 2)%nat then Z.of_nat n else 5000000.
Lemma visit_clock_range n : 0 <= visit_clock n < 2 ^ 62.
Proof. unfold visit_clock. case_test; lia. Qed.

Lemma test_env_ok d : loop_env_ok (test_kernel d 0) echo_callback next_client visit_clock greet never_stop.
Proof.
  split; [apply test_kernel_ok | apply next_client_ok | apply user_ok_none | apply user_ok_none | apply echo_ok
         | apply visit_clock_range | apply greet_ok].
Qed.

Definition test_exec (d : list byte) : loop_action -> TestWorker -> option (outcome TestWorker) :=
  loop_exec (test_kernel d 0) echo_callback next_client visit_clock greet never_stop.

(** The registrations a list of events names exist; decidable on a concrete state. *)
Definition registered (w : Worker unit) (e : epoll_event) : bool :=
  match ev_ptr e with
  | Some p => match heap w !! p with
              | Some c => match epoll w !! fd_of c with
                          | Some evt => bool_decide (ev_ptr evt = Some p)
                          | None => false
                          end
              | None => false
              end
  | None => false
  end.
Definition action_ok_b (a : loop_action) (s : TestWorker) : bool :=
  match a with
  | ActPolled ready _ =>
      (length ready <=? 4096)%nat && bool_decide (NoDup (ev_ptr <$> conn_events ready))
      && forallb (registered (tcp_conns s)) (conn_events ready) && forallb (fun e => bool_decide (reportable (reported e))) ready
  | ActStep => match loop_pc s with InTimeout _ _ active => is_empty (active_conns active) | _ => true end
  | ActAddTimer when _ => (- 2 ^ 62 <=? when) && (when <? 2 ^ 63)
  | ActAddTimerRepeat us _ _ | ActAddTimerUntil us _ _ => (- 2 ^ 62 <=? us) && (us <? 2 ^ 62)
  | _ => true
  end.

Lemma action_ok_b_spec clock run_task run_stop a s : action_ok_b a s = true -> action_ok clock run_task run_stop a s.
Proof.
  destruct a as [ready time| | | | | | |]; cbn [action_ok_b action_ok]; try done;
    rewrite ?andb_true_iff, ?Z.leb_le, ?Z.ltb_lt; try done.
  - intros [[[Hl Hn] Hf] Hrep]. apply Nat.leb_le in Hl. apply bool_decide_eq_true in Hn. split; [done..| |].
    + intros e He. rewrite forallb_forall in Hf. specialize (Hf e). rewrite <-list_elem_of_In in Hf. apply Hf in He.
      unfold registered in He. destruct (ev_ptr e) as [p|]; [|done]. destruct (heap _ !! p) as [c|] eqn:Hp; [|done].
      destruct (epoll _ !! fd_of c) as [evt|] eqn:Ht; [|done]. apply bool_decide_eq_true in He. by exists p, c, evt.
    + intros e He. rewrite forallb_forall in Hrep. apply (bool_decide_unpack _). rewrite Hrep; [done|]. by apply list_elem_of_In.
  - unfold spares_pending. destruct (loop_pc s) as [| | |pc time active| | |]; try done. intros He pc' q _ p Hp.
    destruct (active_conns active); [|done]. by apply not_elem_of_nil in Hp.
Qed.

Fixpoint run_checked (d : list byte) (acts : list loop_action) (s : TestWorker) : option TestWorker :=
  match acts with
  | [] => Some s
  | a :: acts =>
      if action_ok_b a s then
        match test_exec d a s with Some (Ret s') => run_checked d acts s' | _ => None end
      else None
  end.

Lemma run_checked_steps d acts s s' :
  run_checked d acts s = Some s' ->
  rtc (loop_step (test_kernel d 0) echo_callback next_client visit_clock greet never_stop) s s'.
Proof.
  revert s. induction acts as [|a acts IH]; intros s E; cbn [run_checked] in E.
  - injection E as <-. constructor.
  - destruct (action_ok_b a s) eqn:Ha; [|done]. destruct (test_exec d a s) as [[s1|]|] eqn:E1; try done.
    eapply rtc_l; [|by apply IH]. by econstructor; [apply action_ok_b_spec|].
Qed.

(** A client connects and sends "ping", which is echoed; a timer is added, fires
    and greets the client, which reads it and leaves; then the worker is stopped.
    While [OnTimeout] is between its steps, another thread adds a timer. *)
Definition one_visit : list loop_action :=
  [ActStep; ActPolled [ReadyAcceptor EPOLLIN] 0; ActStep; ActStep; ActAddTimer 1000 (Some 0%nat);
   ActPolled [ReadyConn (mkEpollEvent EPOLLIN (Some 0))] 1; ActStep; ActStep;
   ActPolled [ReadyConn (mkEpollEvent EPOLLOUT (Some 0)); ReadyTimer EPOLLIN] 2; ActStep; ActStep]
  ++ [ActStep; ActStep; ActAddTimer 9000000 None] ++ replicate 6 ActStep
  ++ [ActStep; ActPolled [ReadyConn (mkEpollEvent EPOLLOUT (Some 0))] 3; ActStep; ActStep; ActStop;
   ActPolled [ReadyWakeup EPOLLIN; ReadyConn (mkEpollEvent EPOLLHUP (Some 0))] 4; ActStep; ActStep].

Definition visit_end : option TestWorker := run_checked (bytes "ping") one_visit (IOWorker_init 3 InetAddress_zero false).

Lemma visit_runs :
  (fun s => (loop_pc s, stop_loop s, bool_decide (conn_set (tcp_conns s) = ∅), ran (timer_queue s), trace (tcp_conns s)))
    <$> visit_end
  = Some (AtTest, true, true, [0%nat],
      [SysRead 0 (bytes "ping"); CallDataReceived 0; SysWrite 0 (bytes "ping"); SysWrite 0 (bytes "hello"); SysClose 0]).
Proof. vm_compute. reflexivity. Qed.

Abbreviation test_action_ok := (action_ok visit_clock greet never_stop).

Lemma worker_safe_witness :
  exists s, visit_end = Some s /\ wf_loop (test_kernel (bytes "ping") 0) s
    /\ forall a f, test_action_ok a s -> test_exec (bytes "ping") a s = Some (Throw f) ->
         a = ActStep /\ loop_pc s = AtClose /\ conn_set (tcp_conns s) <> ∅.
Proof.
  destruct visit_end as [s|] eqn:E; [|exfalso; by vm_compute in E]. exists s. split; [done|].
  exact (worker_safe _ _ _ _ _ _ (test_env_ok (bytes "ping")) 3 InetAddress_zero s (run_checked_steps _ _ _ _ E)).
Defined.

Lemma worker_stops_witness :
  exists s, visit_end = Some s /\ stop_loop s = true /\ exists r, test_exec (bytes "ping") ActStep s = Some r.
Proof.
  pose proof visit_runs as Hr. destruct visit_end as [s|] eqn:E; [|exfalso; by vm_compute in E].
  injection Hr as Hpc Hst _ _ _. exists s. split; [done|]. split; [done|].
  destruct (worker_stops _ _ _ _ _ _ (test_env_ok (bytes "ping")) 3 InetAddress_zero s (run_checked_steps _ _ _ _ E) Hst) as (_ & _ & _ & Hn).
  apply Hn; congruence.
Defined.

(** A timer task that closes a connection whose event was reported in the same
    turn: the timer sits before it in [active_channels]. *)
Definition close_task (f : nat) (s : TestTimers) : outcome TestTimers :=
  w ← ForceClose (test_kernel [] 0) echo_callback (Z.of_nat f) (env s);
  Ret (set_env w s).

Fixpoint run_loop (exec : loop_action -> TestWorker -> option (outcome TestWorker)) (acts : list loop_action) (s : TestWorker)
    : option (outcome TestWorker) :=
  match acts with
  | [] => Some (Ret s)
  | a :: acts => match exec a s with Some (Ret s) => run_loop exec acts s | r => r end
  end.

Lemma timer_close_use_after_free :
  exists s : TestWorker, run_checked [] (take 5 one_visit) (IOWorker_init 3 InetAddress_zero false) = Some s
    /\ run_loop (loop_exec (test_kernel [] 0) echo_callback next_client visit_clock close_task never_stop)
         (ActPolled [ReadyTimer EPOLLIN; ReadyConn (mkEpollEvent EPOLLIN (Some 0))] 1 :: replicate 9 ActStep) s
       = Some (Throw UndefinedBehaviour).
Proof.
  destruct (run_checked _ (take 5 _) _) as [s|] eqn:E; [|exfalso; by vm_compute in E]. exists s.
  vm_compute in E. injection E as <-. split; [done|]. vm_compute. reflexivity.
Qed.

(** A data race: the test for emptiness in [PopExpiredTimers] reads the queue
    without the lock.  In a state the worker reaches, its thread is about to make
    that test, and another thread can push a timer at the same time. *)
Lemma timer_test_races :
  exists s : TestWorker, run_checked (bytes "ping") (take 11 one_visit) (IOWorker_init 3 InetAddress_zero false) = Some s
    /\ loop_pc s = InTimeout TTest 2 [] /\ is_Some (test_exec (bytes "ping") ActStep s)
    /\ exists s', test_exec (bytes "ping") (ActAddTimer 9000000 None) s = Some (Ret s') /\ GetTimerNums s' = S (GetTimerNums s).
Proof.
  assert (Hr : (fun s => (loop_pc s, GetTimerNums s, match test_exec (bytes "ping") (ActAddTimer 9000000 None) s with
                  | Some (Ret s') => Some (GetTimerNums s') | _ => None end))
                <$> run_checked (bytes "ping") (take 11 one_visit) (IOWorker_init 3 InetAddress_zero false)
              = Some (InTimeout TTest 2 [], 1%nat, Some 2%nat)) by (vm_compute; reflexivity).
  destruct (run_checked _ (take 11 _) _) as [s|]; [|done]. exists s. cbn [fmap option_fmap option_map] in Hr.
  destruct (test_exec (bytes "ping") (ActAddTimer 9000000 None) s) as [[s'|]|]; try done. injection Hr as Hpc Hn Hn'.
  split; [done|]. split; [done|]. split; [|exists s'; by rewrite Hn, Hn'].
  unfold test_exec. cbn [loop_exec]. unfold loop_step_pc. rewrite Hpc. by eexists.
Qed.
End examples.
