(* ===== verification/ThreadPool.v ===== *)
(** * net/ThreadPool: workers, submitters and the stop of the pool

    The threads of the pool are interleaved: a state holds the shared data and
    the place each worker is at, [exec] runs one action of one thread.  A
    region that holds the mutex is one action, but for a worker that found
    nothing to do: it keeps the mutex until it sleeps on the condition, and
    [Stop], which does not take the mutex, can come in between.  The loop that
    discards the pending tasks after [Stop] runs without the mutex too, so each
    of its accesses is an action of its own. *)

From S2P Require Import Prelude PQueue.
Local Open Scope Z_scope.

Inductive TaskPriority := LOW | NORMAL | HIGH | EMERGENCY.
Definition TaskPriority_value (p : TaskPriority) : Z :=
  match p with LOW => 0 | NORMAL => 1 | HIGH => 2 | EMERGENCY => 3 end.

(** Addresses of [TaskStruct] objects; [task] names the function to run. *)
Abbreviation tptr := nat (only parsing).
Abbreviation TaskId := Z (only parsing).

Record TaskStruct := mkTask {
  task : nat;
  tid : TaskId;
  canceled : bool;
  priority : TaskPriority;
}.

(** An element of [pending_tasks]; [priority] does not change after submission. *)
Record pending := mkPending { p_ptr : tptr; p_priority : TaskPriority }.

(** [TaskCmp] orders tasks by [lhs->priority < rhs->priority]. *)
Definition TaskCmp (e : pending) : Z := TaskPriority_value (p_priority e).

(** Where a worker is in [RunInThread]: before the test of the main loop; about to
    take the mutex and evaluate the predicate of the wait; holding the mutex, the
    predicate being false; asleep; running a task; in the second loop before its
    test, before [top], [pop], [erase] and [delete]; returned. *)
Inductive Pc :=
| AtLoop | AtWait | ToSleep | Asleep | Running (p : tptr)
| AtDrain | AtTop | AtPop (p : tptr) | AtErase (p : tptr) | AtDelete (p : tptr)
| Exited.
#[export] Instance Pc_eq_dec : EqDecision Pc.
Proof. solve_decision. Defined.

(** [who] is the sleeping worker that is notified, if it sleeps.  [Stop] stores
    the flag, then notifies.  A wait may end without a notification.  The counter
    of the ids is static: [ActOther] is a submission to another pool of the process. *)
Inductive action :=
| ActStart (n limit : nat)
| ActSubmit (prio : TaskPriority) (f : nat) (who : nat)
| ActCancel (id : TaskId)
| ActStop
| ActStopNotify
| ActSpurious (i : nat)
| ActWorker (i : nat)
| ActOther.

Section pool.
Context {Q : Type} `{MaxQueue pending Q}.

(** [executed] and [cancelled] record the ids of the tasks that were started, and
    of those a call of [CancelTask] returned [true] for; [others] the ids that tasks
    of other pools were given. *)
Record ThreadPool := mkPool {
  tasks : gmap tptr TaskStruct;
  tasks_map : gmap TaskId tptr;
  pending_tasks : Q;
  pending_size : nat;
  stop : bool;
  next_task_id : TaskId;
  workers : gmap nat Pc;
  executed : list TaskId;
  cancelled : list TaskId;
  others : list TaskId;
}.

Definition set_pc (i : nat) (pc : Pc) (s : ThreadPool) : ThreadPool :=
  mkPool (tasks s) (tasks_map s) (pending_tasks s) (pending_size s) (stop s) (next_task_id s)
    (<[i := pc]> (workers s)) (executed s) (cancelled s) (others s).
Definition set_tasks (m : gmap tptr TaskStruct) (s : ThreadPool) : ThreadPool :=
  mkPool m (tasks_map s) (pending_tasks s) (pending_size s) (stop s) (next_task_id s)
    (workers s) (executed s) (cancelled s) (others s).
Definition set_map (m : gmap TaskId tptr) (s : ThreadPool) : ThreadPool :=
  mkPool (tasks s) m (pending_tasks s) (pending_size s) (stop s) (next_task_id s)
    (workers s) (executed s) (cancelled s) (others s).
Definition set_pending (q : Q) (s : ThreadPool) : ThreadPool :=
  mkPool (tasks s) (tasks_map s) q (pending_size s) (stop s) (next_task_id s)
    (workers s) (executed s) (cancelled s) (others s).
Definition log_executed (id : TaskId) (s : ThreadPool) : ThreadPool :=
  mkPool (tasks s) (tasks_map s) (pending_tasks s) (pending_size s) (stop s) (next_task_id s)
    (workers s) (executed s ++ [id]) (cancelled s) (others s).
Definition log_cancelled (id : TaskId) (s : ThreadPool) : ThreadPool :=
  mkPool (tasks s) (tasks_map s) (pending_tasks s) (pending_size s) (stop s) (next_task_id s)
    (workers s) (executed s) (id :: cancelled s) (others s).

(** [fetch_add] of another pool. *)
Definition take_id (s : ThreadPool) : ThreadPool :=
  mkPool (tasks s) (tasks_map s) (pending_tasks s) (pending_size s) (stop s) (next_task_id s + 1)
    (workers s) (executed s) (cancelled s) (next_task_id s :: others s).

(** A pool as it is constructed; [next] is what the pools before it left in the
    static [next_task_id]. *)
Definition ThreadPool_init (next : TaskId) : ThreadPool := mkPool ∅ ∅ q_empty 0 false next ∅ [] [] [].

(** [Start]: the new threads begin at the main loop.  Tasks may be pending. *)
Definition new_threads (k n : nat) : gmap nat Pc := list_to_map ((fun i => (i, AtLoop)) <$> seq k n).
Definition Start (n limit : nat) (s : ThreadPool) : ThreadPool :=
  mkPool (tasks s) (tasks_map s) (pending_tasks s) limit (stop s) (next_task_id s)
    (workers s ∪ new_threads (size (workers s)) n) (executed s) (cancelled s) (others s).

(** The store of [Stop]; [notify_all] follows. *)
Definition Stop (s : ThreadPool) : ThreadPool :=
  mkPool (tasks s) (tasks_map s) (pending_tasks s) (pending_size s) true (next_task_id s)
    (workers s) (executed s) (cancelled s) (others s).

Definition GetPendingTasks (s : ThreadPool) : nat := length (q_elems (pending_tasks s)).

Definition task_at (p : tptr) (s : ThreadPool) : outcome TaskStruct :=
  match tasks s !! p with Some t => Ret t | None => Throw UndefinedBehaviour end.
Definition delete_task (p : tptr) (s : ThreadPool) : outcome ThreadPool :=
  _ ← task_at p s;
  Ret (set_tasks (delete p (tasks s)) s).

(** Only a worker on its way to sleep holds the mutex between two actions. *)
Definition mutex_free (s : ThreadPool) : bool := bool_decide (map_Forall (fun _ pc => pc <> ToSleep) (workers s)).

(** The standard lets [notify_one] wake any sleeping thread. *)
Definition sleepers (s : ThreadPool) : list nat := fst <$> filter (fun kv => kv.2 = Asleep) (map_to_list (workers s)).
Definition notify_one (who : nat) (s : ThreadPool) : ThreadPool :=
  if decide (who ∈ sleepers s) then set_pc who AtWait s
  else match sleepers s with [] => s | i :: _ => set_pc i AtWait s end.

Definition wake (pc : Pc) : Pc := match pc with Asleep => AtWait | _ => pc end.
Definition notify_all (s : ThreadPool) : ThreadPool :=
  mkPool (tasks s) (tasks_map s) (pending_tasks s) (pending_size s) (stop s) (next_task_id s)
    (wake <$> workers s) (executed s) (cancelled s) (others s).

Definition SubmitTask (prio : TaskPriority) (f who : nat) (s : ThreadPool) : TaskId * ThreadPool :=
  if (0 <? pending_size s)%nat && (pending_size s <=? GetPendingTasks s)%nat then (-1, s)
  else
    let p := fresh (dom (tasks s)) in
    let id := next_task_id s in
    let ts := mkTask f id false prio in
    (id, notify_one who (mkPool (<[p := ts]> (tasks s))
           (match tasks_map s !! id with Some _ => tasks_map s | None => <[id := p]> (tasks_map s) end)
           (q_push (mkPending p prio) (pending_tasks s)) (pending_size s) (stop s) (id + 1)
           (workers s) (executed s) (cancelled s) (others s))).

Definition SubmitNormal (f who : nat) (s : ThreadPool) : TaskId * ThreadPool := SubmitTask NORMAL f who s.

Definition CancelTask (id : TaskId) (s : ThreadPool) : outcome (bool * ThreadPool) :=
  if next_task_id s <=? id then Ret (false, s)
  else
    match tasks_map s !! id with
    | None => Ret (false, s)
    | Some p =>
        t ← task_at p s;
        Ret (true, set_tasks (<[p := mkTask (task t) (tid t) true (priority t)]> (tasks s)) s)
    end.

(** The critical section of the main loop, once the wait is over and the pool is
    not stopped.  The mutex is released before the task runs. *)
Definition take_task (i : nat) (s : ThreadPool) : outcome ThreadPool :=
  match q_top (pending_tasks s) with
  | None => Throw UndefinedBehaviour
  | Some e =>
      let p := p_ptr e in
      let s := set_pending (q_pop (pending_tasks s)) s in
      t ← task_at p s;
      let s := set_map (delete (tid t) (tasks_map s)) s in
      if canceled t then
        s ← delete_task p s;
        Ret (set_pc i AtLoop s)
      else Ret (set_pc i (Running p) (log_executed (tid t) s))
  end.

(** One action of worker [i]; [None] when it is blocked. *)
Definition worker_step (i : nat) (pc : Pc) (s : ThreadPool) : option (outcome ThreadPool) :=
  match pc with
  | AtLoop => Some (Ret (set_pc i (if stop s then AtDrain else AtWait) s))
  | AtWait =>
      if negb (mutex_free s) then None
      else if stop s then Some (Ret (set_pc i AtDrain s))
      else Some (if (0 <? GetPendingTasks s)%nat then take_task i s else Ret (set_pc i ToSleep s))
  | ToSleep => Some (Ret (set_pc i Asleep s))
  | Asleep => None
  | Running p => Some (s ← delete_task p s; Ret (set_pc i AtLoop s))
  | AtDrain => Some (Ret (set_pc i (if (0 <? GetPendingTasks s)%nat then AtTop else Exited) s))
  | AtTop =>
      Some (match q_top (pending_tasks s) with
            | None => Throw UndefinedBehaviour
            | Some e => Ret (set_pc i (AtPop (p_ptr e)) s)
            end)
  | AtPop p =>
      Some (if (0 <? GetPendingTasks s)%nat
            then Ret (set_pc i (AtErase p) (set_pending (q_pop (pending_tasks s)) s))
            else Throw UndefinedBehaviour)
  | AtErase p => Some (t ← task_at p s; Ret (set_pc i (AtDelete p) (set_map (delete (tid t) (tasks_map s)) s)))
  | AtDelete p => Some (s ← delete_task p s; Ret (set_pc i AtDrain s))
  | Exited => None
  end.

Definition exec (a : action) (s : ThreadPool) : option (outcome ThreadPool) :=
  match a with
  | ActStart n limit => Some (Ret (Start n limit s))
  | ActSubmit prio f who => if mutex_free s then Some (Ret (SubmitTask prio f who s).2) else None
  | ActCancel id =>
      if mutex_free s then
        Some (r ← CancelTask id s;
              let '(ok, s) := (r : bool * ThreadPool) in
              Ret (if ok then log_cancelled id s else s))
      else None
  | ActStop => Some (Ret (Stop s))
  | ActStopNotify => Some (Ret (notify_all s))
  | ActSpurious i => match workers s !! i with Some Asleep => Some (Ret (set_pc i AtWait s)) | _ => None end
  | ActWorker i => match workers s !! i with Some pc => worker_step i pc s | None => None end
  | ActOther => Some (Ret (take_id s))
  end.

(** The steps of the system, and a step that goes wrong. *)
Inductive pool_step : ThreadPool -> ThreadPool -> Prop :=
| pool_action a s s' : exec a s = Some (Ret s') -> pool_step s s'.

Definition pool_faults (s : ThreadPool) : Prop := exists a f, exec a s = Some (Throw f).

(** A schedule: the actions in their order. *)
Fixpoint run_actions (acts : list action) (s : ThreadPool) : option (outcome ThreadPool) :=
  match acts with
  | [] => Some (Ret s)
  | a :: acts =>
      match exec a s with
      | Some (Ret s') => run_actions acts s'
      | r => r
      end
  end.
End pool.
Arguments ThreadPool : clear implicits.

(** ** The invariant of a running pool *)

Section invariant.
Context {Q : Type} `{HQ : MaxQueueLaws pending Q TaskCmp}.
Implicit Types (s : ThreadPool Q) (p i : nat) (t : TaskStruct).

Definition pending_ptrs s : list nat := p_ptr <$> q_elems (pending_tasks s).

(** Places in the main loop where no task is held. *)
Definition idle (pc : Pc) : Prop := pc = AtLoop \/ pc = AtWait \/ pc = ToSleep \/ pc = Asleep.

Record wf_pool s : Prop := {
  wp_nodup : NoDup (pending_ptrs s);
  wp_pending : forall p, p ∈ pending_ptrs s ->
    exists t, tasks s !! p = Some t /\ tasks_map s !! tid t = Some p /\ (tid t ∉ executed s)
      /\ (tid t ∈ cancelled s -> canceled t = true);
  wp_map : forall id p, tasks_map s !! id = Some p ->
    p ∈ pending_ptrs s /\ exists t, tasks s !! p = Some t /\ tid t = id;
  wp_running : forall i p, workers s !! i = Some (Running p) -> is_Some (tasks s !! p) /\ (p ∉ pending_ptrs s);
  wp_alone : forall i j p, workers s !! i = Some (Running p) -> workers s !! j = Some (Running p) -> i = j;
  wp_pcs : forall i pc, workers s !! i = Some pc -> idle pc \/ exists p, pc = Running p;
  wp_owned : forall p, is_Some (tasks s !! p) ->
    p ∈ pending_ptrs s \/ exists i, workers s !! i = Some (Running p);
  wp_ids : forall p t, tasks s !! p = Some t -> tid t < next_task_id s;
  wp_unique : forall p q t u, tasks s !! p = Some t -> tasks s !! q = Some u -> tid t = tid u -> p = q;
  wp_executed : NoDup (executed s);
  wp_started : forall id, id ∈ executed s -> id < next_task_id s;
  wp_cancelled : forall id, id ∈ cancelled s -> id < next_task_id s /\ (id ∉ executed s);
}.

Lemma wf_pool_init next : wf_pool (ThreadPool_init next : ThreadPool Q).
Proof.
  assert (Hemp : pending_ptrs (ThreadPool_init next) = []) by (unfold pending_ptrs; cbn; by rewrite q_elems_empty).
  split; rewrite ?Hemp; cbn; try done.
  - constructor.
  - by intros p ?%not_elem_of_nil.
  - intros p [t Ht]. by rewrite lookup_empty in Ht.
  - constructor.
  - by intros id ?%not_elem_of_nil.
  - by intros id ?%not_elem_of_nil.
Qed.

Lemma new_threads_at k n i pc : new_threads k n !! i = Some pc -> pc = AtLoop.
Proof. intros Hi%elem_of_list_to_map_2. by apply list_elem_of_fmap in Hi as (j & [= _ ->] & _). Qed.

Lemma workers_Start n limit s i pc :
  workers (Start n limit s) !! i = Some pc -> workers s !! i = Some pc \/ pc = AtLoop.
Proof. cbn. intros [Hi|[_ Hi%new_threads_at]]%lookup_union_Some_raw; [by left|by right]. Qed.

Lemma wf_pool_Start n limit s : wf_pool s -> wf_pool (Start n limit s).
Proof.
  intros []. assert (Hrun : forall i p, workers (Start n limit s) !! i = Some (Running p) -> workers s !! i = Some (Running p)).
  { by intros i p [Hi|]%workers_Start. }
  split; try done.
  - intros i p Hi%Hrun. by apply (wp_running0 i).
  - intros i j p Hi%Hrun Hj%Hrun. eauto.
  - intros i pc [Hi| ->]%workers_Start; [eauto|]. left. by left.
  - intros p Hp. destruct (wp_owned0 p Hp) as [|[i Hi]]; [by left|]. right. exists i. cbn.
    by apply lookup_union_Some_l.
Qed.

(** A worker that does not run a task moves to a place where it runs none. *)
Lemma wf_set_pc i pc0 pc s :
  wf_pool s -> workers s !! i = Some pc0 -> (forall p, pc0 <> Running p) ->
  idle pc -> wf_pool (set_pc i pc s).
Proof.
  intros [] Hi Hpc0 Hpc. assert (Hrun : forall p, pc <> Running p) by (intros p ->; unfold idle in Hpc; naive_solver).
  split; cbn; try done.
  - intros j p. rewrite lookup_insert_Some. intros [[_ E]|[_ Hj]]; [by apply Hrun in E | eauto].
  - intros j k p. rewrite !lookup_insert_Some. intros [[_ E]|[_ Hj]] [[_ E']|[_ Hk]]; eauto; by exfalso; eapply Hrun.
  - intros j pc'. rewrite lookup_insert_Some. intros [[_ <-]|[_ Hj]]; [naive_solver | eauto].
  - intros p Hp. destruct (wp_owned0 p Hp) as [|[j Hj]]; [by left|]. right. exists j.
    rewrite lookup_insert_ne; [done|]. intros ->. rewrite Hi in Hj. injection Hj as ->. by apply (Hpc0 p).
Qed.

Lemma pending_ptrs_push e s q : pending_ptrs (set_pending (q_push e q) s) ≡ₚ p_ptr e :: (p_ptr <$> q_elems q).
Proof. unfold pending_ptrs. cbn. by rewrite q_elems_push. Qed.

Lemma sleepers_spec i s : i ∈ sleepers s <-> workers s !! i = Some Asleep.
Proof.
  unfold sleepers. rewrite list_elem_of_fmap. setoid_rewrite list_elem_of_filter. split.
  - intros ([j pc] & -> & Hpc & Hin). cbn in *. subst pc. by apply elem_of_map_to_list.
  - intros Hi. exists (i, Asleep). split; [done|]. split; [done|]. by apply elem_of_map_to_list.
Qed.

(** A notification moves one sleeper, if there is one. *)
Lemma notify_one_spec who s :
  notify_one who s = s /\ sleepers s = []
  \/ exists i, workers s !! i = Some Asleep /\ notify_one who s = set_pc i AtWait s.
Proof.
  unfold notify_one. case_decide as Hw.
  - right. exists who. by apply sleepers_spec in Hw.
  - destruct (sleepers s) as [|i l] eqn:E; [by left|]. right. exists i. split; [|done].
    apply sleepers_spec. rewrite E. left.
Qed.

Lemma wf_notify_one who s : wf_pool s -> wf_pool (notify_one who s).
Proof.
  intros Hwf. destruct (notify_one_spec who s) as [[-> _]|(i & Hi & ->)]; [done|].
  apply (wf_set_pc i Asleep); [done..|]. right. by left.
Qed.

Lemma wf_take_id s : wf_pool s -> wf_pool (take_id s).
Proof.
  intros []. split; cbn; try done.
  - intros p t Ht%wp_ids0. lia.
  - intros id Hid%wp_started0. lia.
  - intros id Hid%wp_cancelled0. split; [lia | tauto].
Qed.

Lemma lookup_wake i s pc : (wake <$> workers s) !! i = Some pc -> exists pc0, workers s !! i = Some pc0 /\ wake pc0 = pc.
Proof. rewrite lookup_fmap, fmap_Some. naive_solver. Qed.

Lemma wf_notify_all s : wf_pool s -> wf_pool (notify_all s).
Proof.
  intros []. assert (Hrun : forall i p, (wake <$> workers s) !! i = Some (Running p) -> workers s !! i = Some (Running p)).
  { intros i p (pc & Hi & E)%lookup_wake. by destruct pc; simplify_eq/=. }
  split; unfold notify_all; cbn [tasks tasks_map pending_tasks pending_size stop next_task_id workers executed cancelled others]; try done.
  - intros i p Hi%Hrun. by apply (wp_running0 i).
  - intros i j p Hi%Hrun Hj%Hrun. eauto.
  - intros i pc (pc0 & Hi & <-)%lookup_wake. destruct (wp_pcs0 i pc0 Hi) as [Hid|[p ->]]; [left | right; by exists p].
    destruct pc0; cbn; try done. right. by left.
  - intros p Hp. destruct (wp_owned0 p Hp) as [|[i Hi]]; [by left|]. right. exists i. by rewrite lookup_fmap, Hi.
Qed.

Lemma wf_SubmitTask prio f who s : wf_pool s -> wf_pool (SubmitTask prio f who s).2.
Proof.
  intros Hwf. unfold SubmitTask. destruct (_ && _) eqn:Hlim; [done|]. cbn [snd]. apply wf_notify_one.
  set (p := fresh (dom (tasks s))). set (id := next_task_id s).
  assert (Hp : tasks s !! p = None) by apply not_elem_of_dom, is_fresh.
  assert (Hlive : forall q, is_Some (tasks s !! q) -> p <> q) by (intros q [u Hu]; congruence).
  destruct Hwf. assert (Hnone : tasks_map s !! id = None).
  { destruct (tasks_map s !! id) eqn:E; [|done]. destruct (wp_map0 _ _ E) as (_ & t & Ht & Et).
    apply wp_ids0 in Ht. unfold id in *. lia. }
  rewrite Hnone. assert (Hpend : forall q, q ∈ pending_ptrs s -> p <> q).
  { intros q Hq. destruct (wp_pending0 q Hq) as (t & Ht & _). apply Hlive. by exists t. }
  match goal with |- wf_pool ?x => set (s' := x) end.
  assert (Hptrs : pending_ptrs s' ≡ₚ p :: pending_ptrs s) by (unfold pending_ptrs; cbn; by rewrite q_elems_push).
  split; unfold s'; cbn -[id]; fold s'.
  - rewrite Hptrs. constructor; [|done]. intros Hin. by apply (Hpend p).
  - intros q. rewrite Hptrs, elem_of_cons. intros [->|Hq].
    + eexists. rewrite lookup_insert_eq. split; [done|]. cbn -[id]. rewrite lookup_insert_eq. split; [done|].
      split; [intros Hin%wp_started0; unfold id in *; lia | intros [Hin _]%wp_cancelled0; unfold id in *; lia].
    + destruct (wp_pending0 q Hq) as (t & Ht & Hm & ?). exists t. rewrite lookup_insert_ne by auto.
      split; [done|]. split; [|done].
      rewrite lookup_insert_ne; [done|]. apply wp_ids0 in Ht. unfold id. lia.
  - intros id' q. rewrite lookup_insert_Some. intros [[<- <-]|[_ Hm]].
    + split; [rewrite Hptrs; left|]. eexists. by rewrite lookup_insert_eq.
    + destruct (wp_map0 id' q Hm) as (Hq & t & Ht & E). split; [rewrite Hptrs; by right|].
      exists t. rewrite lookup_insert_ne by auto. done.
  - intros i q Hi. destruct (wp_running0 i q Hi) as [Hq Hn]. rewrite lookup_insert_ne by auto. split; [done|].
    rewrite Hptrs, not_elem_of_cons. split; [|done]. by apply not_eq_sym, Hlive.
  - done.
  - done.
  - intros q Hq. destruct (decide (p = q)) as [->|]; [left; rewrite Hptrs; left|].
    rewrite lookup_insert_ne in Hq by done. destruct (wp_owned0 q Hq); [left; rewrite Hptrs; by right | by right].
  - intros q t. rewrite lookup_insert_Some. intros [[_ <-]|[_ Ht]]; cbn -[id]; unfold id; [lia|].
    apply wp_ids0 in Ht. lia.
  - intros q1 q2 t u. rewrite !lookup_insert_Some.
    intros [[<- <-]|[? Ht]] [[<- <-]|[? Hu]] E; eauto; cbn -[id] in E; unfold id in E.
    + apply wp_ids0 in Hu. lia.
    + apply wp_ids0 in Ht. lia.
  - done.
  - intros i Hi%wp_started0. unfold id. lia.
  - intros i Hi%wp_cancelled0. unfold id. split; [lia | tauto].
Qed.

Lemma wf_CancelTask id s :
  wf_pool s -> exists ok s', CancelTask id s = Ret (ok, s') /\ stop s' = stop s
    /\ wf_pool (if ok then log_cancelled id s' else s').
Proof.
  intros Hwf. unfold CancelTask. destruct (Z.leb_spec (next_task_id s) id); [by exists false, s|].
  destruct (tasks_map s !! id) as [p|] eqn:E; [|by exists false, s].
  pose proof Hwf as []. destruct (wp_map0 id p E) as (Hin & t & Ht & Hid). unfold task_at. rewrite Ht. mrun.
  exists true. eexists. split; [done|]. split; [done|]. set (u := mkTask _ _ _ _).
  destruct (wp_pending0 p Hin) as (t' & Ht' & _ & Hne & _). rewrite Ht in Ht'. injection Ht' as <-.
  assert (Hlook : forall q v, <[p := u]> (tasks s) !! q = Some v -> exists v', tasks s !! q = Some v' /\ tid v = tid v').
  { intros q v. rewrite lookup_insert_Some. intros [[<- <-]|[_ Hv]]; eauto. }
  split; unfold pending_ptrs in *; cbn; try done.
  - intros q Hq. destruct (wp_pending0 q Hq) as (t' & Ht' & Hm & Hx & Hc). destruct (decide (p = q)) as [<-|Hpq].
    + exists u. rewrite lookup_insert_eq. rewrite Ht in Ht'. injection Ht' as <-. done.
    + exists t'. rewrite lookup_insert_ne by done. split; [done|]. split; [done|]. split; [done|].
      rewrite elem_of_cons. intros [E2|]; [|auto]. exfalso. apply Hpq. apply (wp_unique0 p q t t'); congruence.
  - intros id' q Hm. destruct (wp_map0 id' q Hm) as (Hq & t' & Ht' & E2). split; [done|].
    destruct (decide (p = q)) as [<-|Hpq]; [exists u; rewrite lookup_insert_eq; split; [done|]; cbn; congruence|].
    exists t'. by rewrite lookup_insert_ne.
  - intros i q Hi. destruct (wp_running0 i q Hi) as [Hq Hn]. split; [|done].
    rewrite lookup_insert_is_Some. destruct (decide (p = q)); auto.
  - intros q. rewrite lookup_insert_is_Some. intros [->|[_ Hq]]; auto.
  - intros q v Hv. destruct (Hlook q v Hv) as (v' & Hv' & ->). eauto.
  - intros q1 q2 v1 v2 Hv1 Hv2 E2. destruct (Hlook _ _ Hv1) as (v1' & ? & E3). destruct (Hlook _ _ Hv2) as (v2' & ? & E4).
    apply (wp_unique0 q1 q2 v1' v2'); congruence.
  - intros i. rewrite elem_of_cons. intros [->|Hi]; [|auto]. split; [lia|]. by rewrite <-Hid.
Qed.

(** The part of [take_task] that takes the task off the shared data. *)
Definition unlink (e : pending) t s : ThreadPool Q :=
  set_map (delete (tid t) (tasks_map s)) (set_pending (q_pop (pending_tasks s)) s).

Lemma unlink_ptrs e t s :
  q_top (pending_tasks s) = Some e -> pending_ptrs s ≡ₚ p_ptr e :: pending_ptrs (unlink e t s).
Proof. intros E. unfold pending_ptrs at 1. by rewrite (q_top_some _ _ E). Qed.

(** What holds of the taken task, and of the rest. *)
Lemma unlink_spec e s :
  wf_pool s -> q_top (pending_tasks s) = Some e ->
  exists t, tasks s !! p_ptr e = Some t /\ (tid t ∉ executed s) /\ (tid t ∈ cancelled s -> canceled t = true)
    /\ (p_ptr e ∉ pending_ptrs (unlink e t s)) /\ NoDup (pending_ptrs (unlink e t s))
    /\ (forall p, p ∈ pending_ptrs (unlink e t s) -> p ∈ pending_ptrs s /\
          exists u, tasks s !! p = Some u /\ tid u <> tid t)
    /\ (forall p, p ∈ pending_ptrs s -> p = p_ptr e \/ p ∈ pending_ptrs (unlink e t s)).
Proof.
  intros [] Htop. assert (Hin : p_ptr e ∈ pending_ptrs s) by (apply list_elem_of_fmap_2, q_top_elem, Htop).
  destruct (wp_pending0 _ Hin) as (t & Ht & Hm & Hne & Hc). exists t.
  pose proof (unlink_ptrs e t s Htop) as Hperm. rewrite Hperm in wp_nodup0.
  apply NoDup_cons in wp_nodup0 as [Hnin Hnd].
  split_and!; try done.
  - intros p Hp. assert (Hp' : p ∈ pending_ptrs s) by (rewrite Hperm; by right). split; [done|].
    destruct (wp_pending0 p Hp') as (u & Hu & _). exists u. split; [done|]. intros E.
    apply Hnin. by rewrite (wp_unique0 _ _ _ _ Ht Hu).
  - intros p. by rewrite Hperm, elem_of_cons.
Qed.

(** What [take_task] relies on once worker [i] has unlinked the task [t] of [e]. *)
Record taken i e t s : Prop := {
  tk_task : tasks s !! p_ptr e = Some t;
  tk_fresh : tid t ∉ executed s;
  tk_cancel : tid t ∈ cancelled s -> canceled t = true;
  tk_nin : p_ptr e ∉ pending_ptrs (unlink e t s);
  tk_nodup : NoDup (pending_ptrs (unlink e t s));
  tk_rest p : p ∈ pending_ptrs (unlink e t s) -> p <> p_ptr e /\ p ∈ pending_ptrs s
    /\ exists u, tasks s !! p = Some u /\ tasks_map (unlink e t s) !! tid u = Some p
    /\ (tid u ∉ executed s) /\ tid u <> tid t /\ (tid u ∈ cancelled s -> canceled u = true);
  tk_map id p : tasks_map (unlink e t s) !! id = Some p ->
    p ∈ pending_ptrs (unlink e t s) /\ exists u, tasks s !! p = Some u /\ tid u = id;
  tk_back p : p ∈ pending_ptrs s -> p = p_ptr e \/ p ∈ pending_ptrs (unlink e t s);
  tk_idle j p : workers s !! j = Some (Running p) ->
    p <> p_ptr e /\ j <> i /\ is_Some (tasks s !! p) /\ (p ∉ pending_ptrs (unlink e t s))
}.

Lemma take_spec i e s :
  wf_pool s -> workers s !! i = Some AtWait -> q_top (pending_tasks s) = Some e -> exists t, taken i e t s.
Proof.
  intros Hwf Hi He. destruct (unlink_spec e s Hwf He) as (t & Ht & Hne & Hc & Hnin & Hnd & Hsub & Hsup).
  exists t. destruct Hwf. split; try done.
  - intros p Hp. split; [by intros ->|]. destruct (Hsub p Hp) as (Hp' & u & Hu & Hd). split; [done|].
    destruct (wp_pending0 p Hp') as (u' & Hu' & Hm' & ? & ?). rewrite Hu in Hu'. injection Hu' as <-.
    exists u. split_and!; try done. cbn. by rewrite lookup_delete_ne.
  - intros id p Hm. cbn in Hm. apply lookup_delete_Some in Hm as [Hid Hm].
    destruct (wp_map0 id p Hm) as (Hp & u & Hu & E). split; [|by exists u].
    destruct (Hsup p Hp) as [->|]; [|done]. congruence.
  - intros j p Hj. destruct (wp_running0 j p Hj) as [Hs Hn]. split_and!; [|congruence|done|].
    + intros ->. apply Hn. apply list_elem_of_fmap_2, q_top_elem, He.
    + intros Hp. by apply Hn, (Hsub p).
Qed.

(** The taken task was cancelled: it is deleted, and the worker loops. *)
Lemma take_cancelled_ok i e t s :
  wf_pool s -> workers s !! i = Some AtWait -> taken i e t s ->
  wf_pool (set_pc i AtLoop (set_tasks (delete (p_ptr e) (tasks s)) (unlink e t s))).
Proof.
  intros Hwf Hi Htk. apply (wf_set_pc i AtWait); [|done|done|by left]. destruct Hwf, Htk.
  split; cbn; try done.
  - intros p Hp. destruct (tk_rest0 p Hp) as (Hpe & _ & u & Hu & ? & ? & _ & ?).
    exists u. by rewrite lookup_delete_ne by done.
  - intros id p Hm. destruct (tk_map0 id p Hm) as (Hp & u & Hu & E). split; [done|]. exists u.
    rewrite lookup_delete_ne; [done|]. by destruct (tk_rest0 p Hp).
  - intros j p Hj. destruct (tk_idle0 j p Hj) as (? & _ & ? & ?). by rewrite lookup_delete_ne by done.
  - intros p [u [Hpe Hu]%lookup_delete_Some]. destruct (wp_owned0 p) as [Hp|]; [by exists u | | by right].
    left. destruct (tk_back0 p Hp); [congruence | done].
  - intros p u [_ Hu]%lookup_delete_Some. eauto.
  - intros p q u v [_ Hu]%lookup_delete_Some [_ Hv]%lookup_delete_Some. eauto.
Qed.

(** It was not: the worker starts it. *)
Lemma take_started_ok i e t s :
  wf_pool s -> taken i e t s -> canceled t = false ->
  wf_pool (set_pc i (Running (p_ptr e)) (log_executed (tid t) (unlink e t s))).
Proof.
  intros [] [] Hcan. split; cbn; try done.
  - intros p Hp. destruct (tk_rest0 p Hp) as (Hpe & _ & u & Hu & Hm & Hx & Hd & ?). exists u. split_and!; try done.
    rewrite elem_of_app, list_elem_of_singleton. by intros [|].
  - intros j p. rewrite lookup_insert_Some. intros [[<- [= <-]]|[_ Hj]]; [split; [by exists t | done]|].
    by destruct (tk_idle0 j p Hj) as (_ & _ & ? & ?).
  - intros j k p. rewrite !lookup_insert_Some. intros [[<- [= <-]]|[_ Hj]] [[<- E]|[_ Hk]]; eauto.
    + by apply tk_idle0 in Hk as [].
    + injection E as <-. by apply tk_idle0 in Hj as [].
  - intros j pc. rewrite lookup_insert_Some. intros [[_ <-]|[_ Hj]]; eauto.
  - intros p Hp. destruct (wp_owned0 p Hp) as [Hq|[j Hj]].
    + destruct (tk_back0 p Hq) as [->|]; [right; exists i; by rewrite lookup_insert_eq | by left].
    + right. exists j. rewrite lookup_insert_ne; [done|]. by apply not_eq_sym, (tk_idle0 j p).
  - rewrite NoDup_app. split; [done|]. split; [|apply NoDup_singleton].
    intros id Hid. rewrite list_elem_of_singleton. by intros ->.
  - intros id. rewrite elem_of_app, list_elem_of_singleton. intros [| ->]; eauto.
  - intros id Hid. destruct (wp_cancelled0 id Hid) as [? Hx]. split; [done|].
    rewrite elem_of_app, list_elem_of_singleton. intros [|E]; [done|]. subst id. apply tk_cancel0 in Hid. congruence.
Qed.

(** What the critical section does: the top of the queue is deleted or started. *)
Lemma take_task_spec i s :
  wf_pool s -> workers s !! i = Some AtWait -> (0 < GetPendingTasks s)%nat ->
  exists e t, q_top (pending_tasks s) = Some e /\ taken i e t s
    /\ take_task i s = Ret (if canceled t then set_pc i AtLoop (set_tasks (delete (p_ptr e) (tasks s)) (unlink e t s))
                           else set_pc i (Running (p_ptr e)) (log_executed (tid t) (unlink e t s))).
Proof.
  intros Hwf Hi Hpos. unfold take_task.
  destruct (q_top_size (pending_tasks s)) as [e He]; [unfold q_size, GetPendingTasks in *; lia|]. rewrite He.
  destruct (take_spec i e s Hwf Hi He) as [t Htk]. pose proof (tk_task _ _ _ _ Htk) as Ht. exists e, t.
  split; [done|]. split; [done|]. unfold task_at. cbn [tasks set_pending]. rewrite Ht. mrun.
  destruct (canceled t); [|done]. unfold delete_task, task_at. cbn [tasks set_map set_pending]. by rewrite Ht.
Qed.

Lemma take_task_ok i s :
  wf_pool s -> workers s !! i = Some AtWait -> (0 < GetPendingTasks s)%nat ->
  exists s', take_task i s = Ret s' /\ stop s' = stop s /\ wf_pool s'.
Proof.
  intros Hwf Hi Hpos. destruct (take_task_spec i s Hwf Hi Hpos) as (e & t & _ & Htk & ->).
  eexists. split; [done|]. destruct (canceled t) eqn:Ecan; (split; [done|]).
  - exact (take_cancelled_ok i e t s Hwf Hi Htk).
  - exact (take_started_ok i e t s Hwf Htk Ecan).
Qed.

Lemma finish_ok i p s :
  wf_pool s -> workers s !! i = Some (Running p) ->
  exists s', delete_task p s = Ret s' /\ stop s' = stop s /\ wf_pool (set_pc i AtLoop s').
Proof.
  intros [] Hi. destruct (wp_running0 i p Hi) as [[t Ht] Hn]. unfold delete_task, task_at. rewrite Ht. mrun.
  eexists. split; [done|]. split; [done|]. split; cbn; try done.
  - intros q Hq. destruct (wp_pending0 q Hq) as (u & Hu & ?). exists u. rewrite lookup_delete_ne; [done|]. by intros ->.
  - intros id q Hm. destruct (wp_map0 id q Hm) as (Hq & u & Hu & ?). split; [done|]. exists u.
    rewrite lookup_delete_ne; [done|]. by intros ->.
  - intros j q. rewrite lookup_insert_Some. intros [[_ E]|[Hij Hj]]; [done|].
    destruct (wp_running0 j q Hj). rewrite lookup_delete_ne; [done|]. intros ->. by apply Hij, (wp_alone0 i j q).
  - intros j k q. rewrite !lookup_insert_Some. intros [[_ E]|[_ Hj]] [[_ E']|[_ Hk]]; eauto; done.
  - intros j pc. rewrite lookup_insert_Some. intros [[_ <-]|[_ Hj]]; [left; by left | eauto].
  - intros q [u [Hne Hu]%lookup_delete_Some]. destruct (wp_owned0 q) as [|[j Hj]]; [by exists u | by left|].
    right. exists j. rewrite lookup_insert_ne; [done|]. intros ->. congruence.
  - intros q u [_ Hu]%lookup_delete_Some. eauto.
  - intros q1 q2 u v [_ Hu]%lookup_delete_Some [_ Hv]%lookup_delete_Some. eauto.
Qed.

(** Every action of a running pool returns, and keeps the invariant. *)
Lemma exec_ok a s :
  wf_pool s -> stop s = false ->
  match exec a s with
  | Some (Ret s') => stop s' = true \/ wf_pool s'
  | Some (Throw _) => False
  | None => True
  end.
Proof.
  intros Hwf Hstop. destruct a as [n limit|prio f who|id| | |i|i|]; cbn [exec].
  - right. by apply wf_pool_Start.
  - destruct (mutex_free s); [|done]. right. by apply wf_SubmitTask.
  - destruct (mutex_free s); [|done]. destruct (wf_CancelTask id s Hwf) as (ok & s' & -> & _ & ?). mrun. by right.
  - by left.
  - right. by apply wf_notify_all.
  - destruct (workers s !! i) as [[]|] eqn:Hi; try done. right. apply (wf_set_pc i Asleep); [done..|]. right. by left.
  - destruct (workers s !! i) as [pc|] eqn:Hi; [|done].
    destruct (wp_pcs s Hwf i pc Hi) as [[->|[->|[->| ->]]]|[p ->]]; cbn [worker_step]; rewrite ?Hstop.
    + right. apply (wf_set_pc i AtLoop); [done..|]. right. by left.
    + destruct (mutex_free s); [|done]. cbn [negb]. destruct (Nat.ltb_spec 0 (GetPendingTasks s)).
      * destruct (take_task_ok i s Hwf Hi) as (s' & -> & _ & ?); [done|]. by right.
      * right. apply (wf_set_pc i AtWait); [done..|]. right. right. by left.
    + right. apply (wf_set_pc i ToSleep); [done..|]. right. right. by right.
    + done.
    + destruct (finish_ok i p s Hwf Hi) as (s' & -> & _ & ?). mrun. by right.
  - right. by apply wf_take_id.
Qed.

(** Only [Stop] changes [stop]. *)
Lemma notify_one_stop who s : stop (notify_one who s) = stop s.
Proof. by destruct (notify_one_spec who s) as [[-> _]|(i & _ & ->)]. Qed.

Lemma exec_keeps_stop a s s' : exec a s = Some (Ret s') -> a <> ActStop -> stop s' = stop s.
Proof.
  intros E Ha. destruct a as [n limit|prio f who|id| | |i|i|]; cbn [exec] in E; [| | |done| | | |].
  - by injection E as <-.
  - destruct (mutex_free s); [|done]. injection E as <-. unfold SubmitTask. destruct (_ && _); [done|].
    cbn [snd]. by rewrite notify_one_stop.
  - revert E. unfold CancelTask, task_at. repeat case_match; mrun; try done; by intros [= <-].
  - by injection E as <-.
  - destruct (workers s !! i) as [[]|]; try done. by injection E as <-.
  - destruct (workers s !! i) as [pc|]; [|done]. revert E.
    destruct pc; cbn [worker_step]; unfold take_task, delete_task, task_at;
      repeat case_match; mrun; repeat case_match; intros; by simplify_eq/=.
  - by injection E as <-.
Qed.

Lemma exec_stop a s s' : exec a s = Some (Ret s') -> stop s = true -> stop s' = true.
Proof.
  intros E Hs. destruct a; try (by rewrite (exec_keeps_stop _ s s' E)). by injection E as <-.
Qed.

(** Only [Start] makes threads. *)
Lemma exec_dom a s s' :
  exec a s = Some (Ret s') -> (forall n limit, a <> ActStart n limit) -> dom (workers s') = dom (workers s).
Proof.
  intros E Ha. assert (Hpc : forall i pc0 pc, workers s !! i = Some pc0 -> dom (<[i := pc]> (workers s)) = dom (workers s)).
  { intros i pc0 pc Hi. by apply dom_insert_lookup_L. }
  destruct a as [n limit|prio f who|id| | |i|i|]; cbn [exec] in E; [by edestruct Ha| | | | | | |].
  - destruct (mutex_free s); [|done]. injection E as <-. unfold SubmitTask. destruct (_ && _); [done|]. cbn [snd].
    match goal with |- dom (workers (notify_one who ?x)) = _ => destruct (notify_one_spec who x) as [[-> _]|(i & Hi & ->)] end; [done|].
    exact (Hpc i Asleep AtWait Hi).
  - revert E. unfold CancelTask, task_at. repeat case_match; mrun; try done; by intros [= <-].
  - by injection E as <-.
  - injection E as <-. apply dom_fmap_L.
  - destruct (workers s !! i) as [[]|] eqn:Hi; try done. injection E as <-. exact (Hpc i Asleep AtWait Hi).
  - destruct (workers s !! i) as [pc|] eqn:Hi; [|done]. revert E.
    destruct pc; cbn [worker_step]; unfold take_task, delete_task, task_at;
      repeat case_match; mrun; repeat case_match; intros; simplify_eq/=; eauto.
  - by injection E as <-.
Qed.

Lemma reachable_pool (next : TaskId) s : rtc pool_step (ThreadPool_init next) s -> stop s = false -> wf_pool s.
Proof.
  intros Hsteps. assert (Hinv : stop s = true \/ wf_pool s).
  { assert (H0 : stop (ThreadPool_init next : ThreadPool Q) = true \/ wf_pool (ThreadPool_init next : ThreadPool Q))
      by (right; apply wf_pool_init).
    induction Hsteps as [s|s s1 s2 Hstep Hsteps IH]; [done|]. apply IH. destruct Hstep as [a s s1 E].
    destruct H0 as [Hs|Hwf]; [left; by eapply exec_stop|].
    destruct (stop s) eqn:Hs; [left; by eapply exec_stop|]. pose proof (exec_ok a s Hwf Hs) as Hok. by rewrite E in Hok. }
  intros Hs. by destruct Hinv as [|Hwf]; [congruence|].
Qed.

(** Only [SubmitTask] makes the queue longer, and not beyond the limit. *)
Lemma exec_pending a s s' :
  exec a s = Some (Ret s') ->
  (GetPendingTasks s' <= GetPendingTasks s)%nat
  \/ exists prio f who, a = ActSubmit prio f who /\ GetPendingTasks s' = S (GetPendingTasks s)
       /\ (0 < pending_size s -> GetPendingTasks s < pending_size s)%nat.
Proof.
  intros E. assert (Hn : forall who x, GetPendingTasks (notify_one who x) = GetPendingTasks x).
  { intros who x. by destruct (notify_one_spec who x) as [[-> _]|(i & _ & ->)]. }
  destruct a as [n limit|prio f who|id| | |i|i|]; cbn [exec] in E.
  - injection E as <-. by left.
  - destruct (mutex_free s); [|done]. injection E as <-. unfold SubmitTask. destruct (_ && _) eqn:Hlim; [by left|]. right.
    exists prio, f, who. split; [done|]. cbn [snd]. rewrite Hn. unfold GetPendingTasks in *. cbn. rewrite q_elems_push. split; [done|].
    intros Hpos. apply andb_false_iff in Hlim as [Hl|Hl]; [apply Nat.ltb_ge in Hl; lia | apply Nat.leb_gt in Hl; lia].
  - left. revert E. unfold CancelTask, task_at. repeat case_match; mrun; try done; by intros [= <-].
  - injection E as <-. by left.
  - injection E as <-. by left.
  - left. destruct (workers s !! i) as [[]|]; try done. by injection E as <-.
  - left. destruct (workers s !! i) as [pc|]; [|done]. revert E. unfold GetPendingTasks.
    destruct pc; cbn [worker_step]; unfold take_task, delete_task, task_at.
    all: repeat case_match; mrun; repeat case_match; intros; simplify_eq/=; try done.
    all: try match goal with He : q_top _ = Some _ |- _ => pose proof (q_size_pop _ _ He) end; unfold q_size in *; try lia.
    apply Nat.ltb_lt in H0. destruct (q_top_size (pending_tasks s)) as [e He]; [unfold q_size, GetPendingTasks in *; lia|].
    pose proof (q_size_pop _ _ He). unfold q_size in *. lia.
  - injection E as <-. by left.
Qed.

(** C8: a running pool.  In every state that any interleaving of submitters (who
    may come before the pool is started), cancellers, the start and the workers
    reaches before the pool is stopped: no access goes to
    a deleted task, no task is deleted twice and none is lost (each live task
    is pending or run by exactly one worker); no task is started twice; a task
    [CancelTask] returned [true] for is never started; and only a submission
    adds a pending task, within the limit. *)
Theorem running_pool_ok (next : TaskId) s :
  rtc pool_step (ThreadPool_init next) s -> stop s = false ->
  wf_pool s /\ ~ pool_faults s
  /\ forall a s', exec a s = Some (Ret s') ->
       (GetPendingTasks s' <= GetPendingTasks s)%nat
       \/ exists prio f who, a = ActSubmit prio f who /\ GetPendingTasks s' = S (GetPendingTasks s)
            /\ (0 < pending_size s -> GetPendingTasks s' <= pending_size s)%nat.
Proof.
  intros Hsteps Hs. pose proof (reachable_pool next s Hsteps Hs) as Hwf. split; [done|]. split.
  - intros (a & f & E). pose proof (exec_ok a s Hwf Hs) as Hok. by rewrite E in Hok.
  - intros a s' [|(prio & f & who & -> & E & Hl)]%exec_pending; [by left|]. right. exists prio, f, who.
    do 2 (split; [done|]). lia.
Qed.
End invariant.

(** ** Schedules *)

Lemma run_actions_steps {Q} `{MaxQueue pending Q} acts (s s' : ThreadPool Q) :
  run_actions acts s = Some (Ret s') -> rtc pool_step s s'.
Proof.
  revert s. induction acts as [|a acts IH]; intros s E; cbn [run_actions] in E.
  - injection E as <-. constructor.
  - destruct (exec a s) as [[s1|]|] eqn:Ea; try done. eapply rtc_l; [by econstructor | by apply IH].
Qed.

Abbreviation TestPool := (ThreadPool (list_queue TaskCmp)).

(** A task is submitted to the pool, which then is started with two workers; two
    more are submitted, one is cancelled, and the most urgent
    of the others is started while the limit holds back a fourth. *)
Definition busy_schedule : list action :=
  [ActSubmit NORMAL 1 0; ActStart 2 3; ActSubmit HIGH 2 0; ActSubmit LOW 3 0; ActCancel 0; ActOther; ActSubmit EMERGENCY 4 0;
   ActWorker 0; ActWorker 0; ActWorker 1].

Lemma running_pool_ok_witness :
  exists s : TestPool, run_actions busy_schedule (ThreadPool_init 0) = Some (Ret s) /\ executed s = [1]
    /\ wf_pool s /\ ~ pool_faults s.
Proof.
  destruct (run_actions busy_schedule (ThreadPool_init 0 : TestPool)) as [[s|]|] eqn:E; [|exfalso; by vm_compute in E..].
  exists s. split; [done|].
  assert (Hs : (match run_actions busy_schedule (ThreadPool_init 0 : TestPool) with
                | Some (Ret s) => (executed s, stop s) | _ => ([], true) end) = ([1], false)).
  { vm_compute. reflexivity. }
  rewrite E in Hs. injection Hs as Hx Hs. split; [exact Hx|].
  destruct (running_pool_ok 0 s (run_actions_steps _ _ _ E) Hs) as (Hwf & Hf & _). split; [exact Hwf|exact Hf].
Defined.

(** The schedule of the race. *)
Definition drain_schedule : list action :=
  [ActStart 2 0; ActSubmit NORMAL 1 0; ActStop; ActStopNotify; ActWorker 0; ActWorker 0; ActWorker 0; ActWorker 1; ActWorker 1;
   ActWorker 1; ActWorker 0].

(** Stopping a pool of two workers can go wrong.  The loops that discard the
    pending tasks run without the mutex: with one task pending, both workers can
    read it as the top of the queue, and the second then pops an empty queue
    and deletes a deleted task. *)
Theorem stop_race : exists s : TestPool, rtc pool_step (ThreadPool_init 0) s /\ stop s = true /\ pool_faults s.
Proof.
  destruct (run_actions drain_schedule (ThreadPool_init 0 : TestPool)) as [[s|]|] eqn:E; [|exfalso; by vm_compute in E..].
  exists s. split; [exact (run_actions_steps _ _ _ E)|].
  assert (Hs : (match run_actions drain_schedule (ThreadPool_init 0 : TestPool) with
                | Some (Ret s) => (stop s, exec (ActWorker 1) s) | _ => (false, None) end)
               = (true, Some (Throw UndefinedBehaviour))).
  { vm_compute. reflexivity. }
  rewrite E in Hs. injection Hs as Hs Hf. split; [exact Hs|]. by exists (ActWorker 1), UndefinedBehaviour.
Qed.
