(* ===== verification/PoolProgress.v ===== *)
(** * The thread pool of net/ThreadPool: priorities, progress and stopping

    No submitted task waits while every worker sleeps; workers left alone start
    or discard every accepted task; the most urgent task is started first; a
    worker on its way to sleep misses the notification of [Stop]. *)

From S2P Require Import Prelude PQueue ThreadPool.
Local Open Scope Z_scope.

Section progress.
Context {Q : Type} `{HQ : MaxQueueLaws pending Q TaskCmp}.
Implicit Types (s : ThreadPool Q) (p i : nat) (t : TaskStruct).

(** ** What the actions of a running pool do *)

(** The pool with one more task, before the notification. *)
Definition submitted (prio : TaskPriority) (f : nat) s : ThreadPool Q :=
  let p := fresh (dom (tasks s)) in
  mkPool (<[p := mkTask f (next_task_id s) false prio]> (tasks s)) (<[next_task_id s := p]> (tasks_map s))
    (q_push (mkPending p prio) (pending_tasks s)) (pending_size s) (stop s) (next_task_id s + 1)
    (workers s) (executed s) (cancelled s) (others s).

Inductive effect s : ThreadPool Q -> Prop :=
| EfNone : effect s s
| EfThreads n limit : effect s (Start n limit s)
| EfSubmit prio f who : mutex_free s = true -> effect s (notify_one who (submitted prio f s))
| EfCancel id p t : tasks_map s !! id = Some p -> tasks s !! p = Some t -> tid t = id ->
    effect s (log_cancelled id (set_tasks (<[p := mkTask (task t) (tid t) true (priority t)]> (tasks s)) s))
| EfStop : effect s (Stop s)
| EfNotify : effect s (notify_all s)
| EfMove i pc0 pc : workers s !! i = Some pc0 -> (forall p, pc0 <> Running p) -> idle pc ->
    (pc = ToSleep -> GetPendingTasks s = 0%nat) -> (pc = Asleep -> pc0 = ToSleep) -> effect s (set_pc i pc s)
| EfDiscard i e t : workers s !! i = Some AtWait -> q_top (pending_tasks s) = Some e -> taken i e t s ->
    canceled t = true -> effect s (set_pc i AtLoop (set_tasks (delete (p_ptr e) (tasks s)) (unlink e t s)))
| EfStart i e t : workers s !! i = Some AtWait -> q_top (pending_tasks s) = Some e -> taken i e t s ->
    canceled t = false -> effect s (set_pc i (Running (p_ptr e)) (log_executed (tid t) (unlink e t s)))
| EfOther : effect s (take_id s)
| EfFinish i p : workers s !! i = Some (Running p) ->
    effect s (set_pc i AtLoop (set_tasks (delete p (tasks s)) s)).

Lemma fresh_id s : wf_pool s -> tasks_map s !! next_task_id s = None.
Proof.
  intros Hwf. destruct (tasks_map s !! next_task_id s) eqn:E; [|done]. destruct (wp_map s Hwf _ _ E) as (_ & t & Ht & Et).
  apply (wp_ids s Hwf) in Ht. lia.
Qed.

Lemma worker_effect i s s' :
  wf_pool s -> stop s = false -> exec (ActWorker i) s = Some (Ret s') -> effect s s'.
Proof.
  intros Hwf Hstop E. cbn [exec] in E. destruct (workers s !! i) as [pc|] eqn:Hi; [|done].
  destruct (wp_pcs s Hwf i pc Hi) as [[->|[->|[->| ->]]]|[p ->]]; cbn [worker_step] in E; rewrite ?Hstop in E.
  - injection E as <-. apply (EfMove s i AtLoop); [done|done|right; by left|done|done].
  - destruct (mutex_free s); [|done]. cbn [negb] in E. destruct (Nat.ltb_spec 0 (GetPendingTasks s)).
    + destruct (take_task_spec i s Hwf Hi) as (e & t & He & Htk & Et); [done|]. rewrite Et in E.
      injection E as <-. destruct (canceled t) eqn:Ec; by econstructor.
    + injection E as <-. apply (EfMove s i AtWait); [done|done|right; right; by left|intros; lia|done].
  - injection E as <-. apply (EfMove s i ToSleep); [done|done|right; right; by right|done|done].
  - done.
  - destruct (wp_running s Hwf i p Hi) as [[t Ht] _]. unfold delete_task, task_at in E. rewrite Ht in E.
    mrun_in E. injection E as <-. by constructor.
Qed.

Lemma exec_effect a s s' : wf_pool s -> stop s = false -> exec a s = Some (Ret s') -> effect s s'.
Proof.
  intros Hwf Hstop E. destruct a as [n limit|prio f who|id| | |i|i|]; [| | | | | |by eapply worker_effect|]; cbn [exec] in E.
  - injection E as <-. constructor.
  - destruct (mutex_free s) eqn:Hm; [|done]. injection E as <-. unfold SubmitTask.
    destruct (_ && _); [constructor|]. cbn [snd]. rewrite (fresh_id s Hwf). by apply (EfSubmit s).
  - destruct (mutex_free s); [|done]. revert E. unfold CancelTask, task_at. case_match; mrun; [intros [= <-]; constructor|].
    destruct (tasks_map s !! id) as [p|] eqn:Hid; mrun; [|intros [= <-]; constructor].
    destruct (wp_map s Hwf id p Hid) as (_ & t & Ht & E). rewrite Ht. mrun. intros [= <-]. by apply EfCancel.
  - injection E as <-. constructor.
  - injection E as <-. constructor.
  - destruct (workers s !! i) as [[]|] eqn:Hi; try done. injection E as <-.
    apply (EfMove s i Asleep); [done|done|right; by left|done|done].
  - injection E as <-. constructor.
Qed.

Lemma notify_one_effect who s (P : ThreadPool Q -> Prop) :
  P s -> (forall i, workers s !! i = Some Asleep -> P (set_pc i AtWait s)) -> P (notify_one who s).
Proof. intros Hs Hw. destruct (notify_one_spec who s) as [[-> _]|(i & Hi & ->)]; auto. Qed.

(** ** Every accepted task is accounted for *)

(** [next] is the first id of the pool. *)
Record accounted (next : TaskId) s : Prop := {
  ac_next : next <= next_task_id s;
  ac_flag p t : tasks s !! p = Some t -> canceled t = true -> tid t ∈ cancelled s;
  ac_ids id : next <= id < next_task_id s -> id ∉ others s -> id ∈ executed s \/ id ∈ cancelled s \/ is_Some (tasks_map s !! id);
  ac_prio e : e ∈ q_elems (pending_tasks s) -> exists t, tasks s !! p_ptr e = Some t /\ priority t = p_priority e
}.

Lemma accounted_init next : accounted next (ThreadPool_init next).
Proof.
  split; cbn; [lia|..].
  - intros p t. by rewrite lookup_empty.
  - intros id ?. lia.
  - intros e. rewrite q_elems_empty. by intros ?%not_elem_of_nil.
Qed.

(** The places of the workers do not matter. *)
Lemma accounted_set_pc next i pc s : accounted next s -> accounted next (set_pc i pc s).
Proof. intros []. by split. Qed.

Lemma accounted_submitted next prio f s : wf_pool s -> accounted next s -> accounted next (submitted prio f s).
Proof.
  intros Hwf []. unfold submitted. pose proof (is_fresh (dom (tasks s))) as Hp%not_elem_of_dom. split; cbn; [lia|..].
  - intros p t. rewrite lookup_insert_Some. intros [[_ <-]|[_ Ht]]; [done|eauto].
  - intros id Hid Ho. destruct (decide (id = next_task_id s)) as [->|Hne].
    + right; right. rewrite lookup_insert_eq. by eexists.
    + rewrite lookup_insert_ne by done. apply ac_ids0; [lia|done].
  - intros e. rewrite q_elems_push, elem_of_cons. intros [->|He].
    + eexists. cbn. by rewrite lookup_insert_eq.
    + destruct (ac_prio0 e He) as (t & Ht & ?). exists t. rewrite lookup_insert_ne; [done|]. congruence.
Qed.

Lemma accounted_cancel next p t s : wf_pool s -> accounted next s -> tasks s !! p = Some t ->
  accounted next (log_cancelled (tid t) (set_tasks (<[p := mkTask (task t) (tid t) true (priority t)]> (tasks s)) s)).
Proof.
  intros Hwf [] Ht. split; cbn; [done|..].
  - intros q u. rewrite lookup_insert_Some. intros [[_ <-]|[_ Hu]] ?; [by left|right; eauto].
  - intros id Hid Ho. destruct (ac_ids0 id Hid Ho) as [|[|]]; [by left| |right; by right]. right; left. by right.
  - intros e He. destruct (ac_prio0 e He) as (u & Hu & E). destruct (decide (p_ptr e = p)) as [Ep|].
    + eexists. rewrite Ep, lookup_insert_eq. split; [done|]. cbn. congruence.
    + exists u. by rewrite lookup_insert_ne.
Qed.

Lemma accounted_take next i e t s x : accounted next s -> q_top (pending_tasks s) = Some e -> taken i e t s ->
  (executed x = executed s /\ canceled t = true /\ tasks x = delete (p_ptr e) (tasks s)
   \/ executed x = executed s ++ [tid t] /\ tasks x = tasks s) ->
  cancelled x = cancelled s -> others x = others s -> next_task_id x = next_task_id s -> pending_tasks x = q_pop (pending_tasks s) ->
  tasks_map x = delete (tid t) (tasks_map s) -> accounted next x.
Proof.
  intros Hac He Htk Hx Hc Hoth Hn Hp Hm. destruct Hac. pose proof (tk_task _ _ _ _ Htk) as Ht.
  split; rewrite ?Hc, ?Hoth, ?Hn, ?Hp, ?Hm; [done|..].
  - intros p u Hu. apply (ac_flag0 p u). destruct Hx as [(_ & _ & E)|[_ E]]; rewrite E in Hu; [|done].
    by apply lookup_delete_Some in Hu as [_ Hu].
  - intros id Hid Ho. destruct (decide (id = tid t)) as [->|Hne].
    + destruct Hx as [(_ & Hf & _)|[-> _]]; [right; left; eauto | left]. rewrite elem_of_app. right. by left.
    + rewrite lookup_delete_ne by done. destruct (ac_ids0 id Hid Ho) as [|[|]]; [left|right; by left|right; by right].
      destruct Hx as [(-> & _)|[-> _]]; [done|]. rewrite elem_of_app. by left.
  - intros e' He'. destruct (ac_prio0 e') as (u & Hu & E); [by eapply q_elem_pop|]. exists u. split; [|done].
    destruct Hx as [(_ & _ & ->)|[_ ->]]; [|done]. rewrite lookup_delete_ne; [done|].
    intros E'. apply (tk_nin _ _ _ _ Htk). rewrite E'. by apply list_elem_of_fmap_2.
Qed.

Lemma accounted_effect next s s' : wf_pool s -> accounted next s -> effect s s' -> accounted next s'.
Proof.
  intros Hwf Hac E. destruct E as [|n limit|prio f who _|id p t Hid Ht <-| | |i pc0 pc|i e t Hi He Htk Hc|i e t Hi He Htk Hc| |i p Hi].
  - done.
  - destruct Hac. by split.
  - pose proof (accounted_submitted next prio f s Hwf Hac) as H'.
    apply notify_one_effect; [done|]. intros i _. by apply accounted_set_pc.
  - by apply accounted_cancel.
  - destruct Hac. by split.
  - destruct Hac. by split.
  - by apply accounted_set_pc.
  - apply (accounted_take next i e t s); try done. by left.
  - apply (accounted_take next i e t s); try done. by right.
  - destruct Hac. split; cbn; [lia|done| |done].
    intros id Hid [Hne Ho]%not_elem_of_cons. apply ac_ids0; [lia|done].
  - apply accounted_set_pc. destruct Hac. split; cbn; try done.
    + intros q t [_ Ht]%lookup_delete_Some. eauto.
    + intros e He. destruct (ac_prio0 e He) as (t & Ht & ?). exists t. rewrite lookup_delete_ne; [done|].
      intros ->. apply (wp_running s Hwf i _ Hi). by apply list_elem_of_fmap_2.
Qed.

(** ** No task waits while every worker sleeps *)

Definition active s : Prop := exists i pc, workers s !! i = Some pc /\ pc <> Asleep /\ pc <> ToSleep.

Record awake s : Prop := {
  (* the mutex is held on the way to sleep, and the predicate was false *)
  aw_sleep i : workers s !! i = Some ToSleep -> GetPendingTasks s = 0%nat;
  aw_active : (0 < GetPendingTasks s)%nat -> workers s <> ∅ -> active s
}.

Lemma mutex_free_spec s i : mutex_free s = true -> workers s !! i <> Some ToSleep.
Proof. unfold mutex_free. rewrite bool_decide_eq_true. intros Hm Hi. by apply (Hm i ToSleep Hi). Qed.

Lemma mutex_taken_spec s : mutex_free s = false -> exists i, workers s !! i = Some ToSleep.
Proof.
  unfold mutex_free. rewrite bool_decide_eq_false. intros Hm.
  apply map_not_Forall in Hm as (i & pc & Hi & Hpc); [|solve_decision]. exists i. rewrite Hi.
  by destruct (decide (pc = ToSleep)) as [->|].
Qed.

(** A worker moves to [pc], the queue becoming [q]. *)
Lemma awake_move i pc s x :
  awake s -> workers x = <[i := pc]> (workers s) -> (GetPendingTasks x <= GetPendingTasks s)%nat ->
  (pc = ToSleep \/ pc = Asleep -> GetPendingTasks x = 0%nat) -> awake x.
Proof.
  intros [] Hw Hle Hpc. split.
  - intros j. rewrite Hw, lookup_insert_Some. intros [[_ ->]|[_ Hj]]; [auto|]. apply aw_sleep0 in Hj. lia.
  - intros Hpos _. exists i, pc. rewrite Hw, lookup_insert_eq. split; [done|]. split; intros ->; rewrite Hpc in Hpos; auto; lia.
Qed.

Lemma awake_submitted prio f who s : mutex_free s = true -> awake (notify_one who (submitted prio f s)).
Proof.
  intros Hm. assert (Hn : forall i, workers s !! i <> Some ToSleep) by (intros i; by apply mutex_free_spec).
  destruct (notify_one_spec who (submitted prio f s)) as [[-> Hs]|(i & Hi & ->)]; split; cbn.
  - by intros i ?%Hn.
  - intros _ Hne. apply map_choose in Hne as (i & pc & Hi). exists i, pc. split; [done|]. split; intros ->; [|by apply Hn in Hi].
    apply (sleepers_spec i (submitted prio f s)) in Hi. rewrite Hs in Hi. by apply not_elem_of_nil in Hi.
  - intros j. rewrite lookup_insert_Some. by intros [[_ ?]|[_ ?%Hn]].
  - intros _ _. exists i, AtWait. cbn. by rewrite lookup_insert_eq.
Qed.

Lemma awake_Start n limit s : awake s -> awake (Start n limit s).
Proof.
  intros []. split.
  - intros i [Hi|]%workers_Start; [by apply (aw_sleep0 i)|done].
  - intros Hpos Hne. destruct (decide (workers s = ∅)) as [E|E].
    + apply map_choose in Hne as (i & pc & Hi). exists i, pc. split; [done|].
      apply workers_Start in Hi as [Hi| ->]; [by rewrite E in Hi|done].
    + destruct aw_active0 as (i & pc & Hi & ?); [done..|]. exists i, pc. split; [by apply lookup_union_Some_l|done].
Qed.

Lemma awake_effect s s' : wf_pool s -> awake s -> effect s s' -> awake s'.
Proof.
  intros Hwf Haw E. destruct E as [|n limit|prio f who Hm|id p t Hid Ht <-| | |i pc0 pc Hi _ _ Hsl Has|i e t Hi He Htk Hc|i e t Hi He Htk Hc| |i p Hi].
  - done.
  - by apply awake_Start.
  - by apply awake_submitted.
  - destruct Haw. by split.
  - destruct Haw. by split.
  - destruct Haw. split.
    + intros i (pc & Hi & E)%lookup_wake. destruct pc; try done. by apply (aw_sleep0 i).
    + intros Hpos Hne. destruct aw_active0 as (i & pc & Hi & H1 & H2); [done|intros E; apply Hne; cbn; by rewrite E, fmap_empty|].
      exists i, pc. cbn. rewrite lookup_fmap, Hi. by destruct pc.
  - apply (awake_move i pc s); [done..|]. intros [->| ->]; [auto|]. apply (aw_sleep s Haw i). rewrite Hi. by rewrite Has.
  - apply (awake_move i AtLoop s); [done..| |naive_solver]. pose proof (q_size_pop _ _ He).
    unfold GetPendingTasks, q_size in *. cbn. lia.
  - apply (awake_move i (Running (p_ptr e)) s); [done..| |naive_solver]. pose proof (q_size_pop _ _ He).
    unfold GetPendingTasks, q_size in *. cbn. lia.
  - destruct Haw. by split.
  - apply (awake_move i AtLoop s); [done..|naive_solver].
Qed.

Record live_pool (next : TaskId) s : Prop := {
  lv_wf : wf_pool s;
  lv_accounted : accounted next s;
  lv_awake : awake s
}.

Lemma live_init next : live_pool next (ThreadPool_init next).
Proof.
  split; [apply wf_pool_init|apply accounted_init|]. split; [done|].
  unfold GetPendingTasks. cbn. rewrite q_elems_empty. cbn. lia.
Qed.

Lemma live_exec next a s s' :
  live_pool next s -> stop s = false -> stop s' = false -> exec a s = Some (Ret s') -> live_pool next s'.
Proof.
  intros [Hwf Hac Haw] Hs Hs' E. pose proof (exec_ok a s Hwf Hs) as Hok. rewrite E in Hok.
  destruct Hok as [|Hwf']; [congruence|]. apply exec_effect in E; [|done..].
  split; [done|exact (accounted_effect next s s' Hwf Hac E)|exact (awake_effect s s' Hwf Haw E)].
Qed.

(** The threads of the pool stay. *)
Lemma dom_notify_one who s : dom (workers (notify_one who s)) = dom (workers s).
Proof.
  apply (notify_one_effect who s (fun x => dom (workers x) = dom (workers s))); [done|]. intros i Hi. cbn.
  by rewrite dom_insert_lookup_L.
Qed.

Lemma effect_dom s s' : effect s s' -> dom (workers s) ⊆ dom (workers s').
Proof.
  intros []; try done; cbn; try (by rewrite dom_insert_lookup_L).
  - rewrite dom_union_L. set_solver.
  - by rewrite dom_notify_one.
  - by rewrite dom_fmap_L.
Qed.

Lemma effect_workers s s' : effect s s' -> workers s <> ∅ -> workers s' <> ∅.
Proof.
  intros E%effect_dom Hne Hemp. rewrite Hemp, dom_empty_L in E. apply Hne, dom_empty_iff_L. set_solver.
Qed.

Lemma reachable_live next s : rtc pool_step (ThreadPool_init next) s -> stop s = false -> live_pool next s.
Proof.
  intros Hsteps. revert s Hsteps. refine (rtc_ind_r _ _ _ _); [intros _; apply live_init|].
  intros s s' _ Hstep IH Hs'. destruct Hstep as [a s s' E]. assert (Hs : stop s = false).
  { destruct (stop s) eqn:Hs; [|done]. by rewrite (exec_stop a s s' E Hs) in Hs'. }
  by eapply live_exec; [apply IH|..].
Qed.

(** ** Workers left alone finish *)

Definition worker_only (acts : list action) : Prop := Forall (fun a => exists i, a = ActWorker i) acts.

Definition rank (pc : Pc) : nat :=
  match pc with Running _ => 4 | AtLoop => 3 | AtWait => 2 | ToSleep => 1 | _ => 0 end.
Definition ranks (m : gmap nat Pc) : nat := sum_list ((fun kv => rank kv.2) <$> map_to_list m).
(** An upper bound of the steps the workers make before they all sleep. *)
Definition load s : nat := (3 * GetPendingTasks s + ranks (workers s))%nat.

Lemma ranks_insert m i pc0 pc : m !! i = Some pc0 -> (ranks (<[i := pc]> m) + rank pc0 = ranks m + rank pc)%nat.
Proof.
  intros Hi. unfold ranks. rewrite <-(map_to_list_delete m i pc0 Hi).
  rewrite <-(map_to_list_delete (<[i:=pc]> m) i pc) by by rewrite lookup_insert_eq.
  rewrite delete_insert_eq. cbn. lia.
Qed.

Lemma load_set_pc i pc0 pc s x : workers s !! i = Some pc0 -> workers x = <[i := pc]> (workers s) ->
  (3 * GetPendingTasks x + rank pc < 3 * GetPendingTasks s + rank pc0)%nat -> (load x < load s)%nat.
Proof. intros Hi Hw Hlt. unfold load. rewrite Hw. pose proof (ranks_insert (workers s) i pc0 pc Hi). lia. Qed.

Lemma worker_load i s s' :
  wf_pool s -> stop s = false -> exec (ActWorker i) s = Some (Ret s') ->
  (load s' < load s)%nat /\ stop s' = false /\ next_task_id s' = next_task_id s /\ others s' = others s.
Proof.
  intros Hwf Hstop E. cbn [exec] in E. destruct (workers s !! i) as [pc|] eqn:Hi; [|done].
  destruct (wp_pcs s Hwf i pc Hi) as [[->|[->|[->| ->]]]|[p ->]]; cbn [worker_step] in E; rewrite ?Hstop in E.
  - injection E as <-. split; [|done]. apply (load_set_pc i AtLoop AtWait); [done..|]. cbn [rank]. unfold GetPendingTasks. cbn. lia.
  - destruct (mutex_free s); [|done]. cbn [negb] in E. destruct (Nat.ltb_spec 0 (GetPendingTasks s)) as [Hpos|].
    + destruct (take_task_spec i s Hwf Hi Hpos) as (e & t & He & _ & Et). rewrite Et in E. injection E as <-.
      pose proof (q_size_pop _ _ He) as Hsz. unfold q_size in Hsz.
      destruct (canceled t); (split; [|done]);
        (eapply (load_set_pc i AtWait); [done|done|]); unfold GetPendingTasks in *; cbn; lia.
    + injection E as <-. split; [|done]. apply (load_set_pc i AtWait ToSleep); [done..|]. unfold GetPendingTasks. cbn. lia.
  - injection E as <-. split; [|done]. apply (load_set_pc i ToSleep Asleep); [done..|]. unfold GetPendingTasks. cbn. lia.
  - done.
  - destruct (wp_running s Hwf i p Hi) as [[t Ht] _]. unfold delete_task, task_at in E. rewrite Ht in E.
    mrun_in E. injection E as <-. split; [|done]. apply (load_set_pc i (Running p) AtLoop); [done..|]. unfold GetPendingTasks. cbn. lia.
Qed.

(** Nothing is left to do: no task is stored, and each accepted one (every id from
    [next] on that no other pool took) was started or cancelled. *)
Definition drained (next : TaskId) s : Prop :=
  GetPendingTasks s = 0%nat /\ tasks s = ∅ /\ forall id, next <= id < next_task_id s -> id ∉ others s -> id ∈ executed s \/ id ∈ cancelled s.

Lemma asleep_quiet s : map_Forall (fun _ pc => pc = Asleep) (workers s) -> forall i, exec (ActWorker i) s = None.
Proof. intros Hall i. cbn [exec]. destruct (workers s !! i) as [pc|] eqn:Hi; [|done]. by rewrite (Hall i pc Hi). Qed.

Lemma quiet_drained next s : live_pool next s -> stop s = false -> workers s <> ∅ ->
  (forall i, exec (ActWorker i) s = None) -> drained next s.
Proof.
  intros [Hwf Hac Haw] Hstop Hne Hq. assert (Hasleep : forall i pc, workers s !! i = Some pc -> pc = Asleep).
  { intros i pc Hi. specialize (Hq i) as Hqi. cbn [exec] in Hqi. rewrite Hi in Hqi.
    destruct (wp_pcs s Hwf i pc Hi) as [[->|[->|[->| ->]]]|[p ->]]; try done. cbn in Hqi.
    destruct (mutex_free s) eqn:Hm; [|exfalso]; [by rewrite Hstop in Hqi|].
    apply mutex_taken_spec in Hm as [j Hj]. specialize (Hq j). cbn [exec] in Hq. by rewrite Hj in Hq. }
  assert (Hp : GetPendingTasks s = 0%nat).
  { destruct (decide (0 < GetPendingTasks s)%nat) as [Hpos|]; [|lia].
    destruct (aw_active s Haw Hpos Hne) as (i & pc & Hi & Hn & _). by apply Hasleep in Hi. }
  assert (Hptrs : pending_ptrs s = []) by (unfold pending_ptrs; by rewrite (nil_length_inv _ Hp)).
  split; [done|]. split.
  - apply map_empty. intros p. destruct (tasks s !! p) as [t|] eqn:Ht; [|done].
    destruct (wp_owned s Hwf p) as [Hin|[i Hi%Hasleep]]; [by eexists| |done]. rewrite Hptrs in Hin. by apply not_elem_of_nil in Hin.
  - intros id Hid Ho. destruct (ac_ids next s Hac id Hid Ho) as [|[|[p Hm]]]; [by left|by right|].
    destruct (wp_map s Hwf id p Hm) as [Hin _]. rewrite Hptrs in Hin. by apply not_elem_of_nil in Hin.
Qed.

Lemma worker_run next acts s r : live_pool next s -> stop s = false -> worker_only acts -> run_actions acts s = Some r ->
  exists s', r = Ret s' /\ live_pool next s' /\ stop s' = false /\ next_task_id s' = next_task_id s /\ others s' = others s
    /\ (length acts + load s' <= load s)%nat /\ (workers s <> ∅ -> workers s' <> ∅).
Proof.
  intros Hlv Hs Hacts. revert s Hlv Hs. induction Hacts as [|a acts [i ->] Hacts IH]; intros s Hlv Hs E.
  - injection E as <-. exists s. split_and!; try done; lia.
  - cbn [run_actions] in E. pose proof (exec_ok (ActWorker i) s (lv_wf next s Hlv) Hs) as Hok.
    destruct (exec (ActWorker i) s) as [[s1|f]|] eqn:E1; [|done|done].
    destruct (worker_load i s s1 (lv_wf next s Hlv) Hs E1) as (Hlt & Hs1 & Hid & Ho).
    assert (Hd : workers s <> ∅ -> workers s1 <> ∅) by (apply effect_workers; eapply exec_effect; [apply Hlv|done..]).
    destruct (IH s1) as (s' & -> & ? & ? & ? & ? & ? & ?); [by apply (live_exec next (ActWorker i) s)|done|done|].
    exists s'. split_and!; try done; [congruence..|cbn [length]; lia|auto].
Qed.

(** C9: progress of a running pool.  From every state that any interleaving
    reaches once a thread was started, the workers left alone make at most [load]
    steps, whatever their order,
    and none of them fails; and when none of them can make a step (they all
    sleep) every task accepted so far, before the start or after it, was started
    or cancelled, and every
    [TaskStruct] is deleted.  No task is forgotten while the workers sleep. *)
Theorem pool_drains (next : TaskId) s acts r :
  rtc pool_step (ThreadPool_init next) s -> workers s <> ∅ -> stop s = false ->
  worker_only acts -> run_actions acts s = Some r ->
  exists s', r = Ret s' /\ (length acts <= load s)%nat /\ next_task_id s' = next_task_id s /\ others s' = others s
    /\ ((forall i, exec (ActWorker i) s' = None) -> drained next s').
Proof.
  intros Hr Hn Hs Hacts E.
  destruct (worker_run next acts s r (reachable_live next s Hr Hs) Hs Hacts E) as (s' & -> & Hlv' & Hs' & Hid & Ho & Hle & Hd').
  exists s'. do 4 (split; [done || lia|]). apply quiet_drained; auto.
Qed.

(** A worker that starts a task takes the top of the queue. *)
Lemma worker_start i s s' : wf_pool s -> stop s = false -> exec (ActWorker i) s = Some (Ret s') ->
  executed s' = executed s
  \/ exists e t, workers s !! i = Some AtWait /\ q_top (pending_tasks s) = Some e /\ taken i e t s /\ canceled t = false
     /\ s' = set_pc i (Running (p_ptr e)) (log_executed (tid t) (unlink e t s)).
Proof.
  intros Hwf Hstop E. cbn [exec] in E. destruct (workers s !! i) as [pc|] eqn:Hi; [|done].
  destruct (wp_pcs s Hwf i pc Hi) as [[->|[->|[->| ->]]]|[p ->]]; cbn [worker_step] in E; rewrite ?Hstop in E.
  - injection E as <-. by left.
  - destruct (mutex_free s); [|done]. cbn [negb] in E. destruct (Nat.ltb_spec 0 (GetPendingTasks s)) as [Hpos|];
      [|injection E as <-; by left].
    destruct (take_task_spec i s Hwf Hi Hpos) as (e & t & He & Htk & Et). rewrite Et in E. injection E as <-.
    destruct (canceled t) eqn:Hc; [by left|]. right. exists e, t. by split_and!.
  - injection E as <-. by left.
  - done.
  - unfold delete_task, task_at in E. destruct (tasks s !! p); mrun_in E; [|done]. injection E as <-. by left.
Qed.

(** C34: priorities.  When a worker starts a task, no pending task is more urgent
    than it, and it was not cancelled. *)
Theorem starts_most_urgent (next : TaskId) s i s' id :
  rtc pool_step (ThreadPool_init next) s -> stop s = false ->
  exec (ActWorker i) s = Some (Ret s') -> executed s' = executed s ++ [id] ->
  exists p t, workers s' !! i = Some (Running p) /\ tasks s !! p = Some t /\ tid t = id /\ canceled t = false
    /\ forall q u, q ∈ pending_ptrs s -> tasks s !! q = Some u ->
         TaskPriority_value (priority u) <= TaskPriority_value (priority t).
Proof.
  intros Hr Hs E Hx. destruct (reachable_live next s Hr Hs) as [Hwf Hac _].
  assert (Hno : executed s <> executed s ++ [id]) by (intros E'%(f_equal length); rewrite length_app in E'; cbn in E'; lia).
  destruct (worker_start i s s' Hwf Hs E) as [|(e & t & Hi & He & Htk & Hc & ->)]; [congruence|].
  cbn [executed set_pc log_executed unlink set_map set_pending] in Hx. apply (inj _) in Hx. injection Hx as <-.
  exists (p_ptr e), t. split; [cbn; by rewrite lookup_insert_eq|]. split; [apply Htk|]. split_and!; [done|done|].
  intros q u (e' & -> & He')%list_elem_of_fmap Hu.
  destruct (ac_prio next s Hac e' He') as (u' & Hu' & Eu). destruct (ac_prio next s Hac e (q_top_elem _ _ He)) as (t' & Ht' & Et).
  rewrite (tk_task _ _ _ _ Htk) in Ht'. simplify_eq. rewrite Eu, Et. exact (q_top_max _ _ _ He He').
Qed.

(** ** The stop of a pool of one worker *)

(** The task a worker holds. *)
Definition holds (pc : Pc) : option tptr :=
  match pc with Running p | AtErase p | AtDelete p => Some p | _ => None end.

(** The invariant of the pool once [Stop] has notified the only worker. *)
Record stopping pc s : Prop := {
  st_stop : stop s = true;
  st_worker : workers s = {[0%nat := pc]};
  st_nodup : NoDup (pending_ptrs s);
  st_live p : is_Some (tasks s !! p) <-> p ∈ pending_ptrs s \/ holds pc = Some p;
  st_held p : holds pc = Some p -> p ∉ pending_ptrs s;
  st_pc : match pc with
          | AtTop => (0 < GetPendingTasks s)%nat
          | AtPop p => exists e, q_top (pending_tasks s) = Some e /\ p_ptr e = p
          | Exited => GetPendingTasks s = 0%nat
          | ToSleep | Asleep => False
          | _ => True
          end
}.

Definition stop_rank (pc : Pc) : nat :=
  match pc with
  | Running _ | AtErase _ => 5 | AtLoop | AtWait | AtDelete _ => 4
  | AtDrain => 3 | AtTop => 2 | AtPop _ => 1 | _ => 0
  end.
Definition stop_load pc s : nat := (5 * GetPendingTasks s + stop_rank pc)%nat.

(** The worker moves and holds what it held. *)
Lemma stopping_move pc pc' s :
  stopping pc s -> holds pc' = holds pc ->
  match pc' with
  | AtTop => (0 < GetPendingTasks s)%nat
  | AtPop p => exists e, q_top (pending_tasks s) = Some e /\ p_ptr e = p
  | Exited => GetPendingTasks s = 0%nat
  | ToSleep | Asleep => False
  | _ => True
  end -> stopping pc' (set_pc 0 pc' s).
Proof.
  intros [] Hh Hpc. split; cbn; rewrite ?Hh; try done.
  by rewrite st_worker0, insert_singleton_eq.
Qed.

(** It deletes the task it holds. *)
Lemma stopping_delete pc pc' p s :
  stopping pc s -> holds pc = Some p -> pc' = AtLoop \/ pc' = AtDrain ->
  exists s', delete_task p s = Ret s' /\ stopping pc' (set_pc 0 pc' s') /\ GetPendingTasks s' = GetPendingTasks s.
Proof.
  intros [] Hh Hpc. destruct (proj2 (st_live0 p) (or_intror Hh)) as [t Ht].
  unfold delete_task, task_at. rewrite Ht. mrun. eexists. split; [done|]. split; [|done].
  assert (Hh' : holds pc' = None) by (by destruct Hpc as [->| ->]).
  split; cbn; rewrite ?Hh'; try done.
  - by rewrite st_worker0, insert_singleton_eq.
  - intros q. rewrite lookup_delete_is_Some, st_live0, Hh. unfold pending_ptrs. cbn. split.
    + intros [Hne [|[= ->]]]; [by left | done].
    + intros [Hq|]; [|done]. split; [|by left]. intros ->. by apply (st_held0 q).
  - by destruct Hpc as [->| ->].
Qed.

Lemma stopping_map pc m s : stopping pc s -> stopping pc (set_map m s).
Proof. intros []. by split. Qed.

(** It pops the task it has read. *)
Lemma stopping_pop e s : stopping (AtPop (p_ptr e)) s -> q_top (pending_tasks s) = Some e ->
  stopping (AtErase (p_ptr e)) (set_pc 0 (AtErase (p_ptr e)) (set_pending (q_pop (pending_tasks s)) s)).
Proof.
  intros [] He. assert (Hperm : pending_ptrs s ≡ₚ p_ptr e :: (p_ptr <$> q_elems (q_pop (pending_tasks s)))).
  { unfold pending_ptrs. by rewrite (q_top_some _ _ He). }
  rewrite Hperm in st_nodup0. apply NoDup_cons in st_nodup0 as [Hnin Hnd].
  split; unfold pending_ptrs; cbn; try done.
  - by rewrite st_worker0, insert_singleton_eq.
  - intros p. rewrite st_live0, Hperm, elem_of_cons. cbn. naive_solver.
  - by intros p [= <-].
Qed.

Lemma stopping_step pc s r : stopping pc s -> exec (ActWorker 0) s = Some r ->
  exists pc' s', r = Ret s' /\ stopping pc' s' /\ (stop_load pc' s' < stop_load pc s)%nat.
Proof.
  intros Hst E. pose proof Hst as []. cbn [exec] in E. rewrite st_worker0, lookup_singleton_eq in E.
  destruct pc as [| | | |p| | |p|p|p|]; cbn [worker_step] in E; rewrite ?st_stop0 in E; try done.
  - injection E as <-. exists AtDrain. eexists. split; [done|]. split; [by apply (stopping_move AtLoop)|].
    unfold stop_load, GetPendingTasks. cbn. lia.
  - destruct (mutex_free s) eqn:Hm; [|exfalso].
    + injection E as <-. exists AtDrain. eexists. split; [done|]. split; [by apply (stopping_move AtWait)|].
      unfold stop_load, GetPendingTasks. cbn. lia.
    + apply mutex_taken_spec in Hm as [j Hj]. rewrite st_worker0 in Hj. by apply lookup_singleton_Some in Hj as [_ ?].
  - destruct (stopping_delete (Running p) AtLoop p s Hst) as (s' & Es & Hs' & Hp); [done|by left|].
    rewrite Es in E. mrun_in E. injection E as <-. exists AtLoop. eexists. split; [done|]. split; [done|].
    unfold stop_load, GetPendingTasks in *. cbn. lia.
  - injection E as <-. exists (if (0 <? GetPendingTasks s)%nat then AtTop else Exited). eexists. split; [done|].
    destruct (Nat.ltb_spec 0 (GetPendingTasks s)).
    + split; [by apply (stopping_move AtDrain)|]. unfold stop_load, GetPendingTasks. cbn. lia.
    + split; [apply (stopping_move AtDrain); [done|done|lia]|]. unfold stop_load, GetPendingTasks. cbn. lia.
  - destruct (q_top_size (pending_tasks s)) as [e He]; [unfold q_size, GetPendingTasks in *; lia|].
    rewrite He in E. injection E as <-. exists (AtPop (p_ptr e)). eexists. split; [done|].
    split; [apply (stopping_move AtTop); [done|done|by exists e]|]. unfold stop_load, GetPendingTasks. cbn. lia.
  - destruct st_pc0 as (e & He & <-). pose proof (stopping_pop e s Hst He) as Hst'.
    pose proof (q_size_pop _ _ He) as Hq. rewrite (proj2 (Nat.ltb_lt _ _)) in E by (unfold GetPendingTasks, q_size in *; lia).
    injection E as <-. exists (AtErase (p_ptr e)). eexists. split; [done|]. split; [done|].
    unfold stop_load, GetPendingTasks, q_size in *. cbn. lia.
  - destruct (proj2 (st_live0 p) (or_intror eq_refl)) as [t Ht]. unfold task_at in E. rewrite Ht in E. mrun_in E.
    injection E as <-. exists (AtDelete p). eexists. split; [done|]. split; [|unfold stop_load, GetPendingTasks; cbn; lia].
    exact (stopping_move (AtErase p) (AtDelete p) (set_map (delete (tid t) (tasks_map s)) s)
             (stopping_map _ _ _ Hst) eq_refl I).
  - destruct (stopping_delete (AtDelete p) AtDrain p s Hst) as (s' & Es & Hs' & Hp); [done|by right|].
    rewrite Es in E. mrun_in E. injection E as <-. exists AtDrain. eexists. split; [done|]. split; [done|].
    unfold stop_load, GetPendingTasks in *. cbn. lia.
Qed.

Lemma stopping_start pc s : wf_pool s -> workers s = {[0%nat := pc]} -> pc <> ToSleep ->
  stopping (wake pc) (notify_all (Stop s)).
Proof.
  intros Hwf Hw Hpc. assert (Hpcs : idle pc \/ exists p, pc = Running p).
  { apply (wp_pcs s Hwf 0). by rewrite Hw, lookup_singleton_eq. }
  assert (Hrun : forall p, holds (wake pc) = Some p -> workers s !! 0%nat = Some (Running p)).
  { intros p Hh. rewrite Hw, lookup_singleton_eq. destruct Hpcs as [[->|[->|[->| ->]]]|[q ->]]; try done.
    by injection Hh as ->. }
  split; try done.
  - cbn. by rewrite Hw, map_fmap_singleton.
  - apply Hwf.
  - intros p. unfold pending_ptrs. cbn. split.
    + intros [|[i Hi]]%(wp_owned s Hwf p); [by left|right]. rewrite Hw in Hi. by apply lookup_singleton_Some in Hi as [_ ->].
    + intros [Hin|Hh].
      * destruct (wp_pending s Hwf p Hin) as (t & -> & _). by eexists.
      * by apply (wp_running s Hwf 0), Hrun.
  - intros p Hh. by apply (wp_running s Hwf 0), Hrun.
  - destruct Hpcs as [[->|[->|[->| ->]]]|[p ->]]; done.
Qed.

Lemma stopping_run acts pc s r : stopping pc s -> Forall (fun a => a = ActWorker 0) acts -> run_actions acts s = Some r ->
  exists pc' s', r = Ret s' /\ stopping pc' s' /\ (length acts + stop_load pc' s' <= stop_load pc s)%nat.
Proof.
  intros Hst Hacts. revert pc s Hst. induction Hacts as [|a acts -> Hacts IH]; intros pc s Hst E.
  - injection E as <-. exists pc, s. split; [done|]. split; [done|]. cbn. lia.
  - cbn [run_actions] in E. destruct (exec (ActWorker 0) s) as [r1|] eqn:E1; [|done].
    destruct (stopping_step pc s r1 Hst E1) as (pc1 & s1 & -> & Hst1 & Hlt).
    destruct (IH pc1 s1 Hst1 E) as (pc' & s' & -> & Hst' & Hle). exists pc', s'. split; [done|]. split; [done|]. cbn [length]. lia.
Qed.

Lemma stopping_end pc s : stopping pc s -> exec (ActWorker 0) s = None -> workers s = {[0%nat := Exited]} /\ tasks s = ∅.
Proof.
  intros Hst E. pose proof Hst as []. cbn [exec] in E. rewrite st_worker0, lookup_singleton_eq in E.
  destruct pc; cbn [worker_step] in E; try done.
  - destruct (mutex_free s) eqn:Hm; [by rewrite st_stop0 in E|]. apply mutex_taken_spec in Hm as [j Hj].
    rewrite st_worker0 in Hj. by apply lookup_singleton_Some in Hj as [_ ?].
  - split; [done|]. apply map_empty. intros p. apply eq_None_not_Some. rewrite st_live0. unfold pending_ptrs.
    rewrite (nil_length_inv _ st_pc0). cbn. intros [?%not_elem_of_nil|]; done.
Qed.

(** Stopping a pool of one worker.  From every state that any interleaving
    reaches in which the worker is not on its way to sleep, [Stop] does what it
    is meant to: the worker makes at most [stop_load] steps, none of them fails,
    and when it can make no more it has returned, so that [join] does, and every
    [TaskStruct] is deleted. *)
Theorem single_worker_stops (next : TaskId) s pc acts r :
  rtc pool_step (ThreadPool_init next) s -> stop s = false -> workers s = {[0%nat := pc]} -> pc <> ToSleep ->
  Forall (fun a => a = ActWorker 0) acts -> run_actions acts (notify_all (Stop s)) = Some r ->
  exists s', r = Ret s' /\ (length acts <= stop_load (wake pc) s)%nat
    /\ (exec (ActWorker 0) s' = None -> workers s' = {[0%nat := Exited]} /\ tasks s' = ∅).
Proof.
  intros Hr Hs Hw Hne Hacts E. destruct (reachable_live next s Hr Hs) as [Hwf _ _].
  destruct (stopping_run acts (wake pc) (notify_all (Stop s)) r) as (pc' & s' & -> & Hst & Hle);
    [by apply stopping_start|done|done|].
  exists s'. split; [done|]. split; [change (stop_load (wake pc) (notify_all (Stop s))) with (stop_load (wake pc) s) in Hle; lia|].
  by apply stopping_end with pc'.
Qed.
End progress.

(** ** Schedules *)

(** Two tasks come before the threads and one after; one is cancelled, a task of
    another pool takes an id, another is
    taken; then the workers are left alone. *)
Definition quiet_schedule : list action :=
  [ActSubmit LOW 1 0; ActSubmit NORMAL 2 0; ActStart 2 0; ActSubmit EMERGENCY 3 0; ActOther; ActCancel 0;
   ActWorker 0].
Definition finish_schedule : list action :=
  ActWorker <$> [0; 0; 1; 1; 1; 1; 0; 0; 0; 0; 0; 1; 1]%nat.

Lemma pool_drains_witness :
  exists s s' : TestPool, run_actions quiet_schedule (ThreadPool_init 0) = Some (Ret s)
    /\ run_actions finish_schedule s = Some (Ret s') /\ executed s' = [2; 1] /\ drained 0 s'.
Proof.
  destruct (run_actions quiet_schedule (ThreadPool_init 0 : TestPool)) as [[s|]|] eqn:E; [|exfalso; by vm_compute in E..].
  assert (Hs : (match run_actions quiet_schedule (ThreadPool_init 0 : TestPool) with
                | Some (Ret s) => (stop s, bool_decide (workers s = ∅)) | _ => (true, true) end) = (false, false))
    by (vm_compute; reflexivity).
  assert (Hx : (match run_actions quiet_schedule (ThreadPool_init 0 : TestPool) with
                | Some (Ret s) => match run_actions finish_schedule s with
                                  | Some (Ret s') => Some (executed s', workers s') | _ => None end
                | _ => None end) = Some ([2; 1], {[0%nat := Asleep; 1%nat := Asleep]})) by (vm_compute; reflexivity).
  rewrite E in Hs, Hx. injection Hs as Hs Hn%bool_decide_eq_false. destruct (run_actions finish_schedule s) as [r|] eqn:E'; [|done].
  destruct (pool_drains 0 s finish_schedule r) as (s' & -> & _ & _ & _ & Hd); [exact (run_actions_steps _ _ _ E)|exact Hn|exact Hs| |exact E'|].
  { apply Forall_fmap, Forall_true. intros i. by exists i. }
  exists s, s'. injection Hx as Hx Hw. do 3 (split; [done|]). apply Hd, asleep_quiet. rewrite Hw.
  by apply (bool_decide_unpack _).
Defined.

Lemma starts_most_urgent_witness :
  exists s s' : TestPool, exec (ActWorker 0) s = Some (Ret s') /\ executed s' = [2]
    /\ exists p t, workers s' !! 0%nat = Some (Running p) /\ tasks s !! p = Some t /\ tid t = 2 /\ canceled t = false.
Proof.
  destruct (run_actions quiet_schedule (ThreadPool_init 0 : TestPool)) as [[s|]|] eqn:E; [|exfalso; by vm_compute in E..].
  assert (Hx : (match run_actions quiet_schedule (ThreadPool_init 0 : TestPool) with
                | Some (Ret s) => (stop s, executed s, match exec (ActWorker 0) s with
                                  | Some (Ret s') => Some (executed s') | _ => None end)
                | _ => (true, [], None) end) = (false, [], Some [2])) by (vm_compute; reflexivity).
  rewrite E in Hx. destruct (exec (ActWorker 0) s) as [[s'|]|] eqn:E'; [|by exfalso..].
  injection Hx as Hs Hx Hx'. exists s, s'. split; [done|]. split; [done|].
  destruct (starts_most_urgent 0 s 0 s' 2) as (p & t & ? & ? & ? & ? & _);
    [exact (run_actions_steps _ _ _ E)|exact Hs|exact E'|by rewrite Hx, Hx'|].
  by exists p, t.
Defined.

(** The flag is stored and the sleepers are notified between a worker's test of
    the predicate and its sleep. *)
Definition lost_schedule : list action :=
  [ActStart 1 0; ActWorker 0; ActWorker 0; ActStop; ActStopNotify; ActWorker 0].

(** A stop that is never seen.  [Stop] stores the flag and notifies without
    the mutex.  A worker that has tested the predicate and does not sleep yet
    misses the notification: it sleeps, nothing it waits for comes any more,
    and [join] waits for it for ever. *)
Theorem stop_lost_wakeup : exists s : TestPool,
  run_actions lost_schedule (ThreadPool_init 0) = Some (Ret s) /\ stop s = true
  /\ workers s = {[0%nat := Asleep]} /\ forall i, exec (ActWorker i) s = None.
Proof.
  destruct (run_actions lost_schedule (ThreadPool_init 0 : TestPool)) as [[s|]|] eqn:E; [|exfalso; by vm_compute in E..].
  assert (Hx : (match run_actions lost_schedule (ThreadPool_init 0 : TestPool) with
                | Some (Ret s) => (stop s, workers s) | _ => (false, ∅) end) = (true, {[0%nat := Asleep]}))
    by (vm_compute; reflexivity).
  rewrite E in Hx. injection Hx as Hs Hw. exists s. split_and!; [done..|].
  apply asleep_quiet. rewrite Hw. by apply (bool_decide_unpack _).
Qed.

(** Two tasks wait and one runs when the pool is stopped. *)
Definition stop_schedule : list action :=
  [ActStart 1 0; ActWorker 0; ActSubmit NORMAL 1 0; ActSubmit NORMAL 2 0; ActSubmit HIGH 3 0; ActCancel 0; ActWorker 0].

Lemma single_worker_stops_witness :
  exists s s' : TestPool, run_actions stop_schedule (ThreadPool_init 0) = Some (Ret s) /\ GetPendingTasks s = 2%nat
    /\ run_actions (replicate 13 (ActWorker 0)) (notify_all (Stop s)) = Some (Ret s')
    /\ workers s' = {[0%nat := Exited]} /\ tasks s' = ∅.
Proof.
  destruct (run_actions stop_schedule (ThreadPool_init 0 : TestPool)) as [[s|]|] eqn:E; [|exfalso; by vm_compute in E..].
  assert (Hs : (match run_actions stop_schedule (ThreadPool_init 0 : TestPool) with
                | Some (Ret s) => (stop s, GetPendingTasks s, workers s)
                | _ => (true, 0%nat, ∅) end) = (false, 2%nat, {[0%nat := Running 2]})) by (vm_compute; reflexivity).
  assert (Hx : (match run_actions stop_schedule (ThreadPool_init 0 : TestPool) with
                | Some (Ret s) => match run_actions (replicate 13 (ActWorker 0)) (notify_all (Stop s)) with
                                  | Some (Ret s') => workers s' | _ => ∅ end
                | _ => ∅ end) = {[0%nat := Exited]}) by (vm_compute; reflexivity).
  rewrite E in Hs, Hx. injection Hs as Hs Hp Hpc.
  destruct (run_actions (replicate 13 (ActWorker 0)) (notify_all (Stop s))) as [r|] eqn:E'; [|done].
  destruct (single_worker_stops 0 s (Running 2) (replicate 13 (ActWorker 0)) r) as (s' & -> & _ & Hend);
    [exact (run_actions_steps _ _ _ E)|exact Hs|exact Hpc|done| |exact E'|].
  { by apply Forall_replicate. }
  exists s, s'. do 3 (split; [done|]). apply Hend. cbn [exec]. by rewrite Hx.
Defined.
