(* ===== verification/TcpServer.v ===== *)
(** * net/TcpServer and net/WorkerGroup: the life of a server

    [Serve] starts the worker threads and the thread pool, waits for a signal,
    and then stops the pool and the workers one after the other.  A state holds
    the main thread's place in [Serve], the workers, each in its event loop,
    and the pool; an action is one of the main thread, of the signal handler,
    of a worker thread or its clients, or of the pool and those that use it.
    The first theorem composes the theorems on one worker and on the pool. *)

From S2P Require Import Prelude CxxStd DateTime Channel InetAddress TcpConn TcpConnInv TcpStream Acceptor PQueue TimerQueue TimerSafe.
From S2P Require IOWorker ThreadPool.
Local Open Scope Z_scope.

#[local] Existing Instances IOWorker.LoopPc_eq_dec ThreadPool.Pc_eq_dec.

Abbreviation IOWorker := IOWorker.IOWorker.
Abbreviation ThreadPool := ThreadPool.ThreadPool.

(** [ServerConfig], but what TLS is configured with (see SslContext). *)
Record ServerConfig := mkConfig {
  listen_ip : list byte;
  listen_port : Z;
  use_ssl : bool;
  workgroup_workers : nat;
  threadpool_workers : nat;
  threadpool_pending_size : nat;
}.

(** The default member initialisers. *)
Definition ServerConfig_init : ServerConfig := mkConfig (bytes "0.0.0.0") 80 false 4 4 0.

(** Where the main thread is in [Serve] and, from it, in [WorkerGroup::Start],
    [ThreadPool::Stop] and [WorkerGroup::Stop]. *)
Inductive ServePc :=
| StartWorkers | StartPool | InstallSignals | Monitoring
| StopPool | NotifyPool | JoinPool | StopWorkers (i : nat) | JoinWorkers | Served.
#[export] Instance ServePc_eq_dec : EqDecision ServePc.
Proof. solve_decision. Defined.

Inductive server_action :=
| MainStep
| Signal
| WorkerAct (i : nat) (a : IOWorker.loop_action)
| PoolAct (a : ThreadPool.action)
| OtherTimer.     (* a timer is made in another server of the process *)

(** A signal or a call of [Start] or [Stop] comes from the server alone; the ids of
    the timers are taken from the server's counter. *)
Definition worker_public (a : IOWorker.loop_action) : bool :=
  match a with IOWorker.ActStop | IOWorker.ActTakeIds _ => false | _ => true end.
Definition pool_public (a : ThreadPool.action) : bool :=
  match a with ThreadPool.ActStart _ _ | ThreadPool.ActStop | ThreadPool.ActStopNotify => false | _ => true end.

Section server.
Context {Any Q QP : Type} `{MaxQueue waiting Q} `{MaxQueue ThreadPool.pending QP}.

(** [worker_set] of the [WorkerGroup]; [stop_all_server] is static, and so is
    [timer_ids], which is [Timer::next_timer_id]: all workers share it. *)
Record TcpServer := mkServer {
  config : ServerConfig;
  worker_set : list (IOWorker Any Q);
  thread_pool : ThreadPool QP;
  stop_all_server : bool;
  timer_ids : Z;
  handler_set : bool;
  main_pc : ServePc;
}.
Implicit Types s : TcpServer.

Definition set_main_pc (pc : ServePc) s : TcpServer :=
  mkServer (config s) (worker_set s) (thread_pool s) (stop_all_server s) (timer_ids s) (handler_set s) pc.
Definition set_workers (ws : list (IOWorker Any Q)) s : TcpServer :=
  mkServer (config s) ws (thread_pool s) (stop_all_server s) (timer_ids s) (handler_set s) (main_pc s).
Definition set_pool (p : ThreadPool QP) s : TcpServer :=
  mkServer (config s) (worker_set s) p (stop_all_server s) (timer_ids s) (handler_set s) (main_pc s).

Definition set_timer_ids (n : Z) s : TcpServer :=
  mkServer (config s) (worker_set s) (thread_pool s) (stop_all_server s) n (handler_set s) (main_pc s).

(** Worker [i] acts on the shared counter of timer ids, and leaves it changed. *)
Definition load_ids (n : Z) (w : IOWorker Any Q) : IOWorker Any Q :=
  IOWorker.set_timer_queue (set_next n (IOWorker.timer_queue w)) w.
Definition store_worker (i : nat) (w : IOWorker Any Q) s : TcpServer :=
  set_timer_ids (next_timer_id (IOWorker.timer_queue w)) (set_workers (<[i := w]> (worker_set s)) s).

(** [TcpServer()] and [Config]; [stopped] is what an earlier server left in
    [stop_all_server].  The pool has no threads yet, but takes tasks. *)
Definition TcpServer_init (cfg : ServerConfig) (stopped : bool) : TcpServer :=
  mkServer cfg [] (ThreadPool.ThreadPool_init 0) stopped 0 false StartWorkers.

(** The totals of the [WorkerGroup]; the sums are taken in [size_t]. *)
Definition total_conns (worker_set : list (IOWorker Any Q)) : Z :=
  fold_left (fun total w => u64 (total + Z.of_nat (IOWorker.GetConnNums w))) worker_set 0.
Definition total_timers (worker_set : list (IOWorker Any Q)) : Z :=
  fold_left (fun total w => u64 (total + Z.of_nat (IOWorker.GetTimerNums w))) worker_set 0.

Definition GetTotalConns s : Z := total_conns (worker_set s).
Definition GetTotalTimers s : Z := total_timers (worker_set s).
Definition GetPendingTasks s : nat := ThreadPool.GetPendingTasks (thread_pool s).

(** The text [Monitor] logs after its sleep. *)
Definition Monitor_text s : list byte :=
  bytes "[Health Check] Total connections: " ++ to_string (GetTotalConns s)
  ++ bytes ", Total timers: " ++ to_string (GetTotalTimers s)
  ++ bytes ", Pending tasks: " ++ to_string (Z.of_nat (GetPendingTasks s)).

Definition SignalHandler s : TcpServer :=
  mkServer (config s) (worker_set s) (thread_pool s) true (timer_ids s) (handler_set s) (main_pc s).

Definition pool_exited (p : ThreadPool QP) : bool :=
  bool_decide (map_Forall (fun _ pc => pc = ThreadPool.Exited) (ThreadPool.workers p)).
Definition workers_exited (ws : list (IOWorker Any Q)) : bool :=
  forallb (fun w => bool_decide (IOWorker.loop_pc w = IOWorker.Exited)) ws.

(** [WorkerGroup::Stop]: [worker->Stop()] for one worker. *)
Definition stop_worker (i : nat) (w : IOWorker Any Q) s : TcpServer :=
  set_workers (<[i := IOWorker.Stop w]> (worker_set s)) s.

Section operations.
(** What differs between the workers carries their index. *)
Context (OnTcpConnected OnTcpDisconnected OnTcpReceivedData : ptr -> DateTime -> Worker Any -> outcome (Worker Any)).
Context (limiter : option TcpRateLimiterConfig) (reserved : nat -> Z).
Context (sys : nat -> Kernel Any) (accepting : nat -> Worker Any -> IOWorker.incoming) (clock : nat -> nat -> DateTime).
Context (run_task : nat -> nat -> TimerQueue Q (Worker Any) -> outcome (TimerQueue Q (Worker Any))).
Context (run_stop : nat -> nat -> TimerQueue Q (Worker Any) -> outcome (bool * TimerQueue Q (Worker Any))).

Definition server_callback (i : nat) : TcpCallback Any :=
  Serve_callback (sys i) OnTcpConnected OnTcpDisconnected OnTcpReceivedData limiter.

(** The address [Serve] makes of the configuration, in the release build. *)
Definition serve_addr (cfg : ServerConfig) : InetAddress :=
  default InetAddress_zero (InetAddress_init true (listen_ip cfg) (listen_port cfg) false).

(** [WorkerGroup::Start]: one worker more, whose thread runs from now on. *)
Definition add_worker s : TcpServer :=
  set_workers (worker_set s ++ [IOWorker.IOWorker_init (reserved (length (worker_set s))) (serve_addr (config s)) (use_ssl (config s))]) s.

(** The main thread in [Serve]; [None] while [join] waits.  [Monitor] sleeps and
    logs the totals. *)
Definition main_step s : option TcpServer :=
  match main_pc s with
  | StartWorkers =>
      Some (if (length (worker_set s) <? workgroup_workers (config s))%nat then add_worker s
            else set_main_pc StartPool s)
  | StartPool =>
      Some (set_main_pc InstallSignals
              (set_pool (ThreadPool.Start (threadpool_workers (config s)) (threadpool_pending_size (config s)) (thread_pool s)) s))
  | InstallSignals =>
      Some (mkServer (config s) (worker_set s) (thread_pool s) (stop_all_server s) (timer_ids s) true Monitoring)
  | Monitoring => Some (set_main_pc (if stop_all_server s then StopPool else Monitoring) s)
  | StopPool => Some (set_main_pc NotifyPool (set_pool (ThreadPool.Stop (thread_pool s)) s))
  | NotifyPool => Some (set_main_pc JoinPool (set_pool (ThreadPool.notify_all (thread_pool s)) s))
  | JoinPool => if pool_exited (thread_pool s) then Some (set_main_pc (StopWorkers 0) s) else None
  | StopWorkers i =>
      Some (match worker_set s !! i with
            | Some w => set_main_pc (StopWorkers (S i)) (stop_worker i w s)
            | None => set_main_pc JoinWorkers s
            end)
  | JoinWorkers => if workers_exited (worker_set s) then Some (set_main_pc Served s) else None
  | Served => None
  end.

Definition worker_exec (i : nat) : IOWorker.loop_action -> IOWorker Any Q -> option (outcome (IOWorker Any Q)) :=
  IOWorker.loop_exec (sys i) (server_callback i) (accepting i) (clock i) (run_task i) (run_stop i).

Definition server_exec (a : server_action) s : option (outcome TcpServer) :=
  match a with
  | MainStep => Ret <$> main_step s
  | Signal => if handler_set s then Some (Ret (SignalHandler s)) else None
  | WorkerAct i a =>
      match worker_set s !! i with
      | Some w =>
          if worker_public a then
            match worker_exec i a (load_ids (timer_ids s) w) with
            | Some r => Some (w ← r; Ret (store_worker i w s))
            | None => None
            end
          else None
      | None => None
      end
  | PoolAct a =>
      if pool_public a then
        match ThreadPool.exec a (thread_pool s) with
        | Some r => Some (p ← r; Ret (set_pool p s))
        | None => None
        end
      else None
  | OtherTimer => Some (Ret (set_timer_ids (timer_ids s + 1) s))
  end.

(** What the environment may do: see [IOWorker.action_ok]. *)
Definition server_action_ok (a : server_action) s : Prop :=
  match a with
  | WorkerAct i a => forall w, worker_set s !! i = Some w ->
      IOWorker.action_ok (clock i) (run_task i) (run_stop i) a (load_ids (timer_ids s) w)
  | _ => True
  end.

Inductive server_step : TcpServer -> TcpServer -> Prop :=
| server_action_step a s s' : server_action_ok a s -> server_exec a s = Some (Ret s') -> server_step s s'.
End operations.
End server.
Arguments TcpServer : clear implicits.

(** ** Totals *)

Lemma total_fold {A} (f : A -> nat) (l : list A) acc :
  fold_left (fun total w => u64 (total + Z.of_nat (f w))) l (u64 acc) = u64 (acc + Z.of_nat (sum_list (f <$> l))).
Proof.
  revert acc. induction l as [|w l IH]; intros acc; cbn [fold_left fmap list_fmap sum_list]; [by rewrite Z.add_0_r|].
  replace (u64 (u64 acc + Z.of_nat (f w))) with (u64 (acc + Z.of_nat (f w))); [|symmetry; apply Z.add_mod_idemp_l; lia].
  rewrite IH. f_equal. cbn. lia.
Qed.

Section totals.
Context {Any Q QP : Type} `{MaxQueue waiting Q}.
Implicit Types s : TcpServer Any Q QP.

(** A total below 2^64 is the number of connections. *)
Lemma GetTotalConns_spec s :
  GetTotalConns s = u64 (Z.of_nat (sum_list (IOWorker.GetConnNums <$> worker_set s))).
Proof. exact (total_fold IOWorker.GetConnNums (worker_set s) 0). Qed.
Lemma GetTotalTimers_spec s :
  GetTotalTimers s = u64 (Z.of_nat (sum_list (IOWorker.GetTimerNums <$> worker_set s))).
Proof. exact (total_fold IOWorker.GetTimerNums (worker_set s) 0). Qed.
End totals.

(** ** The callbacks of [Serve] *)

Section callbacks.
Context {Any : Type} (sys : Kernel Any).
Context (OnTcpConnected OnTcpDisconnected OnTcpReceivedData : ptr -> DateTime -> Worker Any -> outcome (Worker Any)).
Context (limiter : option TcpRateLimiterConfig).

Lemma Shutdown_half_ok p w :
  (forall w fd, sys_shutdown sys w fd = 0) -> wf_worker w -> alive p w ->
  exists w', Shutdown sys (on_disconnected_only OnTcpDisconnected) p w = Ret w' /\ step_ok p w w' /\ alive p w'.
Proof.
  intros Hrc Hw [c Hp]. unfold Shutdown. rewrite (conn_at_alive p c) by done. mrun.
  destruct (Shutdown_half p c w Hw Hp) as (c' & t' & -> & Hs & _). rewrite Hrc. cbn [negb Z.eqb].
  eexists. split; [done|]. split; [by apply step_emit|]. eexists. cbn. apply lookup_insert_eq.
Qed.

(** A refused client is shut down, which destroys it only if [shutdown] fails. *)
Lemma Serve_callback_ok :
  user_ok true (Some OnTcpConnected) -> user_ok true (Some OnTcpDisconnected) -> user_ok false (Some OnTcpReceivedData) ->
  limiter = None \/ (forall w fd, sys_shutdown sys w fd = 0) ->
  let callback := Serve_callback sys OnTcpConnected OnTcpDisconnected OnTcpReceivedData limiter in
  user_ok true (OnConnected callback) /\ user_ok true (OnDisconnected callback) /\ user_ok false (OnDataReceived callback).
Proof.
  intros Hc Hd Hr Hl. split; [|split; [done|]]; intros g p time w Hg Hw Ha; injection Hg as <-.
  - destruct limiter as [l|]; [|exact (Hc _ p time w eq_refl Hw Ha)].
    destruct (ReachConnectionLimits l w); [|exact (Hc _ p time w eq_refl Hw Ha)].
    destruct Hl as [|Hl]; [done|]. destruct (Shutdown_half_ok p w Hl Hw Ha) as (w' & ? & ? & ?). by exists w'.
  - (* [ReachQpsLimits] is never true *)
    destruct limiter as [l|]; exact (Hr _ p time w eq_refl Hw Ha).
Qed.
End callbacks.

(** ** A stopped pool whose workers have returned *)

Section pool.
Context {QP : Type} `{HQP : MaxQueueLaws ThreadPool.pending QP ThreadPool.TaskCmp}.
Implicit Types p : ThreadPool QP.

Definition all_exited p : Prop := map_Forall (fun _ pc => pc = ThreadPool.Exited) (ThreadPool.workers p).

Lemma all_exited_exec a p p' :
  all_exited p -> pool_public a = true -> ThreadPool.exec a p = Some (Ret p') -> all_exited p'.
Proof.
  intros Hall Ha E. assert (Hno : forall i pc, ThreadPool.workers p !! i = Some pc -> pc = ThreadPool.Exited) by done.
  destruct a as [n limit|prio f who|id| | |i|i|]; try done; cbn [ThreadPool.exec] in E.
  - destruct (ThreadPool.mutex_free p); [|done]. injection E as <-. unfold ThreadPool.SubmitTask.
    destruct (_ && _); [done|]. cbn [snd].
    match goal with |- all_exited (ThreadPool.notify_one who ?x) => destruct (ThreadPool.notify_one_spec who x) as [[-> _]|(i & Hi & _)] end;
      [done|]. by apply Hno in Hi.
  - destruct (ThreadPool.mutex_free p); [|done]. revert E. unfold ThreadPool.CancelTask, ThreadPool.task_at.
    repeat case_match; mrun; try done; by intros [= <-].
  - destruct (ThreadPool.workers p !! i) as [pc|] eqn:Hi; [|done]. rewrite (Hno i pc Hi) in E. done.
  - destruct (ThreadPool.workers p !! i) as [pc|] eqn:Hi; [|done]. rewrite (Hno i pc Hi) in E. done.
  - by injection E as <-.
Qed.

(** What a public action of the pool does before the pool is stopped. *)
Lemma public_exec_ok a p :
  ThreadPool.wf_pool p -> ThreadPool.stop p = false -> pool_public a = true ->
  match ThreadPool.exec a p with
  | Some (Ret p') => ThreadPool.wf_pool p' /\ ThreadPool.stop p' = false
  | Some (Throw _) => False
  | None => True
  end.
Proof.
  intros Hwf Hs Ha. pose proof (ThreadPool.exec_ok a p Hwf Hs) as Hok.
  destruct (ThreadPool.exec a p) as [[p'|]|] eqn:E; [|done|done].
  assert (Hs' : ThreadPool.stop p' = false) by (rewrite (ThreadPool.exec_keeps_stop a p p' E); [done | by intros ->]).
  split; [|done]. destruct Hok as [|]; [congruence|done].
Qed.
End pool.

(** ** The invariant of a server without TLS *)

Section safety.
Context {Any Q QP : Type} `{HQ : MaxQueueLaws waiting Q TimerCmp} `{HQP : MaxQueueLaws ThreadPool.pending QP ThreadPool.TaskCmp}.
Context (OnTcpConnected OnTcpDisconnected OnTcpReceivedData : ptr -> DateTime -> Worker Any -> outcome (Worker Any)).
Context (limiter : option TcpRateLimiterConfig) (reserved : nat -> Z).
Context (sys : nat -> Kernel Any) (accepting : nat -> Worker Any -> IOWorker.incoming) (clock : nat -> nat -> DateTime).
Context (run_task : nat -> nat -> TimerQueue Q (Worker Any) -> outcome (TimerQueue Q (Worker Any))).
Context (run_stop : nat -> nat -> TimerQueue Q (Worker Any) -> outcome (bool * TimerQueue Q (Worker Any))).
Implicit Types s : TcpServer Any Q QP.

(** What the theorems rely on: see [IOWorker.loop_env_ok].  With a limiter,
    [shutdown] must not fail.  User functions of timers do not turn the counter of
    the ids back. *)
Record server_env_ok : Prop := {
  se_connected : user_ok true (Some OnTcpConnected);
  se_disconnected : user_ok true (Some OnTcpDisconnected);
  se_received : user_ok false (Some OnTcpReceivedData);
  se_limiter : limiter = None \/ forall i w fd, sys_shutdown (sys i) w fd = 0;
  se_kernel : forall i, kernel_ok (sys i);
  se_accepting : forall i, IOWorker.accepting_ok (accepting i);
  se_clock : forall i n, 0 <= clock i n < 2 ^ 62;
  se_tasks : forall i, user_timers_ok IOWorker.plain_ok (run_task i) (run_stop i);
  se_ids : forall i, user_ids_grow (run_task i) (run_stop i);
}.
Context (Henv : server_env_ok).

Lemma server_loop_env i :
  IOWorker.loop_env_ok (sys i) (server_callback OnTcpConnected OnTcpDisconnected OnTcpReceivedData limiter sys i)
    (accepting i) (clock i) (run_task i) (run_stop i).
Proof.
  destruct Henv as [Hc Hd Hr Hl ? ? ? ? _].
  destruct (Serve_callback_ok (sys i) OnTcpConnected OnTcpDisconnected OnTcpReceivedData limiter Hc Hd Hr) as (? & ? & ?);
    [destruct Hl; [by left | by right] | by split].
Qed.

Abbreviation exec := (server_exec OnTcpConnected OnTcpDisconnected OnTcpReceivedData limiter reserved sys accepting clock run_task run_stop).
Abbreviation step := (server_step OnTcpConnected OnTcpDisconnected OnTcpReceivedData limiter reserved sys accepting clock run_task run_stop).

(** The main thread has not stopped worker [i]. *)
Definition keeps_running (i : nat) (pc : ServePc) : Prop :=
  match pc with StopWorkers j => (j <= i)%nat | JoinWorkers | Served => False | _ => True end.
Definition pool_running (pc : ServePc) : bool :=
  match pc with StartWorkers | StartPool | InstallSignals | Monitoring | StopPool => true | _ => false end.
Definition pool_joined (pc : ServePc) : bool :=
  match pc with StopWorkers _ | JoinWorkers | Served => true | _ => false end.
Definition serving (pc : ServePc) : bool :=
  match pc with StartWorkers | StartPool | InstallSignals | Monitoring => true | _ => false end.

Record wf_server s : Prop := {
  sv_plain : use_ssl (config s) = false;
  sv_most : (length (worker_set s) <= workgroup_workers (config s))%nat;
  sv_count : main_pc s <> StartWorkers -> length (worker_set s) = workgroup_workers (config s);
  sv_workers : forall i w, worker_set s !! i = Some w -> IOWorker.wf_loop (sys i) w;
  sv_ids : 0 <= timer_ids s
    /\ forall i w, worker_set s !! i = Some w -> next_timer_id (IOWorker.timer_queue w) <= timer_ids s;
  sv_running : forall i w, worker_set s !! i = Some w -> keeps_running i (main_pc s) -> IOWorker.stop_loop w = false;
  sv_pool : pool_running (main_pc s) = true -> ThreadPool.wf_pool (thread_pool s) /\ ThreadPool.stop (thread_pool s) = false;
  sv_stopped : pool_running (main_pc s) = false -> ThreadPool.stop (thread_pool s) = true;
  sv_joined : pool_joined (main_pc s) = true -> all_exited (thread_pool s);
  sv_served : main_pc s = Served -> forall i w, worker_set s !! i = Some w -> IOWorker.loop_pc w = IOWorker.Exited;
  sv_signal : serving (main_pc s) = false -> stop_all_server s = true;
}.

Lemma wf_TcpServer_init cfg stopped : use_ssl cfg = false -> wf_server (TcpServer_init cfg stopped).
Proof.
  intros Hssl. split; cbn; try done.
  - lia.
  - intros _. split; [apply ThreadPool.wf_pool_init | done].
Qed.

Lemma wf_load_ids i n w :
  IOWorker.wf_loop (sys i) w -> next_timer_id (IOWorker.timer_queue w) <= n -> IOWorker.wf_loop (sys i) (load_ids n w).
Proof.
  intros Hw Hn. apply IOWorker.wf_on_timers; [done| |done]. apply wf_set_next; [apply (IOWorker.wl_inv _ w Hw) | done].
Qed.

(** A worker acts. *)
Lemma wf_worker_act i a s w :
  wf_server s -> worker_set s !! i = Some w -> worker_public a = true ->
  IOWorker.action_ok (clock i) (run_task i) (run_stop i) a (load_ids (timer_ids s) w) ->
  match worker_exec OnTcpConnected OnTcpDisconnected OnTcpReceivedData limiter sys accepting clock run_task run_stop i a
          (load_ids (timer_ids s) w) with
  | Some (Ret w') => wf_server (store_worker i w' s)
  | Some (Throw _) => a = IOWorker.ActStep /\ IOWorker.loop_pc w = IOWorker.AtClose /\ conn_set (IOWorker.tcp_conns w) <> ∅
  | None => True
  end.
Proof.
  intros Hs Hi Ha Hok. unfold worker_exec. destruct (sv_ids s Hs) as [Hpos Hids].
  pose proof (wf_load_ids i (timer_ids s) w (sv_workers s Hs i w Hi) (Hids i w Hi)) as Hw.
  pose proof (IOWorker.loop_exec_ok _ _ _ _ _ _ (server_loop_env i) a _ Hw Hok) as Hex.
  destruct (IOWorker.loop_exec _ _ _ _ _ _ a _) as [[w'|]|] eqn:E; [|done|done].
  destruct (IOWorker.loop_exec_control _ _ _ _ _ _ a _ w' E) as (Hst & Hx & _).
  assert (Hst' : IOWorker.stop_loop w' = IOWorker.stop_loop w) by (apply Hst; by intros ->).
  apply IOWorker.loop_exec_ids in E; [|apply (se_ids Henv)]. cbn in E.
  assert (Hlook : forall j u, <[i := w']> (worker_set s) !! j = Some u -> j = i /\ u = w' \/ worker_set s !! j = Some u).
  { intros j u. rewrite list_lookup_insert_Some. naive_solver. }
  destruct Hs. split; cbn; try done.
  - by rewrite length_insert.
  - by rewrite length_insert.
  - intros j u [[-> ->]|Hj]%Hlook; eauto.
  - split; [lia|]. intros j u [[-> ->]|Hj%Hids]%Hlook; lia.
  - intros j u [[-> ->]|Hj]%Hlook; [rewrite Hst'; eauto | eauto].
  - intros Hpc j u [[-> ->]|Hj]%Hlook; [exact (Hx (sv_served0 Hpc i w Hi)) | eauto].
Qed.

(** The main thread acts. *)
Lemma wf_stop_worker i s w :
  wf_server s -> main_pc s = StopWorkers i -> worker_set s !! i = Some w ->
  wf_server (set_main_pc (StopWorkers (S i)) (stop_worker i w s)).
Proof.
  intros Hs Hpc Hi. assert (Hlook : forall j u, <[i := IOWorker.Stop w]> (worker_set s) !! j = Some u ->
    j = i /\ u = IOWorker.Stop w \/ j <> i /\ worker_set s !! j = Some u).
  { intros j u. rewrite list_lookup_insert_Some. naive_solver. }
  destruct Hs. split; cbn; try done.
  - by rewrite length_insert.
  - rewrite length_insert. intros _. apply sv_count0. by rewrite Hpc.
  - intros j u [[-> ->]|[_ Hj]]%Hlook; [|eauto].
    exact (IOWorker.wf_Stop _ w (sv_workers0 i w Hi)).
  - destruct sv_ids0 as [? Hids]. split; [done|]. intros j u [[-> ->]|[_ Hj]]%Hlook; [exact (Hids i w Hi) | eauto].
  - intros j u [[-> ->]|[Hne Hj]]%Hlook Hle; [lia|]. apply (sv_running0 j u Hj). rewrite Hpc. cbn. lia.
  - intros _. apply sv_stopped0. by rewrite Hpc.
  - intros _. apply sv_joined0. by rewrite Hpc.
  - intros _. apply sv_signal0. by rewrite Hpc.
Qed.

Lemma wf_add_worker s : wf_server s -> main_pc s = StartWorkers -> (length (worker_set s) < workgroup_workers (config s))%nat ->
  wf_server (add_worker reserved s).
Proof.
  intros Hs Hpc Hlt. assert (Hlook : forall j u, worker_set (add_worker reserved s) !! j = Some u ->
    u = IOWorker.IOWorker_init (reserved (length (worker_set s))) (serve_addr (config s)) false \/ worker_set s !! j = Some u).
  { intros j u. cbn. rewrite (sv_plain s Hs), lookup_app_Some. intros [|[_ Hj]]; [by right|left].
    by apply list_lookup_singleton_Some in Hj as [_ <-]. }
  destruct Hs. split; cbn [config main_pc thread_pool stop_all_server add_worker set_workers]; try done.
  - cbn. rewrite length_app. cbn. lia.
  - intros j u [->|Hj]%Hlook; [apply IOWorker.wf_IOWorker_init | eauto].
  - destruct sv_ids0 as [Hpos Hids]. split; [done|]. intros j u [->|Hj]%Hlook; [exact Hpos | eauto].
  - intros j u [->|Hj]%Hlook; [done | eauto].
  - by rewrite Hpc.
Qed.

Lemma all_exited_spec (p : ThreadPool QP) : pool_exited p = true -> all_exited p.
Proof. unfold pool_exited. by rewrite bool_decide_eq_true. Qed.

(** The invariant when only the place of the main thread and what comes with it change. *)
Ltac move_pc Hpc := split; cbn; try done; rewrite ?Hpc in *; cbn in *; try done; try (solve [intros; eauto]).

Lemma wf_main_step s s' : wf_server s -> main_step reserved s = Some s' -> wf_server s'.
Proof.
  intros Hs E. unfold main_step in E. destruct (main_pc s) as [| | | | | | |i| |] eqn:Hpc; [..|done].
  - injection E as <-. destruct (Nat.ltb_spec (length (worker_set s)) (workgroup_workers (config s))); [by apply wf_add_worker|].
    destruct Hs. move_pc Hpc. lia.
  - injection E as <-. destruct Hs. move_pc Hpc. intros _. destruct sv_pool0 as [Hwf ?]; [done|].
    split; [by apply ThreadPool.wf_pool_Start | done].
  - injection E as <-. destruct Hs. by move_pc Hpc.
  - injection E as <-. destruct Hs. destruct (stop_all_server s) eqn:?; by move_pc Hpc.
  - injection E as <-. destruct Hs. by move_pc Hpc.
  - injection E as <-. destruct Hs. by move_pc Hpc.
  - destruct (pool_exited (thread_pool s)) eqn:Hx; [|done]. injection E as <-. apply all_exited_spec in Hx.
    destruct Hs. by move_pc Hpc.
  - injection E as <-. destruct (worker_set s !! i) as [w|] eqn:Hi; [by apply wf_stop_worker|].
    destruct Hs. by move_pc Hpc.
  - destruct (workers_exited (worker_set s)) eqn:Hx; [|done]. injection E as <-. destruct Hs. move_pc Hpc.
    intros _ j w Hj. unfold workers_exited in Hx. rewrite forallb_forall in Hx.
    specialize (Hx w). rewrite <-list_elem_of_In, bool_decide_eq_true in Hx. apply Hx. by eapply list_elem_of_lookup_2.
Qed.

Lemma wf_PoolAct a s :
  wf_server s -> pool_public a = true ->
  match ThreadPool.exec a (thread_pool s) with
  | Some (Ret p') => wf_server (set_pool p' s)
  | Some (Throw _) => ThreadPool.stop (thread_pool s) = true
  | None => True
  end.
Proof.
  intros Hs Ha. destruct (pool_running (main_pc s)) eqn:Hr.
  - destruct (sv_pool s Hs Hr) as [Hwf Hstop]. pose proof (public_exec_ok a (thread_pool s) Hwf Hstop Ha) as Hok.
    destruct (ThreadPool.exec a (thread_pool s)) as [[p'|]|]; [|done|done]. destruct Hs. split; cbn; try done.
    + by rewrite Hr.
    + intros Hj. by destruct (main_pc s).
  - destruct (ThreadPool.exec a (thread_pool s)) as [[p'|]|] eqn:E; [|by apply (sv_stopped s Hs)|done].
    destruct Hs. split; cbn; try done.
    + by rewrite Hr.
    + intros _. apply (ThreadPool.exec_stop a _ _ E). by apply sv_stopped0.
    + intros Hj. apply (all_exited_exec a _ _ (sv_joined0 Hj) Ha E).
Qed.

(** What can go wrong, and when. *)
Definition server_fault (a : server_action) s : Prop :=
  stop_all_server s = true
  /\ ((exists a', a = PoolAct a' /\ ThreadPool.stop (thread_pool s) = true)
      \/ exists i w, a = WorkerAct i IOWorker.ActStep /\ worker_set s !! i = Some w
           /\ IOWorker.loop_pc w = IOWorker.AtClose /\ conn_set (IOWorker.tcp_conns w) <> ∅).

Lemma server_exec_ok a s :
  wf_server s -> server_action_ok clock run_task run_stop a s ->
  match exec a s with
  | Some (Ret s') => wf_server s'
  | Some (Throw _) => server_fault a s
  | None => True
  end.
Proof.
  intros Hs Ha. destruct a as [| |i a|a|]; cbn [server_exec].
  - destruct (main_step reserved s) as [s'|] eqn:E; [|done]. by apply (wf_main_step s).
  - destruct (handler_set s); [|done]. destruct Hs. by split.
  - destruct (worker_set s !! i) as [w|] eqn:Hi; [|done]. destruct (worker_public a) eqn:Hp; [|done].
    pose proof (wf_worker_act i a s w Hs Hi Hp (Ha w Hi)) as Hw.
    destruct (worker_exec _ _ _ _ _ _ _ _ _ i a _) as [[w'|]|]; [done| |done]. mrun.
    destruct Hw as (-> & Hpc & Hc). split; [|right; by exists i, w].
    destruct (serving (main_pc s)) eqn:Hsv; [exfalso|by apply (sv_signal s Hs)].
    assert (Hk : keeps_running i (main_pc s)) by (by destruct (main_pc s)).
    pose proof (sv_running s Hs i w Hi Hk) as Hn. pose proof (IOWorker.wl_left _ w (sv_workers s Hs i w Hi)) as Hl.
    rewrite Hl in Hn; [done | by left].
  - destruct (pool_public a) eqn:Hp; [|done].
    pose proof (wf_PoolAct a s Hs Hp) as Hw.
    destruct (ThreadPool.exec a (thread_pool s)) as [[p'|]|]; [done| |done]. mrun.
    split; [|left; by exists a]. apply (sv_signal s Hs). destruct (serving (main_pc s)) eqn:Hsv; [|done].
    destruct (sv_pool s Hs) as [_ Hn]; [by destruct (main_pc s)|congruence].
  - destruct Hs. split; cbn; try done. destruct sv_ids0 as [? Hids]. split; [lia|]. intros i w Hi%Hids. lia.
Qed.

Lemma reachable_server cfg stopped s :
  use_ssl cfg = false -> rtc step (TcpServer_init cfg stopped) s -> wf_server s.
Proof.
  intros Hssl Hsteps. pose proof (wf_TcpServer_init cfg stopped Hssl) as Hs.
  induction Hsteps as [s|s s1 s2 Hstep _ IH]; [done|]. apply IH. destruct Hstep as [a s s1 Ha E].
  pose proof (server_exec_ok a s Hs Ha) as Hok. by rewrite E in Hok.
Qed.


(** C31: the order of the stop.  A worker is stopped only after a signal and after
    every thread of the pool has returned, so that running tasks find their
    workers; and when [Serve] returns, every thread of the pool and every
    worker has returned, and no connection is left. *)
Theorem serve_order (cfg : ServerConfig) (stopped : bool) s :
  use_ssl cfg = false -> rtc step (TcpServer_init cfg stopped) s ->
  (forall i w, worker_set s !! i = Some w -> IOWorker.stop_loop w = true ->
     stop_all_server s = true /\ all_exited (thread_pool s))
  /\ (main_pc s = Served ->
       stop_all_server s = true /\ all_exited (thread_pool s) /\ length (worker_set s) = workgroup_workers (config s)
       /\ forall i w, worker_set s !! i = Some w ->
            IOWorker.loop_pc w = IOWorker.Exited /\ conn_set (IOWorker.tcp_conns w) = ∅).
Proof.
  intros Hssl Hs%reachable_server; [|done]. split.
  - intros i w Hi Hst. assert (Hj : pool_joined (main_pc s) = true).
    { pose proof (sv_running s Hs i w Hi) as Hr. rewrite Hst in Hr.
      destruct (main_pc s); try done; by discriminate Hr. }
    split; [|by apply (sv_joined s Hs)]. apply (sv_signal s Hs). by destruct (main_pc s).
  - intros Hpc. split_and!.
    + apply (sv_signal s Hs). by rewrite Hpc.
    + apply (sv_joined s Hs). by rewrite Hpc.
    + apply (sv_count s Hs). by rewrite Hpc.
    + intros i w Hi. pose proof (sv_served s Hs Hpc i w Hi) as Hx. split; [done|].
      by apply (IOWorker.wl_exited _ w (sv_workers s Hs i w Hi)).
Qed.
End safety.

(** A server in a process whose earlier server was stopped: the static flag is
    still set, and it stops as soon as it has started. *)
Lemma second_server_stops {Any Q QP} `{MaxQueue waiting Q} `{MaxQueue ThreadPool.pending QP}
    (reserved : nat -> Z) (s : TcpServer Any Q QP) :
  main_pc s = Monitoring -> stop_all_server s = true ->
  main_step reserved s = Some (set_main_pc StopPool s).
Proof. intros Hpc Hs. unfold main_step. by rewrite Hpc, Hs. Qed.

(** ** A server at work *)

Section examples.
Abbreviation TestServer := (TcpServer unit (list_queue TimerCmp) (list_queue ThreadPool.TaskCmp)).

Definition keep (p : ptr) (time : DateTime) (w : Worker unit) : outcome (Worker unit) := Ret w.

Abbreviation test_env F :=
  (F keep keep echo None (fun i => Z.of_nat i + 3) (fun _ => test_kernel (bytes "ping") 0)
     (fun _ => IOWorker.next_client) (fun _ => IOWorker.visit_clock) (fun _ => IOWorker.greet) (fun _ => IOWorker.never_stop)).

Lemma test_server_env :
  server_env_ok keep keep echo None (fun _ => test_kernel (bytes "ping") 0)
    (fun _ => IOWorker.next_client) (fun _ => IOWorker.visit_clock) (fun _ => IOWorker.greet) (fun _ => IOWorker.never_stop).
Proof.
  split; try intros _.
  - apply user_ok_ret.
  - apply user_ok_ret.
  - apply echo_ok.
  - by left.
  - apply test_kernel_ok.
  - apply IOWorker.next_client_ok.
  - apply IOWorker.visit_clock_range.
  - apply IOWorker.greet_ok.
  - apply IOWorker.greet_ids.
Qed.

Definition server_action_ok_b (a : server_action) (s : TestServer) : bool :=
  match a with
  | WorkerAct i a => match worker_set s !! i with Some w => IOWorker.action_ok_b a (load_ids (timer_ids s) w) | None => true end
  | _ => true
  end.

(** A schedule in an environment [exec]. *)
Fixpoint run_schedule (exec : server_action -> TestServer -> option (outcome TestServer))
    (acts : list server_action) (s : TestServer) : option TestServer :=
  match acts with
  | [] => Some s
  | a :: acts =>
      if server_action_ok_b a s then
        match exec a s with Some (Ret s') => run_schedule exec acts s' | _ => None end
      else None
  end.

Lemma run_schedule_steps oc od od' limiter reserved sys accepting clock run_task run_stop acts (s s' : TestServer) :
  run_schedule (server_exec oc od od' limiter reserved sys accepting clock run_task run_stop) acts s = Some s' ->
  rtc (server_step oc od od' limiter reserved sys accepting clock run_task run_stop) s s'.
Proof.
  revert s. induction acts as [|a acts IH]; intros s E; cbn [run_schedule] in E.
  - injection E as <-. constructor.
  - destruct (server_action_ok_b a s) eqn:Ha; [|done].
    destruct (server_exec _ _ _ _ _ _ _ _ _ _ a s) as [[s1|]|] eqn:E1; try done.
    eapply rtc_l; [|by apply IH]. apply (server_action_step _ _ _ _ _ _ _ _ _ _ a); [|done].
    destruct a as [| |i a| |]; try done. intros w Hw. cbn in Ha. rewrite Hw in Ha. by apply IOWorker.action_ok_b_spec.
Qed.

Definition run_server : list server_action -> TestServer -> option TestServer := run_schedule (test_env server_exec).

Lemma run_server_steps acts s s' : run_server acts s = Some s' -> rtc (test_env server_step) s s'.
Proof. apply run_schedule_steps. Qed.

(** Two workers and a pool of one thread.  A task is submitted before the server
    starts; a client of the first worker sends "ping", and the task is run. *)
Definition busy_server : list server_action :=
  [PoolAct (ThreadPool.ActSubmit ThreadPool.NORMAL 7 0)]
  ++ replicate 5 MainStep
  ++ [WorkerAct 0 IOWorker.ActStep; WorkerAct 1 IOWorker.ActStep;
      WorkerAct 0 (IOWorker.ActPolled [IOWorker.ReadyAcceptor EPOLLIN] 0); WorkerAct 0 IOWorker.ActStep; WorkerAct 0 IOWorker.ActStep;
      WorkerAct 0 (IOWorker.ActPolled [IOWorker.ReadyConn (mkEpollEvent EPOLLIN (Some 0))] 1); WorkerAct 0 IOWorker.ActStep;
      OtherTimer; PoolAct (ThreadPool.ActWorker 0); PoolAct (ThreadPool.ActWorker 0)].

(** The client leaves, a signal comes, and all threads return. *)
Definition stopped_server : list server_action :=
  busy_server
  ++ [WorkerAct 0 IOWorker.ActStep;
      WorkerAct 0 (IOWorker.ActPolled [IOWorker.ReadyConn (mkEpollEvent EPOLLOUT (Some 0))] 2); WorkerAct 0 IOWorker.ActStep; WorkerAct 0 IOWorker.ActStep;
      WorkerAct 0 (IOWorker.ActPolled [IOWorker.ReadyConn (mkEpollEvent EPOLLHUP (Some 0))] 3); WorkerAct 0 IOWorker.ActStep; WorkerAct 0 IOWorker.ActStep;
      Signal; MainStep; MainStep; MainStep]
  ++ replicate 3 (PoolAct (ThreadPool.ActWorker 0)) ++ replicate 4 MainStep
  ++ (i ← [0; 1]%nat;
      [WorkerAct i (IOWorker.ActPolled [IOWorker.ReadyWakeup EPOLLIN] 4);
       WorkerAct i IOWorker.ActStep; WorkerAct i IOWorker.ActStep; WorkerAct i IOWorker.ActStep; WorkerAct i IOWorker.ActStep])
  ++ [MainStep].
Definition test_config : ServerConfig := mkConfig (bytes "127.0.0.1") 8080 false 2 1 0.

Example busy_runs :
  (fun s => (main_pc s, GetTotalConns s, ThreadPool.executed (thread_pool s))) <$> run_server busy_server (TcpServer_init test_config false)
  = Some (Monitoring, 1, [0]).
Proof. vm_compute. reflexivity. Qed.
Example busy_monitored :
  Monitor_text <$> run_server (take 10 busy_server) (TcpServer_init test_config false)
  = Some (bytes "[Health Check] Total connections: 1, Total timers: 0, Pending tasks: 1").
Proof. vm_compute. reflexivity. Qed.
Example stopped_runs :
  (fun s => (main_pc s, GetTotalConns s)) <$> run_server stopped_server (TcpServer_init test_config false)
  = Some (Served, 0).
Proof. vm_compute. reflexivity. Qed.

(** All workers take the ids of their timers from one counter. *)
Definition ids_schedule : list server_action :=
  replicate 5 MainStep
  ++ [WorkerAct 0 (IOWorker.ActAddTimer 1000 None); OtherTimer; WorkerAct 1 (IOWorker.ActAddTimer 1000 None);
      WorkerAct 0 (IOWorker.ActAddTimer 9000000 None)].
Example ids_shared :
  (fun s => map (fun w => (map_to_list (timers_map (IOWorker.timer_queue w))).*1) (worker_set s))
    <$> run_server ids_schedule (TcpServer_init test_config false)
  = Some [[3; 0]; [2]].
Proof. vm_compute. reflexivity. Qed.

(** A data race: two workers are about to handle an event at the same time, and
    [HandleEvent] of each starts with [GetEventTypeName], which reads and fills one
    static map without a lock. *)
Definition named_schedule : list server_action :=
  replicate 5 MainStep
  ++ [WorkerAct 0 IOWorker.ActStep; WorkerAct 1 IOWorker.ActStep;
      WorkerAct 0 (IOWorker.ActPolled [IOWorker.ReadyAcceptor EPOLLIN] 0);
      WorkerAct 1 (IOWorker.ActPolled [IOWorker.ReadyWakeup EPOLLIN] 0)].
Lemma event_names_race :
  exists s, run_server named_schedule (TcpServer_init test_config false) = Some s
    /\ IOWorker.loop_pc <$> worker_set s
       = [IOWorker.Handling 0 [IOWorker.ActiveAcceptor EPOLLIN]; IOWorker.Handling 0 [IOWorker.ActiveWakeup EPOLLIN]]
    /\ log_debug (test_kernel (Any := unit) (bytes "ping") 0) = true /\ stop_all_server s = false.
Proof.
  assert (Hr : (fun s => (IOWorker.loop_pc <$> worker_set s, stop_all_server s)) <$> run_server named_schedule (TcpServer_init test_config false)
    = Some ([IOWorker.Handling 0 [IOWorker.ActiveAcceptor EPOLLIN]; IOWorker.Handling 0 [IOWorker.ActiveWakeup EPOLLIN]], false))
    by (vm_compute; reflexivity).
  destruct (run_server _ _) as [s|]; [|done]. injection Hr as Hpc Hs. by exists s.
Qed.

Abbreviation test_action_ok :=
  (server_action_ok (fun _ => IOWorker.visit_clock) (fun _ => IOWorker.greet) (fun _ => IOWorker.never_stop)).


Lemma serve_order_witness :
  exists s, run_server stopped_server (TcpServer_init test_config false) = Some s /\ main_pc s = Served
    /\ all_exited (thread_pool s)
    /\ forall i w, worker_set s !! i = Some w -> IOWorker.loop_pc w = IOWorker.Exited /\ conn_set (IOWorker.tcp_conns w) = ∅.
Proof.
  pose proof stopped_runs as Hr. destruct (run_server stopped_server _) as [s|] eqn:E; [|done]. injection Hr as Hs _. exists s.
  destruct (serve_order keep keep echo None _ _ _ _ _ _ test_server_env test_config false s eq_refl (run_server_steps _ _ _ E))
    as [_ Hd].
  destruct (Hd Hs) as (_ & Hp & _ & Hw). by split_and!.
Defined.
End examples.
