(* ===== verification/ServerStop.v ===== *)
(** * The end of a server

    From the moment the main thread stops the pool to the return of
    [TcpServer::Serve]: the theorem composes the stop of the pool
    ([PoolProgress]) with that of the workers ([IOWorker]), for a pool of at most
    one thread and workers that have no connections left, when nothing more comes
    from outside. *)

From S2P Require Import Prelude CxxStd DateTime Channel TcpConn TcpConnInv TcpStream Acceptor PQueue TimerQueue TimerSafe.
From S2P Require IOWorker ThreadPool PoolProgress.
From S2P Require Import TcpServer.
Local Open Scope Z_scope.

#[local] Existing Instances IOWorker.LoopPc_eq_dec ThreadPool.Pc_eq_dec.

(** ** One worker *)

Section worker.
Context {Any Q : Type} `{HQ : MaxQueueLaws waiting Q TimerCmp}.
Context (sys : Kernel Any) (callback : TcpCallback Any) (accepting : Worker Any -> IOWorker.incoming) (clock : nat -> DateTime).
Context (run_task : nat -> TimerQueue Q (Worker Any) -> outcome (TimerQueue Q (Worker Any))).
Context (run_stop : nat -> TimerQueue Q (Worker Any) -> outcome (bool * TimerQueue Q (Worker Any))).
Context (Henv : IOWorker.loop_env_ok sys callback accepting clock run_task run_stop).
Implicit Types w : IOWorker Any Q.

(** What a worker does when nothing but its wake-up arrives. *)
Definition quiet_loop (a : IOWorker.loop_action) : Prop :=
  match a with
  | IOWorker.ActStep => True
  | IOWorker.ActPolled ready _ => exists evs, ready = [IOWorker.ReadyWakeup evs] /\ reportable evs
  | _ => False
  end.

(** Its places when nothing but its wake-up has arrived. *)
Definition quiet_pc (pc : IOWorker.LoopPc) : Prop :=
  match pc with
  | IOWorker.Handling _ active => exists evs, active = [IOWorker.ActiveWakeup evs]
  | IOWorker.InTimeout _ _ _ => False
  | _ => True
  end.

Definition no_conns w : Prop := conn_set (IOWorker.tcp_conns w) = ∅.
(** Nothing is left to handle. *)
Definition at_rest w : Prop := no_conns w /\ quiet_pc (IOWorker.loop_pc w).

Lemma quiet_loop_ok a w : quiet_loop a -> at_rest w -> IOWorker.action_ok clock run_task run_stop a w.
Proof.
  intros Ha [_ Hpc]. destruct a; try done.
  - destruct Ha as (evs & -> & Hr). split; cbn; [unfold IOWorker.kEventListMaxSize; lia|constructor|by intros e ?%not_elem_of_nil|].
    by intros e ->%list_elem_of_singleton.
  - cbn. unfold IOWorker.spares_pending. by destruct (IOWorker.loop_pc w).
Qed.

(** The steps of the thread that are left, when it is told to stop and when not. *)
Definition rest_rank (stopped : bool) (pc : IOWorker.LoopPc) : nat :=
  if stopped then
    match pc with
    | IOWorker.InPoll => 5 | IOWorker.Handling _ _ => 4 | IOWorker.AtTest => 3
    | IOWorker.AtClose => 2 | IOWorker.AtDrain => 1 | _ => 0
    end
  else match pc with IOWorker.Handling _ _ => 2 | IOWorker.AtTest => 1 | _ => 0 end.
Definition worker_weight w : nat := rest_rank (IOWorker.stop_loop w) (IOWorker.loop_pc w).

Lemma handle_wakeup evs time w : nameable (log_debug sys) evs -> exists n,
  IOWorker.handle_channel sys callback accepting (IOWorker.ActiveWakeup evs) time [] w = Ret (IOWorker.set_wakeups n w).
Proof.
  intros Hn. cbn [IOWorker.handle_channel]. rewrite HandleEvent_cases by done.
  unfold IOWorker.readable_only. cbn [OnPeerClose OnReadable OnWritable OnError].
  assert (Hsame : w = IOWorker.set_wakeups (IOWorker.wakeups w) w) by (by destruct w).
  repeat case_match; cbn [call_if]; try (eexists; by rewrite <-Hsame). by exists 0.
Qed.

(** A worker at rest without connections comes closer to its end and gets none;
    one that was not told to stop goes on to wait in [Poll]. *)
Lemma quiet_loop_step a w r :
  IOWorker.wf_loop sys w -> at_rest w -> quiet_loop a -> IOWorker.stop_loop w = true \/ a = IOWorker.ActStep ->
  IOWorker.loop_exec sys callback accepting clock run_task run_stop a w = Some r ->
  exists w', r = Ret w' /\ IOWorker.stop_loop w' = IOWorker.stop_loop w /\ at_rest w' /\ (worker_weight w' < worker_weight w)%nat.
Proof.
  intros Hw [Hn Hq] Ha Hst E. unfold at_rest, no_conns, worker_weight in *.
  destruct a as [ready time| | | | | | |]; try done; cbn [IOWorker.loop_exec] in E.
  - destruct Ha as (evs & -> & Hr). destruct Hst as [Hst|]; [|done].
    destruct (decide (IOWorker.loop_pc w = IOWorker.InPoll)) as [Hpc|]; [|done]. injection E as <-. mrun.
    eexists. split; [done|]. cbn. rewrite Hpc, Hst. split; [done|]. split; [split; [done|by exists evs]|cbn; lia].
  - pose proof (IOWorker.wl_pending _ w Hw) as Hp. pose proof (IOWorker.wl_left _ w Hw) as Hl.
    unfold IOWorker.loop_step_pc in E. destruct (IOWorker.loop_pc w) as [| |time active|? ? ?| | |] eqn:Hpc; try done.
    + injection E as <-. eexists. split; [done|]. cbn. destruct (IOWorker.stop_loop w); cbn; split_and!; try done; lia.
    + destruct Hq as [evs ->]. apply Forall_cons in Hp as [Hev _].
      destruct (handle_wakeup evs time (IOWorker.set_loop_pc (IOWorker.goes_on time []) w) Hev) as [n En]. rewrite En in E.
      injection E as <-. eexists. split; [done|]. cbn. destruct (IOWorker.stop_loop w); cbn; split_and!; try done; lia.
    + rewrite (IOWorker.close_all_ok _ _ _ _ _ _ Henv) in E by done. unfold ConnSet_Empty in E. rewrite bool_decide_eq_true_2 in E by done.
      injection E as <-. mrun. eexists. split; [done|]. cbn. rewrite Hl by (by left). split_and!; try done. cbn. lia.
    + injection E as <-. unfold ConnSet_Empty. rewrite bool_decide_eq_true_2 by done.
      eexists. split; [done|]. cbn. rewrite Hl by (by right; left). split_and!; try done. cbn. lia.
Qed.
End worker.

(** ** The pool *)

Section pool.
Context {QP : Type} `{HQP : MaxQueueLaws ThreadPool.pending QP ThreadPool.TaskCmp}.
Implicit Types (p : ThreadPool QP) (pc : ThreadPool.Pc).

(** The pool was told to stop; its only worker may still have to be woken. *)
Definition pool_stopping pc p : Prop :=
  ThreadPool.workers p = {[0%nat := pc]} /\ PoolProgress.stopping (ThreadPool.wake pc) (ThreadPool.notify_all p).
Definition pool_weight p : nat :=
  match ThreadPool.workers p !! 0%nat with Some pc => PoolProgress.stop_load (ThreadPool.wake pc) p | None => 0 end.

Lemma notify_all_awake pc p : ThreadPool.workers p = {[0%nat := pc]} -> pc <> ThreadPool.Asleep -> ThreadPool.notify_all p = p.
Proof.
  intros Hw Hpc. unfold ThreadPool.notify_all. rewrite Hw, map_fmap_singleton.
  replace (ThreadPool.wake pc) with pc by (by destruct pc). rewrite <-Hw. by destruct p.
Qed.

Lemma pool_weight_stopping pc p : pool_stopping pc p -> pool_weight p = PoolProgress.stop_load (ThreadPool.wake pc) p.
Proof. intros [Hw _]. unfold pool_weight. by rewrite Hw, lookup_singleton_eq. Qed.

Lemma stopping_awake pc p : PoolProgress.stopping pc p -> pc <> ThreadPool.Asleep /\ pc <> ThreadPool.ToSleep.
Proof. intros []. by destruct pc. Qed.

Lemma pool_stopping_of pc p : PoolProgress.stopping pc p -> pool_stopping pc p.
Proof.
  intros Hp. destruct (stopping_awake pc p Hp) as [Hpc _]. pose proof (PoolProgress.st_worker _ _ Hp) as Hw.
  split; [done|]. rewrite (notify_all_awake pc p) by done. by replace (ThreadPool.wake pc) with pc by (by destruct pc).
Qed.

Lemma stopping_of_pool pc p : pool_stopping pc p -> pc <> ThreadPool.Asleep -> PoolProgress.stopping pc p.
Proof.
  intros [Hw Hp] Hpc. rewrite (notify_all_awake pc p) in Hp by done. by replace (ThreadPool.wake pc) with pc in Hp by (by destruct pc).
Qed.

Lemma pool_stopping_step pc p i r : pool_stopping pc p -> ThreadPool.exec (ThreadPool.ActWorker i) p = Some r ->
  exists pc' p', r = Ret p' /\ pool_stopping pc' p' /\ pc' <> ThreadPool.Asleep /\ (pool_weight p' < pool_weight p)%nat.
Proof.
  intros Hp E. destruct (Hp) as [Hw _].
  assert (i = 0%nat) as ->.
  { cbn [ThreadPool.exec] in E. rewrite Hw in E. destruct (decide (i = 0%nat)); [done|]. by rewrite lookup_singleton_ne in E. }
  destruct (decide (pc = ThreadPool.Asleep)) as [->|Hpc].
  { cbn [ThreadPool.exec] in E. by rewrite Hw, lookup_singleton_eq in E. }
  pose proof (stopping_of_pool pc p Hp Hpc) as Hst.
  destruct (PoolProgress.stopping_step pc p r Hst E) as (pc' & p' & -> & Hst' & Hlt).
  destruct (stopping_awake _ _ Hst') as [Hpc' _]. exists pc', p'. pose proof (pool_stopping_of pc' p' Hst') as Hp'.
  rewrite (pool_weight_stopping pc p Hp), (pool_weight_stopping pc' p' Hp').
  split; [done|]. split; [done|]. split; [done|]. by destruct pc, pc'.
Qed.

Lemma pool_stopping_end pc p : pool_stopping pc p -> pc <> ThreadPool.Asleep ->
  ThreadPool.exec (ThreadPool.ActWorker 0) p = None -> pool_exited p = true.
Proof.
  intros Hp Hpc E. destruct (PoolProgress.stopping_end pc p (stopping_of_pool pc p Hp Hpc) E) as [Hw _].
  unfold pool_exited. rewrite Hw. apply bool_decide_eq_true_2. by intros i pc' [_ <-]%lookup_singleton_Some.
Qed.

(** A pool without threads, or one that was told to stop; [woken] when the
    sleepers were notified. *)
Definition pool_ready (woken : bool) p : Prop :=
  ThreadPool.workers p = ∅ \/ exists pc, pool_stopping pc p /\ (woken = true -> pc <> ThreadPool.Asleep).

Lemma pool_ready_weaken b p : pool_ready true p -> pool_ready b p.
Proof. intros [|(pc & Hp & Hpc)]; [by left|right]. exists pc. auto. Qed.

Lemma pool_ready_notify b p : pool_ready b p ->
  pool_ready true (ThreadPool.notify_all p) /\ pool_weight (ThreadPool.notify_all p) = pool_weight p.
Proof.
  intros [Hw|(pc & [Hw Hst] & _)].
  - assert (Hn : ThreadPool.workers (ThreadPool.notify_all p) = ∅) by (cbn; by rewrite Hw, fmap_empty).
    split; [by left|]. unfold pool_weight. by rewrite Hn, Hw.
  - pose proof (pool_stopping_of _ _ Hst) as Hp'. split.
    + right. exists (ThreadPool.wake pc). split; [done|]. by destruct pc.
    + rewrite (pool_weight_stopping _ _ Hp'), (pool_weight_stopping pc p (conj Hw Hst)).
      by replace (ThreadPool.wake (ThreadPool.wake pc)) with (ThreadPool.wake pc) by (by destruct pc).
Qed.

Lemma pool_ready_step b p i r : pool_ready b p -> ThreadPool.exec (ThreadPool.ActWorker i) p = Some r ->
  exists p', r = Ret p' /\ pool_ready true p' /\ (pool_weight p' < pool_weight p)%nat.
Proof.
  intros [Hw|(pc & Hp & _)] E; [cbn [ThreadPool.exec] in E; by rewrite Hw in E|].
  destruct (pool_stopping_step pc p i r Hp E) as (pc' & p' & -> & Hp' & Hpc' & Hlt).
  exists p'. split; [done|]. split; [|done]. right. by exists pc'.
Qed.

Lemma pool_ready_end p : pool_ready true p -> ThreadPool.exec (ThreadPool.ActWorker 0) p = None -> pool_exited p = true.
Proof.
  intros [Hw|(pc & Hp & Hpc)] E; [|by eapply pool_stopping_end; eauto].
  unfold pool_exited. rewrite Hw. apply bool_decide_eq_true_2, map_Forall_empty.
Qed.

Lemma pool_ready_stop p : ThreadPool.wf_pool p -> dom (ThreadPool.workers p) ⊆ {[0%nat]} ->
  ThreadPool.workers p !! 0%nat <> Some ThreadPool.ToSleep ->
  pool_ready false (ThreadPool.Stop p) /\ (pool_weight (ThreadPool.Stop p) <= 5 * ThreadPool.GetPendingTasks p + 5)%nat.
Proof.
  intros Hwf Hd Hne. destruct (ThreadPool.workers p !! 0%nat) as [pc|] eqn:Hpc.
  - assert (Hw : ThreadPool.workers p = {[0%nat := pc]}).
    { apply map_eq. intros i. destruct (decide (i = 0%nat)) as [->|Hi]; [by rewrite lookup_singleton_eq|].
      rewrite lookup_singleton_ne by done. apply not_elem_of_dom. set_solver. }
    assert (Hp : pool_stopping pc (ThreadPool.Stop p)) by (split; [done|apply PoolProgress.stopping_start; [done..|congruence]]).
    split; [right; by exists pc|]. rewrite (pool_weight_stopping pc _ Hp). unfold PoolProgress.stop_load.
    change (ThreadPool.GetPendingTasks (ThreadPool.Stop p)) with (ThreadPool.GetPendingTasks p).
    assert (PoolProgress.stop_rank (ThreadPool.wake pc) <= 5)%nat by (destruct pc; cbn; lia). lia.
  - split; [left|unfold pool_weight; cbn; rewrite Hpc; lia]. apply dom_empty_iff_L.
    apply not_elem_of_dom in Hpc. cbn. set_solver.
Qed.
End pool.

(** ** The server *)

Section server.
Context {Any Q QP : Type} `{HQ : MaxQueueLaws waiting Q TimerCmp} `{HQP : MaxQueueLaws ThreadPool.pending QP ThreadPool.TaskCmp}.
Context (OnTcpConnected OnTcpDisconnected OnTcpReceivedData : ptr -> DateTime -> Worker Any -> outcome (Worker Any)).
Context (limiter : option TcpRateLimiterConfig) (reserved : nat -> Z).
Context (sys : nat -> Kernel Any) (accepting : nat -> Worker Any -> IOWorker.incoming) (clock : nat -> nat -> DateTime).
Context (run_task : nat -> nat -> TimerQueue Q (Worker Any) -> outcome (TimerQueue Q (Worker Any))).
Context (run_stop : nat -> nat -> TimerQueue Q (Worker Any) -> outcome (bool * TimerQueue Q (Worker Any))).
Context (Henv : server_env_ok OnTcpConnected OnTcpDisconnected OnTcpReceivedData limiter sys accepting clock run_task run_stop).
Implicit Types s : TcpServer Any Q QP.

Abbreviation wf_server := (wf_server sys).
Abbreviation exec := (server_exec OnTcpConnected OnTcpDisconnected OnTcpReceivedData limiter reserved sys accepting clock run_task run_stop).
Abbreviation step := (server_step OnTcpConnected OnTcpDisconnected OnTcpReceivedData limiter reserved sys accepting clock run_task run_stop).

(** The actions of the server's own threads when no client comes, no timer is added
    or expires, no task is submitted or cancelled and no second signal comes: the
    main thread, the threads of the pool, and the workers, which no event but
    the wake-up of [Stop] reaches. *)
Definition quiet_action (a : server_action) s : Prop :=
  match a with
  | MainStep => True
  | PoolAct (ThreadPool.ActWorker _) => True
  | WorkerAct i a => quiet_loop a
      /\ exists w, worker_set s !! i = Some w /\ (IOWorker.stop_loop w = true \/ a = IOWorker.ActStep)
  | _ => False
  end.
Definition quiet_step s s' : Prop := exists a, quiet_action a s /\ exec a s = Some (Ret s').

Definition told (i : nat) (pc : ServePc) : Prop :=
  match pc with StopWorkers j => (i < j)%nat | JoinWorkers | Served => True | _ => False end.

(** The sleepers of the pool were notified. *)
Definition woken (pc : ServePc) : bool := match pc with NotifyPool => false | _ => true end.

Record stopping_server s : Prop := {
  ss_wf : wf_server s;
  ss_phase : pool_running (main_pc s) = false;
  ss_place : forall j, main_pc s = StopWorkers j -> (j <= length (worker_set s))%nat;
  ss_pool : pool_ready (woken (main_pc s)) (thread_pool s);
  ss_quiet : forall i w, worker_set s !! i = Some w -> at_rest w;
  ss_told : forall i w, worker_set s !! i = Some w -> told i (main_pc s) -> IOWorker.stop_loop w = true;
}.

(** How far the server is from its end. *)
Definition main_weight (pc : ServePc) (n : nat) : nat :=
  match pc with
  | NotifyPool => 6 * n + 4 | JoinPool => 6 * n + 3 | StopWorkers j => 6 * (n - j) + 2 | JoinWorkers => 1 | _ => 0
  end.
Definition server_weight s : nat :=
  (main_weight (main_pc s) (length (worker_set s)) + pool_weight (thread_pool s) + sum_list (map worker_weight (worker_set s)))%nat.

Lemma sum_insert (l : list (IOWorker Any Q)) i w w' : l !! i = Some w ->
  (sum_list (map worker_weight (<[i := w']> l)) + worker_weight w = sum_list (map worker_weight l) + worker_weight w')%nat.
Proof.
  revert i. induction l as [|x l IH]; intros [|i] Hi; try done.
  - injection Hi as ->. cbn. lia.
  - pose proof (f_equal (Nat.add (worker_weight x)) (IH i Hi)) as E. rewrite !Nat.add_assoc in E. exact E.
Qed.

Lemma stop_weight (w : IOWorker Any Q) : IOWorker.stop_loop w = false ->
  (worker_weight (IOWorker.Stop w) <= worker_weight w + 5)%nat.
Proof. intros Hst. unfold worker_weight. rewrite Hst. cbn. destruct (IOWorker.loop_pc w); cbn; lia. Qed.

Lemma main_quiet s s' : stopping_server s -> main_step reserved s = Some s' -> stopping_server s' /\ (server_weight s' < server_weight s)%nat.
Proof.
  intros Hs E. pose proof (wf_main_step reserved sys s s' (ss_wf s Hs) E) as Hwf'. destruct Hs as [Hwf Hph Hpl Hp Hq Ht].
  unfold main_step in E. unfold server_weight. destruct (main_pc s) as [| | | | | | |j| |] eqn:Em; try done; cbn [woken] in Hp.
  - injection E as <-. destruct (pool_ready_notify _ _ Hp) as [Hp' Hwt].
    split; [split; cbn; try done; eauto|]. cbn [main_pc set_main_pc set_pool main_weight worker_set thread_pool]. lia.
  - destruct (pool_exited (thread_pool s)); [|done]. injection E as <-.
    split; [split; cbn; try done; eauto|].
    + intros j [= <-]. lia.
    + intros i w Hi Hlt. lia.
    + cbn [main_pc set_main_pc main_weight worker_set thread_pool]. lia.
  - specialize (Hpl j eq_refl). injection E as <-. destruct (worker_set s !! j) as [w|] eqn:Hj.
    + assert (Hlook : forall i u, <[j := IOWorker.Stop w]> (worker_set s) !! i = Some u -> i = j /\ u = IOWorker.Stop w \/ i <> j /\ worker_set s !! i = Some u).
      { intros i u. rewrite list_lookup_insert_Some. naive_solver. }
      pose proof (lookup_lt_Some _ _ _ Hj) as Hlt.
      assert (Hsw : IOWorker.stop_loop w = false) by (apply (sv_running sys s Hwf j w Hj); rewrite Em; cbn; lia).
      split; [split; cbn; try done; eauto|].
      * intros i [= <-]. rewrite length_insert. lia.
      * intros i u [[-> ->]|[_ Hi]]%Hlook; [by apply (Hq j w)|eauto].
      * intros i u [[-> ->]|[Hne Hi]]%Hlook Hti; [done|]. apply (Ht i u Hi). cbn. lia.
      * cbn [main_pc set_main_pc stop_worker set_workers main_weight worker_set thread_pool]. rewrite length_insert.
        pose proof (sum_insert (worker_set s) j w (IOWorker.Stop w) Hj). pose proof (stop_weight w Hsw). lia.
    + split; [split; cbn; try done; eauto|].
      * intros i w Hi _. apply (Ht i w Hi). cbn. pose proof (lookup_lt_Some _ _ _ Hi). apply lookup_ge_None in Hj. lia.
      * cbn [main_pc set_main_pc main_weight worker_set thread_pool]. lia.
  - destruct (workers_exited (worker_set s)); [|done]. injection E as <-.
    split; [split; cbn; try done; eauto|]. cbn [main_pc set_main_pc main_weight worker_set thread_pool]. lia.
Qed.

Lemma quiet_ok a s : stopping_server s -> quiet_action a s -> server_action_ok clock run_task run_stop a s.
Proof.
  intros Hs. destruct a as [| |i a|a|]; try done. intros [Ha _] w Hi. apply quiet_loop_ok; [done|exact (ss_quiet s Hs i w Hi)].
Qed.

(** Every quiet action returns, and brings the server closer to its end. *)
Lemma quiet_action_step a s r : stopping_server s -> quiet_action a s -> exec a s = Some r ->
  exists s', r = Ret s' /\ stopping_server s' /\ (server_weight s' < server_weight s)%nat.
Proof.
  intros Hs Ha E. pose proof (server_exec_ok OnTcpConnected OnTcpDisconnected OnTcpReceivedData limiter reserved sys accepting clock
    run_task run_stop Henv a s (ss_wf s Hs) (quiet_ok a s Hs Ha)) as Hwf. rewrite E in Hwf.
  destruct a as [| |i a|a|]; cbn [quiet_action server_exec] in *; [|done| | |done].
  - destruct (main_step reserved s) as [s'|] eqn:Em; [|done]. injection E as <-. destruct (main_quiet s s' Hs Em). by exists s'.
  - destruct Ha as [Ha (w & Hi & Hst)]. rewrite Hi in E. destruct (worker_public a); [|done].
    destruct (worker_exec _ _ _ _ _ _ _ _ _ i a _) as [r'|] eqn:Ew; [|done].
    pose proof (wf_load_ids sys i (timer_ids s) w (sv_workers sys s (ss_wf s Hs) i w Hi) (proj2 (sv_ids sys s (ss_wf s Hs)) i w Hi)) as Hwl.
    destruct (quiet_loop_step _ _ _ _ _ _ (server_loop_env OnTcpConnected OnTcpDisconnected OnTcpReceivedData limiter sys accepting clock
      run_task run_stop Henv i) a _ r' Hwl (ss_quiet s Hs i w Hi) Ha Hst Ew) as (w' & -> & Hst' & Hc' & Hlt).
    injection E as <-. exists (store_worker i w' s). split; [done|].
    assert (Hlook : forall j u, <[i := w']> (worker_set s) !! j = Some u -> j = i /\ u = w' \/ j <> i /\ worker_set s !! j = Some u).
    { intros j u. rewrite list_lookup_insert_Some. naive_solver. }
    destruct Hs as [_ Hph Hpl Hp Hq Ht]. split; [split; cbn; try done|].
    + by rewrite length_insert.
    + intros j u [[-> ->]|[_ Hj]]%Hlook; [done|by apply (Hq j)].
    + intros j u [[-> ->]|[_ Hj]]%Hlook Htj; [rewrite Hst'; by apply (Ht i w)|by apply (Ht j)].
    + unfold server_weight. cbn [store_worker set_timer_ids set_workers main_pc worker_set thread_pool]. rewrite length_insert.
      pose proof (sum_insert (worker_set s) i w w' Hi) as Hsum.
      change (worker_weight (load_ids (timer_ids s) w)) with (worker_weight w) in Hlt. lia.
  - destruct a as [| | | | | |i|]; try done. cbn [pool_public] in E.
    destruct (ThreadPool.exec (ThreadPool.ActWorker i) (thread_pool s)) as [r'|] eqn:Ep; [|done].
    destruct (pool_ready_step _ (thread_pool s) i r' (ss_pool s Hs) Ep) as (p' & -> & Hp' & Hlt). injection E as <-.
    exists (set_pool p' s). split; [done|]. destruct Hs as [_ Hph Hpl _ Hq Ht].
    split; [split; cbn; try done; by apply pool_ready_weaken|].
    unfold server_weight. cbn [set_pool main_pc worker_set thread_pool]. lia.
Qed.

(** As long as [Serve] has not returned, a quiet action is possible. *)
Lemma quiet_progress s : stopping_server s -> main_pc s <> Served -> exists a r, quiet_action a s /\ exec a s = Some r.
Proof.
  intros Hs Hm. destruct (Hs) as [Hwf Hph Hpl Hp Hq Ht].
  assert (Hmain : forall s', main_step reserved s = Some s' -> exists a r, quiet_action a s /\ exec a s = Some r).
  { intros s' E. exists MainStep, (Ret s'). split; [done|]. cbn [server_exec]. by rewrite E. }
  destruct (main_pc s) as [| | | | | | |j| |] eqn:Em; try done.
  - eapply Hmain. unfold main_step. by rewrite Em.
  - destruct (pool_exited (thread_pool s)) eqn:Hx; [eapply Hmain; unfold main_step; by rewrite Em, Hx|].
    destruct (ThreadPool.exec (ThreadPool.ActWorker 0) (thread_pool s)) as [r|] eqn:Ep.
    + exists (PoolAct (ThreadPool.ActWorker 0)), (p ← r; Ret (set_pool p s)). split; [done|]. cbn [server_exec pool_public]. by rewrite Ep.
    + by rewrite (pool_ready_end (thread_pool s) Hp Ep) in Hx.
  - eapply Hmain. unfold main_step. by rewrite Em.
  - destruct (workers_exited (worker_set s)) eqn:Hx; [eapply Hmain; unfold main_step; by rewrite Em, Hx|].
    unfold workers_exited in Hx. apply not_true_iff_false in Hx. rewrite forallb_forall in Hx.
    destruct (decide (Forall (fun w => IOWorker.loop_pc w = IOWorker.Exited) (worker_set s))) as [Hall|Hall].
    { exfalso. apply Hx. intros w Hin%list_elem_of_In. apply bool_decide_eq_true_2. rewrite Forall_forall in Hall. by apply Hall. }
    apply not_Forall_Exists in Hall; [|intros w; apply _]. apply Exists_exists in Hall as (w & Hin & Hne).
    apply list_elem_of_lookup in Hin as [i Hi]. cbn in Hne. pose proof (Ht i w Hi I) as Hst.
    assert (Hact : forall a, quiet_loop a -> is_Some (worker_exec OnTcpConnected OnTcpDisconnected OnTcpReceivedData limiter sys accepting clock run_task run_stop i a (load_ids (timer_ids s) w)) ->
      exists a r, quiet_action a s /\ exec a s = Some r).
    { intros a Ha [r Hr]. exists (WorkerAct i a), (w ← r; Ret (store_worker i w s)).
      split; [split; [done|exists w; split; [done|by left]]|]. cbn [server_exec]. rewrite Hi. replace (worker_public a) with true by (by destruct a). by rewrite Hr. }
    assert (Hstep : IOWorker.loop_pc w <> IOWorker.InPoll -> exists a r, quiet_action a s /\ exec a s = Some r).
    { intros Hnp. apply (Hact IOWorker.ActStep); [done|]. unfold worker_exec. cbn [IOWorker.loop_exec].
      unfold IOWorker.loop_step_pc. cbn. destruct (IOWorker.loop_pc w) as [| |? []| | | |]; try done; by eexists. }
    destruct (decide (IOWorker.loop_pc w = IOWorker.InPoll)) as [Hpcw|]; [|by apply Hstep].
    apply (Hact (IOWorker.ActPolled [IOWorker.ReadyWakeup EPOLLIN] 0)); [by exists EPOLLIN|].
    unfold worker_exec. cbn [IOWorker.loop_exec]. rewrite decide_True by done. by eexists.
Qed.

Lemma quiet_run n s s' : stopping_server s -> nsteps quiet_step n s s' ->
  stopping_server s' /\ (n + server_weight s' <= server_weight s)%nat.
Proof.
  intros Hs Hsteps. induction Hsteps as [s|n s s1 s2 (a & Ha & E) Hsteps IH]; [split; [done|lia]|].
  destruct (quiet_action_step a s _ Hs Ha E) as (s1' & [= <-] & Hs1 & Hlt). destruct (IH Hs1) as [Hs2 Hle]. split; [done|lia].
Qed.

(** Between two turns: nothing is left to handle of the last one. *)
Definition between_turns (w : IOWorker Any Q) : Prop :=
  IOWorker.loop_pc w = IOWorker.AtTest \/ IOWorker.loop_pc w = IOWorker.InPoll.

Lemma unstopped_weight (l : list (IOWorker Any Q)) :
  (forall i w, l !! i = Some w -> IOWorker.stop_loop w = false /\ between_turns w) ->
  (sum_list (map worker_weight l) <= length l)%nat.
Proof.
  induction l as [|w l IH]; intros Hl; [done|]. destruct (Hl 0%nat w eq_refl) as [Hst Hpc].
  assert (worker_weight w <= 1)%nat by (unfold worker_weight; rewrite Hst; destruct Hpc as [->| ->]; cbn; lia).
  assert (sum_list (map worker_weight l) <= length l)%nat by (apply IH; intros i x Hi; by apply (Hl (S i))). cbn. lia.
Qed.

(** The pool has the threads of the configuration once it is started. *)
Record pool_threads (cfg : ServerConfig) s : Prop := {
  pt_config : config s = cfg;
  pt_before : main_pc s = StartWorkers \/ main_pc s = StartPool -> ThreadPool.workers (thread_pool s) = ∅;
  pt_dom : forall i, i ∈ dom (ThreadPool.workers (thread_pool s)) -> (i < threadpool_workers cfg)%nat
}.

Lemma pool_threads_step cfg a s s' : pool_threads cfg s -> exec a s = Some (Ret s') -> pool_threads cfg s'.
Proof.
  intros [Hc Hb Hd] E. destruct a as [| |i a|a|]; cbn [server_exec] in E.
  - destruct (main_step reserved s) as [s1|] eqn:Em; [|done]. injection E as <-. unfold main_step in Em.
    destruct (main_pc s) eqn:Hpc; try done; try (destruct (pool_exited _); [|done]); try (destruct (workers_exited _); [|done]);
      injection Em as <-; repeat case_match; split; cbn; rewrite ?Hpc; try done; try naive_solver.
    + intros i. rewrite (Hb ltac:(by right)), (left_id_L ∅ _), Hc. cbn.
      intros [pc Hi%elem_of_list_to_map_2]%elem_of_dom. apply list_elem_of_fmap in Hi as (k & [= -> _] & Hk).
      apply elem_of_seq in Hk. rewrite map_size_empty in Hk. lia.
    + rewrite dom_fmap_L. exact Hd.
  - destruct (handler_set s); [|done]. injection E as <-. by split.
  - destruct (worker_set s !! i); [|done]. destruct (worker_public a); [|done].
    destruct (worker_exec _ _ _ _ _ _ _ _ _ i a _) as [[|]|]; [|done..]. injection E as <-. by split.
  - destruct (pool_public a) eqn:Ha; [|done]. destruct (ThreadPool.exec a (thread_pool s)) as [[p|]|] eqn:Ep; [|done..].
    injection E as <-. apply ThreadPool.exec_dom in Ep; [|by intros n l ->].
    split; cbn; [done| |by rewrite Ep]. intros Hm. apply dom_empty_iff_L. rewrite Ep. by rewrite (Hb Hm), dom_empty_L.
  - injection E as <-. by split.
Qed.

Lemma reachable_threads cfg stopped s : rtc step (TcpServer_init cfg stopped) s -> pool_threads cfg s.
Proof.
  intros Hsteps. assert (Hinit : pool_threads cfg (TcpServer_init cfg stopped : TcpServer Any Q QP)).
  { split; cbn; [done..|]. intros i. rewrite dom_empty_L. set_solver. }
  induction Hsteps as [s|s s1 s2 Hstep _ IH]; [done|]. apply IH. destruct Hstep as [a s s1 _ E]. by eapply pool_threads_step.
Qed.

(** The bound of the steps to the end. *)
Definition stop_bound s : nat := (7 * length (worker_set s) + 5 * GetPendingTasks s + 9)%nat.

Lemma stop_main s : wf_server s -> (forall i, i ∈ dom (ThreadPool.workers (thread_pool s)) -> (i < 1)%nat) ->
  main_pc s = StopPool -> ThreadPool.workers (thread_pool s) !! 0%nat <> Some ThreadPool.ToSleep ->
  (forall i w, worker_set s !! i = Some w -> conn_set (IOWorker.tcp_conns w) = ∅ /\ between_turns w) ->
  exists s1, exec MainStep s = Some (Ret s1) /\ stopping_server s1 /\ (server_weight s1 <= stop_bound s)%nat.
Proof.
  intros Hwf Hone Hm Hpc Hq.
  assert (E : main_step reserved s = Some (set_main_pc NotifyPool (set_pool (ThreadPool.Stop (thread_pool s)) s)))
    by (unfold main_step; by rewrite Hm).
  set (s1 := set_main_pc _ _) in E. exists s1. split; [cbn [server_exec]; by rewrite E|].
  pose proof (wf_main_step reserved sys s s1 Hwf E) as Hwf1.
  destruct (sv_pool sys s Hwf) as [Hpool _]; [by rewrite Hm|].
  destruct (pool_ready_stop (thread_pool s) Hpool) as [Hp Hwt]; [|done|].
  { intros i Hi%Hone. apply elem_of_singleton. lia. }
  split.
  { split; try done. cbn. intros i w Hi. destruct (Hq i w Hi) as [Hn [E'|E']]; (split; [done|]); by rewrite E'. }
  unfold stop_bound, server_weight. cbn [s1 set_main_pc set_pool main_pc main_weight worker_set thread_pool].
  assert (sum_list (map worker_weight (worker_set s)) <= length (worker_set s))%nat.
  { apply unstopped_weight. intros i w Hi. split; [|by apply (Hq i w Hi)]. apply (sv_running sys s Hwf i w Hi). by rewrite Hm. }
  unfold GetPendingTasks. lia.
Qed.

Lemma server_stopping_run s1 n s' : stopping_server s1 -> nsteps quiet_step n s1 s' ->
  (n <= server_weight s1)%nat
  /\ (forall a f, quiet_action a s' -> exec a s' <> Some (Throw f))
  /\ ((forall a, quiet_action a s' -> exec a s' = None) -> main_pc s' = Served).
Proof.
  intros Hs1 Hn. destruct (quiet_run n s1 s' Hs1 Hn) as [Hs' Hlen]. split; [lia|]. split.
  - intros a f Ha Ea. destruct (quiet_action_step a s' _ Hs' Ha Ea) as (? & [=] & _).
  - intros Hstuck. destruct (decide (main_pc s' = Served)) as [|Hne]; [done|].
    destruct (quiet_progress s' Hs' Hne) as (a & r & Ha & Er). by rewrite (Hstuck a Ha) in Er.
Qed.

(** C32: A signal ends the server, when nothing more comes from outside.  The main
    thread, having seen the flag, stops a pool of at most one thread that is not on
    its way to sleep; no worker has a connection, and each is between two turns of
    its loop.  From then on let only the server's own threads act: the main thread,
    the pool's thread and the workers, which only the wake-up of [Stop] leaves
    [Poll] (no client comes, no timer expires, nothing is submitted or cancelled,
    no further signal).  Whatever the order in which they go on, no step is a fault,
    they make at most seven steps for each worker, five for each pending task and
    nine more, and when they can make no more [Serve] has returned. *)
Theorem server_stops (cfg : ServerConfig) (stopped : bool) s :
  use_ssl cfg = false -> (threadpool_workers cfg <= 1)%nat -> rtc step (TcpServer_init cfg stopped) s ->
  main_pc s = StopPool -> ThreadPool.workers (thread_pool s) !! 0%nat <> Some ThreadPool.ToSleep ->
  (forall i w, worker_set s !! i = Some w -> conn_set (IOWorker.tcp_conns w) = ∅ /\ between_turns w) ->
  exists s1, exec MainStep s = Some (Ret s1)
    /\ forall n s', nsteps quiet_step n s1 s' ->
         (n <= 7 * length (worker_set s) + 5 * GetPendingTasks s + 9)%nat
         /\ (forall a f, quiet_action a s' -> exec a s' <> Some (Throw f))
         /\ ((forall a, quiet_action a s' -> exec a s' = None) -> main_pc s' = Served).
Proof.
  intros Hssl Hone Hr Hm Hpc Hq.
  pose proof (reachable_server OnTcpConnected OnTcpDisconnected OnTcpReceivedData limiter reserved sys accepting clock
    run_task run_stop Henv cfg stopped s Hssl Hr) as Hwf.
  destruct (stop_main s Hwf) as (s1 & E & Hs1 & Hle); [|done..|].
  { intros i Hi%(pt_dom cfg s (reachable_threads cfg stopped s Hr)). lia. }
  exists s1. split; [done|]. intros n s' Hn. destruct (server_stopping_run s1 n s' Hs1 Hn) as (Hn' & Hrest).
  split; [unfold stop_bound in Hle; lia|done].
Qed.
End server.

(** ** A run *)

Section example.
Abbreviation TestServer := (TcpServer unit (list_queue TimerCmp) (list_queue ThreadPool.TaskCmp)).
Abbreviation test_env F :=
  (F keep keep echo None (fun i => Z.of_nat i + 3) (fun _ => test_kernel (bytes "ping") 0)
     (fun _ => IOWorker.next_client) (fun _ => IOWorker.visit_clock) (fun _ => IOWorker.greet) (fun _ => IOWorker.never_stop)).

(** The client has left, the signal has come and the main thread has seen it; the
    pool's thread runs a task and another waits. *)
Definition signalled_server : list server_action :=
  take (length busy_server + 8) stopped_server
  ++ [PoolAct (ThreadPool.ActSubmit ThreadPool.NORMAL 8 0); Signal; MainStep].

Lemma server_stops_witness :
  exists s : TestServer, run_server signalled_server (TcpServer_init test_config false) = Some s
    /\ main_pc s = StopPool /\ GetPendingTasks s = 1%nat /\ length (worker_set s) = 2%nat
    /\ exists s1, test_env server_exec MainStep s = Some (Ret s1)
       /\ forall n s', nsteps (test_env quiet_step) n s1 s' ->
            (n <= 28)%nat
            /\ (forall a f, quiet_action a s' -> test_env server_exec a s' <> Some (Throw f))
            /\ ((forall a, quiet_action a s' -> test_env server_exec a s' = None) -> main_pc s' = Served).
Proof.
  assert (Hr : (fun s : TestServer => (main_pc s, GetPendingTasks s, ThreadPool.workers (thread_pool s),
                 map (fun w => (bool_decide (conn_set (IOWorker.tcp_conns w) = ∅), IOWorker.loop_pc w)) (worker_set s)))
               <$> run_server signalled_server (TcpServer_init test_config false)
               = Some (StopPool, 1%nat, {[0%nat := ThreadPool.Running 0%nat]}, [(true, IOWorker.InPoll); (true, IOWorker.InPoll)])) by (vm_compute; reflexivity).
  destruct (run_server signalled_server _) as [s|] eqn:E; [|done]. injection Hr as Hm Hp Hw Hc. exists s.
  assert (Hlen : length (worker_set s) = 2%nat) by (apply (f_equal length) in Hc; by rewrite length_map in Hc).
  split; [done|]. split; [done|]. split; [done|]. split; [done|].
  destruct (server_stops keep keep echo None _ _ _ _ _ _ test_server_env test_config false s eq_refl (le_n 1)
    (run_server_steps _ _ _ E) Hm) as (s1 & E1 & Hend).
  - rewrite Hw. by rewrite lookup_singleton_eq.
  - intros i w Hi. apply (f_equal (fun l => l !! i)) in Hc. rewrite list_lookup_fmap, Hi in Hc. cbn in Hc.
    destruct i as [|[|i]]; [| |done]; injection Hc as Hc Hpc; (split; [by apply bool_decide_eq_true in Hc | by right]).
  - exists s1. split; [exact E1|]. intros n s' Hn. destruct (Hend n s' Hn) as (Hle & Hf & Hs). rewrite Hlen, Hp in Hle. by split_and!.
Defined.
End example.
