(* ===== verification/EchoServer.v ===== *)
(** * examples/EchoServer: the echo server end to end

    The user's functions of the example on the callbacks of [TcpServer::Serve]:
    what a client sends is what it gets back. *)

From S2P Require Import Prelude CxxStd DateTime BaseBuffer Channel InetAddress TcpConn TcpConnInv TcpStream Acceptor.
Local Open Scope Z_scope.

(** [TcpServer::OnTcpConnected] and [OnTcpDisconnected] only log. *)
Definition default_OnTcpConnected {Any} (p : ptr) (time : DateTime) (w : Worker Any) : outcome (Worker Any) := Ret w.
Definition default_OnTcpDisconnected {Any} (p : ptr) (time : DateTime) (w : Worker Any) : outcome (Worker Any) := Ret w.

Definition EchoServer_callback {Any} (sys : Kernel Any) : TcpCallback Any :=
  Serve_callback sys default_OnTcpConnected default_OnTcpDisconnected echo None.

(** The bytes the kernel delivered on a descriptor. *)
Definition received (fd : Z) (es : list effect) : list byte :=
  mjoin ((fun e => match e with
                   | SysRead f d => if decide (f = fd) then d else []
                   | _ => []
                   end) <$> es).

Lemma received_app fd es1 es2 : received fd (es1 ++ es2) = received fd es1 ++ received fd es2.
Proof. unfold received. by rewrite fmap_app, join_app. Qed.

Inductive echo_event := EchoReadable (time : DateTime) | EchoWritable.

Section echo.
Context {Any : Type} (sys : Kernel Any).
Implicit Types (c : TcpConn Any) (w : Worker Any) (p : ptr).

Definition run_echo_event p (e : echo_event) w : outcome (Worker Any) :=
  match e with
  | EchoReadable time => OnChannelReadable sys (EchoServer_callback sys) p time w
  | EchoWritable => OnChannelWritable sys (EchoServer_callback sys) p w
  end.

Fixpoint run_echo p (es : list echo_event) w : outcome (Worker Any) :=
  match es with
  | [] => Ret w
  | e :: es => w ← run_echo_event p e w; run_echo p es w
  end.

(** [echo] sends back all that is in the receive buffer. *)
Lemma echo_open p time w c :
  open_at p w c ->
  exists w' c', echo p time w = Ret w' /\ open_at p w' c' /\ fd_of c' = fd_of c /\ trace w' = trace w
    /\ view (send_buffer c') = view (send_buffer c) ++ view (recv_buffer c) /\ view (recv_buffer c') = [].
Proof.
  intros (Hw & Hp & Hst & Henc). unfold echo. rewrite (conn_at_alive p c) by done. mrun.
  destruct (Send_open p c w (view (recv_buffer c)) Hw Hp Hst) as (c1 & t1 & E & Hs1 & Hfd & Hst1 & Hv & Hr & _).
  change (ToStringView (recv_buffer c)) with (view (recv_buffer c)). rewrite E.
  assert (Hp1 : heap (set_epoll t1 (put_conn p c1 w)) !! p = Some c1) by apply lookup_insert_eq.
  rewrite (conn_at_alive p c1) by done. set (c2 := set_recv_buffer (DropAllBytes (recv_buffer c1)) c1).
  eexists _, c2. split; [reflexivity|]. split; [split_and!; [|apply lookup_insert_eq|done|done]|].
  { exact (so_wf _ _ _ (step_put_recv p c1 _ _ (so_wf _ _ _ Hs1) Hp1 (wf_DropAllBytes (recv_buffer c1)))). }
  split; [done|]. split; [done|]. split; [exact Hv|]. apply view_DropAllBytes.
Qed.

(** The connection at [p] is open and has answered all it has received. *)
Definition echoing p w c : Prop := open_at p w c /\ view (recv_buffer c) = [].

Lemma run_echo_event_spec p e w c :
  kernel_ok sys -> peer_stays sys -> peer_sends sys -> echoing p w c ->
  exists w' c' es, run_echo_event p e w = Ret w' /\ echoing p w' c' /\ fd_of c' = fd_of c /\ trace w' = trace w ++ es
    /\ written (fd_of c) es ++ view (send_buffer c') = view (send_buffer c) ++ received (fd_of c) es.
Proof.
  intros Hk Hpeer Hsend [Ho Hr]. pose proof Ho as (Hw & Hp & Hst & Henc). destruct e as [time|]; cbn [run_echo_event].
  - destruct (Hsend w (fd_of c) (iov_of (recv_buffer c)) (iov_of_room _)) as (d & Hd & Hne).
    destruct (OnChannelReadable_open sys (EchoServer_callback sys) p time w c d Hk Ho Hd Hne) as (b & Hb & Hv & ->).
    set (w1 := emit _ _). assert (Ho1 : open_at p (emit (CallDataReceived p) w1) (set_recv_buffer b c)).
    { split_and!; [|apply lookup_insert_eq|done|done]. exact (wf_emit _ _ (wf_emit _ _ (so_wf _ _ _ (step_put_recv p c b w Hw Hp Hb)))). }
    destruct (echo_open p time _ _ Ho1) as (w' & c' & E & Ho' & Hfd & Ht & Hq & Hr').
    exists w', c', [SysRead (fd_of c) d; CallDataReceived p]. split; [exact E|]. split; [done|]. split; [done|].
    split; [rewrite Ht; cbn; by rewrite <-app_assoc|].
    change (written (fd_of c) [SysRead (fd_of c) d; CallDataReceived p]) with (@nil byte). rewrite Hq. cbn [recv_buffer set_recv_buffer send_buffer].
    rewrite Hv, Hr. unfold received. cbn. by rewrite decide_True, app_nil_r by done.
  - destruct (OnChannelWritable_open sys (EchoServer_callback sys) Hk p c w Hw Hp Hst Henc (Hpeer _ _ _))
      as (w' & c' & -> & Hw' & Honly & Ht & Hp' & Hfd & Hst' & Hv & [Hr' _] & _).
    eexists w', c', _. split; [done|]. split; [split; [|by rewrite Hr']|].
    { split_and!; [apply Hw'|done|done|by rewrite (oc_encrypted _ _ _ Honly)]. }
    split; [done|]. split; [exact Ht|]. rewrite written_one, Hv, take_drop. unfold received. cbn. by rewrite app_nil_r.
Qed.

Lemma run_echo_spec p evs w c :
  kernel_ok sys -> peer_stays sys -> peer_sends sys -> echoing p w c ->
  exists w' c' es, run_echo p evs w = Ret w' /\ echoing p w' c' /\ fd_of c' = fd_of c /\ trace w' = trace w ++ es
    /\ written (fd_of c) es ++ view (send_buffer c') = view (send_buffer c) ++ received (fd_of c) es.
Proof.
  intros Hk Hpeer Hsend. revert w c. induction evs as [|e evs IH]; intros w c Ho.
  { exists w, c, []. by rewrite !app_nil_r. }
  destruct (run_echo_event_spec p e w c Hk Hpeer Hsend Ho) as (w1 & c1 & es1 & E1 & Ho1 & Hfd1 & Ht1 & Hb1).
  destruct (IH w1 c1 Ho1) as (w2 & c2 & es2 & E2 & Ho2 & Hfd2 & Ht2 & Hb2). rewrite Hfd1 in Hb2.
  exists w2, c2, (es1 ++ es2). cbn [run_echo]. rewrite E1. mrun.
  split; [done|]. split; [done|]. split; [congruence|]. split; [by rewrite Ht2, Ht1, app_assoc|].
  by rewrite written_app, received_app, <-app_assoc, Hb2, app_assoc, Hb1, <-app_assoc.
Qed.

(** Writable events alone. *)
Lemma run_echo_writable p n w : run_echo p (replicate n EchoWritable) w
  = run_stream sys (EchoServer_callback sys) p (replicate n StreamWritable) w.
Proof. revert w. induction n as [|n IH]; intros w; [done|]. cbn. mrun. by destruct (OnChannelWritable _ _ p w). Qed.

(** C17: the echo server.  On a connection whose client stays and whose kernel
    takes some of each write: after any readable and writable events in any
    order, what was written followed by what is queued is what was received;
    and one more writable event than bytes are queued makes what was written
    exactly what was received, byte for byte and in order. *)
Theorem echo_end_to_end p (evs : list echo_event) w c :
  kernel_ok sys -> peer_stays sys -> peer_sends sys -> (forall w fd v, v <> [] -> 0 < sys_write sys w fd v) ->
  echoing p w c -> view (send_buffer c) = [] ->
  exists w1 c1 es1, run_echo p evs w = Ret w1 /\ echoing p w1 c1 /\ trace w1 = trace w ++ es1
    /\ written (fd_of c) es1 ++ view (send_buffer c1) = received (fd_of c) es1
    /\ forall n, (length (view (send_buffer c1)) < n)%nat ->
         exists w2 es2, run_echo p (replicate n EchoWritable) w1 = Ret w2 /\ trace w2 = trace w ++ es1 ++ es2
           /\ written (fd_of c) (es1 ++ es2) = received (fd_of c) (es1 ++ es2).
Proof.
  intros Hk Hpeer Hsend Hprog Ho Hq.
  destruct (run_echo_spec p evs w c Hk Hpeer Hsend Ho) as (w1 & c1 & es1 & E1 & Ho1 & Hfd1 & Ht1 & Hb1).
  rewrite Hq in Hb1. cbn [app] in Hb1. exists w1, c1, es1. do 4 (split; [done|]). intros n Hn.
  destruct (flush_spec sys (EchoServer_callback sys) p n w1 c1 Hk Hpeer Hprog (proj1 Ho1) Hn) as (w2 & c2 & E2 & (_ & Hp2 & _) & Hv2 & _).
  rewrite <-run_echo_writable in E2.
  destruct (run_echo_spec p (replicate n EchoWritable) w1 c1 Hk Hpeer Hsend Ho1) as (w2' & c2' & es2 & E2' & [(_ & Hp2' & _) _] & _ & Ht2 & Hb2).
  rewrite E2 in E2'. injection E2' as <-. rewrite Hp2 in Hp2'. injection Hp2' as <-.
  rewrite Hv2, Hfd1, app_nil_r in Hb2. exists w2, es2. split; [done|]. split; [by rewrite Ht2, Ht1, app_assoc|].
  by rewrite written_app, received_app, Hb2, app_assoc, Hb1.
Qed.
End echo.

Lemma echo_end_to_end_witness :
  let evs := [EchoReadable 0; EchoReadable 1; EchoWritable; EchoReadable 2] in
  exists w1 c1 es1, run_echo (test_kernel (bytes "ping") 0) 7 evs one_conn = Ret w1
    /\ echoing 7 w1 c1 /\ trace w1 = [] ++ es1
    /\ written 5 es1 ++ view (send_buffer c1) = received 5 es1
    /\ forall n, (length (view (send_buffer c1)) < n)%nat ->
         exists w2 es2, run_echo (test_kernel (bytes "ping") 0) 7 (replicate n EchoWritable) w1 = Ret w2
           /\ trace w2 = [] ++ es1 ++ es2 /\ written 5 (es1 ++ es2) = received 5 (es1 ++ es2).
Proof.
  apply (echo_end_to_end (test_kernel (bytes "ping") 0) 7 [EchoReadable 0; EchoReadable 1; EchoWritable; EchoReadable 2]
           one_conn (set_channel (mkChannel 5 kReadEvent 0) (TcpConn_init 5 InetAddress_zero InetAddress_zero))).
  - apply test_kernel_ok.
  - apply test_kernel_stays.
  - intros w fd iov Hiov. eexists. split; [done|]. by destruct (sum_list iov); [lia|].
  - intros w fd v Hv. destruct v; [done|]. cbn. unfold write_max. lia.
  - split; [apply one_conn_open|]. reflexivity.
  - reflexivity.
Defined.
