(* ===== verification/TimerServer.v ===== *)
(** * examples/TimerServer: greetings on a timer

    The example greets every client from a repeated timer whose closure holds a
    [shared_ptr] to the connection: the timers of a worker on its connections. *)

From S2P Require Import Prelude CxxStd DateTime BaseBuffer Channel InetAddress TcpConn TcpConnInv TcpStream Acceptor.
From S2P Require Import PQueue TimerQueue TimerSafe TimerRepeat.
Local Open Scope Z_scope.

(** [char data[64]] and what [snprintf] and [Send(std::string_view)] make of it. *)
Definition kDataSize : nat := 64.
Definition greeting (time : DateTime) : outcome (list byte) :=
  data ← snprintf (replicate kDataSize Byte.x00) kDataSize
           (bytes "Hello! Time now: " ++ c_str (DateTime.ToString time) ++ [Byte.x0a]);
  n ← strlen data;
  Ret (take n data).

Section server.
Context {Any Q : Type} `{MaxQueue waiting Q} (sys : Kernel Any) (clock : nat -> DateTime).

(** The closure: [sp->Send(data)]. *)
Definition TimerServer_task (p : ptr) (w : Worker Any) : outcome (Worker Any) :=
  data ← greeting (now sys w);
  Send p data w.

(** The name of a task stands for the connection its closure holds. *)
Definition TimerServer_run_task (f : nat) (s : TimerQueue Q (Worker Any)) : outcome (TimerQueue Q (Worker Any)) :=
  w ← TimerServer_task (Z.of_nat f) (env s);
  Ret (set_env w s).

(** [conn->GetSharedPtr()]: another owner of the connection. *)
Definition GetSharedPtr (p : ptr) (w : Worker Any) : outcome (Worker Any) :=
  _ ← conn_at p w;
  Ret (mkWorker (heap w) (epoll w) (conn_set w) ({[p]} ∪ held w) (encrypted w) (trace w)).

(** After [TcpServer::OnTcpConnected], which only logs. *)
Definition TimerServer_OnTcpConnected (f : nat) (time : DateTime) (s : TimerQueue Q (Worker Any))
    : outcome (TimerQueue Q (Worker Any)) :=
  w ← GetSharedPtr (Z.of_nat f) (env s);
  r ← AddTimerRepeat clock (3 * 1000000) 3 (Some f) (set_env w s);
  let '(_, s) := r : Z * TimerQueue Q (Worker Any) in
  Ret s.

(** What was received is dropped. *)
Definition TimerServer_OnTcpReceivedData (p : ptr) (time : DateTime) (w : Worker Any) : outcome (Worker Any) :=
  c ← conn_at p w;
  Ret (put_conn p (set_recv_buffer (DropAllBytes (recv_buffer c)) c) w).
End server.

(** ** The greetings *)

Definition greeting_text (time : DateTime) : list byte :=
  bytes "Hello! Time now: " ++ c_str (DateTime.ToString time) ++ [Byte.x0a].

(** The date has at most 26 characters, so nothing is cut. *)
Lemma greeting_spec time : greeting time = Ret (greeting_text time).
Proof.
  unfold greeting. fold (greeting_text time).
  assert (Hn : Byte.x00 ∉ greeting_text time).
  { unfold greeting_text. rewrite !not_elem_of_app. split_and!; [|apply c_str_never_nul|];
      apply (bool_decide_unpack _); vm_compute; exact I. }
  assert (Hl : (length (greeting_text time) < kDataSize - 1)%nat).
  { unfold greeting_text. rewrite !length_app. unfold c_str, DateTime.ToString. rewrite !length_take.
    change (length (bytes "Hello! Time now: ")) with 17%nat. change (length [Byte.x0a]) with 1%nat. unfold kDataSize. lia. }
  rewrite snprintf_spec by (rewrite length_take, length_replicate; lia). mrun. rewrite take_ge by lia.
  rewrite strlen_spec by done. mrun. by rewrite take_app_length.
Qed.

Section greets.
Context {Any Q : Type} `{HQ : MaxQueueLaws waiting Q TimerCmp} (sys : Kernel Any).
Context (clock : nat -> DateTime) (clock_range : forall n, 0 <= clock n < 2 ^ 62).
Context (run_stop : nat -> TimerQueue Q (Worker Any) -> outcome (bool * TimerQueue Q (Worker Any))).
Implicit Types (w : Worker Any) (c : TcpConn Any) (s : TimerQueue Q (Worker Any)).

(** [n] runs of the task on an open connection queue [n] greetings, each with the
    date the clock gives at its start. *)
Lemma greetings p n w c :
  open_at p w c ->
  exists w' c' times, iter_act (TimerServer_task sys p) n w = Ret w' /\ open_at p w' c'
    /\ view (send_buffer c') = view (send_buffer c) ++ mjoin (greeting_text <$> times) /\ length times = n
    /\ forall j t, times !! j = Some t -> exists wj, iter_act (TimerServer_task sys p) j w = Ret wj /\ t = now sys wj.
Proof.
  revert w c. induction n as [|n IH]; intros w c Ho; [by exists w, c, []; rewrite app_nil_r|].
  pose proof Ho as (Hw & Hp & Hst & Henc).
  destruct (Send_open p c w (greeting_text (now sys w)) Hw Hp Hst) as (c1 & t1 & E & Hs1 & _ & Hst1 & Hv1 & _).
  assert (Et : TimerServer_task sys p w = Ret (set_epoll t1 (put_conn p c1 w))).
  { unfold TimerServer_task. rewrite greeting_spec. mrun. exact E. }
  cbn [iter_act]. rewrite Et. mrun.
  destruct (IH (set_epoll t1 (put_conn p c1 w)) c1) as (w' & c' & times & -> & Ho' & Hv & Hl & Ht).
  { split_and!; [apply Hs1|apply lookup_insert_eq|done|done]. }
  exists w', c', (now sys w :: times). split; [done|]. split; [done|]. split; [|split; [cbn; lia|]].
  - rewrite Hv, Hv1, <-app_assoc. done.
  - intros [|j] t Hj; [injection Hj as <-; by exists w|]. destruct (Ht j t Hj) as (wj & Ej & ->). exists wj.
    split; [|done]. cbn [iter_act]. rewrite Et. mrun. exact Ej.
Qed.

Lemma GetSharedPtr_open p w c : open_at p w c -> exists w', GetSharedPtr p w = Ret w' /\ open_at p w' c /\ p ∈ held w'.
Proof.
  intros ([Hc Hf Ho] & Hp & Hst & Henc). unfold GetSharedPtr. rewrite (conn_at_alive p c) by done. mrun.
  eexists. split; [done|]. split; [|cbn; set_solver]. split_and!; try done. split; cbn; try done.
  assert (p ∈ dom (heap w)) by (apply elem_of_dom; by exists c). set_solver.
Qed.

(** C21: the timer server.  A client that connects while no timer waits, whose
    connection stays open, and whose timeouts are handled when they are due (the clock
    satisfies [due_on_time]) is greeted four times, once and then the 3 repetitions:
    what is queued for it is the four texts, the text of timeout [j] with the date
    that [DateTime::Now()] gives when that timeout is handled; then the timer is
    gone and the queue is as it was. *)
Theorem timer_server_greets (env_ok : Worker Any -> Prop) (f : nat) (time : DateTime) s c :
  let p := Z.of_nat f in
  wf_timers env_ok [] s -> q_elems (waiting_timers s) = [] -> due_on_time clock (3 * 1000000) 3 (ticks s) ->
  open_at p (env s) c ->
  exists s1 s2 c' times, TimerServer_OnTcpConnected clock f time s = Ret s1
    /\ run_timeouts clock (TimerServer_run_task sys) run_stop 4 s1 = Ret s2
    /\ open_at p (env s2) c' /\ length times = 4%nat
    /\ view (send_buffer c') = view (send_buffer c) ++ mjoin (greeting_text <$> times)
    /\ (forall j t, times !! j = Some t -> exists sj,
          run_timeouts clock (TimerServer_run_task sys) run_stop j s1 = Ret sj /\ t = now sys (env sj))
    /\ GetTimerNums s2 = 0%nat /\ timers s2 = timers s /\ timers_map s2 = timers_map s.
Proof.
  intros p Hwf Hq Hdue Ho. destruct (GetSharedPtr_open p (env s) c Ho) as (w1 & E1 & Ho1 & _).
  destruct (greetings p 4 w1 c Ho1) as (w2 & c2 & times & E2 & Ho2 & Hv & Hl & Htimes).
  destruct (repeated_runs clock clock_range (TimerServer_run_task sys) run_stop f (TimerServer_task sys p)
    (fun s => eq_refl) (3 * 1000000) ltac:(lia) (fun _ => True) 3 (set_env w1 s) w2)
    as (id & s1 & E3 & Hsteps & s2 & E4 & Hn & _ & Henv & Ht & Hm); [by eapply wf_set_env|done..|].
  exists s1, s2, c2, times. unfold TimerServer_OnTcpConnected. fold p. rewrite E1. mrun. rewrite E3. mrun.
  split; [done|]. split; [done|]. rewrite Henv. split; [done|]. split; [done|]. split; [done|]. split; [|done].
  intros j t Hj. pose proof (lookup_lt_Some _ _ _ Hj) as Hlt. rewrite Hl in Hlt.
  destruct (Hsteps j ltac:(lia)) as (sj & Ej & _ & _ & _ & Hact). destruct (Htimes j t Hj) as (wj & Ewj & ->).
  exists sj. split; [done|]. cbn in Hact. rewrite Ewj in Hact. by injection Hact as ->.
Qed.
End greets.

(** A worker whose clock moves on by three seconds between timeouts. *)
Definition three_second_clock (n : nat) : DateTime := 3 * second_clock n.

Lemma three_second_clock_range n : 0 <= three_second_clock n < 2 ^ 62.
Proof. unfold three_second_clock, second_clock. pose proof (Z.div_pos (Z.of_nat (n + 1)) 4). lia. Qed.

(** The date moves on by a second for each byte queued for the client, from 1994-11-06. *)
Definition dated_kernel : Kernel unit :=
  let k := test_kernel [] 0 in
  mkKernel (sys_readv k) (sys_write k) (sys_write_peer_gone k) (sys_shutdown k) (ssl_read k) (ssl_write k) (ssl_want_read k)
    (fun w => 784111777000000 + 1000000 * match heap w !! (7 : ptr) with Some c => Z.of_nat (length (view (send_buffer c))) | None => 0 end)
    true.

Definition greeting_line (date : list byte) : list byte := bytes "Hello! Time now: " ++ date ++ [Byte.x0a].

Lemma timer_server_greets_witness :
  let stop f (s : TimerQueue (list_queue TimerCmp) (Worker unit)) := Ret (true, s) in
  let s : TimerQueue (list_queue TimerCmp) (Worker unit) := TimerQueue_init one_conn in
  exists s1 s2 c', TimerServer_OnTcpConnected three_second_clock 7 0 s = Ret s1
    /\ run_timeouts three_second_clock (TimerServer_run_task dated_kernel) stop 4 s1 = Ret s2
    /\ open_at 7 (env s2) c'
    /\ view (send_buffer c') = mjoin (greeting_line <$> [bytes "1994-11-06 16:49:37.000000"; bytes "1994-11-06 16:50:21.000000";
         bytes "1994-11-06 16:51:05.000000"; bytes "1994-11-06 16:51:49.000000"])
    /\ GetTimerNums s2 = 0%nat /\ timers s2 = ∅ /\ timers_map s2 = ∅.
Proof.
  intros stop s.
  destruct (timer_server_greets dated_kernel three_second_clock three_second_clock_range stop (fun _ => True) 7 0 s
           (set_channel (mkChannel 5 kReadEvent 0) (TcpConn_init 5 InetAddress_zero InetAddress_zero)))
    as (s1 & s2 & c' & times & E1 & E2 & Ho & Hl & Hv & Ht & Hn & Hend).
  - apply init_timers_wf.
  - reflexivity.
  - intros j Hj. unfold three_second_clock. destruct (proj2 (second_clock_due 3 0) ltac:(lia) j Hj). cbn [Nat.mul Nat.add] in *.
    change (ticks s) with 0%nat. rewrite !Nat.add_0_l in *. lia.
  - exact one_conn_open.
  - exists s1, s2, c'. do 3 (split; [done|]). split; [|done].
    assert (Hq : (s1 ← TimerServer_OnTcpConnected three_second_clock 7 0 s;
                  s2 ← run_timeouts three_second_clock (TimerServer_run_task dated_kernel) stop 4 s1;
                  Ret ((fun c => view (send_buffer c)) <$> heap (env s2) !! (7 : ptr)))
                 = Ret (Some (mjoin (greeting_line <$> [bytes "1994-11-06 16:49:37.000000"; bytes "1994-11-06 16:50:21.000000";
                     bytes "1994-11-06 16:51:05.000000"; bytes "1994-11-06 16:51:49.000000"])))).
    { vm_compute. reflexivity. }
    rewrite E1 in Hq. revert Hq. mrun. rewrite E2. destruct Ho as (_ & Hp & _). change (Z.of_nat 7) with (7 : ptr) in Hp. rewrite Hp. cbn [fmap option_fmap option_map]. by intros [= ->].
Defined.
