(* ===== verification/CountDownLatch.v ===== *)
(** * utils/CountDownLatch: waiting for a number of events

    The threads that wait are in a map from thread names to where they are in
    [Wait].  What a thread does while it holds the mutex is one action; the
    condition variable may wake a sleeping thread at any time. *)

From S2P Require Import Prelude.
Local Open Scope Z_scope.

(** In [cond.wait(lock, pred)]: about to evaluate the predicate with the mutex
    held, asleep without it; returned from [Wait]. *)
Inductive WaitPc := Testing | Sleeping | Returned.
#[export] Instance WaitPc_eq_dec : EqDecision WaitPc.
Proof. solve_decision. Defined.

(** [counted] is the number of calls of [CountDown]. *)
Record CountDownLatch := mkLatch {
  count : Z;
  threads : gmap nat WaitPc;
  counted : nat;
}.
Implicit Types s : CountDownLatch.

Definition CountDownLatch_init (n : Z) : CountDownLatch := mkLatch n ∅ 0.

Definition GetCount s : Z := count s.

(** A thread calls [Wait]. *)
Definition enter_wait (i : nat) s : CountDownLatch := mkLatch (count s) (<[i := Testing]> (threads s)) (counted s).

(** The predicate holds and [Wait] returns, or the thread sleeps. *)
Definition test_count (i : nat) s : CountDownLatch :=
  mkLatch (count s) (<[i := if count s =? 0 then Returned else Sleeping]> (threads s)) (counted s).

Definition wake (pc : WaitPc) : WaitPc := match pc with Sleeping => Testing | _ => pc end.
Definition notify_all s : CountDownLatch := mkLatch (count s) (wake <$> threads s) (counted s).

(** [--count] below the least [int] overflows. *)
Definition CountDown s : outcome CountDownLatch :=
  if count s =? - 2 ^ 31 then Throw UndefinedBehaviour
  else
    let s := mkLatch (count s - 1) (threads s) (S (counted s)) in
    Ret (if count s =? 0 then notify_all s else s).

Inductive latch_action := LatchWait (i : nat) | LatchTest (i : nat) | LatchSpurious (i : nat) | LatchCountDown.

Definition latch_exec (a : latch_action) s : option (outcome CountDownLatch) :=
  match a with
  | LatchWait i => match threads s !! i with None | Some Returned => Some (Ret (enter_wait i s)) | _ => None end
  | LatchTest i => match threads s !! i with Some Testing => Some (Ret (test_count i s)) | _ => None end
  | LatchSpurious i =>
      match threads s !! i with
      | Some Sleeping => Some (Ret (mkLatch (count s) (<[i := Testing]> (threads s)) (counted s)))
      | _ => None
      end
  | LatchCountDown => Some (CountDown s)
  end.

Inductive latch_step : CountDownLatch -> CountDownLatch -> Prop :=
| latch_action_step a s s' : latch_exec a s = Some (Ret s') -> latch_step s s'.

(** ** The invariant *)

Record wf_latch (n : Z) s : Prop := {
  lt_count : count s = n - Z.of_nat (counted s);
  lt_early : forall i, threads s !! i = Some Returned -> n <= Z.of_nat (counted s);
  lt_woken : count s = 0 -> forall i, threads s !! i <> Some Sleeping;
}.

Lemma wf_latch_init n : wf_latch n (CountDownLatch_init n).
Proof. split; cbn; [lia | by intros i; rewrite lookup_empty | by intros _ i; rewrite lookup_empty]. Qed.

(** Moving one thread. *)
Lemma wf_move n i pc s :
  wf_latch n s -> (pc = Returned -> count s = 0) -> (pc = Sleeping -> count s <> 0) ->
  wf_latch n (mkLatch (count s) (<[i := pc]> (threads s)) (counted s)).
Proof.
  intros [Hc He Hw] Hr Hs. split; cbn; [done| |].
  - intros j. rewrite lookup_insert_Some. intros [[_ E]|[_ Hj]]; [apply Hr in E; lia | eauto].
  - intros H0 j. rewrite lookup_insert_Some. intros [[_ E]|[_ Hj]]; [by apply Hs | by apply (Hw H0 j)].
Qed.

Lemma wf_CountDown n s :
  wf_latch n s -> - 2 ^ 31 < count s -> exists s', CountDown s = Ret s' /\ wf_latch n s'.
Proof.
  intros [Hc He Hw] Hmin. unfold CountDown. destruct (Z.eqb_spec (count s) (- 2 ^ 31)); [lia|]. cbv zeta.
  cbn [count]. eexists. split; [done|]. destruct (Z.eqb_spec (count s - 1) 0) as [E|E];
    split; unfold notify_all; cbn [count threads counted]; try lia.
  - intros _ i. rewrite lookup_fmap, fmap_Some. intros (pc & _ & Ew). by destruct pc.
  - intros i Hi. apply He in Hi. lia.
Qed.

Lemma latch_exec_ok n a s :
  wf_latch n s -> - 2 ^ 31 < count s ->
  match latch_exec a s with
  | Some (Ret s') => wf_latch n s'
  | Some (Throw _) => False
  | None => True
  end.
Proof.
  intros Hs Hmin. destruct a as [i|i|i|]; cbn [latch_exec].
  - destruct (threads s !! i) as [[]|]; try done; by apply wf_move.
  - destruct (threads s !! i) as [[]|]; try done. apply wf_move; [done|..]; destruct (Z.eqb_spec (count s) 0); done.
  - destruct (threads s !! i) as [[]|]; try done. by apply wf_move.
  - by destruct (wf_CountDown n s Hs Hmin) as (s' & -> & ?).
Qed.

(** [counted] only grows. *)
Lemma latch_step_counted s s' : latch_step s s' -> (counted s <= counted s')%nat.
Proof.
  intros [a s0 s0' E]. destruct a as [i|i|i|]; cbn [latch_exec] in E.
  1-3: destruct (threads s0 !! i) as [[]|]; try done; by injection E as <-.
  unfold CountDown in E. destruct (count s0 =? _); [done|]. injection E as <-. cbv zeta. destruct (_ =? 0); cbn; lia.
Qed.

Lemma reachable_latch n s :
  rtc latch_step (CountDownLatch_init n) s -> Z.of_nat (counted s) < n + 2 ^ 31 -> wf_latch n s.
Proof.
  intros Hsteps Hlim. pose proof (wf_latch_init n) as Hs. induction Hsteps as [s|s s1 s2 Hstep Hsteps IH]; [done|].
  apply IH; [done|].
  assert (Hmono : (counted s1 <= counted s2)%nat).
  { clear -Hsteps. induction Hsteps as [s|s s1 s2 Hstep _ IH]; [lia|]. apply latch_step_counted in Hstep. lia. }
  pose proof (latch_step_counted _ _ Hstep). destruct Hstep as [a s s1 E].
  pose proof (latch_exec_ok n a s Hs) as Hok. rewrite E in Hok. apply Hok. rewrite (lt_count n s Hs). lia.
Qed.

(** C36: a latch of [n].  Whatever the order of the waits, wake-ups and countdowns,
    nobody returns from [Wait] before [n] calls of [CountDown], and after exactly
    [n] calls nobody is left asleep: every thread in [Wait] returns when it
    evaluates the predicate next. *)
Theorem latch_releases (n : Z) s :
  rtc latch_step (CountDownLatch_init n) s -> 0 <= n -> Z.of_nat (counted s) <= n ->
  GetCount s = n - Z.of_nat (counted s)
  /\ (forall i, threads s !! i = Some Returned -> Z.of_nat (counted s) = n)
  /\ (Z.of_nat (counted s) = n -> forall i pc, threads s !! i = Some pc -> pc <> Returned ->
       exists s', latch_exec (LatchTest i) s = Some (Ret s') /\ threads s' !! i = Some Returned).
Proof.
  intros Hsteps Hn Hle. destruct (reachable_latch n s Hsteps) as [Hc He Hw]; [lia|]. split_and!.
  - done.
  - intros i Hi. apply He in Hi. lia.
  - intros E i pc Hi Hpc. assert (H0 : count s = 0) by lia. specialize (Hw H0 i).
    destruct pc; try done. cbn [latch_exec]. rewrite Hi. eexists. split; [done|]. cbn.
    by rewrite H0, lookup_insert_eq.
Qed.

(** ** Counting below zero *)

Definition waits (i : nat) s : Prop := exists pc, threads s !! i = Some pc /\ pc <> Returned.

Lemma waits_move i j pc s c k :
  (j = i -> pc <> Returned) -> waits i s -> waits i (mkLatch c (<[j := pc]> (threads s)) k).
Proof.
  intros Hj (pc' & Hi & Hpc'). unfold waits. cbn. destruct (decide (j = i)) as [->|Hne].
  - exists pc. rewrite lookup_insert_eq. auto.
  - exists pc'. by rewrite lookup_insert_ne.
Qed.

Lemma waits_on i s s' : count s < 0 -> waits i s -> latch_step s s' -> count s' < 0 /\ waits i s'.
Proof.
  intros Hc Hw Hstep. destruct Hstep as [a s0 s0' E]. destruct a as [j|j|j|]; cbn [latch_exec] in E.
  - destruct (threads s0 !! j) as [[]|]; try done; injection E as <-; (split; [done|]); by apply waits_move.
  - destruct (threads s0 !! j) as [[]|]; try done. injection E as <-. split; [done|]. apply waits_move; [|done].
    intros _. destruct (Z.eqb_spec (count s0) 0); [lia | done].
  - destruct (threads s0 !! j) as [[]|]; try done. injection E as <-. split; [done|]. by apply waits_move.
  - unfold CountDown in E. destruct (count s0 =? _); [done|]. cbv zeta in E. cbn [count] in E.
    destruct (Z.eqb_spec (count s0 - 1) 0); [lia|]. injection E as <-. split; [cbn; lia | exact Hw].
Qed.

(** One call too many: a thread that has not evaluated the predicate since, even
    one that was woken, waits for ever. *)
Lemma latch_overcount (i : nat) s s' : count s < 0 -> waits i s -> rtc latch_step s s' -> waits i s'.
Proof.
  intros Hc Hw Hsteps. induction Hsteps as [s|s s1 s2 Hstep _ IH]; [done|].
  destruct (waits_on i s s1 Hc Hw Hstep). by apply IH.
Qed.

(** ** Two threads and one event, as in [AsyncFileAppender::Start] *)

Fixpoint run_latch (acts : list latch_action) s : option (outcome CountDownLatch) :=
  match acts with
  | [] => Some (Ret s)
  | a :: acts => match latch_exec a s with Some (Ret s') => run_latch acts s' | r => r end
  end.

Lemma run_latch_steps acts s s' : run_latch acts s = Some (Ret s') -> rtc latch_step s s'.
Proof.
  revert s. induction acts as [|a acts IH]; intros s E; cbn [run_latch] in E.
  - injection E as <-. constructor.
  - destruct (latch_exec a s) as [[s1|]|] eqn:Ea; try done. eapply rtc_l; [by econstructor | by apply IH].
Qed.

Lemma latch_releases_witness :
  exists s, run_latch [LatchWait 0; LatchTest 0; LatchCountDown; LatchWait 1] (CountDownLatch_init 1) = Some (Ret s)
    /\ GetCount s = 0
    /\ forall i pc, threads s !! i = Some pc -> pc <> Returned ->
         exists s', latch_exec (LatchTest i) s = Some (Ret s') /\ threads s' !! i = Some Returned.
Proof.
  destruct (run_latch _ _) as [[s|]|] eqn:E; [|exfalso; by vm_compute in E..]. exists s. split; [done|].
  assert (Hc : counted s = 1%nat) by (vm_compute in E; by injection E as <-).
  destruct (latch_releases 1 s (run_latch_steps _ _ _ E)) as (Hg & _ & Hr); [lia | rewrite Hc; lia |].
  split; [rewrite Hg, Hc; reflexivity | apply Hr; by rewrite Hc].
Defined.
