(* ===== verification/CountDownLatchTest.v ===== *)
(** * tests/CountDownLatchTest.cc: two threads that wait for the main thread

    The test as a client of [CountDownLatch]: the main thread and the two threads
    interleave with each other and with spurious wake-ups, and what is printed is
    the output.  The waits are those of the latch. *)

From S2P Require Import Prelude CountDownLatch.
Local Open Scope Z_scope.

Inductive MainPc := Preparing | Sleeping1s | Counting | Joining (i : nat) | Joined.
Inductive ThreadPc := Started | Waiting | Printed.
#[export] Instance ThreadPc_eq_dec : EqDecision ThreadPc.
Proof. solve_decision. Defined.

Record Test := mkTest {
  latch : CountDownLatch;
  thread_pcs : gmap nat ThreadPc;
  output : list (list byte);
  main_pc : MainPc;
}.
Implicit Types s : Test.

(** The latch and the two threads, which are created before the main thread prints. *)
Definition Test_init : Test := mkTest (CountDownLatch_init 1) (<[1%nat := Started]> (<[2%nat := Started]> ∅)) [] Preparing.

Definition preparing : list byte := bytes "main thread preparing...".
Definition prepared : list byte := bytes "main thread prepared!".
Definition runs (i : nat) : list byte := if (i =? 1)%nat then bytes "thread t1 runs" else bytes "thread t2 runs".

Definition main_exec s : option (outcome Test) :=
  match main_pc s with
  | Preparing => Some (Ret (mkTest (latch s) (thread_pcs s) (output s ++ [preparing]) Sleeping1s))
  | Sleeping1s => Some (Ret (mkTest (latch s) (thread_pcs s) (output s ++ [prepared]) Counting))
  | Counting =>
      match latch_exec LatchCountDown (latch s) with
      | Some r => Some (l ← r; Ret (mkTest l (thread_pcs s) (output s) (Joining 1)))
      | None => None
      end
  | Joining i =>
      if bool_decide (thread_pcs s !! i = Some Printed) then
        Some (Ret (mkTest (latch s) (thread_pcs s) (output s) (if (i =? 1)%nat then Joining 2 else Joined)))
      else None
  | Joined => None
  end.

Definition on_latch (a : latch_action) (pcs : gmap nat ThreadPc) s : option (outcome Test) :=
  match latch_exec a (latch s) with
  | Some r => Some (l ← r; Ret (mkTest l pcs (output s) (main_pc s)))
  | None => None
  end.

Definition thread_exec (i : nat) s : option (outcome Test) :=
  match thread_pcs s !! i with
  | Some Started => on_latch (LatchWait i) (<[i := Waiting]> (thread_pcs s)) s
  | Some Waiting =>
      match threads (latch s) !! i with
      | Some Returned => Some (Ret (mkTest (latch s) (<[i := Printed]> (thread_pcs s)) (output s ++ [runs i]) (main_pc s)))
      | _ => on_latch (LatchTest i) (thread_pcs s) s
      end
  | _ => None
  end.

Inductive test_action := ActMain | ActThread (i : nat) | ActSpurious (i : nat).
Definition spurious (a : test_action) : bool := match a with ActSpurious _ => true | _ => false end.

Definition test_exec (a : test_action) s : option (outcome Test) :=
  match a with
  | ActMain => main_exec s
  | ActThread i => thread_exec i s
  | ActSpurious i =>
      match thread_pcs s !! i with
      | Some Waiting => on_latch (LatchSpurious i) (thread_pcs s) s
      | _ => None
      end
  end.

Fixpoint run_test (acts : list test_action) s : option (outcome Test) :=
  match acts with
  | [] => Some (Ret s)
  | a :: acts => match test_exec a s with Some (Ret s') => run_test acts s' | r => r end
  end.

(** ** The invariant *)

Definition main_lines (pc : MainPc) : list (list byte) :=
  match pc with Preparing => [] | Sleeping1s => [preparing] | _ => [preparing; prepared] end.
Definition main_counted (pc : MainPc) : nat :=
  match pc with Preparing | Sleeping1s | Counting => 0%nat | _ => 1%nat end.

(** What a thread's place says about the latch. *)
Definition thread_ok (pc : ThreadPc) (w : option WaitPc) : Prop :=
  match pc with Started => w = None | Waiting => is_Some w | Printed => w = Some Returned end.

Record test_ok s : Prop := {
  to_latch : wf_latch 1 (latch s);
  to_counted : counted (latch s) = main_counted (main_pc s);
  to_threads : forall i, is_Some (thread_pcs s !! i) <-> i = 1%nat \/ i = 2%nat;
  to_pcs : forall i pc, thread_pcs s !! i = Some pc -> thread_ok pc (threads (latch s) !! i);
  to_output : exists l, output s = main_lines (main_pc s) ++ map runs l /\ NoDup l
                /\ (forall i, i ∈ l <-> thread_pcs s !! i = Some Printed);
  to_main : match main_pc s with
            | Joining i => i = 1%nat \/ i = 2%nat /\ thread_pcs s !! 1%nat = Some Printed
            | Joined => thread_pcs s !! 1%nat = Some Printed /\ thread_pcs s !! 2%nat = Some Printed
            | _ => True
            end;
}.

Lemma test_ok_init : test_ok Test_init.
Proof.
  split; cbn [Test_init latch thread_pcs output main_pc main_counted main_lines]; try done.
  - intros i. rewrite !lookup_insert_is_Some', lookup_empty, is_Some_alt. naive_solver.
  - intros i pc [[_ <-]|[_ [[_ <-]|[_ Hi]]%lookup_insert_Some]]%lookup_insert_Some; [cbn; by rewrite lookup_empty..|by rewrite lookup_empty in Hi].
  - exists []. split; [done|]. split; [constructor|]. intros i. rewrite elem_of_nil. split; [done|].
    intros [[_ [=]]|[_ [[_ [=]]|[_ Hi]]%lookup_insert_Some]]%lookup_insert_Some. by rewrite lookup_empty in Hi.
Qed.

(** Counting down leaves every thread where it was, or wakes it. *)
Lemma CountDown_threads l w : CountDown l = Ret w ->
  counted w = S (counted l) /\ forall pc i, thread_ok pc (threads l !! i) -> thread_ok pc (threads w !! i).
Proof.
  unfold CountDown. destruct (_ =? _); [done|]. intros [= <-]. cbv zeta. destruct (_ =? 0); cbn; [|done]. split; [done|].
  intros pc i. rewrite lookup_fmap. destruct (threads l !! i) as [[]|], pc; cbn; done || (intros; by eexists).
Qed.

Section steps.
Context s (Hs : test_ok s).

Lemma latch_bounded : - 2 ^ 31 < count (latch s).
Proof. rewrite (lt_count _ _ (to_latch s Hs)), (to_counted s Hs). destruct (main_pc s); cbn; lia. Qed.

(** An action of the latch that moves thread [i] alone. *)
Lemma on_latch_ok a i w (pc : ThreadPc) :
  (a = LatchWait i /\ pc = Waiting /\ thread_pcs s !! i = Some Started
   \/ (a = LatchTest i \/ a = LatchSpurious i) /\ pc = Waiting /\ thread_pcs s !! i = Some Waiting) ->
  latch_exec a (latch s) = Some (Ret w) ->
  test_ok (mkTest w (<[i := pc]> (thread_pcs s)) (output s) (main_pc s)).
Proof.
  intros Ha E. pose proof (latch_exec_ok 1 a (latch s) (to_latch s Hs) latch_bounded) as Hw. rewrite E in Hw.
  assert (Hl : exists wpc, w = mkLatch (count (latch s)) (<[i := wpc]> (threads (latch s))) (counted (latch s))).
  { destruct Ha as [(-> & _)|[[-> | ->] _]]; cbn [latch_exec] in E; destruct (threads (latch s) !! i) as [[]|]; try done;
      injection E as <-; by eexists. }
  destruct Hl as [wpc ->]. assert (Hpc : pc = Waiting) by (destruct Ha as [(_ & -> & _)|(_ & -> & _)]; done). subst pc.
  assert (Hi : is_Some (thread_pcs s !! i) /\ thread_pcs s !! i <> Some Printed) by (destruct Ha as [(_ & _ & ->)|(_ & _ & ->)]; split; [by eexists|done|by eexists|done]).
  destruct Hi as [Hi Hnp]. destruct Hs as [_ Hc Ht Hpcs (l & Hout & Hnd & Hl) Hm]. split; cbn [latch thread_pcs output main_pc]; try done.
  - intros j. rewrite lookup_insert_is_Some', <-Ht. naive_solver.
  - intros j pc'. rewrite lookup_insert_Some. intros [[-> <-]|[Hne Hj]]; cbn [threads].
    + cbn. rewrite lookup_insert_eq. by eexists.
    + rewrite lookup_insert_ne by done. by apply Hpcs.
  - exists l. split; [done|]. split; [done|]. intros j. rewrite Hl, lookup_insert_Some. naive_solver.
  - assert (Hkeep : forall j, thread_pcs s !! j = Some Printed -> <[i := Waiting]> (thread_pcs s) !! j = Some Printed).
    { intros j Hj. rewrite lookup_insert_ne; congruence. }
    destruct (main_pc s); naive_solver.
Qed.

Lemma thread_step_ok i : 
  match thread_exec i s with Some (Ret s') => test_ok s' | Some (Throw _) => False | None => True end.
Proof.
  unfold thread_exec. destruct (thread_pcs s !! i) as [[]|] eqn:Ei; [..|done].
  - unfold on_latch. pose proof (latch_exec_ok 1 (LatchWait i) (latch s) (to_latch s Hs) latch_bounded) as Hw.
    destruct (latch_exec _ _) as [[w|]|] eqn:E; [|done..]. apply (on_latch_ok (LatchWait i)); [left; done|done].
  - assert (Htest : match on_latch (LatchTest i) (thread_pcs s) s with Some (Ret s') => test_ok s' | Some (Throw _) => False | None => True end).
    { unfold on_latch. pose proof (latch_exec_ok 1 (LatchTest i) (latch s) (to_latch s Hs) latch_bounded) as Hw.
      destruct (latch_exec _ _) as [[w|]|] eqn:E; [|done..]. cbn. rewrite <-(insert_id (thread_pcs s) i Waiting) by done.
      apply (on_latch_ok (LatchTest i)); [right; auto|done]. }
    destruct (threads (latch s) !! i) as [[]|] eqn:Ew; try exact Htest. clear Htest.
    destruct Hs as [Hl Hc Ht Hpcs (l & Hout & Hnd & Hel) Hm].
    assert (Hlate : main_lines (main_pc s) = [preparing; prepared] /\ main_counted (main_pc s) = 1%nat).
    { pose proof (lt_early _ _ Hl i Ew) as Hearly. rewrite Hc in Hearly. destruct (main_pc s); cbn in *; (lia || done). }
    split; cbn [latch thread_pcs output main_pc]; try done.
    + intros j. rewrite lookup_insert_is_Some', <-Ht. naive_solver.
    + intros j pc'. rewrite lookup_insert_Some. intros [[-> <-]|[Hne Hj]]; [done|by apply Hpcs].
    + exists (l ++ [i]). rewrite Hout, map_app, <-app_assoc. split; [done|]. split.
      * apply NoDup_app. split; [done|]. split; [|apply NoDup_singleton]. intros j Hj ->%list_elem_of_singleton. apply Hel in Hj. congruence.
      * intros j. rewrite elem_of_app, list_elem_of_singleton, Hel, lookup_insert_Some. destruct (decide (i = j)); naive_solver.
    + assert (Hkeep : forall j, thread_pcs s !! j = Some Printed -> <[i := Printed]> (thread_pcs s) !! j = Some Printed).
      { intros j Hj. rewrite lookup_insert_Some. destruct (decide (i = j)); auto. }
      destruct (main_pc s); naive_solver.
  - done.
Qed.

Lemma main_step_ok : match main_exec s with Some (Ret s') => test_ok s' | Some (Throw _) => False | None => True end.
Proof.
  unfold main_exec. pose proof Hs as [Hl Hc Ht Hpcs (l & Hout & Hnd & Hel) Hm]. destruct (main_pc s) as [| | |i|] eqn:Em; [..|done].
  1-2: assert (l = []) as -> by (destruct l as [|i l]; [done|exfalso; pose proof (proj1 (Hel i) ltac:(by left)) as Hi; apply Hpcs in Hi; cbn in Hi;
         pose proof (lt_early _ _ Hl i Hi) as He; rewrite Hc in He; cbn in He; lia]);
       split; cbn [latch thread_pcs output main_pc]; try done; exists []; by rewrite Hout.
  - cbn [latch_exec]. destruct (wf_CountDown 1 (latch s) Hl latch_bounded) as (w & E & Hw). rewrite E. cbn [mbind outcome_bind].
    destruct (CountDown_threads _ _ E) as [Hcw Hth]. split; cbn [latch thread_pcs output main_pc]; try done.
    + by rewrite Hcw, Hc.
    + intros i pc Hi. by apply Hth, Hpcs.
    + by exists l.
    + by left.
  - case_bool_decide as Hi; [|done]. split; cbn [latch thread_pcs output main_pc]; try done.
    + by destruct (i =? 1)%nat.
    + destruct (i =? 1)%nat; by exists l.
    + destruct (Nat.eqb_spec i 1) as [->|]; [by right|]. destruct Hm as [->|[-> ?]]; done.
Qed.
End steps.

Lemma test_exec_ok a s : test_ok s ->
  match test_exec a s with Some (Ret s') => test_ok s' | Some (Throw _) => False | None => True end.
Proof.
  intros Hs. destruct a as [|i|i]; cbn [test_exec]; [by apply main_step_ok|by apply thread_step_ok|].
  destruct (thread_pcs s !! i) as [[]|] eqn:Ei; try done. unfold on_latch.
  pose proof (latch_exec_ok 1 (LatchSpurious i) (latch s) (to_latch s Hs) (latch_bounded s Hs)) as Hw.
  destruct (latch_exec _ _) as [[w|]|] eqn:E; [|done..]. cbn. rewrite <-(insert_id (thread_pcs s) i Waiting) by done.
  apply (on_latch_ok s Hs (LatchSpurious i)); [right; auto|done].
Qed.

(** ** The end of the test *)

(** A run goes on until the main thread has joined the others. *)
Lemma test_progress s : test_ok s -> main_pc s <> Joined -> exists a s', spurious a = false /\ test_exec a s = Some (Ret s').
Proof.
  intros Hs Hm. assert (Hany : forall a, spurious a = false -> is_Some (test_exec a s) -> exists a s', spurious a = false /\ test_exec a s = Some (Ret s')).
  { intros a Ha [r Hr]. pose proof (test_exec_ok a s Hs) as Hok. rewrite Hr in Hok. destruct r as [s'|]; [|done]. by exists a, s'. }
  destruct (main_pc s) as [| | |i|] eqn:Em; [..|done].
  1-3: apply (Hany ActMain); [done|]; unfold test_exec, main_exec; rewrite Em; by eexists.
  assert (Hi : is_Some (thread_pcs s !! i)) by (apply (to_threads s Hs); pose proof (to_main s Hs) as Hj; rewrite Em in Hj; tauto).
  destruct Hi as [pc Hpc]. pose proof (to_pcs s Hs i pc Hpc) as Hok.
  destruct pc; [apply (Hany (ActThread i)); [done|]..|apply (Hany ActMain); [done|]]; cbn [test_exec]; unfold thread_exec, main_exec.
  - rewrite Hpc. unfold on_latch. cbn [latch_exec]. cbn in Hok. rewrite Hok. by eexists.
  - rewrite Hpc. destruct Hok as [w Hw]. rewrite Hw. unfold on_latch. cbn [latch_exec]. rewrite Hw.
    destruct w; [by eexists| |by eexists]. exfalso. apply (lt_woken _ _ (to_latch s Hs)) in Hw; [done|].
    rewrite (lt_count _ _ (to_latch s Hs)), (to_counted s Hs), Em. done.
  - rewrite Em, bool_decide_eq_true_2 by done. by eexists.
Qed.

(** How far the test is from its end. *)
Definition main_weight (pc : MainPc) : nat :=
  match pc with Preparing => 7 | Sleeping1s => 6 | Counting => 5 | Joining i => if (i =? 1)%nat then 2 else 1 | Joined => 0 end.
Definition thread_weight (pc : option ThreadPc) (w : option WaitPc) : nat :=
  match pc, w with
  | Some Started, _ => 4
  | Some Waiting, Some Testing => 3
  | Some Waiting, Some Sleeping => 2
  | Some Waiting, _ => 1
  | _, _ => 0
  end.
Definition weight_of (i : nat) s : nat := thread_weight (thread_pcs s !! i) (threads (latch s) !! i).
Definition test_weight s : nat := main_weight (main_pc s) + weight_of 1 s + weight_of 2 s.

Lemma weight_other i s s' : (forall j, j <> i -> weight_of j s' = weight_of j s) -> i = 1%nat \/ i = 2%nat -> main_pc s' = main_pc s ->
  (test_weight s' + weight_of i s = test_weight s + weight_of i s')%nat.
Proof. intros Hj [-> | ->] Hm; unfold test_weight; rewrite Hm; [rewrite (Hj 2%nat) by done|rewrite (Hj 1%nat) by done]; lia. Qed.

Lemma weight_drops i n n' k s s' : (forall j, j <> i -> weight_of j s' = weight_of j s) -> i = 1%nat \/ i = 2%nat -> main_pc s' = main_pc s ->
  weight_of i s = n -> (weight_of i s' <= n')%nat -> (n' + 1 <= n + k)%nat -> (test_weight s' + 1 <= test_weight s + k)%nat.
Proof. intros Hj Hi Hm <- Hn Hk. pose proof (weight_other i s s' Hj Hi Hm). lia. Qed.

Lemma CountDown_weight l w : CountDown l = Ret w ->
  forall pc i, (thread_weight pc (threads w !! i) <= thread_weight pc (threads l !! i) + 1)%nat.
Proof.
  unfold CountDown. destruct (_ =? _); [done|]. intros [= <-] pc i. cbv zeta. destruct (_ =? 0); cbn; [|lia].
  rewrite lookup_fmap. destruct pc as [[]|], (threads l !! i) as [[]|]; cbn; lia.
Qed.

Lemma test_exec_weight a s s' : test_ok s -> test_exec a s = Some (Ret s') ->
  (test_weight s' + 1 <= test_weight s + if spurious a then 2 else 0)%nat.
Proof.
  intros Hs E. destruct a as [|i|i]; cbn [test_exec spurious] in *.
  - unfold main_exec in E. unfold test_weight. destruct (main_pc s) as [| | |i|] eqn:Em; [..|done].
    + injection E as <-. cbn. unfold weight_of. cbn. lia.
    + injection E as <-. cbn. unfold weight_of. cbn. lia.
    + cbn [latch_exec] in E. destruct (CountDown (latch s)) as [w|] eqn:Ec; [|done]. injection E as <-.
      pose proof (CountDown_weight _ _ Ec (thread_pcs s !! 1%nat) 1). pose proof (CountDown_weight _ _ Ec (thread_pcs s !! 2%nat) 2).
      unfold weight_of. cbn [latch thread_pcs main_pc main_weight]. change (if (1 =? 1)%nat then 2%nat else 1%nat) with 2%nat. lia.
    + case_bool_decide; [|done]. injection E as <-. unfold weight_of. cbn [latch thread_pcs main_pc main_weight].
      destruct (Nat.eqb_spec i 1) as [->|]; cbn [main_weight]; [change (if (2 =? 1)%nat then 2%nat else 1%nat) with 1%nat|]; lia.
  - pose proof (fun H => proj1 (to_threads s Hs i) H) as Hi. unfold thread_exec in E.
    destruct (thread_pcs s !! i) as [[]|] eqn:Ei; [..|done]; [| |done]; specialize (Hi ltac:(by eexists)).
    + unfold on_latch in E. cbn [latch_exec] in E. rewrite (to_pcs s Hs i _ Ei) in E. injection E as <-.
      apply (weight_drops i 4 3); [|tauto|done|unfold weight_of; cbn; rewrite ?Ei, ?lookup_insert_eq; done..|lia].
      intros j Hj. unfold weight_of. cbn. by rewrite !lookup_insert_ne.
    + pose proof (to_pcs s Hs i _ Ei) as [w Hw]. rewrite Hw in E.
      assert (Htest : on_latch (LatchTest i) (thread_pcs s) s = Some (Ret s') -> (test_weight s' + 1 <= test_weight s + 0)%nat).
      { unfold on_latch. cbn [latch_exec]. rewrite Hw. destruct w; try done. intros [= <-].
        apply (weight_drops i 3 2); [|tauto|done|unfold weight_of; cbn; rewrite Ei, ?Hw; done| |lia].
        - intros j Hj. unfold weight_of. cbn. by rewrite lookup_insert_ne.
        - unfold weight_of. cbn. rewrite Ei, lookup_insert_eq. destruct (_ =? 0); cbn; lia. }
      destruct w; try by apply Htest. injection E as <-.
      apply (weight_drops i 1 0); [|tauto|done|unfold weight_of; cbn; rewrite ?Ei, ?lookup_insert_eq, ?Hw; done..|lia].
      intros j Hj. unfold weight_of. cbn. by rewrite lookup_insert_ne.
  - destruct (thread_pcs s !! i) as [[]|] eqn:Ei; try done. unfold on_latch in E. cbn [latch_exec] in E.
    destruct (threads (latch s) !! i) as [[]|] eqn:Ew; try done. injection E as <-.
    pose proof (proj1 (to_threads s Hs i) ltac:(by eexists)).
    apply (weight_drops i 2 3); [|tauto|done|unfold weight_of; cbn; rewrite ?Ei, ?lookup_insert_eq, ?Ew; done..|lia].
    intros j Hj. unfold weight_of. cbn. by rewrite lookup_insert_ne.
Qed.

Definition spurious_count (acts : list test_action) : nat := length (List.filter spurious acts).

Lemma run_test_ok acts s s' : test_ok s -> run_test acts s = Some (Ret s') ->
  test_ok s' /\ (length acts + test_weight s' <= test_weight s + 2 * spurious_count acts)%nat.
Proof.
  revert s. induction acts as [|a acts IH]; intros s Hs E; cbn [run_test] in E.
  - injection E as <-. split; [done|]. cbn. lia.
  - pose proof (test_exec_ok a s Hs) as Hok. destruct (test_exec a s) as [[s1|]|] eqn:Ea; [|done..].
    destruct (IH s1 Hok E) as [Hs' Hlen]. split; [done|]. pose proof (test_exec_weight a s s1 Hs Ea).
    unfold spurious_count in *. cbn [length List.filter]. destruct (spurious a); cbn [length]; lia.
Qed.

Lemma test_output s : test_ok s -> main_pc s = Joined ->
  output s = [preparing; prepared; runs 1; runs 2] \/ output s = [preparing; prepared; runs 2; runs 1].
Proof.
  intros Hs Em. destruct (to_output s Hs) as (l & -> & Hnd & Hel). rewrite Em. cbn [main_lines].
  pose proof (to_main s Hs) as Hm. rewrite Em in Hm. destruct Hm as [H1 H2].
  assert (Hp : l ≡ₚ [1%nat; 2%nat]).
  { apply NoDup_Permutation; [done|repeat constructor; set_solver|]. intros i. rewrite Hel. split.
    - intros Hi. pose proof (proj1 (to_threads s Hs i) ltac:(by eexists)). set_solver.
    - intros Hi. assert (i = 1%nat \/ i = 2%nat) as [-> | ->] by set_solver; done. }
  apply Permutation_sym, Permutation_length_2_inv in Hp as [->| ->]; auto.
Qed.

(** The test of the latch, in every interleaving of its three threads and any
    wake-ups: no step is a fault; neither thread says that it runs before the main
    thread said that it is prepared; the test cannot get stuck, and its steps are
    bounded but for the wake-ups without a reason, so that it ends, with both
    threads having run. *)
Theorem latch_test_ends acts s :
  run_test acts Test_init = Some (Ret s) ->
  (forall a e, test_exec a s <> Some (Throw e))
  /\ (exists l, output s = main_lines (main_pc s) ++ map runs l /\ (l <> [] -> main_lines (main_pc s) = [preparing; prepared]))
  /\ (length acts <= 15 + 2 * spurious_count acts)%nat
  /\ ((forall a, spurious a = false -> test_exec a s = None) ->
        output s = [preparing; prepared; runs 1; runs 2] \/ output s = [preparing; prepared; runs 2; runs 1]).
Proof.
  intros E. destruct (run_test_ok acts Test_init s test_ok_init E) as [Hs Hlen]. split; [|split; [|split]].
  - intros a e Ea. pose proof (test_exec_ok a s Hs) as Hok. by rewrite Ea in Hok.
  - destruct (to_output s Hs) as (l & Hout & _ & Hel). exists l. split; [done|]. intros Hl. destruct l as [|i l]; [done|].
    pose proof (to_pcs s Hs i Printed (proj1 (Hel i) ltac:(by left))) as Hi. cbn in Hi.
    pose proof (lt_early _ _ (to_latch s Hs) i Hi) as Hearly. rewrite (to_counted s Hs) in Hearly. destruct (main_pc s); cbn in *; (lia || done).
  - change (test_weight Test_init) with 15%nat in Hlen. lia.
  - intros Hstuck. apply test_output; [done|]. destruct (main_pc s) eqn:Em; [..|done];
      (destruct (test_progress s Hs) as (a & s' & Ha & Ea); [by rewrite Em|]; by rewrite (Hstuck a Ha) in Ea).
Qed.

(** A run where a thread waits before the event and one after it. *)
Definition test_run : list test_action :=
  [ActThread 1; ActMain; ActThread 1; ActSpurious 1; ActThread 1; ActMain; ActMain; ActThread 2; ActThread 2; ActThread 1;
   ActThread 2; ActThread 1; ActMain; ActMain].
Lemma latch_test_ends_witness :
  exists s, run_test test_run Test_init = Some (Ret s)
    /\ ((forall a, spurious a = false -> test_exec a s = None) ->
          output s = [preparing; prepared; runs 1; runs 2] \/ output s = [preparing; prepared; runs 2; runs 1])
    /\ output s = [preparing; prepared; runs 2; runs 1].
Proof.
  destruct (run_test test_run Test_init) as [[s|]|] eqn:E; [|exfalso; by vm_compute in E..]. exists s. split; [done|].
  split; [apply (latch_test_ends test_run s E)|]. vm_compute in E. by injection E as <-.
Defined.
