(* ===== verification/AsyncFileAppender.v ===== *)
(** * logger/AsyncFileAppender: double-buffered logging

    The constructor opens the file for appending.  Loggers fill [cur_buffer] under the mutex; the flush thread takes the filled
    buffers under the mutex and writes them to the file without it, keeping two
    spare buffers of its own.  The threads are interleaved; a critical section
    is one action.  The file may fail to open, and a write may fall short; the
    program asks for neither when it is built with NDEBUG. *)

From S2P Require Import Prelude.
Local Open Scope Z_scope.

Definition kFixedBufferSize : Z := 1024 * 1024 * 4.

(** [FixedBuffer]: the bytes between [data] and [cur]. *)
Definition FixedBuffer : Type := list byte.
Definition FixedBuffer_init : FixedBuffer := [].
Definition AvailableBytes (b : FixedBuffer) : Z := kFixedBufferSize - Z.of_nat (length b).
Definition ReadableBytes (b : FixedBuffer) : Z := Z.of_nat (length b).
Definition FixedBuffer_Append (msg : list byte) (b : FixedBuffer) : FixedBuffer :=
  if Z.of_nat (length msg) <=? AvailableBytes b then b ++ msg else b.
Definition FixedBuffer_Reset (b : FixedBuffer) : FixedBuffer := [].

(** A [unique_ptr] that was moved from is null. *)
Abbreviation BufferPtr := (option FixedBuffer).
Definition deref_buffer (p : BufferPtr) : outcome FixedBuffer :=
  match p with Some b => Ret b | None => Throw UndefinedBehaviour end.

(** Where the flush thread is: not created yet; before the test of [stop], before
    its critical section, after it with the buffers to write; returned. *)
Inductive FlushPc :=
| NotStarted
| AtTest
| AtLock
| AtWrite (buffers_to_write : list BufferPtr)
| Finished.

(** [std::ofstream] without a buffer: what the file holds, and whether the state of
    the stream is good.  Nothing clears the state. *)
Record ofstream := mkStream { contents : list byte; good : bool }.

(** [accepted] records the messages appended, for the theorems. *)
Record AsyncFileAppender := mkAppender {
  cur_buffer : BufferPtr;
  next_buffer : BufferPtr;
  fulled_buffers : list BufferPtr;
  tmp_buffer1 : BufferPtr;
  tmp_buffer2 : BufferPtr;
  log_file : ofstream;
  stop : bool;
  flush_pc : FlushPc;
  accepted : list (list byte);
}.

(** [file] is what the file holds when it is opened ([std::ofstream::app]), if it can
    be ([opened]).  The spare buffers are variables of the flush thread. *)
Definition AsyncFileAppender_ctor (ndebug opened : bool) (file : list byte) : outcome AsyncFileAppender :=
  _ ← cassert ndebug opened;
  Ret (mkAppender (Some FixedBuffer_init) (Some FixedBuffer_init) [] None None (mkStream file opened) false NotStarted []).

(** [Start] returns when the flush thread has made its spare buffers. *)
Definition Start (s : AsyncFileAppender) : AsyncFileAppender :=
  mkAppender (cur_buffer s) (next_buffer s) (fulled_buffers s) (Some FixedBuffer_init) (Some FixedBuffer_init)
    (log_file s) (stop s) AtTest (accepted s).

Definition Append (msg : list byte) (s : AsyncFileAppender) : outcome AsyncFileAppender :=
  let len := Z.of_nat (length msg) in
  cur ← deref_buffer (cur_buffer s);
  let s := mkAppender (cur_buffer s) (next_buffer s) (fulled_buffers s) (tmp_buffer1 s) (tmp_buffer2 s)
             (log_file s) (stop s) (flush_pc s) (accepted s ++ [msg]) in
  if len <=? AvailableBytes cur then
    Ret (mkAppender (Some (FixedBuffer_Append msg cur)) (next_buffer s) (fulled_buffers s) (tmp_buffer1 s)
           (tmp_buffer2 s) (log_file s) (stop s) (flush_pc s) (accepted s))
  else
    let next := default FixedBuffer_init (next_buffer s) in
    Ret (mkAppender (Some (FixedBuffer_Append msg next)) None (fulled_buffers s ++ [Some cur]) (tmp_buffer1 s)
           (tmp_buffer2 s) (log_file s) (stop s) (flush_pc s) (accepted s)).

(** The critical section of the flush thread, after the wait. *)
Definition take_buffers (s : AsyncFileAppender) : AsyncFileAppender :=
  let fulled := fulled_buffers s ++ [cur_buffer s] in
  let '(next, tmp2) :=
    match next_buffer s with None => (tmp_buffer2 s, None) | Some b => (Some b, tmp_buffer2 s) end in
  mkAppender (tmp_buffer1 s) next [] None tmp2 (log_file s) (stop s) (AtWrite fulled) (accepted s).

Section operations.
(** How many bytes of the second list the system writes when the file holds the
    first: all of them, or fewer when the disk is full or fails. *)
Context (disk : list byte -> list byte -> nat).

(** [write] puts the bytes into the file while the stream is good; it is not any
    more once fewer could be written. *)
Definition stream_write (f : ofstream) (b : list byte) : ofstream :=
  if good f then
    let n := disk (contents f) b in
    mkStream (contents f ++ take n b) (length b <=? n)%nat
  else f.

Fixpoint write_all (buffers : list BufferPtr) (f : ofstream) : outcome ofstream :=
  match buffers with
  | [] => Ret f
  | p :: buffers => b ← deref_buffer p; write_all buffers (stream_write f b)
  end.

(** [std::move(buffers_to_write[i])] and [Reset], when the spare buffer is gone. *)
Definition reuse (spare : BufferPtr) (buffers : list BufferPtr) (i : nat) : outcome (BufferPtr * list BufferPtr) :=
  match spare with
  | Some b => Ret (Some b, buffers)
  | None =>
      p ← deref buffers i;
      b ← deref_buffer p;
      Ret (Some (FixedBuffer_Reset b), <[i := None]> buffers)
  end.

(** The rest of the loop body. *)
Definition write_buffers (buffers_to_write : list BufferPtr) (s : AsyncFileAppender) : outcome AsyncFileAppender :=
  file ← write_all buffers_to_write (log_file s);
  let bs := if (2 <? length buffers_to_write)%nat then take 2 buffers_to_write else buffers_to_write in
  r ← reuse (tmp_buffer1 s) bs 0;
  let '(tmp1, bs) := (r : BufferPtr * list BufferPtr) in
  r ← reuse (tmp_buffer2 s) bs 1;
  let '(tmp2, bs) := (r : BufferPtr * list BufferPtr) in
  Ret (mkAppender (cur_buffer s) (next_buffer s) (fulled_buffers s) tmp1 tmp2 file (stop s) AtTest (accepted s)).

Definition set_flush_pc (pc : FlushPc) (s : AsyncFileAppender) : AsyncFileAppender :=
  mkAppender (cur_buffer s) (next_buffer s) (fulled_buffers s) (tmp_buffer1 s) (tmp_buffer2 s)
    (log_file s) (stop s) pc (accepted s).

(** [Stop] up to the [join]; [Flush] only wakes the flush thread, which the
    timeout of its wait may do at any time too. *)
Definition Stop (s : AsyncFileAppender) : AsyncFileAppender :=
  mkAppender (cur_buffer s) (next_buffer s) (fulled_buffers s) (tmp_buffer1 s) (tmp_buffer2 s)
    (log_file s) true (flush_pc s) (accepted s).

Definition flush_turn (s : AsyncFileAppender) : option (outcome AsyncFileAppender) :=
  match flush_pc s with
  | NotStarted => None
  | AtTest => Some (Ret (set_flush_pc (if stop s then Finished else AtLock) s))
  | AtLock => Some (Ret (take_buffers s))
  | AtWrite buffers => Some (write_buffers buffers s)
  | Finished => None
  end.

(** [Start] is called once, and [Stop] after it. *)
Inductive log_action := LogStart | LogAppend (msg : list byte) | LogFlush | LogStop.

Definition log_exec (a : log_action) (s : AsyncFileAppender) : option (outcome AsyncFileAppender) :=
  match a, flush_pc s with
  | LogStart, NotStarted => Some (Ret (Start s))
  | LogStart, _ => None
  | LogAppend msg, _ => Some (Append msg s)
  | LogFlush, _ => flush_turn s
  | LogStop, NotStarted => None
  | LogStop, _ => Some (Ret (Stop s))
  end.

Inductive log_step : AsyncFileAppender -> AsyncFileAppender -> Prop :=
| log_action_step a s s' : log_exec a s = Some (Ret s') -> log_step s s'.

Fixpoint run_log (acts : list log_action) (s : AsyncFileAppender) : option (outcome AsyncFileAppender) :=
  match acts with
  | [] => Some (Ret s)
  | a :: acts => match log_exec a s with Some (Ret s') => run_log acts s' | r => r end
  end.
End operations.

(** ** What is in the file and what is still in memory *)

Definition in_flight (s : AsyncFileAppender) : list BufferPtr :=
  match flush_pc s with AtWrite bs => bs | _ => [] end.
Definition ptr_bytes (p : BufferPtr) : list byte := default [] p.

(** The bytes not written yet, in the order they will be. *)
Definition unwritten (s : AsyncFileAppender) : list byte :=
  mjoin (ptr_bytes <$> (in_flight s ++ fulled_buffers s ++ [cur_buffer s])).

(** A message longer than a buffer is dropped. *)
Definition fits (msg : list byte) : bool := Z.of_nat (length msg) <=? kFixedBufferSize.
Definition logged_of (l : list (list byte)) : list byte := mjoin (filter (fun m => fits m = true) l).
Definition logged (s : AsyncFileAppender) : list byte := logged_of (accepted s).

Definition not_null (p : BufferPtr) : Prop := is_Some p.

(** [file] is what was in the file before. *)
Record wf_log (file : list byte) (s : AsyncFileAppender) : Prop := {
  wl_cur : not_null (cur_buffer s);
  wl_full : Forall not_null (in_flight s ++ fulled_buffers s);
  wl_spare : match flush_pc s with
             | NotStarted => True
             | AtWrite bs => (1 <= length bs)%nat /\ (tmp_buffer2 s = None -> 2 <= length bs)%nat
             | _ => not_null (tmp_buffer1 s) /\ not_null (tmp_buffer2 s)
             end;
  (* only [Append] takes the spare buffer, and it leaves a full one behind *)
  wl_next : next_buffer s = None -> fulled_buffers s <> [];
  (* the buffers that become current are empty *)
  wl_empty : ptr_bytes (next_buffer s) = [] /\ ptr_bytes (tmp_buffer1 s) = [] /\ ptr_bytes (tmp_buffer2 s) = [];
  wl_order : good (log_file s) = true -> contents (log_file s) ++ unwritten s = file ++ logged s;
  wl_prefix : contents (log_file s) `prefix_of` file ++ logged s;
}.

Lemma wf_log_ctor ndebug opened file s : AsyncFileAppender_ctor ndebug opened file = Ret s -> wf_log file s.
Proof.
  unfold AsyncFileAppender_ctor. destruct (cassert _ _); mrun; [|done]. intros [= <-].
  split; cbn; try done; try (by eexists).
Qed.

Lemma wf_log_Start file s : wf_log file s -> flush_pc s = NotStarted -> wf_log file (Start s).
Proof.
  intros [] Hpc. unfold unwritten, in_flight in *. rewrite Hpc in *. split; try done.
  - split; by eexists.
  - by destruct wl_empty0.
Qed.

Lemma unwritten_cur s b :
  cur_buffer s = Some b -> unwritten s = mjoin (ptr_bytes <$> (in_flight s ++ fulled_buffers s)) ++ b.
Proof. intros E. unfold unwritten. rewrite E, (assoc_L (++)), fmap_app, join_app. cbn. by rewrite app_nil_r. Qed.

Lemma logged_snoc l msg : logged_of (l ++ [msg]) = logged_of l ++ (if fits msg then msg else []).
Proof.
  unfold logged_of. rewrite filter_app, join_app. f_equal. rewrite filter_cons, filter_nil.
  destruct (fits msg) eqn:E; [rewrite decide_True by done | rewrite decide_False by congruence]; cbn; by rewrite ?app_nil_r.
Qed.

Lemma mjoin_snoc (l : list BufferPtr) b : mjoin (ptr_bytes <$> (l ++ [Some b])) = mjoin (ptr_bytes <$> l) ++ b.
Proof. rewrite fmap_app, join_app. cbn. by rewrite app_nil_r. Qed.

Lemma logged_prefix (l : list byte) file acc msg : l `prefix_of` file ++ logged_of acc -> l `prefix_of` file ++ logged_of (acc ++ [msg]).
Proof. intros Hl. rewrite logged_snoc, (assoc_L (++)). by apply prefix_app_r. Qed.

Lemma Append_ok file msg s : wf_log file s -> exists s', Append msg s = Ret s' /\ wf_log file s'.
Proof.
  intros [[cur Hcur] Hfull Hsp Hnext (He & He1 & He2) Hord Hpre]. unfold Append. rewrite Hcur. cbn [deref_buffer]. mrun.
  cbn [next_buffer fulled_buffers tmp_buffer1 tmp_buffer2 log_file stop flush_pc accepted].
  rewrite (unwritten_cur s cur Hcur) in Hord. unfold logged in Hord.
  destruct (Z.leb_spec (Z.of_nat (length msg)) (AvailableBytes cur)) as [Hle|Hgt].
  - eexists. split; [done|]. unfold FixedBuffer_Append. rewrite (proj2 (Z.leb_le _ _)) by done.
    split; try done; [by eexists| |by apply logged_prefix].
    intros Hg. specialize (Hord Hg). unfold logged. erewrite (unwritten_cur (mkAppender _ _ _ _ _ _ _ _ _)) by reflexivity.
    cbn [accepted log_file fulled_buffers]. rewrite logged_snoc, (assoc_L (++) file).
    replace (fits msg) with true by (symmetry; apply Z.leb_le; unfold AvailableBytes in Hle; lia).
    change (in_flight (mkAppender _ _ _ _ _ _ _ _ _)) with (in_flight s). by rewrite <-Hord, !app_assoc.
  - eexists. split; [done|].
    assert (Hnew : FixedBuffer_Append msg (default FixedBuffer_init (next_buffer s)) = if fits msg then msg else []).
    { change (default FixedBuffer_init (next_buffer s)) with (ptr_bytes (next_buffer s)). rewrite He.
      unfold FixedBuffer_Append, fits, AvailableBytes. cbn [length]. by rewrite Z.sub_0_r. }
    rewrite Hnew. split; try done.
    + by eexists.
    + change (Forall not_null (in_flight s ++ fulled_buffers s ++ [Some cur])).
      rewrite (assoc_L (++)). apply Forall_app. split; [done|]. repeat constructor. by exists cur.
    + intros _ E. by apply app_nil in E as [_ ?].
    + intros Hg. specialize (Hord Hg). unfold logged. erewrite (unwritten_cur (mkAppender _ _ _ _ _ _ _ _ _)) by reflexivity. cbn [accepted log_file fulled_buffers]. rewrite logged_snoc, (assoc_L (++) file).
      change (in_flight (mkAppender _ _ _ _ _ _ _ _ _)) with (in_flight s).
      by rewrite (assoc_L (++) (in_flight s)), mjoin_snoc, <-Hord, !app_assoc.
    + by apply logged_prefix.
Qed.

Lemma Append_logged msg s s' :
  Append msg s = Ret s' -> logged s' = logged s ++ (if fits msg then msg else []).
Proof.
  unfold Append, logged. destruct (cur_buffer s); [|done]. cbn [deref_buffer]. mrun.
  destruct (_ <=? _); intros [= <-]; apply logged_snoc.
Qed.

(** *** Runs with a disk *)

Section runs.
Context (disk : list byte -> list byte -> nat).

(** It writes all it is given. *)
Definition disk_ok : Prop := forall l b, (length b <= disk l b)%nat.

(** What a sequence of writes leaves. *)
Record wrote (f f' : ofstream) (b : list byte) : Prop := {
  wr_good : good f' = true -> good f = true /\ contents f' = contents f ++ b;
  wr_bad : good f = false -> f' = f;
  wr_prefix : contents f' `prefix_of` contents f ++ b;
  wr_ok : disk_ok -> good f' = good f;
}.

Lemma stream_write_wrote f b : wrote f (stream_write disk f b) b.
Proof.
  unfold stream_write. destruct (good f) eqn:Hg; [|split; try done; [congruence|by apply prefix_app_r]].
  split; cbn [good contents]; try done.
  - intros Hn%Nat.leb_le. by rewrite take_ge.
  - congruence.
  - apply prefix_app. exists (drop (disk (contents f) b) b). by rewrite take_drop.
  - intros Hd. rewrite Hg. apply Nat.leb_le, Hd.
Qed.

Lemma wrote_app f f1 f2 b1 b2 : wrote f f1 b1 -> wrote f1 f2 b2 -> wrote f f2 (b1 ++ b2).
Proof.
  intros [] []. split.
  - intros Hg. destruct (wr_good1 Hg) as [Hg1 ->], (wr_good0 Hg1) as [? ->]. by rewrite app_assoc.
  - intros Hb. rewrite wr_bad1; [auto|]. by rewrite wr_bad0.
  - destruct (good f1) eqn:Hg1; [destruct (wr_good0 eq_refl) as [_ E]; by rewrite E, <-app_assoc in wr_prefix1|].
    rewrite wr_bad1 by done. rewrite (assoc_L (++)). by apply prefix_app_r.
  - intros Hd. by rewrite wr_ok1, wr_ok0.
Qed.

Lemma write_all_ok bs f :
  Forall not_null bs -> exists f', write_all disk bs f = Ret f' /\ wrote f f' (mjoin (ptr_bytes <$> bs)).
Proof.
  intros Hbs. revert f. induction Hbs as [|p bs [b ->] Hbs IH]; intros f; cbn [write_all].
  - exists f. split; [done|]. split; try done; cbn; by rewrite app_nil_r.
  - cbn [deref_buffer]. mrun. destruct (IH (stream_write disk f b)) as (f' & -> & Hw). exists f'. split; [done|].
    exact (wrote_app _ _ _ _ _ (stream_write_wrote f b) Hw).
Qed.

Lemma take_buffers_ok file s : wf_log file s -> flush_pc s = AtLock -> wf_log file (take_buffers s).
Proof.
  intros [[cur Hcur] Hfull Hsp Hnext (He & He1 & He2) Hord Hpre] Hpc. rewrite Hpc in Hsp. destruct Hsp as [Hs1 Hs2].
  unfold unwritten, in_flight in *. rewrite Hpc in *. cbn [app] in *. unfold take_buffers.
  assert (Hnn : Forall not_null (fulled_buffers s ++ [cur_buffer s])).
  { apply Forall_app. split; [done|]. rewrite Hcur. repeat constructor. by eexists. }
  assert (Hempty : forall b, Some b = tmp_buffer1 s -> b = []) by (intros b E; by rewrite <-E in He1).
  destruct Hs1 as [t1 Ht1]. specialize (Hempty t1 (eq_sym Ht1)). subst t1.
  destruct (next_buffer s) as [nb|] eqn:En.
  - split; cbn; rewrite ?app_nil_r; try done.
    + by rewrite Ht1; eexists.
    + split; [rewrite length_app; cbn; lia|]. intros E. rewrite E in Hs2. by destruct Hs2.
    + unfold unwritten. cbn. by rewrite Ht1, mjoin_snoc, app_nil_r.
  - split; cbn; rewrite ?app_nil_r; try done.
    + by rewrite Ht1; eexists.
    + assert (fulled_buffers s <> []) by by apply Hnext. rewrite length_app. cbn.
      destruct (fulled_buffers s); [done|]. cbn. lia.
    + intros E. rewrite E in Hs2. by destruct Hs2.
    + unfold unwritten. cbn. by rewrite Ht1, mjoin_snoc, app_nil_r.
Qed.

Lemma reuse_ok spare bs i :
  ptr_bytes spare = [] -> (spare = None -> exists b, bs !! i = Some (Some b)) ->
  exists b' bs', reuse spare bs i = Ret (Some b', bs') /\ b' = [] /\ length bs' = length bs
    /\ forall j, j <> i -> bs' !! j = bs !! j.
Proof.
  intros He Hs. unfold reuse. destruct spare as [b|].
  - exists b, bs. by split_and!.
  - destruct (Hs eq_refl) as [b Hb]. unfold deref. rewrite Hb. mrun. cbn [deref_buffer]. mrun.
    eexists _, _. split; [done|]. split; [done|]. split; [apply length_insert|].
    intros j Hj. by apply list_lookup_insert_ne.
Qed.

Lemma write_buffers_ok file bs s :
  wf_log file s -> flush_pc s = AtWrite bs ->
  exists s', write_buffers disk bs s = Ret s' /\ wf_log file s' /\ flush_pc s' = AtTest
    /\ wrote (log_file s) (log_file s') (mjoin (ptr_bytes <$> bs)) /\ accepted s' = accepted s /\ stop s' = stop s.
Proof.
  intros [Hcur Hfull Hsp Hnext (He & He1 & He2) Hord Hpre] Hpc. rewrite Hpc in Hsp. destruct Hsp as [Hl1 Hl2].
  unfold unwritten, in_flight in *. rewrite Hpc in *. apply Forall_app in Hfull as [Hbs Hfull].
  unfold write_buffers. destruct (write_all_ok bs (log_file s) Hbs) as (f' & -> & Hw). mrun. cbv zeta.
  set (bs2 := if (2 <? length bs)%nat then take 2 bs else bs).
  assert (Hbs2 : forall i, (i < 2)%nat -> (i < length bs)%nat -> exists b, bs2 !! i = Some (Some b)).
  { intros i Hi Hil. destruct (lookup_lt_is_Some_2 bs i Hil) as [p Hp].
    pose proof (Forall_lookup_1 _ _ _ _ Hbs Hp) as [b ->]. exists b. unfold bs2.
    destruct (2 <? length bs)%nat; [by rewrite lookup_take_lt|done]. }
  destruct (reuse_ok (tmp_buffer1 s) bs2 0 He1) as (b1 & bs3 & -> & -> & Hlen3 & Hother); [intros _; apply Hbs2; lia|].
  mrun. destruct (reuse_ok (tmp_buffer2 s) bs3 1 He2) as (b2 & bs4 & -> & -> & _).
  { intros E. destruct (Hbs2 1%nat) as [b Hb]; [lia | by apply Hl2|]. exists b. by rewrite Hother. }
  mrun. eexists. split; [done|]. split; [|done]. split; cbn; try done.
  - split; by eexists.
  - intros Hg. destruct (wr_good _ _ _ Hw Hg) as [Hg0 ->]. unfold unwritten. cbn.
    rewrite <-app_assoc, <-join_app, <-fmap_app. exact (Hord Hg0).
  - destruct (good (log_file s)) eqn:Hg; [|by rewrite (wr_bad _ _ _ Hw Hg)].
    etrans; [apply (wr_prefix _ _ _ Hw)|]. change (contents (log_file s) ++ mjoin (ptr_bytes <$> bs) `prefix_of` file ++ logged s). rewrite <-Hord by done.
    rewrite fmap_app, join_app, (assoc_L (++)). by apply prefix_app_r.
Qed.

Lemma log_exec_ok file a s :
  wf_log file s -> match log_exec disk a s with
                   | Some (Ret s') => wf_log file s'
                   | Some (Throw _) => False
                   | None => True
                   end.
Proof.
  intros Hwf. destruct a as [|msg| |].
  - cbn [log_exec]. destruct (flush_pc s) eqn:Hpc; try done. by apply wf_log_Start.
  - cbn [log_exec]. by destruct (Append_ok file msg s Hwf) as (s' & -> & ?).
  - change (log_exec disk LogFlush s) with (flush_turn disk s). unfold flush_turn.
    destruct (flush_pc s) as [| | |bs|] eqn:Hpc; [done| | |by destruct (write_buffers_ok file bs s Hwf Hpc) as (s' & -> & ? & _)|done].
    + destruct Hwf as [Hcur Hfull Hsp Hnext Hemp Hord Hpre]. unfold unwritten, in_flight in *. rewrite Hpc in *.
      destruct (stop s); split; try done; unfold unwritten, in_flight; cbn; done.
    + by apply take_buffers_ok.
  - assert (wf_log file (Stop s)) by (destruct Hwf; by split). unfold log_exec. by destruct (flush_pc s).
Qed.

Lemma reachable_log ndebug opened file s0 s :
  AsyncFileAppender_ctor ndebug opened file = Ret s0 -> rtc (log_step disk) s0 s -> wf_log file s.
Proof.
  intros Hwf%wf_log_ctor Hsteps. induction Hsteps as [s|s s1 s2 Hstep Hsteps IH]; [done|].
  apply IH. destruct Hstep as [a s s1 E]. pose proof (log_exec_ok file a s Hwf) as Hok. by rewrite E in Hok.
Qed.

(** The stream stays as it was opened when the disk takes everything. *)
Lemma log_exec_good a s s' file : disk_ok -> wf_log file s -> log_exec disk a s = Some (Ret s') -> good (log_file s') = good (log_file s).
Proof.
  intros Hd Hwf E. destruct a as [|msg| |].
  - cbn [log_exec] in E. destruct (flush_pc s); try done. by injection E as <-.
  - cbn [log_exec] in E. unfold Append in E. destruct (cur_buffer s); [|done]. cbn [deref_buffer] in E. mrun_in E.
    by destruct (_ <=? _); injection E as <-.
  - change (log_exec disk LogFlush s) with (flush_turn disk s) in E. unfold flush_turn in E. destruct (flush_pc s) as [| | |bs|] eqn:Hpc; try done.
    + by injection E as <-.
    + injection E as <-. unfold take_buffers. by destruct (next_buffer s).
    + destruct (write_buffers_ok file bs s Hwf Hpc) as (s1 & E1 & _ & _ & Hw & _). rewrite E1 in E. injection E as <-.
      by apply (wr_ok _ _ _ Hw).
  - unfold log_exec in E. by destruct (flush_pc s); try done; injection E as <-.
Qed.

Lemma reachable_good ndebug opened file s0 s :
  AsyncFileAppender_ctor ndebug opened file = Ret s0 -> rtc (log_step disk) s0 s -> disk_ok -> good (log_file s) = opened.
Proof.
  intros Hc Hsteps Hd. assert (Hg : good (log_file s0) = opened).
  { revert Hc. unfold AsyncFileAppender_ctor. destruct (cassert _ _); mrun; [|done]. by intros [= <-]. }
  pose proof (wf_log_ctor _ _ _ _ Hc) as Hwf. clear Hc.
  induction Hsteps as [s|s s1 s2 Hstep _ IH]; [done|]. destruct Hstep as [a s s1 E]. apply IH.
  - rewrite <-Hg. by apply (log_exec_good a s s1 file).
  - pose proof (log_exec_ok file a s Hwf) as Hok. by rewrite E in Hok.
Qed.

(** *** The flush thread left alone *)

(** From the test of [stop], a turn of the loop writes what was appended before
    its critical section. *)
Lemma flush_from_lock file s : disk_ok -> wf_log file s -> good (log_file s) = true -> flush_pc s = AtLock ->
  exists s', run_log disk [LogFlush; LogFlush] s = Some (Ret s') /\ contents (log_file s') = file ++ logged s.
Proof.
  intros Hd Hwf Hg Hpc. pose proof (take_buffers_ok file s Hwf Hpc) as Hwf1.
  assert (Hun : unwritten s = mjoin (ptr_bytes <$> (fulled_buffers s ++ [cur_buffer s]))).
  { unfold unwritten, in_flight. by rewrite Hpc. }
  assert (Htb : flush_pc (take_buffers s) = AtWrite (fulled_buffers s ++ [cur_buffer s])
    /\ log_file (take_buffers s) = log_file s).
  { unfold take_buffers. by destruct (next_buffer s). }
  destruct Htb as [Hpc1 Hf1]. destruct (write_buffers_ok file _ _ Hwf1 Hpc1) as (s' & E & _ & _ & Hf & _).
  exists s'. split.
  2: { destruct (wr_good _ _ _ Hf) as [_ ->]; [by rewrite (wr_ok _ _ _ Hf Hd), Hf1|]. rewrite Hf1, <-Hun. by apply wl_order. }
  cbn [run_log]. change (log_exec disk LogFlush ?x) with (flush_turn disk x). unfold flush_turn at 1. rewrite Hpc. cbn [run_log].
  change (log_exec disk LogFlush ?x) with (flush_turn disk x). unfold flush_turn. by rewrite Hpc1, E.
Qed.

Lemma flush_from_test file s : disk_ok -> wf_log file s -> good (log_file s) = true -> flush_pc s = AtTest -> stop s = false ->
  exists s', run_log disk [LogFlush; LogFlush; LogFlush] s = Some (Ret s') /\ contents (log_file s') = file ++ logged s.
Proof.
  intros Hd Hwf Hg Hpc Hst. assert (E : log_exec disk LogFlush s = Some (Ret (set_flush_pc AtLock s))).
  { change (log_exec disk LogFlush s) with (flush_turn disk s). unfold flush_turn. by rewrite Hpc, Hst. }
  pose proof (log_exec_ok file LogFlush s Hwf) as Hwf1. rewrite E in Hwf1.
  destruct (flush_from_lock file _ Hd Hwf1 Hg eq_refl) as (s' & E' & Hf). exists s'. split; [|exact Hf].
  change (run_log disk [LogFlush; LogFlush; LogFlush] s)
    with (match log_exec disk LogFlush s with Some (Ret s') => run_log disk [LogFlush; LogFlush] s' | r => r end). by rewrite E.
Qed.

Lemma flush_writes file s : disk_ok -> wf_log file s -> good (log_file s) = true -> flush_pc s <> NotStarted -> flush_pc s <> Finished -> stop s = false ->
  exists n s', (n <= 4)%nat /\ run_log disk (replicate n LogFlush) s = Some (Ret s') /\ contents (log_file s') = file ++ logged s.
Proof.
  intros Hd Hwf Hg Hn Hf Hst. destruct (flush_pc s) as [| | |bs|] eqn:Hpc; try done.
  - destruct (flush_from_test file s Hd Hwf Hg Hpc Hst) as (s' & E & ?). exists 3%nat, s'. split; [lia|done].
  - destruct (flush_from_lock file s Hd Hwf Hg Hpc) as (s' & E & ?). exists 2%nat, s'. split; [lia|done].
  - destruct (write_buffers_ok file bs s Hwf Hpc) as (s1 & E & Hwf1 & Hpc1 & Hw & Ha & Hst1). rewrite Hst in Hst1.
    assert (Hg1 : good (log_file s1) = true) by (by rewrite (wr_ok _ _ _ Hw Hd)).
    destruct (flush_from_test file s1 Hd Hwf1 Hg1 Hpc1 Hst1) as (s' & E' & Hlog). exists 4%nat, s'. split; [lia|].
    split; [|by rewrite Hlog; unfold logged; rewrite Ha].
    change (run_log disk (replicate 4 LogFlush) s)
      with (match flush_turn disk s with Some (Ret s') => run_log disk [LogFlush; LogFlush; LogFlush] s' | r => r end).
    unfold flush_turn. by rewrite Hpc, E.
Qed.

(** The flush thread returns only when it was stopped. *)
Lemma reachable_finished ndebug opened file s0 s : AsyncFileAppender_ctor ndebug opened file = Ret s0 -> rtc (log_step disk) s0 s -> flush_pc s = Finished -> stop s = true.
Proof.
  intros Hc Hsteps. revert s Hsteps. refine (rtc_ind_r _ _ _ _).
  { revert Hc. unfold AsyncFileAppender_ctor. destruct (cassert _ _); mrun; [|done]. by intros [= <-]. }
  intros s s' _ Hstep IH. destruct Hstep as [a s s' E].
  destruct a as [|msg| |].
  - cbn [log_exec] in E. destruct (flush_pc s); try done. by injection E as <-.
  - cbn [log_exec] in E. unfold Append in E. destruct (cur_buffer s); [|done]. cbn [deref_buffer] in E. mrun_in E.
    destruct (_ <=? _); injection E as <-; exact IH.
  - change (log_exec disk LogFlush s) with (flush_turn disk s) in E. unfold flush_turn in E. destruct (flush_pc s); try done.
    + injection E as <-. cbn. by destruct (stop s).
    + injection E as <-. unfold take_buffers. by destruct (next_buffer s).
    + injection E as E. revert E. unfold write_buffers. destruct (write_all _ _ _); mrun; [|done].
      destruct (reuse (tmp_buffer1 s) _ _) as [[tmp1 bs1]|]; mrun; [|done]. destruct (reuse (tmp_buffer2 s) _ _) as [[tmp2 bs2]|]; mrun; [|done].
      by intros [= <-].
  - unfold log_exec in E. by destruct (flush_pc s); try done; injection E as <-.
Qed.

(** C12: no message is reordered, and none is lost while the appender lives and the
    file takes what is written to it.  The constructor returns if the file could be
    opened, or without NDEBUG's [assert].  In every state any interleaving of
    loggers, the start and the flush thread reaches, no step uses a buffer that
    was moved away, and the file holds a beginning of what it held when it was
    opened followed by the messages in the order of [Append] (but those longer than
    a buffer).  If it could be opened and each write so far wrote all its bytes, then what the
    buffers still hold is exactly the rest of them; and if the writes to come do
    too, four turns of the flush thread, before [Stop], bring every
    message appended so far into the file. *)
Theorem log_order (ndebug opened : bool) (file : list byte) s0 s :
  AsyncFileAppender_ctor ndebug opened file = Ret s0 -> rtc (log_step disk) s0 s ->
  contents (log_file s) `prefix_of` file ++ logged s
  /\ (forall a f, log_exec disk a s <> Some (Throw f))
  /\ (good (log_file s) = true -> contents (log_file s) ++ unwritten s = file ++ logged s)
  /\ (opened = true -> disk_ok ->
       good (log_file s) = true
       /\ (flush_pc s <> NotStarted -> stop s = false ->
            exists n s', (n <= 4)%nat /\ run_log disk (replicate n LogFlush) s = Some (Ret s')
              /\ contents (log_file s') = file ++ logged s)).
Proof.
  intros Hc Hr. pose proof (reachable_log _ _ _ _ _ Hc Hr) as Hs. split_and!; [by apply wl_prefix| |by apply wl_order|].
  - intros a f E. pose proof (log_exec_ok file a s Hs) as Hok. by rewrite E in Hok.
  - intros Ho Hd. assert (Hg : good (log_file s) = true) by (by rewrite (reachable_good _ _ _ _ _ Hc Hr Hd)).
    split; [done|]. intros Hn Hst. apply flush_writes; [done..| |done].
    intros Hf%(reachable_finished _ _ _ _ _ Hc Hr). congruence.
Qed.

(** A log file that cannot be opened is noticed only by the [assert] of a debug
    build: in the release the messages are dropped. *)
Lemma unopened_log_lost file s0 s :
  AsyncFileAppender_ctor true false file = Ret s0 -> rtc (log_step disk) s0 s -> log_file s = mkStream file false.
Proof.
  intros [= <-] Hsteps. revert s Hsteps. refine (rtc_ind_r _ _ _ _); [done|].
  intros s s' Hr Hstep IH. destruct Hstep as [a s s' E].
  pose proof (reachable_log true false file _ s eq_refl Hr) as Hwf. destruct a as [|msg| |].
  - cbn [log_exec] in E. destruct (flush_pc s); try done. by injection E as <-.
  - cbn [log_exec] in E. unfold Append in E. destruct (cur_buffer s); [|done]. cbn [deref_buffer] in E. mrun_in E.
    by destruct (_ <=? _); injection E as <-.
  - change (log_exec disk LogFlush s) with (flush_turn disk s) in E. unfold flush_turn in E. destruct (flush_pc s) as [| | |bs|] eqn:Hpc; try done.
    + by injection E as <-.
    + injection E as <-. unfold take_buffers. by destruct (next_buffer s).
    + destruct (write_buffers_ok file bs s Hwf Hpc) as (s1 & E1 & _ & _ & Hw & _). rewrite E1 in E. injection E as <-.
      rewrite <-IH. apply (wr_bad _ _ _ Hw). by rewrite IH.
  - unfold log_exec in E. by destruct (flush_pc s); try done; injection E as <-.
Qed.

Lemma run_log_steps acts s s' : run_log disk acts s = Some (Ret s') -> rtc (log_step disk) s s'.
Proof.
  revert s. induction acts as [|a acts IH]; intros s E; cbn [run_log] in E.
  - injection E as <-. constructor.
  - destruct (log_exec disk a s) as [[s1|]|] eqn:Ea; try done. eapply rtc_l; [by econstructor | by apply IH].
Qed.
End runs.

(** A message comes before the start; the flush thread writes it while another is
    appended. *)
Definition log_schedule : list log_action :=
  [LogAppend (bytes "one"); LogStart; LogFlush; LogFlush; LogAppend (bytes "two"); LogFlush].

Definition big_disk (l b : list byte) : nat := length b.
Definition opened_log (file : list byte) : AsyncFileAppender :=
  mkAppender (Some FixedBuffer_init) (Some FixedBuffer_init) [] None None (mkStream file true) false NotStarted [].

Lemma log_order_witness :
  exists s, run_log big_disk log_schedule (opened_log (bytes "old")) = Some (Ret s)
    /\ contents (log_file s) = bytes "oldone"
    /\ contents (log_file s) ++ unwritten s = bytes "old" ++ logged s
    /\ (forall a f, log_exec big_disk a s <> Some (Throw f))
    /\ exists n s', (n <= 4)%nat /\ run_log big_disk (replicate n LogFlush) s = Some (Ret s')
         /\ contents (log_file s') = bytes "oldonetwo".
Proof.
  destruct (run_log big_disk log_schedule (opened_log (bytes "old"))) as [[s|]|] eqn:E; [|exfalso; by vm_compute in E..].
  assert (Hx : (contents (log_file s), stop s, flush_pc s, bytes "old" ++ logged s) = (bytes "oldone", false, AtTest, bytes "oldonetwo")).
  { vm_compute in E. injection E as <-. reflexivity. }
  injection Hx as Hf Hst Hpc Hl.
  destruct (log_order big_disk false true (bytes "old") (opened_log (bytes "old")) s eq_refl (run_log_steps _ _ _ _ E)) as (_ & Hsafe & Ho & Hlive).
  destruct Hlive as [Hg Hlive]; [done|by intros l b|].
  exists s. split; [done|]. split; [exact Hf|]. split; [exact (Ho Hg)|]. split; [exact Hsafe|].
  destruct Hlive as (n & s' & Hn & E' & Hlog); [by rewrite Hpc|exact Hst|].
  exists n, s'. split; [exact Hn|]. split; [exact E'|]. rewrite Hlog, Hl. reflexivity.
Defined.

(** The disk has room for five bytes: the file ends in the middle of a message. *)
Example full_disk :
  (fun r => match r with Ret s => Some (log_file s, logged s) | Throw _ => None end)
    <$> run_log (fun l b => (5 - length l) `min` length b)%nat (log_schedule ++ replicate 3 LogFlush) (opened_log (bytes "old"))
  = Some (Some (mkStream (bytes "oldon") false, bytes "onetwo")).
Proof. vm_compute. reflexivity. Qed.

(** [Stop] can lose messages.  When the flush thread is writing while a
    message is appended, the wake-up of [Stop] finds nobody waiting; the thread
    then sees [stop], returns, and the message is never written. *)
Theorem stop_loses_messages :
  exists s, rtc (log_step big_disk) (opened_log []) s /\ stop s = true /\ flush_pc s = Finished
    /\ logged s = bytes "onetwo" /\ log_file s = mkStream (bytes "one") true.
Proof.
  destruct (run_log big_disk (take 5 log_schedule ++ [LogStop; LogFlush; LogFlush]) (opened_log [])) as [[s|]|] eqn:E;
    [|exfalso; by vm_compute in E..].
  exists s. split; [exact (run_log_steps _ _ _ _ E)|]. vm_compute in E. by injection E as <-.
Qed.
