(* ===== verification/Logger.v ===== *)
(** * logger/Logger and logger/Appender: from a LOG statement to the appender

    A log line is printed into an array with a placeholder for the time, and
    [Log] prints the time over the placeholder.  The date is cached in static
    variables.  [Appender] is the abstract class as an interface with laws; the
    two appenders of the sources are its instances. *)

From S2P Require Import Prelude CxxStd DateTime.
From S2P Require AsyncFileAppender.
Local Open Scope Z_scope.

(** ** Levels *)

Inductive LogLevel := kDebug | kInfo | kWarn | kError | kFatal.
#[export] Instance LogLevel_eq_dec : EqDecision LogLevel.
Proof. solve_decision. Defined.

(** [enum class LogLevel : uint8_t]. *)
Definition LogLevel_value (l : LogLevel) : Z :=
  match l with kDebug => 0 | kInfo => 1 | kWarn => 2 | kError => 3 | kFatal => 4 end.
Definition level_lt (l1 l2 : LogLevel) : bool := LogLevel_value l1 <? LogLevel_value l2.

(** [level_map.at(level)]: every level is in the map. *)
Definition GetLogLevelString (l : LogLevel) : list byte :=
  match l with
  | kDebug => bytes "[DEBUG]" | kInfo => bytes "[INFO]" | kWarn => bytes "[WARN]"
  | kError => bytes "[ERROR]" | kFatal => bytes "[FATAL]"
  end.

(** ** [Appender] *)

(** [Append] gets the memory at [msg] and a length. *)
Class Appender (A : Type) := {
  Append : list byte -> nat -> A -> outcome A;
  Flush : A -> outcome A;
}.

(** What [Log] relies on: the bytes of a line without a null byte, no longer
    than an array of [LOG_BASE], come after those appended before. *)
Class AppenderLaws (A : Type) `{Appender A} := {
  app_ok : A -> Prop;
  appended : A -> list byte;
  law_append : forall line t a, app_ok a -> (length line < 1024)%nat -> (Byte.x00 ∉ line) ->
    exists a', Append (line ++ Byte.x00 :: t) (length line) a = Ret a' /\ app_ok a'
      /\ appended a' = appended a ++ line;
  law_flush : forall a, app_ok a -> exists a', Flush a = Ret a' /\ app_ok a' /\ appended a' = appended a;
}.

(** [StderrAppender]: what was printed.  [std::cerr << msg] prints a C string. *)
Record StderrAppender := mkStderr { err_out : list byte }.
Definition Stderr_Append (msg : list byte) (len : nat) (a : StderrAppender) : outcome StderrAppender :=
  Ret (mkStderr (err_out a ++ c_str msg)).
#[export] Instance stderr_appender : Appender StderrAppender := {|
  Append := Stderr_Append;
  Flush a := Ret a;
|}.

(** [AsyncFileAppender]; [Flush] only wakes the flush thread. *)
#[export] Instance async_appender : Appender AsyncFileAppender.AsyncFileAppender := {|
  Append msg len s :=
    if (len <=? length msg)%nat then AsyncFileAppender.Append (take len msg) s else Throw UndefinedBehaviour;
  Flush s := Ret s;
|}.

(** ** [Logger] *)

(** The static members and the static variables of [FormatNowString];
    [prefixOfTime] up to its null byte. *)
Record Logger (A : Type) := mkLogger {
  global_level : LogLevel;
  appender : A;
  lastSecond : Z;
  prefixOfTime : list byte;
}.
Arguments mkLogger {A}.
Arguments global_level {A}.
Arguments appender {A}.
Arguments lastSecond {A}.
Arguments prefixOfTime {A}.

Definition Logger_init {A} (a : A) : Logger A := mkLogger kInfo a 0 [].
Definition SetLogLevel {A} (l : LogLevel) (s : Logger A) : Logger A :=
  mkLogger l (appender s) (lastSecond s) (prefixOfTime s).
Definition SetAppender {A B} (b : B) (s : Logger A) : Logger B :=
  mkLogger (global_level s) b (lastSecond s) (prefixOfTime s).
Definition set_appender {A} (a : A) (s : Logger A) : Logger A :=
  mkLogger (global_level s) a (lastSecond s) (prefixOfTime s).

(** The format of [prefixOfTime]. *)
Definition prefix_text (t : tm) : list byte :=
  fmt_u 4 (tm_year t + 1900) ++ bytes "-" ++ fmt_0u 2 (tm_mon t + 1) ++ bytes "-"
  ++ fmt_0u 2 (tm_mday t) ++ bytes " " ++ fmt_0u 2 (tm_hour t + 8) ++ bytes ":"
  ++ fmt_0u 2 (tm_min t) ++ bytes ":" ++ fmt_0u 2 (tm_sec t) ++ bytes ".".

(** [sec] and [usec] are what [gettimeofday] gives. *)
Definition FormatNowString {A} (sec usec : Z) (buffer : list byte) (s : Logger A) : outcome (list byte * Logger A) :=
  let s := if lastSecond s =? sec then s
           else mkLogger (global_level s) (appender s) sec (take 20 (prefix_text (gmtime sec))) in
  buffer ← snprintf buffer 27 (prefixOfTime s ++ fmt_0u 6 (Z.quot usec 1000));
  if (26 <? length buffer)%nat then Ret (<[26%nat := Byte.x20]> buffer, s) else Throw UndefinedBehaviour.

(** [Log] returns, or ends the process. *)
Inductive log_end (A : Type) := Returned (s : Logger A) | Aborted (s : Logger A).
Arguments Returned {A}.
Arguments Aborted {A}.

Section logger.
Context {A : Type} `{Appender A}.

(** [reason] is [strerror(errno)], [err_msg] what the array of the function held. *)
Definition Log (level : LogLevel) (msg : list byte) (sec usec : Z) (reason err_msg : list byte) (s : Logger A)
    : outcome (log_end A) :=
  if level_lt level (global_level s) then Ret (Returned s)
  else
    r ← FormatNowString sec usec msg s;
    let '(msg, s) := r : list byte * Logger A in
    len ← strlen msg;
    a ← Append msg len (appender s);
    if decide (level = kFatal) then
      err_msg ← snprintf err_msg 128 (bytes "Terminate reason: " ++ reason ++ [Byte.x0a]);
      len ← strlen err_msg;
      a ← Append err_msg len a;
      a ← Flush a;
      Ret (Aborted (set_appender a s))
    else Ret (Returned (set_appender a s)).

(** A LOG statement: [body] is its formatted text; [buf] and [err_msg] are what
    the uninitialised arrays hold. *)
Record log_call := mkCall {
  c_level : LogLevel;
  c_file : list byte;
  c_line : Z;
  c_body : list byte;
  c_sec : Z;
  c_usec : Z;
  c_reason : list byte;
  c_buf : list byte;
  c_err : list byte;
}.

(** [__FILE_NAME__]: what follows the last slash. *)
Fixpoint file_name (path : list byte) : list byte :=
  match path with
  | [] => []
  | c :: rest => if decide (Byte.x2f ∈ rest) then file_name rest
                 else if decide (c = Byte.x2f) then rest else path
  end.

Definition line_tail (c : log_call) : list byte :=
  GetLogLevelString (c_level c) ++ bytes " " ++ file_name (c_file c) ++ bytes ":" ++ to_string (c_line c)
  ++ bytes " - " ++ c_body c ++ [Byte.x0a].

Definition LOG_BASE (c : log_call) (s : Logger A) : outcome (log_end A) :=
  if negb (level_lt (c_level c) (global_level s)) then
    buf ← snprintf (c_buf c) 1024 (bytes "0000-00-00 00:00:00.000000 " ++ line_tail c);
    Log (c_level c) buf (c_sec c) (c_usec c) (c_reason c) (c_err c) s
  else Ret (Returned s).

Fixpoint run_logs (calls : list log_call) (s : Logger A) : outcome (log_end A) :=
  match calls with
  | [] => Ret (Returned s)
  | c :: calls =>
      r ← LOG_BASE c s;
      match r with Returned s => run_logs calls s | Aborted s => Ret (Aborted s) end
  end.

End logger.

(** ** The text of a line *)

(** What a line shows: the first 20 characters of [DateTime::ToString], and the
    milliseconds in six digits. *)
Definition stamp (sec usec : Z) : list byte :=
  take 20 (ToString (sec * kMicroSecondsPerSecond + usec)) ++ fmt_0u 6 (usec / 1000).

(** A line is cut to what the array holds. *)
Definition log_line (c : log_call) : list byte :=
  take 1023 (stamp (c_sec c) (c_usec c) ++ bytes " " ++ line_tail c).

Record valid_call (c : log_call) : Prop := {
  vc_sec : 0 < c_sec c;
  vc_year : tm_year (gmtime (c_sec c)) + 1900 <= 9999;
  vc_usec : 0 <= c_usec c < 10 ^ 6;
  vc_file : Byte.x00 ∉ c_file c;
  vc_body : Byte.x00 ∉ c_body c;
  vc_reason : Byte.x00 ∉ c_reason c;
  vc_buf : length (c_buf c) = 1024%nat;
  vc_err : length (c_err c) = 128%nat;
}.

(** The cached text belongs to the cached second. *)
Definition cache_ok {A} (s : Logger A) : Prop :=
  lastSecond s = 0 \/ prefixOfTime s = take 20 (prefix_text (gmtime (lastSecond s))).

(** *** No null byte in a line *)

Lemma fmt_0u_no_nul w z : Byte.x00 ∉ fmt_0u w z.
Proof.
  unfold fmt_0u. rewrite not_elem_of_app. split; [|apply to_string_no_nul].
  intros Hx%elem_of_replicate. by destruct Hx.
Qed.

Lemma fmt_u_no_nul w z : Byte.x00 ∉ fmt_u w z.
Proof.
  unfold fmt_u. rewrite not_elem_of_app. split; [|apply to_string_no_nul].
  intros Hx%elem_of_replicate. by destruct Hx.
Qed.

#[local] Hint Resolve to_string_no_nul fmt_0u_no_nul fmt_u_no_nul : jerry.

(** Splits at the appends; a literal is evaluated. *)
Ltac no_nul :=
  rewrite ?not_elem_of_app; split_and?; auto with jerry;
  try match goal with
      | |- _ ∉ bytes _ => apply (bool_decide_unpack _); vm_compute; exact I
      | |- _ ∉ [_] => apply (bool_decide_unpack _); vm_compute; exact I
      end.

Lemma prefix_no_nul t : Byte.x00 ∉ prefix_text t.
Proof. unfold prefix_text. no_nul. Qed.

Lemma file_name_no_nul path : Byte.x00 ∉ path -> Byte.x00 ∉ file_name path.
Proof.
  induction path as [|c rest IH]; cbn [file_name]; [done|]. rewrite not_elem_of_cons. intros [Hc Hr].
  case_decide; [by apply IH|]. case_decide; [done|]. by rewrite not_elem_of_cons.
Qed.

Lemma level_no_nul l : Byte.x00 ∉ GetLogLevelString l.
Proof. destruct l; apply (bool_decide_unpack _); vm_compute; exact I. Qed.

Lemma line_tail_no_nul c : valid_call c -> Byte.x00 ∉ line_tail c.
Proof.
  intros []. unfold line_tail. no_nul; [apply level_no_nul | by apply file_name_no_nul].
Qed.

(** *** The time *)

Lemma length_prefix secs :
  0 <= secs -> tm_year (gmtime secs) + 1900 <= 9999 -> length (prefix_text (gmtime secs)) = 20%nat.
Proof.
  intros H0 Hy. pose proof (gmtime_fields secs) as F. pose proof (gmtime_year_nonneg secs H0). cbv zeta in F.
  unfold prefix_text. rewrite !length_app, length_fmt_u_4, !length_fmt_0u_2 by lia. done.
Qed.

Lemma length_fmt_0u_6 z : 0 <= z < 1000 -> length (fmt_0u 6 z) = 6%nat.
Proof.
  intros H. apply Nat.eqb_eq.
  apply (check_below_spec (fun z => (length (fmt_0u 6 z) =? 6)%nat) 1000 0); [|lia].
  vm_compute. reflexivity.
Qed.

(** The cached text is the start of what [DateTime::ToString] prints. *)
Lemma prefix_ToString sec usec :
  0 <= sec -> 0 <= usec < 10 ^ 6 -> tm_year (gmtime sec) + 1900 <= 9999 ->
  take 20 (ToString (sec * kMicroSecondsPerSecond + usec)) = prefix_text (gmtime sec).
Proof.
  intros H0 Hu Hy. unfold ToString, kMicroSecondsPerSecond.
  rewrite Z.quot_div_nonneg by lia.
  replace ((sec * 1000000 + usec) / 1000000) with sec by (Z.div_mod_to_equations; lia).
  pose proof (length_prefix sec H0 Hy) as Hl. rewrite take_take. change (20 `min` 26)%nat with 20%nat.
  rewrite <-Hl at 1. unfold prefix_text. rewrite !app_assoc. apply take_app_length.
Qed.

Lemma stamp_eq c :
  valid_call c -> stamp (c_sec c) (c_usec c) = prefix_text (gmtime (c_sec c)) ++ fmt_0u 6 (c_usec c / 1000).
Proof. intros []. unfold stamp. by rewrite prefix_ToString by lia. Qed.

Lemma length_stamp c : valid_call c -> length (stamp (c_sec c) (c_usec c)) = 26%nat.
Proof.
  intros Hv. rewrite stamp_eq by done. destruct Hv as [Hs Hy Hu _ _ _ _ _].
  assert (Hm : 0 <= c_usec c / 1000 < 1000) by (split; [apply Z.div_pos; lia | apply Z.div_lt_upper_bound; lia]).
  apply Z.lt_le_incl in Hs. by rewrite length_app, (length_prefix _ Hs Hy), (length_fmt_0u_6 _ Hm).
Qed.

Lemma log_line_no_nul c : valid_call c -> Byte.x00 ∉ log_line c.
Proof.
  intros Hv. apply take_no_nul. rewrite stamp_eq by done. no_nul; [apply prefix_no_nul | by apply line_tail_no_nul].
Qed.

(** ** What [Log] appends *)

Section lines.
Context {A : Type} `{AppenderLaws A}.
Implicit Types s : Logger A.

(** The time replaces the first 26 characters, and a space the 27th. *)
Lemma FormatNowString_spec c (buffer : list byte) s :
  valid_call c -> cache_ok s -> (27 <= length buffer)%nat ->
  exists s', FormatNowString (c_sec c) (c_usec c) buffer s
      = Ret (stamp (c_sec c) (c_usec c) ++ Byte.x20 :: drop 27 buffer, s')
    /\ global_level s' = global_level s /\ appender s' = appender s /\ cache_ok s'.
Proof.
  intros Hv Hc Hl. unfold FormatNowString. pose proof (length_stamp c Hv) as Hst. rewrite (stamp_eq c Hv) in *.
  destruct Hv as [Hs Hy Hu _ _ _ _ _]. apply Z.lt_le_incl in Hs as Hs'. pose proof (length_prefix _ Hs' Hy) as Hp.
  set (s1 := if _ =? _ then _ else _).
  assert (Hs1 : prefixOfTime s1 = prefix_text (gmtime (c_sec c)) /\ lastSecond s1 = c_sec c
    /\ global_level s1 = global_level s /\ appender s1 = appender s).
  { unfold s1. destruct (Z.eqb_spec (lastSecond s) (c_sec c)) as [E|E];
      cbn [prefixOfTime lastSecond global_level appender]; [|by rewrite take_ge by lia].
    destruct Hc as [Hc|Hc]; [lia|]. by rewrite Hc, E, take_ge by lia. }
  destruct Hs1 as (Hpre & Hlast & Hg & Ha). rewrite Hpre, Z.quot_div_nonneg by lia.
  set (st := prefix_text _ ++ _) in *. rewrite snprintf_spec; cbn [Nat.sub]; rewrite take_ge by lia; [|lia].
  mrun. rewrite Hst. rewrite (proj2 (Nat.ltb_lt _ _)) by (rewrite length_app; cbn [length]; lia).
  exists s1. split_and!; [| done | done | right].
  - by rewrite insert_app_r_alt, Hst, Nat.sub_diag by lia.
  - rewrite Hlast, take_ge by lia. exact Hpre.
Qed.

(** A line below the level does nothing. *)
Lemma LOG_BASE_below c s : level_lt (c_level c) (global_level s) = true -> LOG_BASE c s = Ret (Returned s).
Proof. intros E. unfold LOG_BASE. by rewrite E. Qed.

(** The array [LOG_BASE] prints is the line once the time is in it. *)
Lemma LOG_BASE_buffer c s :
  valid_call c -> cache_ok s ->
  exists t s', snprintf (c_buf c) 1024 (bytes "0000-00-00 00:00:00.000000 " ++ line_tail c)
      ≫= (fun buf => FormatNowString (c_sec c) (c_usec c) buf s) = Ret (log_line c ++ Byte.x00 :: t, s')
    /\ global_level s' = global_level s /\ appender s' = appender s /\ cache_ok s'.
Proof.
  intros Hv Hc. set (text := bytes _ ++ line_tail c).
  rewrite snprintf_spec by (rewrite length_take, (vc_buf _ Hv); lia). mrun. cbn [Nat.sub].
  assert (Ht : text = take 27 text ++ line_tail c) by done.
  set (rest := drop _ (c_buf c)).
  assert (Hdrop : drop 27 (take 1023 text ++ Byte.x00 :: rest) = take 996 (line_tail c) ++ Byte.x00 :: rest).
  { assert (Hl : length (take 27 text) = 27%nat) by done. rewrite Ht, take_app_ge by (rewrite Hl; lia).
    by rewrite <-app_assoc, drop_app_length', Hl by done. }
  destruct (FormatNowString_spec c (take 1023 text ++ Byte.x00 :: rest) s Hv Hc) as (s' & -> & ? & ? & ?).
  { rewrite length_app, length_take. unfold text. rewrite length_app. cbn. lia. }
  exists rest, s'. split_and!; [|done..]. rewrite Hdrop. unfold log_line.
  rewrite take_app_ge, (length_stamp c Hv) by (rewrite (length_stamp c Hv); lia). by rewrite <-app_assoc.
Qed.

Lemma length_log_line c : (length (log_line c) < 1024)%nat.
Proof. unfold log_line. rewrite length_take. lia. Qed.

Lemma LOG_BASE_returns c s :
  valid_call c -> c_level c <> kFatal -> cache_ok s -> app_ok (appender s) ->
  level_lt (c_level c) (global_level s) = false ->
  exists s', LOG_BASE c s = Ret (Returned s') /\ global_level s' = global_level s /\ cache_ok s'
    /\ app_ok (appender s') /\ appended (appender s') = appended (appender s) ++ log_line c.
Proof.
  intros Hv Hf Hc Ha El. destruct (LOG_BASE_buffer c s Hv Hc) as (t & s1 & E & Hg & Happ & Hc1).
  unfold LOG_BASE. rewrite El. cbn [negb].
  revert E. mrun. destruct (snprintf _ _ _) as [buf|]; [|done]. intros E. unfold Log. rewrite El, E. mrun.
  rewrite strlen_spec by by apply log_line_no_nul. mrun. rewrite Happ.
  destruct (law_append (log_line c) t (appender s) Ha (length_log_line c) (log_line_no_nul c Hv)) as (a & -> & ? & ?).
  mrun. rewrite decide_False by done. by eexists.
Qed.

Lemma run_logs_ok calls s :
  Forall (fun c => valid_call c /\ c_level c <> kFatal) calls -> cache_ok s -> app_ok (appender s) ->
  exists s', run_logs calls s = Ret (Returned s') /\ global_level s' = global_level s /\ cache_ok s'
    /\ app_ok (appender s')
    /\ appended (appender s') = appended (appender s)
         ++ mjoin (log_line <$> filter (fun c => level_lt (c_level c) (global_level s) = false) calls).
Proof.
  intros Hcalls. revert s. induction Hcalls as [|c calls [Hv Hf] _ IH]; intros s Hc Ha; cbn [run_logs].
  { exists s. cbn. by rewrite app_nil_r. }
  destruct (level_lt (c_level c) (global_level s)) eqn:El.
  - rewrite LOG_BASE_below by done. mrun. destruct (IH s Hc Ha) as (s' & -> & ? & ? & ? & Happ).
    exists s'. split_and!; try done. by rewrite Happ, filter_cons_False by (rewrite El; done).
  - destruct (LOG_BASE_returns c s Hv Hf Hc Ha El) as (s1 & -> & Hg1 & Hc1 & Ha1 & Happ1). mrun.
    destruct (IH s1 Hc1 Ha1) as (s' & -> & Hg' & ? & ? & Happ). exists s'.
    split_and!; try done; [congruence|]. rewrite Happ, Happ1, Hg1, filter_cons_True by done.
    cbn. by rewrite app_assoc.
Qed.

(** A fatal line is appended, then the reason, and the process ends. *)
Lemma LOG_BASE_fatal c s :
  valid_call c -> c_level c = kFatal -> cache_ok s -> app_ok (appender s) ->
  exists s', LOG_BASE c s = Ret (Aborted s')
    /\ appended (appender s') = appended (appender s) ++ log_line c
         ++ take 127 (bytes "Terminate reason: " ++ c_reason c ++ [Byte.x0a]).
Proof.
  intros Hv Hf Hc Ha. destruct (LOG_BASE_buffer c s Hv Hc) as (t & s1 & E & Hg & Happ & Hc1).
  assert (El : level_lt (c_level c) (global_level s) = false) by (rewrite Hf; by destruct (global_level s)).
  unfold LOG_BASE. rewrite El. cbn [negb].
  revert E. mrun. destruct (snprintf (c_buf c) _ _) as [buf|]; [|done]. intros E. unfold Log. rewrite El, E. mrun.
  rewrite strlen_spec by by apply log_line_no_nul. mrun. rewrite Happ.
  destruct (law_append (log_line c) t (appender s) Ha (length_log_line c) (log_line_no_nul c Hv)) as (a & -> & Ha1 & E1).
  mrun. rewrite decide_True by done. set (why := _ ++ _ ++ _).
  assert (Hwhy : Byte.x00 ∉ take 127 why) by (apply take_no_nul; unfold why; destruct Hv; no_nul).
  rewrite snprintf_spec by (rewrite length_take, (vc_err _ Hv); lia). mrun. cbn [Nat.sub].
  rewrite strlen_spec by done. mrun.
  destruct (law_append (take 127 why) (drop (S (length (take 127 why))) (c_err c)) a Ha1) as (a2 & -> & Ha2 & E2);
    [rewrite length_take; lia | done|].
  mrun. destruct (law_flush a2 Ha2) as (a3 & -> & _ & E3). mrun. eexists. split; [done|].
  cbn [appender set_appender]. by rewrite E3, E2, E1, app_assoc.
Qed.

End lines.

(** ** The two appenders keep the promise *)

#[export] Instance stderr_laws : AppenderLaws StderrAppender.
Proof.
  refine {| app_ok := fun _ => True; appended := err_out |}.
  - intros line t a _ _ Hl. eexists. split; [reflexivity|]. split; [done|]. cbn. by rewrite c_str_ends.
  - intros a _. by exists a.
Defined.

#[export] Instance async_laws : AppenderLaws AsyncFileAppender.AsyncFileAppender.
Proof.
  refine {| app_ok := fun a => exists file, AsyncFileAppender.wf_log file a; appended := AsyncFileAppender.logged |}.
  - intros line t a [file Ha] Hl _. cbn [Append async_appender].
    rewrite (proj2 (Nat.leb_le _ _)) by (rewrite length_app; lia). rewrite take_app_length.
    destruct (AsyncFileAppender.Append_ok file line a Ha) as (a' & E & Ha'). exists a'. split; [exact E|]. split; [by exists file|].
    apply AsyncFileAppender.Append_logged in E. rewrite E. unfold AsyncFileAppender.fits.
    by rewrite (proj2 (Z.leb_le _ _)) by (unfold AsyncFileAppender.kFixedBufferSize; lia).
  - intros a Ha. by exists a.
Defined.

(** C35: what LOG statements append.  Whatever their arrays held and whatever the
    times are, the statements at or above the level append their lines in order
    and nothing else, through any appender that keeps its promise: a line is the
    start of [DateTime::ToString] for that instant, the milliseconds, the level,
    the place and the text, cut to 1023 bytes, although the date is formatted
    only when the second changed. *)
Theorem log_lines {A} `{AppenderLaws A} (calls : list log_call) (s : Logger A) :
  Forall (fun c => valid_call c /\ c_level c <> kFatal) calls -> cache_ok s -> app_ok (appender s) ->
  exists s', run_logs calls s = Ret (Returned s')
    /\ appended (appender s') = appended (appender s)
         ++ mjoin (log_line <$> filter (fun c => level_lt (c_level c) (global_level s) = false) calls).
Proof.
  intros Hcalls Hc Ha. destruct (run_logs_ok calls s Hcalls Hc Ha) as (s' & ? & _ & _ & _ & ?). by exists s'.
Qed.

Definition call_at (l : LogLevel) (sec usec : Z) (body : list byte) : log_call :=
  mkCall l (bytes "/src/net/TcpConn.cc") 83 body sec usec (bytes "Success") (replicate 1024 Byte.x41) (replicate 128 Byte.x41).

Ltac valid_call_t :=
  split; [by vm_compute | vm_compute; discriminate | split; vm_compute; congruence
         | apply (bool_decide_unpack _); vm_compute; exact I..| by vm_compute | by vm_compute].

Lemma log_lines_witness :
  exists s', run_logs [call_at kInfo 1632039625 944865 (bytes "one"); call_at kDebug 1632039625 944870 (bytes "two");
                       call_at kWarn 1632039625 945000 (bytes "three")] (Logger_init (mkStderr [])) = Ret (Returned s')
    /\ err_out (appender s')
       = bytes "2021-09-19 16:20:25.000944 [INFO] TcpConn.cc:83 - one" ++ [Byte.x0a]
         ++ bytes "2021-09-19 16:20:25.000945 [WARN] TcpConn.cc:83 - three" ++ [Byte.x0a].
Proof.
  destruct (log_lines [call_at kInfo 1632039625 944865 (bytes "one"); call_at kDebug 1632039625 944870 (bytes "two");
                       call_at kWarn 1632039625 945000 (bytes "three")] (Logger_init (mkStderr []))) as (s' & E & Happ).
  - repeat (apply Forall_cons; split; [split; [valid_call_t | done]|]). by apply Forall_nil.
  - by left.
  - exact I.
  - exists s'. split; [exact E|]. cbn [appended stderr_laws] in Happ. rewrite Happ. vm_compute. reflexivity.
Defined.
