(* ===== verification/Mains.v ===== *)
(** * The main programs of examples/

    Each fills a [ServerConfig], chooses where the log goes, and serves.  The echo
    server's program is followed through the whole server. *)

From S2P Require Import Prelude CxxStd DateTime Channel InetAddress TcpConn TcpConnInv TcpStream Acceptor PQueue TimerQueue TimerSafe.
From S2P Require IOWorker ThreadPool SslContext Logger.
From S2P Require Import TcpServer ServerStop EchoServer.
Local Open Scope Z_scope.

#[local] Existing Instances IOWorker.LoopPc_eq_dec ThreadPool.Pc_eq_dec.

(** [new StderrAppender], or [new AsyncFileAppender] of a path, started. *)
Inductive LogTarget := ToStderr | ToFile (path : list byte).

(** What a main program sets up before [Serve].  [use_ssl] of the two parts of the
    configuration is one member of the source. *)
Record Setup := mkSetup {
  setup_log : LogTarget;
  setup_level : Logger.LogLevel;
  setup_config : ServerConfig;
  setup_ssl : SslContext.SslConfig;
}.

Definition EchoServer_main : Setup :=
  mkSetup ToStderr Logger.kDebug (mkConfig (bytes "127.0.0.1") 8080 false 1 1 0) SslContext.SslConfig_init.
Definition TimerServer_main : Setup :=
  mkSetup ToStderr Logger.kDebug (mkConfig (bytes "127.0.0.1") 8080 false 1 1 0) SslContext.SslConfig_init.
(** No thread in the pool. *)
Definition DemoHttpServer_main : Setup :=
  mkSetup (ToFile (bytes "app.log")) Logger.kInfo (mkConfig (bytes "127.0.0.1") 8443 true 1 0 0)
    (SslContext.mkSslConfig true true true (bytes "./pem/cert.pem") (bytes "./pem/key.pem")).
Definition DemoWebsocketServer_main : Setup :=
  mkSetup ToStderr Logger.kDebug (mkConfig (bytes "127.0.0.1") 8080 true 1 1 0)
    (SslContext.mkSslConfig true true true (bytes "./pem/cert.pem") (bytes "./pem/key.pem")).

(** What [DemoHttpServer::Monitor] prints after its sleep. *)
Definition DemoHttpServer_Monitor {Any Q QP} `{MaxQueue waiting Q} `{MaxQueue ThreadPool.pending QP} (s : TcpServer Any Q QP) : list byte :=
  Monitor_text s ++ [Byte.x0a].

Lemma setups_agree :
  Forall (fun m => use_ssl (setup_config m) = SslContext.use_ssl (setup_ssl m))
    [EchoServer_main; TimerServer_main; DemoHttpServer_main; DemoWebsocketServer_main].
Proof. repeat constructor. Qed.

(** ** Where the workers of a server listen *)

Section listen.
Context {Any Q QP : Type} `{HQ : MaxQueueLaws waiting Q TimerCmp} `{HQP : MaxQueueLaws ThreadPool.pending QP ThreadPool.TaskCmp}.
Context (OnTcpConnected OnTcpDisconnected OnTcpReceivedData : ptr -> DateTime -> Worker Any -> outcome (Worker Any)).
Context (limiter : option TcpRateLimiterConfig) (reserved : nat -> Z).
Context (sys : nat -> Kernel Any) (accepting : nat -> Worker Any -> IOWorker.incoming) (clock : nat -> nat -> DateTime).
Context (run_task : nat -> nat -> TimerQueue Q (Worker Any) -> outcome (TimerQueue Q (Worker Any))).
Context (run_stop : nat -> nat -> TimerQueue Q (Worker Any) -> outcome (bool * TimerQueue Q (Worker Any))).
Implicit Types s : TcpServer Any Q QP.

Abbreviation exec := (server_exec OnTcpConnected OnTcpDisconnected OnTcpReceivedData limiter reserved sys accepting clock run_task run_stop).
Abbreviation step := (server_step OnTcpConnected OnTcpDisconnected OnTcpReceivedData limiter reserved sys accepting clock run_task run_stop).

(** Every worker listens on the address of the configuration. *)
Definition all_listen (a : InetAddress) s : Prop :=
  serve_addr (config s) = a
  /\ forall i w, worker_set s !! i = Some w -> listen_addr (IOWorker.acceptor w) = a.

Lemma all_listen_insert a i w w' s :
  all_listen a s -> worker_set s !! i = Some w -> listen_addr (IOWorker.acceptor w') = listen_addr (IOWorker.acceptor w) ->
  all_listen a (store_worker i w' s).
Proof.
  intros [Hc Hl] Hi E. split; [done|]. cbn. intros j u. rewrite list_lookup_insert_Some.
  intros [(<- & <- & _)|[_ Hj]]; [rewrite E|]; eauto.
Qed.

Lemma all_listen_step a b s s' : all_listen b s -> exec a s = Some (Ret s') -> all_listen b s'.
Proof.
  intros Hs E. pose proof Hs as [Hc Hl]. destruct a as [| |i a|a|]; cbn [server_exec] in E.
  - destruct (main_step reserved s) as [s1|] eqn:Em; [|done]. injection E as <-. unfold main_step in Em.
    destruct (main_pc s) as [| | | | | | |i| |] eqn:Hpc; try done; try (destruct (pool_exited _); [|done]);
      try (destruct (workers_exited _); [|done]); injection Em as <-; try done.
    + destruct (_ <? _)%nat; [|done]. split; [done|]. cbn. intros j u [Hj|[_ Hj]]%lookup_app_Some; [eauto|].
      by apply list_lookup_singleton_Some in Hj as [_ <-].
    + destruct (worker_set s !! i) as [w|] eqn:Hi; [|done]. exact (all_listen_insert b i w (IOWorker.Stop w) s Hs Hi eq_refl).
  - destruct (handler_set s); [|done]. by injection E as <-.
  - destruct (worker_set s !! i) as [w|] eqn:Hi; [|done]. destruct (worker_public a); [|done].
    destruct (worker_exec _ _ _ _ _ _ _ _ _ i a _) as [[w'|]|] eqn:Ew; [|done..]. injection E as <-.
    apply (all_listen_insert b i w w' s Hs Hi). by apply IOWorker.loop_exec_control in Ew as (_ & _ & ->).
  - destruct (pool_public a); [|done]. destruct (ThreadPool.exec a (thread_pool s)) as [[p|]|]; [|done..]. by injection E as <-.
  - by injection E as <-.
Qed.

Lemma reachable_listen cfg stopped s : rtc step (TcpServer_init cfg stopped) s -> all_listen (serve_addr cfg) s.
Proof.
  intros Hsteps. assert (Hinit : all_listen (serve_addr cfg) (TcpServer_init cfg stopped : TcpServer Any Q QP)) by (by split).
  induction Hsteps as [s|s s1 s2 Hstep _ IH]; [done|]. apply IH. destruct Hstep as [a s s1 _ E]. by eapply all_listen_step.
Qed.
End listen.

(** ** The program of the echo server *)

Section echo_main.
Context {Any Q QP : Type} `{HQ : MaxQueueLaws waiting Q TimerCmp} `{HQP : MaxQueueLaws ThreadPool.pending QP ThreadPool.TaskCmp}.
Context (reserved : nat -> Z) (sys : nat -> Kernel Any) (accepting : nat -> Worker Any -> IOWorker.incoming) (clock : nat -> nat -> DateTime).
Context (Hsys : forall i, kernel_ok (sys i)) (Haccepting : forall i, IOWorker.accepting_ok (accepting i)).
Context (Hclock : forall i n, 0 <= clock i n < 2 ^ 62).

(** The program hands out no timers. *)
Definition no_task (i f : nat) (s : TimerQueue Q (Worker Any)) : outcome (TimerQueue Q (Worker Any)) := Ret s.
Definition no_stop (i f : nat) (s : TimerQueue Q (Worker Any)) : outcome (bool * TimerQueue Q (Worker Any)) := Ret (true, s).

Abbreviation in_echo F :=
  (F default_OnTcpConnected default_OnTcpDisconnected echo None reserved sys accepting clock no_task no_stop).
Implicit Types s : TcpServer Any Q QP.

Lemma echo_env : server_env_ok default_OnTcpConnected default_OnTcpDisconnected echo None sys accepting clock no_task no_stop.
Proof.
  split; try done.
  - apply user_ok_ret.
  - apply user_ok_ret.
  - apply echo_ok.
  - by left.
  - intros i. split; [by intros f F s Hs; exists s|by intros f F s Hs; exists true, s].
  - intros i. split; [by intros f s s' [= <-]|by intros f s b s' [= _ <-]].
Qed.

(** C16: the program of the echo server.  In every interleaving of its main thread,
    its worker with any clients, its pool and signals: the one worker listens on
    127.0.0.1:8080; until a signal comes no action that the environment may do
    ([server_action_ok]) is a fault; and when the main thread has seen the signal,
    the clients have gone, the worker is between two turns and the pool's thread
    is not just going to sleep, it sets out on a stop: in whatever order the
    server's own threads go on, as long as nothing more comes from outside (no
    client, submission or second signal), they meet no fault, take at most 16
    steps and five for each pending task, and end with the return of [Serve],
    and with it of [main]. *)
Theorem echo_main s :
  rtc (in_echo server_step) (TcpServer_init (setup_config EchoServer_main) false) s ->
  (forall i w, worker_set s !! i = Some w -> i = 0%nat /\ GetHost (listen_addr (IOWorker.acceptor w)) = bytes "127.0.0.1:8080")
  /\ (stop_all_server s = false -> forall a f, server_action_ok clock no_task no_stop a s -> in_echo server_exec a s <> Some (Throw f))
  /\ (main_pc s = StopPool -> ThreadPool.workers (thread_pool s) !! 0%nat <> Some ThreadPool.ToSleep ->
       (forall i w, worker_set s !! i = Some w -> conn_set (IOWorker.tcp_conns w) = ∅ /\ between_turns w) ->
       exists s1, in_echo server_exec MainStep s = Some (Ret s1)
         /\ forall n s', nsteps (in_echo quiet_step) n s1 s' ->
              (n <= 5 * GetPendingTasks s + 16)%nat
              /\ (forall a f, quiet_action a s' -> in_echo server_exec a s' <> Some (Throw f))
              /\ ((forall a, quiet_action a s' -> in_echo server_exec a s' = None) -> main_pc s' = Served)).
Proof.
  intros Hr. pose proof (in_echo reachable_server echo_env (setup_config EchoServer_main) false s eq_refl Hr) as Hwf.
  pose proof (in_echo reachable_threads echo_env (setup_config EchoServer_main) false s Hr) as Hth. pose proof (in_echo reachable_listen (setup_config EchoServer_main) false s Hr) as [_ Hl].
  assert (Hlen : (length (worker_set s) <= 1)%nat) by (pose proof (sv_most sys s Hwf) as Hn; by rewrite (pt_config _ s Hth) in Hn).
  split_and!.
  - intros i w Hi. pose proof (lookup_lt_Some _ _ _ Hi). split; [lia|]. rewrite (Hl i w Hi). vm_compute. reflexivity.
  - intros Hsig a f Ha E. pose proof (in_echo server_exec_ok echo_env a s Hwf Ha) as Hok. rewrite E in Hok.
    destruct Hok as [Hst _]. congruence.
  - intros Hm Hpc Hq. destruct (in_echo stop_main s Hwf) as (s1 & E & Hs1 & Hle); [|done..|].
    { intros i Hi%(pt_dom _ s Hth). exact Hi. }
    exists s1. split; [done|]. intros n s' Hn. destruct (in_echo server_stopping_run echo_env s1 n s' Hs1 Hn) as (Hn' & Hrest).
    split; [unfold stop_bound in Hle; lia|done].
Qed.
End echo_main.

(** ** A run of the program *)

Section example.
Abbreviation TestServer := (TcpServer unit (list_queue TimerCmp) (list_queue ThreadPool.TaskCmp)).
Abbreviation in_test F :=
  (F (fun i => Z.of_nat i + 3) (fun _ => test_kernel (Any := unit) (bytes "ping") 0)
     (fun _ => IOWorker.next_client) (fun _ => IOWorker.visit_clock)).
Abbreviation test_exec :=
  (server_exec default_OnTcpConnected default_OnTcpDisconnected echo None (fun i => Z.of_nat i + 3)
     (fun _ => test_kernel (bytes "ping") 0) (fun _ => IOWorker.next_client) (fun _ => IOWorker.visit_clock) no_task no_stop).
Abbreviation test_quiet :=
  (quiet_step default_OnTcpConnected default_OnTcpDisconnected echo None (fun i => Z.of_nat i + 3)
     (fun _ => test_kernel (bytes "ping") 0) (fun _ => IOWorker.next_client) (fun _ => IOWorker.visit_clock) no_task no_stop).

(** A client connects, sends "ping", is answered and leaves; then a signal comes. *)
Definition served_client : list server_action :=
  replicate 4 MainStep
  ++ [PoolAct (ThreadPool.ActWorker 0);
      WorkerAct 0 IOWorker.ActStep; WorkerAct 0 (IOWorker.ActPolled [IOWorker.ReadyAcceptor EPOLLIN] 0);
      WorkerAct 0 IOWorker.ActStep; WorkerAct 0 IOWorker.ActStep; WorkerAct 0 (IOWorker.ActPolled [IOWorker.ReadyConn (mkEpollEvent EPOLLIN (Some 0))] 1);
      WorkerAct 0 IOWorker.ActStep; WorkerAct 0 IOWorker.ActStep; WorkerAct 0 (IOWorker.ActPolled [IOWorker.ReadyConn (mkEpollEvent EPOLLOUT (Some 0))] 2);
      WorkerAct 0 IOWorker.ActStep; WorkerAct 0 IOWorker.ActStep; WorkerAct 0 (IOWorker.ActPolled [IOWorker.ReadyConn (mkEpollEvent EPOLLHUP (Some 0))] 3); WorkerAct 0 IOWorker.ActStep;
      Signal; MainStep].

Lemma echo_main_witness :
  exists s : TestServer, run_schedule test_exec served_client (TcpServer_init (setup_config EchoServer_main) false) = Some s
    /\ main_pc s = StopPool /\ length (worker_set s) = 1%nat
    /\ (forall i w, worker_set s !! i = Some w -> i = 0%nat /\ GetHost (listen_addr (IOWorker.acceptor w)) = bytes "127.0.0.1:8080")
    /\ exists s1, test_exec MainStep s = Some (Ret s1)
       /\ forall n s', nsteps test_quiet n s1 s' ->
            (n <= 16)%nat
            /\ (forall a f, quiet_action a s' -> test_exec a s' <> Some (Throw f))
            /\ ((forall a, quiet_action a s' -> test_exec a s' = None) -> main_pc s' = Served).
Proof.
  assert (Hr : (fun s : TestServer => (main_pc s, GetPendingTasks s, ThreadPool.workers (thread_pool s),
                 map (fun w => (bool_decide (conn_set (IOWorker.tcp_conns w) = ∅), IOWorker.loop_pc w)) (worker_set s)))
               <$> run_schedule test_exec served_client (TcpServer_init (setup_config EchoServer_main) false)
               = Some (StopPool, 0%nat, {[0%nat := ThreadPool.AtWait]}, [(true, IOWorker.AtTest)])) by (vm_compute; reflexivity).
  destruct (run_schedule test_exec served_client _) as [s|] eqn:E; [|done]. injection Hr as Hm Hp Hw Hc. exists s.
  assert (Hlen : length (worker_set s) = 1%nat) by (apply (f_equal length) in Hc; by rewrite length_map in Hc).
  destruct (in_test echo_main (fun _ => test_kernel_ok _ _) (fun _ => IOWorker.next_client_ok) (fun _ => IOWorker.visit_clock_range) s
    (run_schedule_steps _ _ _ _ _ _ _ _ _ _ _ _ _ E)) as (Hl & _ & Hstop).
  split; [done|]. split; [exact Hm|]. split; [exact Hlen|]. split; [exact Hl|].
  destruct Hstop as (s1 & E1 & Hend); [exact Hm| | |].
  - rewrite Hw. by rewrite lookup_singleton_eq.
  - intros i w Hi. apply (f_equal (fun l => l !! i)) in Hc. rewrite list_lookup_fmap, Hi in Hc. cbn in Hc.
    destruct i as [|i]; [|done]. injection Hc as Hc Hpc. split; [by apply bool_decide_eq_true in Hc | by left].
  - exists s1. split; [exact E1|]. intros n s' Hn. destruct (Hend n s' Hn) as (Hle & Hf & Hs). rewrite Hp in Hle. by split_and!.
Defined.
End example.
